(** * RTEmsg: shallow embedding of the decoder core

    The development follows the C sources of RTEmsg (print_helper.c,
    utf8_helpers.c, decoder.c, print_message.c, parse_fmt_string.c, format.c,
    timestamp.h, process_bin_data.c).
    Unsigned 32-bit values are integers of [Z] with the wrap-around written
    out, arrays are lists read with [!!] and written with [<[ i := x ]>], C
    strings are lists of bytes, and every function takes the part of the
    global [g_msg] it touches as an explicit state. *)

From Stdlib Require Import ZArith Lia List Bool Floats.
From stdpp Require Import base list.

Open Scope Z_scope.

(** ** Machine integers *)

Definition wrap32 (z : Z) : Z := z mod 2 ^ 32.
Definition wrap64 (z : Z) : Z := z mod 2 ^ 64.

Lemma wrap32_range z : 0 <= wrap32 z < 2 ^ 32.
Proof. unfold wrap32. apply Z.mod_pos_bound. lia. Qed.

Lemma wrap32_small z : 0 <= z < 2 ^ 32 -> wrap32 z = z.
Proof. intros H. unfold wrap32. apply Z.mod_small. exact H. Qed.

(** Boolean tests of the C conditions, turned into propositions. *)
Ltac zbool :=
  repeat match goal with
  | H : andb _ _ = true |- _ => apply andb_true_iff in H; destruct H
  | H : orb _ _ = false |- _ => apply orb_false_iff in H; destruct H
  | H : negb _ = true |- _ => apply negb_true_iff in H
  | H : negb _ = false |- _ => apply negb_false_iff in H
  | H : (_ <? _) = true |- _ => apply Z.ltb_lt in H
  | H : (_ <? _) = false |- _ => apply Z.ltb_ge in H
  | H : (_ <=? _) = true |- _ => apply Z.leb_le in H
  | H : (_ <=? _) = false |- _ => apply Z.leb_gt in H
  | H : (_ >=? _) = true |- _ => apply Z.geb_le in H
  | H : (_ >=? _) = false |- _ => rewrite Z.geb_leb in H; apply Z.leb_gt in H
  | H : (_ >? _) = true |- _ => apply Z.gtb_lt in H
  | H : (_ >? _) = false |- _ => rewrite Z.gtb_ltb in H; apply Z.ltb_ge in H
  | H : (_ =? _) = true |- _ => apply Z.eqb_eq in H
  | H : (_ =? _) = false |- _ => apply Z.eqb_neq in H
  end.

(** [a[i]] for an array of integers; the C sources never read these arrays
    out of range on the paths studied here, the default only makes the model
    total. *)
Definition word_at (a : list Z) (i : Z) : Z :=
  if i <? 0 then 0 else default 0 (a !! Z.to_nat i).

(** ** Constants of rtemsg_config.h *)

Definition MAX_FMT_ID_BITS : Z := 16.
Definition MAX_FMT_IDS : Z := 2 ^ MAX_FMT_ID_BITS.
Definition NUMBER_OF_FILTER_BITS : Z := 32.
Definition MAX_ERRORS_IN_SINGLE_MESSAGE : Z := 10.
Definition MAX_SHORTENED_STRING : Z := 80.
Definition MAX_RAW_DATA_SIZE : Z := 256.
Definition MAX_ENUMS : Z := 2000.
Definition NORMALIZED_TSTAMP_PERIOD : Z := 0x100000000.
Definition FIRST_FATAL_ERROR : Z := 30.

(** The two values of messages.h that main.c pins with [static_assert]. *)
Definition FIRST_ERROR : Z := 100.
Definition ERR_PARSE_UNKNOWN : Z := 200.

(** The remaining error codes are those of messages.h; the functions depend
    on them only through the comparisons written out below, and they are
    parameters of the development. *)
Class messages_h := {
  TOTAL_ERRORS : Z;
  FATAL_LAST : Z;
  ERR_DECODE_UNKNOWN_ERROR : Z;
  ERR_INTERNAL_ERROR : Z;
  ERR_DECODE_VALUE_SIZE_TOO_LARGE : Z;
  ERR_DECODE_VALUE_NOT_IN_MESSAGE : Z;
  ERR_MSGX_SIZE_EMPTY : Z;
  ERR_MSGX_SIZE_TOO_LARGE : Z;
  ERR_MSGX_SIZE_TOO_SMALL : Z;
  ERR_MSGX_CORRUPTED : Z
}.

(** One assignment of the codes, on which the model is run in the examples;
    it respects the two pinned values. *)
Definition messages_example : messages_h := {|
  TOTAL_ERRORS := 260;
  FATAL_LAST := 99;
  ERR_DECODE_UNKNOWN_ERROR := 100;
  ERR_INTERNAL_ERROR := 101;
  ERR_DECODE_VALUE_SIZE_TOO_LARGE := 110;
  ERR_DECODE_VALUE_NOT_IN_MESSAGE := 111;
  ERR_MSGX_SIZE_EMPTY := 120;
  ERR_MSGX_SIZE_TOO_LARGE := 121;
  ERR_MSGX_SIZE_TOO_SMALL := 122;
  ERR_MSGX_CORRUPTED := 123
|}.

(** Internal error numbers of errors.h ([enum internal_errors_t]). *)
Definition INT_SET_MEMO_OUT_OF_RANGE : Z := 1.
Definition INT_GET_MEMO_OUT_OF_RANGE : Z := 2.
Definition INT_SET_MEMO_TYPE_IS_NOT_MEMO : Z := 3.
Definition INT_GET_MEMO_TYPE_IS_NOT_MEMO : Z := 4.
Definition INT_DECODE_Y_TYPE_STRING : Z := 14.
Definition INT_DECODE_Y_TYPE_STRING_NULL : Z := 15.

(** ** print_helper.c: the per-message error log *)

Module Errors.

(** [error_log_t]; [fmt_text] is a pointer to a C string, [None] is NULL. *)
Record error_log_t := mk_error_log {
  error_number : Z;
  value_number : Z;
  data1 : Z;
  data2 : Z;
  fmt_text : option (list Z)
}.

(** The error fields of [g_msg]. *)
Record err_state := mk_err_state {
  total_errors : Z;
  error_counter : list Z;
  error_log : list error_log_t;
  msg_error_counter : Z;
  error_value_no : Z
}.

Section with_messages.
Context {M : messages_h}.

Definition normalize_err_no (err_no : Z) : Z :=
  if (err_no <? FIRST_ERROR) || (err_no >=? ERR_PARSE_UNKNOWN)
  then ERR_DECODE_UNKNOWN_ERROR
  else err_no.

Definition save_decoding_error (err_no d1 d2 : Z) (text : option (list Z))
    (st : err_state) : err_state :=
  let err_no := normalize_err_no err_no in
  let total := wrap32 (total_errors st + 1) in
  let counters :=
    alter (fun c => wrap32 (c + 1)) (Z.to_nat err_no) (error_counter st) in
  if msg_error_counter st >=? MAX_ERRORS_IN_SINGLE_MESSAGE then
    mk_err_state total counters (error_log st) (msg_error_counter st)
      (error_value_no st)
  else
    mk_err_state total counters
      (<[Z.to_nat (msg_error_counter st) :=
           mk_error_log err_no (error_value_no st) d1 d2 text]> (error_log st))
      (wrap32 (msg_error_counter st + 1))
      (error_value_no st).

Definition save_internal_decoding_error (sys_error d2 : Z) (st : err_state)
    : err_state :=
  save_decoding_error ERR_INTERNAL_ERROR sys_error d2 (Some []) st.

(** [strip_newlines_and_shorten_string]: the text shown in a report.  [char]
    is signed with the compiler the sources require (MSVC, 64-bit), so the
    test [c < ' '] also holds for the bytes from 0x80 on. *)
Definition strip_char (c spec_char : Z) : Z :=
  let c := if (if c >=? 128 then c - 256 else c) <? 32 then 126 else c in
  if c =? spec_char then 39 else c.

Fixpoint strip_copy (n : nat) (text : list Z) (spec_char : Z) : list Z :=
  match n, text with
  | S n', c :: rest =>
      if c =? 0 then [] else strip_char c spec_char :: strip_copy n' rest spec_char
  | _, _ => []
  end.

Definition strip_newlines_and_shorten_string (text : option (list Z))
    (spec_char : Z) : list Z :=
  match text with
  | None => [63]
  | Some t =>
      let out := strip_copy (Z.to_nat (MAX_SHORTENED_STRING - 4)) t spec_char in
      if Z.of_nat (length out) =? MAX_SHORTENED_STRING - 4
      then out ++ [46; 46; 46]
      else out
  end.

(** The two logs, and what the report of decoding errors writes to them: the
    heading with the message number, the notice that only the first errors
    are shown, and one line for each error of the log. *)
Inductive file_t := MAIN_LOG | ERROR_LOG.

Inductive out_event :=
| ev_errors_found (f : file_t) (msg_no : Z)
| ev_too_many (f : file_t)
| ev_raw_error (f : file_t) (value_no err_no d1 d2 : Z)
| ev_error (f : file_t) (value_no : Z) (snippet : list Z) (err_no d1 d2 : Z).

Definition print_one_error (f : file_t) (e : error_log_t) : out_event :=
  let text := strip_newlines_and_shorten_string (fmt_text e) 0 in
  let err_no := normalize_err_no (error_number e) in
  match text with
  | [] => ev_raw_error f (value_number e) err_no (data1 e) (data2 e)
  | _ => ev_error f (value_number e) text err_no (data1 e) (data2 e)
  end.

Definition set_msg_error_counter (n : Z) (st : err_state) : err_state :=
  mk_err_state (total_errors st) (error_counter st) (error_log st) n
    (error_value_no st).

Definition set_error_value_no (n : Z) (st : err_state) : err_state :=
  mk_err_state (total_errors st) (error_counter st) (error_log st)
    (msg_error_counter st) n.

Definition print_decoding_errors_to_file (out : option file_t) (message_cnt : Z)
    (st : err_state) : err_state * list out_event :=
  match out with
  | None => (st, [])
  | Some f =>
      let too_many := msg_error_counter st >=? MAX_ERRORS_IN_SINGLE_MESSAGE in
      let st' :=
        if too_many then set_msg_error_counter MAX_ERRORS_IN_SINGLE_MESSAGE st
        else st in
      (st',
       ev_errors_found f message_cnt
       :: (if too_many then [ev_too_many f] else [])
       ++ map (print_one_error f)
            (take (Z.to_nat (msg_error_counter st')) (error_log st')))
  end.

(** [print_decoding_errors]; [main_log] and [error_log_file] tell whether the
    two [FILE] pointers are set. *)
Definition print_decoding_errors (main_log error_log_file : bool)
    (message_cnt : Z) (st : err_state) : err_state * list out_event :=
  if msg_error_counter st =? 0 then (st, [])
  else
    let '(st1, ev1) :=
      print_decoding_errors_to_file
        (if main_log then Some MAIN_LOG else None) message_cnt st in
    let '(st2, ev2) :=
      print_decoding_errors_to_file
        (if error_log_file then Some ERROR_LOG else None) message_cnt st1 in
    (st2, ev1 ++ ev2).

(** One call of [save_decoding_error] made while a value slot is processed. *)
Record raise_t := mk_raise {
  r_err_no : Z;
  r_data1 : Z;
  r_data2 : Z;
  r_text : option (list Z)
}.

Fixpoint raise_all (rs : list raise_t) (st : err_state) : err_state :=
  match rs with
  | [] => st
  | r :: rest =>
      raise_all rest
        (save_decoding_error (r_err_no r) (r_data1 r) (r_data2 r) (r_text r) st)
  end.

(** *** The error log of a message

    One turn of the value loop of [print_message], seen from the error log:
    the errors raised before [error_value_no] is incremented (by
    [get_out_file]), whether the slot is plain text and so not counted as a
    value, and the errors raised after the increment (by
    [print_single_value]).  [PrintMessage] shows that the loop changes the
    error state in this way and no other. *)
Record slot_run := mk_slot_run {
  out_file_errors : list raise_t;
  is_plain_text : bool;
  value_errors : list raise_t
}.

Definition raise_slot (s : slot_run) (st : err_state) : err_state :=
  let st1 := raise_all (out_file_errors s) st in
  let st2 :=
    if is_plain_text s then st1
    else set_error_value_no (wrap32 (error_value_no st1 + 1)) st1 in
  raise_all (value_errors s) st2.

Fixpoint raise_slots (slots : list slot_run) (st : err_state) : err_state :=
  match slots with
  | [] => st
  | s :: rest => raise_slots rest (raise_slot s st)
  end.

(** The errors of a message in the order raised, each with the value number
    current when it is raised. *)
Fixpoint stamped (slots : list slot_run) (vn : Z) : list (raise_t * Z) :=
  match slots with
  | [] => []
  | s :: rest =>
      let vn' := if is_plain_text s then vn else wrap32 (vn + 1) in
      map (fun r => (r, vn)) (out_file_errors s)
      ++ map (fun r => (r, vn')) (value_errors s)
      ++ stamped rest vn'
  end.

(** The entry of the log that holds an error: the code is stored
    normalised. *)
Definition log_entry (rv : raise_t * Z) : error_log_t :=
  mk_error_log (normalize_err_no (r_err_no (fst rv))) (snd rv)
    (r_data1 (fst rv)) (r_data2 (fst rv)) (r_text (fst rv)).

Definition save_stamped (st : err_state) (rv : raise_t * Z) : err_state :=
  save_decoding_error (r_err_no (fst rv)) (r_data1 (fst rv)) (r_data2 (fst rv))
    (r_text (fst rv)) (set_error_value_no (snd rv) st).

Definition log_errors (rvs : list (raise_t * Z)) (st : err_state) : err_state :=
  fold_left save_stamped rvs st.

Fixpoint final_value_no (slots : list slot_run) (vn : Z) : Z :=
  match slots with
  | [] => vn
  | s :: rest =>
      final_value_no rest (if is_plain_text s then vn else wrap32 (vn + 1))
  end.

(** How many of the errors count under code [c]. *)
Definition count_code (c : nat) (rvs : list (raise_t * Z)) : Z :=
  Z.of_nat (length (filter
    (fun rv => Z.to_nat (normalize_err_no (r_err_no (fst rv))) = c) rvs)).

(** The line of the report that shows an error raised as [fst rv] while the
    value number was [snd rv]: the value number, the code, the two data
    values and, unless it is empty, the format text made printable. *)
Inductive reported_as (f : file_t) (rv : raise_t * Z) : out_event -> Prop :=
| reported_raw :
    strip_newlines_and_shorten_string (r_text (fst rv)) 0 = [] ->
    reported_as f rv
      (ev_raw_error f (snd rv) (normalize_err_no (r_err_no (fst rv)))
         (r_data1 (fst rv)) (r_data2 (fst rv)))
| reported_with_text snippet :
    strip_newlines_and_shorten_string (r_text (fst rv)) 0 = snippet ->
    snippet <> [] ->
    reported_as f rv
      (ev_error f (snd rv) snippet (normalize_err_no (r_err_no (fst rv)))
         (r_data1 (fst rv)) (r_data2 (fst rv))).

Lemma lookup_map {A B} (f : A -> B) (l : list A) (i : nat) :
  map f l !! i = f <$> l !! i.
Proof.
  revert i. induction l as [|x l IH]; intros [|i]; simpl; try reflexivity.
  apply IH.
Qed.

Lemma wrap32_add_l a b : wrap32 (wrap32 a + b) = wrap32 (a + b).
Proof. unfold wrap32. apply Zplus_mod_idemp_l. Qed.

Lemma set_error_value_no_same st : set_error_value_no (error_value_no st) st = st.
Proof. destruct st; reflexivity. Qed.

Lemma set_msg_error_counter_same st :
  set_msg_error_counter (msg_error_counter st) st = st.
Proof. destruct st; reflexivity. Qed.

Lemma save_keeps_value_no e d1 d2 t st :
  error_value_no (save_decoding_error e d1 d2 t st) = error_value_no st.
Proof.
  unfold save_decoding_error.
  destruct (msg_error_counter st >=? MAX_ERRORS_IN_SINGLE_MESSAGE); reflexivity.
Qed.

Lemma save_stamped_forgets x st rv :
  save_stamped (set_error_value_no x st) rv = save_stamped st rv.
Proof. reflexivity. Qed.

Lemma log_errors_forgets x y rvs st :
  set_error_value_no y (log_errors rvs (set_error_value_no x st))
  = set_error_value_no y (log_errors rvs st).
Proof. destruct rvs as [|rv rvs]; reflexivity. Qed.

Lemma log_errors_app a b st :
  log_errors (a ++ b) st = log_errors b (log_errors a st).
Proof. apply fold_left_app. Qed.

Lemma raise_all_log_errors rs st :
  raise_all rs st
  = set_error_value_no (error_value_no st)
      (log_errors (map (fun r => (r, error_value_no st)) rs) st).
Proof.
  revert st. induction rs as [|r rs IH]; intros st.
  - simpl. symmetry. apply set_error_value_no_same.
  - simpl. rewrite IH, save_keeps_value_no.
    unfold log_errors at 2. simpl. unfold save_stamped at 2. simpl.
    rewrite set_error_value_no_same. reflexivity.
Qed.

Lemma raise_slots_state slots st :
  raise_slots slots st
  = set_error_value_no (final_value_no slots (error_value_no st))
      (log_errors (stamped slots (error_value_no st)) st).
Proof.
  revert st. induction slots as [|s rest IH]; intros st; simpl.
  - symmetry. apply set_error_value_no_same.
  - unfold raise_slot.
    set (vn := error_value_no st).
    set (vn' := if is_plain_text s then vn else wrap32 (vn + 1)).
    set (st1 := raise_all (out_file_errors s) st).
    assert (Hvn1 : error_value_no st1 = vn).
    { unfold st1. rewrite raise_all_log_errors. reflexivity. }
    set (st2 := if is_plain_text s then st1
                else set_error_value_no (wrap32 (error_value_no st1 + 1)) st1).
    assert (Hst2 : st2 = set_error_value_no vn' st1).
    { unfold st2, vn'. destruct (is_plain_text s).
      - rewrite <- Hvn1. symmetry. apply set_error_value_no_same.
      - rewrite Hvn1. reflexivity. }
    set (st3 := raise_all (value_errors s) st2).
    rewrite (IH st3). clear IH.
    assert (Hst3 : st3 = set_error_value_no vn'
      (log_errors (map (fun r => (r, vn)) (out_file_errors s)
                   ++ map (fun r => (r, vn')) (value_errors s)) st)).
    { unfold st3. rewrite raise_all_log_errors. rewrite Hst2. simpl.
      rewrite log_errors_forgets. unfold st1. rewrite raise_all_log_errors.
      fold vn. rewrite log_errors_forgets. rewrite log_errors_app. reflexivity. }
    rewrite Hst3. simpl. rewrite log_errors_forgets.
    rewrite <- log_errors_app, <- app_assoc. reflexivity.
Qed.

Lemma log_errors_total rvs st :
  0 <= total_errors st < 2 ^ 32 ->
  total_errors (log_errors rvs st)
  = wrap32 (total_errors st + Z.of_nat (length rvs)).
Proof.
  revert st. induction rvs as [|rv rvs IH]; intros st Hr.
  - simpl. rewrite Z.add_0_r. symmetry. apply wrap32_small. exact Hr.
  - unfold log_errors. simpl. fold (log_errors rvs (save_stamped st rv)).
    assert (Ht : total_errors (save_stamped st rv) = wrap32 (total_errors st + 1)).
    { unfold save_stamped, save_decoding_error. simpl.
      destruct (msg_error_counter st >=? MAX_ERRORS_IN_SINGLE_MESSAGE); reflexivity. }
    rewrite IH; rewrite Ht; [|apply wrap32_range].
    rewrite wrap32_add_l. f_equal. lia.
Qed.

Lemma save_stamped_counter st rv c :
  error_counter (save_stamped st rv) !! c
  = (if decide (Z.to_nat (normalize_err_no (r_err_no (fst rv))) = c)
     then (fun v => wrap32 (v + 1)) <$> error_counter st !! c
     else error_counter st !! c).
Proof.
  assert (Hc : error_counter (save_stamped st rv)
    = alter (fun v => wrap32 (v + 1))
        (Z.to_nat (normalize_err_no (r_err_no (fst rv)))) (error_counter st)).
  { unfold save_stamped, save_decoding_error. simpl.
    destruct (msg_error_counter st >=? MAX_ERRORS_IN_SINGLE_MESSAGE); reflexivity. }
  rewrite Hc, list_lookup_alter.
  destruct (decide (Z.to_nat (normalize_err_no (r_err_no (fst rv))) = c))
    as [->|]; reflexivity.
Qed.

Lemma log_errors_counter rvs st c v :
  0 <= v < 2 ^ 32 ->
  error_counter st !! c = Some v ->
  error_counter (log_errors rvs st) !! c = Some (wrap32 (v + count_code c rvs)).
Proof.
  revert st v. induction rvs as [|rv rvs IH]; intros st v Hv Hc.
  - simpl. unfold count_code. simpl. rewrite Z.add_0_r, wrap32_small; assumption.
  - unfold log_errors. simpl. fold (log_errors rvs (save_stamped st rv)).
    unfold count_code. simpl.
    pose proof (save_stamped_counter st rv c) as Hs. rewrite Hc in Hs.
    destruct (decide (Z.to_nat (normalize_err_no (r_err_no (fst rv))) = c)) as [E|E].
    + simpl in Hs. rewrite (IH _ _ (wrap32_range _) Hs).
      rewrite wrap32_add_l. f_equal. f_equal.
      rewrite filter_cons_True by exact E. simpl length.
      unfold count_code. lia.
    + rewrite (IH _ _ Hv Hs). f_equal. f_equal.
      rewrite filter_cons_False by exact E. reflexivity.
Qed.

Lemma log_errors_counter_length rvs st :
  length (error_counter (log_errors rvs st)) = length (error_counter st).
Proof.
  revert st. induction rvs as [|rv rvs IH]; intros st; [reflexivity|].
  unfold log_errors. simpl. fold (log_errors rvs (save_stamped st rv)).
  rewrite IH. unfold save_stamped, save_decoding_error. simpl.
  destruct (msg_error_counter st >=? MAX_ERRORS_IN_SINGLE_MESSAGE);
    simpl; apply length_alter.
Qed.

Lemma save_stamped_log st rv :
  0 <= msg_error_counter st <= MAX_ERRORS_IN_SINGLE_MESSAGE ->
  (msg_error_counter st < MAX_ERRORS_IN_SINGLE_MESSAGE ->
     msg_error_counter (save_stamped st rv) = msg_error_counter st + 1 /\
     error_log (save_stamped st rv)
     = <[Z.to_nat (msg_error_counter st) := log_entry rv]> (error_log st)) /\
  (msg_error_counter st = MAX_ERRORS_IN_SINGLE_MESSAGE ->
     msg_error_counter (save_stamped st rv) = msg_error_counter st /\
     error_log (save_stamped st rv) = error_log st).
Proof.
  intros Hm. unfold save_stamped, save_decoding_error. simpl.
  destruct (msg_error_counter st >=? MAX_ERRORS_IN_SINGLE_MESSAGE) eqn:E; zbool;
    simpl; (split; [intros Hlt | intros Heq]); try lia.
  - split; reflexivity.
  - split; [|reflexivity]. apply wrap32_small.
    unfold MAX_ERRORS_IN_SINGLE_MESSAGE in *. lia.
Qed.

Lemma log_errors_stored rvs st :
  0 <= msg_error_counter st <= MAX_ERRORS_IN_SINGLE_MESSAGE ->
  length (error_log st) = Z.to_nat MAX_ERRORS_IN_SINGLE_MESSAGE ->
  let m := Z.to_nat (msg_error_counter st) in
  let room := (Z.to_nat MAX_ERRORS_IN_SINGLE_MESSAGE - m)%nat in
  msg_error_counter (log_errors rvs st)
  = Z.min (msg_error_counter st + Z.of_nat (length rvs))
      MAX_ERRORS_IN_SINGLE_MESSAGE /\
  length (error_log (log_errors rvs st)) = length (error_log st) /\
  forall i,
    error_log (log_errors rvs st) !! i
    = (if decide (m <= i < m + length (take room rvs))%nat
       then log_entry <$> rvs !! (i - m)%nat
       else error_log st !! i).
Proof.
  revert st. induction rvs as [|rv rvs IH]; intros st Hm Hlen m room.
  - simpl. split; [lia|]. split; [reflexivity|]. intros i.
    rewrite take_nil. simpl. case_decide; [lia | reflexivity].
  - unfold log_errors. simpl fold_left. fold (log_errors rvs (save_stamped st rv)).
    destruct (save_stamped_log st rv Hm) as [Hlt Heq].
    destruct (Z.eq_dec (msg_error_counter st) MAX_ERRORS_IN_SINGLE_MESSAGE) as [E|E].
    + destruct (Heq E) as [Hc Hl].
      destruct (IH (save_stamped st rv)) as (I1 & I2 & I3).
      { rewrite Hc. exact Hm. }
      { rewrite Hl. exact Hlen. }
      rewrite I1, I2, Hc, Hl. split; [simpl length; lia|]. split; [reflexivity|].
      intros i. rewrite I3, Hc, Hl.
      assert (Hroom : room = 0%nat) by (unfold room, m; lia).
      rewrite Hroom. fold m. replace (Z.to_nat MAX_ERRORS_IN_SINGLE_MESSAGE - m)%nat
        with 0%nat by lia.
      rewrite !take_0. simpl.
      repeat case_decide; try lia; reflexivity.
    + destruct Hlt as [Hc Hl]; [lia|].
      destruct (IH (save_stamped st rv)) as (I1 & I2 & I3).
      { rewrite Hc. lia. }
      { rewrite Hl, length_insert. exact Hlen. }
      rewrite I1, I2, Hc, Hl, length_insert.
      split; [simpl length; lia|]. split; [reflexivity|].
      intros i. rewrite I3, Hc, Hl.
      replace (Z.to_nat (msg_error_counter st + 1)) with (S m) by (unfold m; lia).
      assert (Hroom : room = S (Z.to_nat MAX_ERRORS_IN_SINGLE_MESSAGE - S m))
        by (unfold room, m; lia).
      rewrite Hroom. simpl take. simpl length.
      destruct (decide (i = m)) as [->|Hne].
      * repeat case_decide; try lia.
        rewrite Nat.sub_diag. simpl.
        apply list_lookup_insert_eq. unfold m in *. lia.
      * rewrite list_lookup_insert_ne by (fold m; congruence).
        repeat case_decide; try lia.
        -- replace (i - m)%nat with (S (i - S m)) by lia. reflexivity.
        -- reflexivity.
Qed.

Lemma normalize_err_no_twice c :
  normalize_err_no (normalize_err_no c) = normalize_err_no c.
Proof.
  unfold normalize_err_no.
  destruct ((c <? FIRST_ERROR) || (c >=? ERR_PARSE_UNKNOWN)) eqn:E.
  - destruct ((ERR_DECODE_UNKNOWN_ERROR <? FIRST_ERROR)
              || (ERR_DECODE_UNKNOWN_ERROR >=? ERR_PARSE_UNKNOWN)); reflexivity.
  - rewrite E. reflexivity.
Qed.

Lemma print_one_error_reported f rv :
  reported_as f rv (print_one_error f (log_entry rv)).
Proof.
  unfold print_one_error, log_entry. cbn [fmt_text error_number value_number data1 data2].
  rewrite normalize_err_no_twice.
  destruct (strip_newlines_and_shorten_string (r_text (fst rv)) 0) eqn:E.
  - apply reported_raw. exact E.
  - rewrite <- E. apply reported_with_text; [reflexivity | rewrite E; discriminate].
Qed.

Lemma print_to_file_none message_cnt st :
  print_decoding_errors_to_file None message_cnt st = (st, []).
Proof. reflexivity. Qed.

Lemma print_to_file_report f message_cnt st :
  0 <= msg_error_counter st <= MAX_ERRORS_IN_SINGLE_MESSAGE ->
  print_decoding_errors_to_file (Some f) message_cnt st
  = (st,
     ev_errors_found f message_cnt
     :: (if MAX_ERRORS_IN_SINGLE_MESSAGE <=? msg_error_counter st
         then [ev_too_many f] else [])
     ++ map (print_one_error f)
          (take (Z.to_nat (msg_error_counter st)) (error_log st))).
Proof.
  intros Hm. unfold print_decoding_errors_to_file.
  rewrite Z.geb_leb.
  destruct (MAX_ERRORS_IN_SINGLE_MESSAGE <=? msg_error_counter st) eqn:E; zbool.
  - assert (Hten : MAX_ERRORS_IN_SINGLE_MESSAGE = msg_error_counter st) by lia.
    rewrite Hten, set_msg_error_counter_same. reflexivity.
  - reflexivity.
Qed.

(** The error state after the slots of a message: each raised error adds one
    to the total and to the counter of its normalised code, and the first
    [MAX_ERRORS_IN_SINGLE_MESSAGE] are in the log. *)
Lemma errors_after_slots (slots : list slot_run) (st : err_state) :
  length (error_log st) = Z.to_nat MAX_ERRORS_IN_SINGLE_MESSAGE ->
  0 <= total_errors st < 2 ^ 32 ->
  Forall (fun v => 0 <= v < 2 ^ 32) (error_counter st) ->
  Z.of_nat (length (error_counter st)) = TOTAL_ERRORS + 1 ->
  ERR_PARSE_UNKNOWN <= TOTAL_ERRORS + 1 ->
  0 <= ERR_DECODE_UNKNOWN_ERROR <= TOTAL_ERRORS ->
  msg_error_counter st = 0 ->
  error_value_no st = 0 ->
  let rvs := stamped slots 0 in
  let n := Z.of_nat (length rvs) in
  let stored :=
    map log_entry (take (Z.to_nat MAX_ERRORS_IN_SINGLE_MESSAGE) rvs) in
  let st' := raise_slots slots st in
  total_errors st' = wrap32 (total_errors st + n) /\
  (forall rv, In rv rvs ->
     exists v,
       error_counter st !! Z.to_nat (normalize_err_no (r_err_no (fst rv)))
       = Some v) /\
  (forall c v, error_counter st !! c = Some v ->
     error_counter st' !! c = Some (wrap32 (v + count_code c rvs))) /\
  msg_error_counter st' = Z.min n MAX_ERRORS_IN_SINGLE_MESSAGE /\
  error_log st' = stored ++ drop (length stored) (error_log st) /\
  take (Z.to_nat (msg_error_counter st')) (error_log st') = stored.
Proof.
  intros Hlen Htot Hcnt Hclen Hparse Hunk Hm0 Hv0 rvs n stored st'.
  pose proof (raise_slots_state slots st) as Hst. rewrite Hv0 in Hst.
  fold rvs st' in Hst.
  destruct (log_errors_stored rvs st) as (L1 & L2 & L3).
  { rewrite Hm0. unfold MAX_ERRORS_IN_SINGLE_MESSAGE. lia. }
  { exact Hlen. }
  rewrite Hm0 in L1, L3. simpl in L1, L2, L3. fold n in L1.
  assert (Hm1 : msg_error_counter st' = Z.min n MAX_ERRORS_IN_SINGLE_MESSAGE).
  { rewrite Hst. simpl. exact L1. }
  assert (Hl1 : error_log st' = stored ++ drop (length stored) (error_log st)).
  { rewrite Hst. simpl. apply list_eq. intros i. rewrite L3.
    unfold stored.
    change (Z.to_nat MAX_ERRORS_IN_SINGLE_MESSAGE) with 10%nat in *.
    change (Z.to_nat 0) with 0%nat in *.
    rewrite Nat.sub_0_r. case_decide as H.
    - rewrite lookup_app_l by (rewrite length_map; lia).
      rewrite lookup_map, lookup_take_lt; [reflexivity|].
      rewrite length_take in H. lia.
    - rewrite lookup_app_r by (rewrite length_map; lia).
      rewrite lookup_drop. f_equal. rewrite length_map. lia. }
  split.
  { rewrite Hst. simpl. rewrite log_errors_total; [reflexivity | exact Htot]. }
  split.
  { intros rv _. apply lookup_lt_is_Some_2.
    unfold normalize_err_no, FIRST_ERROR, ERR_PARSE_UNKNOWN in *.
    destruct ((r_err_no (fst rv) <? 100) || (r_err_no (fst rv) >=? 200)) eqn:E.
    - lia.
    - zbool. lia. }
  split.
  { intros c v Hc. rewrite Hst. simpl.
    apply (log_errors_counter rvs st c v); [|exact Hc].
    eapply Forall_lookup_1 in Hcnt; [exact Hcnt | exact Hc]. }
  split; [exact Hm1|].
  split; [exact Hl1|].
  rewrite Hl1, Hm1. apply take_app_length'.
  unfold stored. rewrite length_map, length_take. unfold n. lia.
Qed.

End with_messages.

(** *** The text shown in a report *)

Lemma strip_char_range c spec_char :
  0 <= c < 256 -> 32 <= strip_char c spec_char <= 127.
Proof.
  intros Hc. unfold strip_char.
  destruct (c >=? 128) eqn:E1; zbool.
  - destruct (c - 256 <? 32) eqn:E2; zbool; [|lia].
    destruct (126 =? spec_char); lia.
  - destruct (c <? 32) eqn:E2; zbool.
    + destruct (126 =? spec_char); lia.
    + destruct (c =? spec_char); lia.
Qed.

Lemma strip_char_not_special c spec_char :
  spec_char <> 39 -> strip_char c spec_char <> spec_char.
Proof.
  intros Hs. unfold strip_char.
  destruct (_ <? 32).
  - destruct (126 =? spec_char) eqn:E; zbool; lia.
  - destruct (c =? spec_char) eqn:E; zbool; lia.
Qed.

Lemma strip_char_clean c spec_char :
  32 <= c < 128 -> c <> spec_char -> strip_char c spec_char = c.
Proof.
  intros Hc Hs. unfold strip_char.
  destruct (c >=? 128) eqn:E1; zbool; [lia|].
  destruct (c <? 32) eqn:E2; zbool; [lia|].
  destruct (c =? spec_char) eqn:E3; zbool; [lia | reflexivity].
Qed.

Lemma strip_copy_spec n :
  forall text spec_char,
    Forall (fun c => 0 <= c < 256) text ->
    let out := strip_copy n text spec_char in
    (length out <= n)%nat /\
    Forall (fun c => 32 <= c <= 127) out /\
    (spec_char <> 39 -> Forall (fun c => c <> spec_char) out).
Proof.
  induction n as [|n IH]; intros text spec_char Hall out; subst out.
  - simpl. split; [lia|]. split; [constructor | intros; constructor].
  - destruct text as [|c rest]; simpl.
    { split; [lia|]. split; [constructor | intros; constructor]. }
    apply Forall_cons in Hall. destruct Hall as [Hc Hrest].
    destruct (c =? 0).
    { simpl. split; [lia|]. split; [constructor | intros; constructor]. }
    destruct (IH rest spec_char Hrest) as (I1 & I2 & I3). simpl.
    split; [lia|]. split.
    + constructor; [apply strip_char_range; exact Hc | exact I2].
    + intros Hs. constructor; [apply strip_char_not_special; exact Hs | auto].
Qed.

Lemma strip_copy_clean n :
  forall text spec_char,
    (length text <= n)%nat ->
    Forall (fun c => 32 <= c < 128 /\ c <> spec_char) text ->
    strip_copy n text spec_char = text.
Proof.
  induction n as [|n IH]; intros text spec_char Hlen Hall.
  - destruct text; [reflexivity | simpl in Hlen; lia].
  - destruct text as [|c rest]; [reflexivity|]. simpl in *.
    apply Forall_cons in Hall. destruct Hall as [[Hc Hs] Hrest].
    destruct (c =? 0) eqn:E; zbool; [lia|].
    rewrite strip_char_clean by assumption. f_equal. apply IH; [lia | exact Hrest].
Qed.

(** X1. The text that [strip_newlines_and_shorten_string] makes of a
    string has at most [MAX_SHORTENED_STRING - 1] characters, none below 32
    or above 127, and within its first [MAX_SHORTENED_STRING - 4] characters
    none equal to [spec_char] (unless that is the quote which replaces it).
    An input of fewer than 76 such characters is returned as it is; when 76
    characters were copied, three dots are appended. *)
Theorem shortened_string_is_clean (text : list Z) (spec_char : Z) :
  Forall (fun c => 0 <= c < 256) text ->
  let out := strip_newlines_and_shorten_string (Some text) spec_char in
  Z.of_nat (length out) <= MAX_SHORTENED_STRING - 1 /\
  Forall (fun c => 32 <= c <= 127) out /\
  (spec_char <> 39 ->
   Forall (fun c => c <> spec_char)
     (take (Z.to_nat (MAX_SHORTENED_STRING - 4)) out)) /\
  (Z.of_nat (length text) < MAX_SHORTENED_STRING - 4 ->
   Forall (fun c => 32 <= c < 128 /\ c <> spec_char) text -> out = text) /\
  (Z.of_nat (length out) = MAX_SHORTENED_STRING - 1 \/
   Z.of_nat (length out) < MAX_SHORTENED_STRING - 4).
Proof.
  intros Hall out. subst out. unfold strip_newlines_and_shorten_string.
  unfold MAX_SHORTENED_STRING. change (Z.to_nat (80 - 4)) with 76%nat.
  destruct (strip_copy_spec 76 text spec_char Hall) as (S1 & S2 & S3).
  destruct (Z.of_nat (length (strip_copy 76 text spec_char)) =? 80 - 4) eqn:E; zbool.
  - rewrite length_app. change (length [46; 46; 46]) with 3%nat.
    split; [lia|]. split.
    + apply Forall_app. split; [exact S2|]. repeat constructor; lia.
    + split.
      * intros Hs. rewrite take_app_length' by lia. apply S3. exact Hs.
      * split; [|left; lia]. intros Hlen Hclean.
        rewrite strip_copy_clean in E by (lia || assumption). lia.
  - split; [lia|]. split; [exact S2|]. split.
    + intros Hs. rewrite take_ge by lia. apply S3. exact Hs.
    + split; [|right; lia]. intros Hlen Hclean.
      apply strip_copy_clean; [lia | exact Hclean].
Qed.

Lemma shortened_string_is_clean_example :
  strip_newlines_and_shorten_string (Some [37; 100; 10; 34; 233]) 34
  = [37; 100; 126; 39; 126] /\
  Forall (fun c => 32 <= c <= 127)
    (strip_newlines_and_shorten_string (Some [37; 100; 10; 34; 233]) 34).
Proof.
  destruct (shortened_string_is_clean [37; 100; 10; 34; 233] 34) as (_ & H & _).
  - repeat constructor; lia.
  - split; [reflexivity | exact H].
Defined.

End Errors.

(** ** utf8_helpers.c: truncation of UTF-8 text *)

Module Utf8.

(** Byte [i] of the text as an unsigned value.  [char] is signed with the
    compiler the sources require, but the masks used below have no bit above
    bit 7, so the tests give the same result on the sign-extended value.  The
    text is read below its length only; [0] stands for the terminator. *)
Definition char_at (text : list Z) (i : Z) : Z :=
  if i <? 0 then 0 else default 0 (text !! Z.to_nat i).

Definition utf8_truncate (text : list Z) (len : Z) : Z :=
  if len <? 3 then len
  else if negb (Z.land (char_at text (len - 1)) 0x80 =? 0) then
    if negb (Z.land (char_at text (len - 1)) 0x40 =? 0) then len - 1
    else if Z.land (char_at text (len - 2)) 0xe0 =? 0xe0 then len - 2
    else if Z.land (char_at text (len - 3)) 0xf0 =? 0xf0 then len - 3
    else len
  else len.

(** Well-formed UTF-8: the encodings of one character. *)
Definition continuation (b : Z) : Prop := 0x80 <= b < 0xC0.

Inductive utf8_char : list Z -> Prop :=
| one_byte a : 0 <= a < 0x80 -> utf8_char [a]
| two_bytes l c1 : 0xC0 <= l < 0xE0 -> continuation c1 -> utf8_char [l; c1]
| three_bytes l c1 c2 :
    0xE0 <= l < 0xF0 -> continuation c1 -> continuation c2 ->
    utf8_char [l; c1; c2]
| four_bytes l c1 c2 c3 :
    0xF0 <= l < 0xF8 -> continuation c1 -> continuation c2 -> continuation c3 ->
    utf8_char [l; c1; c2; c3].

(** The number of bytes of the first [k] characters. *)
Definition bytes_of (chs : list (list Z)) (k : nat) : Z :=
  Z.of_nat (length (concat (take k chs))).

Lemma all_bytes (f : Z -> bool) :
  forallb f (map Z.of_nat (seq 0 256)) = true ->
  forall b, 0 <= b < 256 -> f b = true.
Proof.
  intros H b Hb. rewrite forallb_forall in H. apply H. apply in_map_iff.
  exists (Z.to_nat b). split; [lia | apply in_seq; lia].
Qed.

Lemma mask_80 b : 0 <= b < 256 -> (Z.land b 0x80 =? 0) = (b <? 0x80).
Proof.
  intros Hb. apply Bool.eqb_prop.
  apply (all_bytes (fun b => Bool.eqb (Z.land b 0x80 =? 0) (b <? 0x80)));
    [vm_compute; reflexivity | exact Hb].
Qed.

Lemma mask_40 b :
  0 <= b < 256 ->
  (Z.land b 0x40 =? 0) = ((b <? 0x40) || ((0x80 <=? b) && (b <? 0xC0))).
Proof.
  intros Hb. apply Bool.eqb_prop.
  apply (all_bytes (fun b => Bool.eqb (Z.land b 0x40 =? 0)
                               ((b <? 0x40) || ((0x80 <=? b) && (b <? 0xC0)))));
    [vm_compute; reflexivity | exact Hb].
Qed.

Lemma mask_e0 b : 0 <= b < 256 -> (Z.land b 0xe0 =? 0xe0) = (0xE0 <=? b).
Proof.
  intros Hb. apply Bool.eqb_prop.
  apply (all_bytes (fun b => Bool.eqb (Z.land b 0xe0 =? 0xe0) (0xE0 <=? b)));
    [vm_compute; reflexivity | exact Hb].
Qed.

Lemma mask_f0 b : 0 <= b < 256 -> (Z.land b 0xf0 =? 0xf0) = (0xF0 <=? b).
Proof.
  intros Hb. apply Bool.eqb_prop.
  apply (all_bytes (fun b => Bool.eqb (Z.land b 0xf0 =? 0xf0) (0xF0 <=? b)));
    [vm_compute; reflexivity | exact Hb].
Qed.

Lemma utf8_char_length c : utf8_char c -> (1 <= length c <= 4)%nat.
Proof. intros []; simpl; lia. Qed.

Lemma utf8_char_last c :
  utf8_char c -> 0 <= char_at c (Z.of_nat (length c) - 1) < 0xC0.
Proof.
  intros [a Ha | l c1 Hl H1 | l c1 c2 Hl H1 H2 | l c1 c2 c3 Hl H1 H2 H3];
    unfold continuation in *.
  - change (char_at [a] (Z.of_nat (length [a]) - 1)) with a. lia.
  - change (char_at [l; c1] (Z.of_nat (length [l; c1]) - 1)) with c1. lia.
  - change (char_at [l; c1; c2] (Z.of_nat (length [l; c1; c2]) - 1)) with c2. lia.
  - change (char_at [l; c1; c2; c3] (Z.of_nat (length [l; c1; c2; c3]) - 1))
      with c3. lia.
Qed.

Lemma char_at_app_l pre rest i :
  i < Z.of_nat (length pre) -> char_at (pre ++ rest) i = char_at pre i.
Proof.
  intros Hi. unfold char_at. destruct (i <? 0) eqn:E; [reflexivity|]. zbool.
  rewrite lookup_app_l by lia. reflexivity.
Qed.

Lemma char_at_app_r pre rest j :
  0 <= j -> char_at (pre ++ rest) (Z.of_nat (length pre) + j) = char_at rest j.
Proof.
  intros Hj. unfold char_at.
  destruct (Z.of_nat (length pre) + j <? 0) eqn:E; zbool; [lia|].
  destruct (j <? 0) eqn:E'; zbool; [lia|].
  rewrite lookup_app_r by lia. do 2 f_equal. lia.
Qed.

Lemma char_in pre c post j :
  0 <= j < Z.of_nat (length c) ->
  char_at (pre ++ c ++ post) (Z.of_nat (length pre) + j) = char_at c j.
Proof.
  intros Hj. rewrite char_at_app_r by lia. apply char_at_app_l. lia.
Qed.

Lemma bytes_of_S (chs : list (list Z)) (k : nat) (c : list Z) :
  chs !! k = Some c -> bytes_of chs (S k) = bytes_of chs k + Z.of_nat (length c).
Proof.
  intros Hk. unfold bytes_of. rewrite (take_S_r _ _ _ Hk), concat_app, length_app.
  simpl. rewrite app_nil_r. lia.
Qed.

Lemma bytes_of_mono chs k1 k2 :
  (k1 <= k2)%nat -> bytes_of chs k1 <= bytes_of chs k2.
Proof.
  unfold bytes_of. revert k1 k2.
  induction chs as [|c chs IH]; intros k1 k2 Hk.
  - rewrite !take_nil. lia.
  - destruct k1 as [|k1]; [simpl; lia|]. destruct k2 as [|k2]; [lia|].
    simpl. rewrite !length_app. specialize (IH k1 k2 ltac:(lia)). lia.
Qed.

(** The character that holds byte [n - 1]. *)
Lemma character_at chs (n : Z) :
  Forall utf8_char chs -> 1 <= n <= Z.of_nat (length (concat chs)) ->
  exists (k : nat) (c : list Z),
    chs !! k = Some c /\
    bytes_of chs k < n <= bytes_of chs k + Z.of_nat (length c).
Proof.
  unfold bytes_of. intros Hall. revert n.
  induction Hall as [|c chs Hc Hall IH]; intros n Hn; [simpl in Hn; lia|].
  simpl in Hn. rewrite length_app in Hn.
  destruct (Z_le_gt_dec n (Z.of_nat (length c))) as [Hle | Hgt].
  - exists 0%nat, c. split; [reflexivity|]. simpl. lia.
  - destruct (IH (n - Z.of_nat (length c)) ltac:(lia)) as (k & c' & Hk & Hr).
    exists (S k), c'. split; [exact Hk|]. simpl. rewrite length_app. lia.
Qed.

Lemma split_text (chs : list (list Z)) (k : nat) (c : list Z) :
  chs !! k = Some c ->
  concat chs = concat (take k chs) ++ c ++ concat (drop (S k) chs).
Proof.
  intros Hk. rewrite <- (take_drop_middle chs k c Hk) at 1.
  rewrite concat_app. reflexivity.
Qed.

(** The byte before a character boundary is not a lead byte. *)
Lemma last_byte_before_boundary chs k :
  Forall utf8_char chs -> 1 <= bytes_of chs k ->
  0 <= char_at (concat (take k chs)) (bytes_of chs k - 1) < 0xC0.
Proof.
  intros Hall Hpos.
  assert (Hall' : Forall utf8_char (take k chs)) by (apply Forall_take; exact Hall).
  destruct (character_at (take k chs) (bytes_of chs k) Hall') as (j & c & Hj & Hr).
  { unfold bytes_of in *. lia. }
  pose proof (bytes_of_S _ _ _ Hj) as HS.
  pose proof (bytes_of_mono (take k chs) (S j) (length (take k chs)) ) as Hm.
  assert (Hjl : (j < length (take k chs))%nat) by (eapply lookup_lt_Some; exact Hj).
  specialize (Hm ltac:(lia)).
  assert (Hfull : bytes_of (take k chs) (length (take k chs)) = bytes_of chs k).
  { unfold bytes_of. rewrite firstn_all. reflexivity. }
  assert (Hc : utf8_char c).
  { rewrite Forall_forall in Hall'. apply Hall'. eapply list_elem_of_lookup_2.
    exact Hj. }
  assert (Heq : bytes_of chs k = bytes_of (take k chs) j + Z.of_nat (length c)) by lia.
  rewrite (split_text _ _ _ Hj), Heq.
  replace (bytes_of (take k chs) j + Z.of_nat (length c) - 1)
    with (Z.of_nat (length (concat (take j (take k chs))))
          + (Z.of_nat (length c) - 1)) by (unfold bytes_of; lia).
  pose proof (utf8_char_length c Hc).
  rewrite char_in by lia. apply utf8_char_last. exact Hc.
Qed.

Ltac split_ifs :=
  repeat (match goal with
          | |- context [?a <? ?b] => destruct (a <? b) eqn:?
          | |- context [?a <=? ?b] => destruct (a <=? b) eqn:?
          | |- context [?a =? ?b] => destruct (a =? b) eqn:?
          end; zbool; cbn [negb orb andb]; try lia);
  try reflexivity; try lia.

(** The result of [utf8_truncate] when byte [len - 1] belongs to character
    [k]: the end of that character if [len] is its end, else its start. *)
Lemma utf8_truncate_at_character (chs : list (list Z)) (k : nat) (c : list Z)
    (len : Z) :
  Forall utf8_char chs -> chs !! k = Some c -> 3 <= len ->
  bytes_of chs k < len <= bytes_of chs k + Z.of_nat (length c) ->
  utf8_truncate (concat chs) len
  = if len =? bytes_of chs k + Z.of_nat (length c) then len else bytes_of chs k.
Proof.
  intros Hall Hk H3 Hr.
  assert (Hc : utf8_char c).
  { rewrite Forall_forall in Hall. apply Hall. eapply list_elem_of_lookup_2.
    exact Hk. }
  pose proof (last_byte_before_boundary chs k Hall) as Hlast.
  rewrite (split_text _ _ _ Hk).
  set (pre := concat (take k chs)) in *.
  set (post := concat (drop (S k) chs)).
  assert (HP : bytes_of chs k = Z.of_nat (length pre)) by reflexivity.
  rewrite HP in *. clear HP.
  assert (Hin : forall j, 0 <= j < Z.of_nat (length c) ->
            char_at (pre ++ c ++ post) (Z.of_nat (length pre) + j) = char_at c j)
    by (intros j Hj; apply char_in; exact Hj).
  assert (Hbefore : 1 <= Z.of_nat (length pre) ->
            char_at (pre ++ c ++ post) (Z.of_nat (length pre) - 1)
            = char_at pre (Z.of_nat (length pre) - 1))
    by (intros Hp; apply char_at_app_l; lia).
  set (P := Z.of_nat (length pre)) in *.
  unfold utf8_truncate.
  destruct Hc as [a Ha | l c1 Hl H1 | l c1 c2 Hl H1 H2 | l c1 c2 c3 Hl H1 H2 H3'];
    unfold continuation in *; cbn [length] in *.
  - assert (E1 : char_at (pre ++ [a] ++ post) (len - 1) = a).
    { replace (len - 1) with (P + 0) by lia. rewrite Hin by lia. reflexivity. }
    rewrite E1, mask_80 by lia. split_ifs.
  - assert (Hoff : len = P + 1 \/ len = P + 2) by lia.
    destruct Hoff as [-> | ->].
    + assert (E1 : char_at (pre ++ [l; c1] ++ post) (P + 1 - 1) = l).
      { replace (P + 1 - 1) with (P + 0) by lia. rewrite Hin by lia. reflexivity. }
      rewrite E1, mask_80, mask_40 by lia. split_ifs.
    + assert (E1 : char_at (pre ++ [l; c1] ++ post) (P + 2 - 1) = c1).
      { replace (P + 2 - 1) with (P + 1) by lia. rewrite Hin by lia. reflexivity. }
      assert (E2 : char_at (pre ++ [l; c1] ++ post) (P + 2 - 2) = l).
      { replace (P + 2 - 2) with (P + 0) by lia. rewrite Hin by lia. reflexivity. }
      assert (E3 : char_at (pre ++ [l; c1] ++ post) (P + 2 - 3)
                   = char_at pre (P - 1)).
      { replace (P + 2 - 3) with (P - 1) by lia. apply Hbefore. lia. }
      specialize (Hlast ltac:(lia)).
      rewrite E1, E2, E3, mask_80, mask_40, mask_e0, mask_f0 by lia. split_ifs.
  - assert (Hoff : len = P + 1 \/ len = P + 2 \/ len = P + 3) by lia.
    destruct Hoff as [-> | [-> | ->]].
    + assert (E1 : char_at (pre ++ [l; c1; c2] ++ post) (P + 1 - 1) = l).
      { replace (P + 1 - 1) with (P + 0) by lia. rewrite Hin by lia. reflexivity. }
      rewrite E1, mask_80, mask_40 by lia. split_ifs.
    + assert (E1 : char_at (pre ++ [l; c1; c2] ++ post) (P + 2 - 1) = c1).
      { replace (P + 2 - 1) with (P + 1) by lia. rewrite Hin by lia. reflexivity. }
      assert (E2 : char_at (pre ++ [l; c1; c2] ++ post) (P + 2 - 2) = l).
      { replace (P + 2 - 2) with (P + 0) by lia. rewrite Hin by lia. reflexivity. }
      rewrite E1, E2, mask_80, mask_40, mask_e0 by lia. split_ifs.
    + assert (E1 : char_at (pre ++ [l; c1; c2] ++ post) (P + 3 - 1) = c2).
      { replace (P + 3 - 1) with (P + 2) by lia. rewrite Hin by lia. reflexivity. }
      assert (E2 : char_at (pre ++ [l; c1; c2] ++ post) (P + 3 - 2) = c1).
      { replace (P + 3 - 2) with (P + 1) by lia. rewrite Hin by lia. reflexivity. }
      assert (E3 : char_at (pre ++ [l; c1; c2] ++ post) (P + 3 - 3) = l).
      { replace (P + 3 - 3) with (P + 0) by lia. rewrite Hin by lia. reflexivity. }
      rewrite E1, E2, E3, mask_80, mask_40, mask_e0, mask_f0 by lia. split_ifs.
  - assert (Hoff : len = P + 1 \/ len = P + 2 \/ len = P + 3 \/ len = P + 4) by lia.
    destruct Hoff as [-> | [-> | [-> | ->]]].
    + assert (E1 : char_at (pre ++ [l; c1; c2; c3] ++ post) (P + 1 - 1) = l).
      { replace (P + 1 - 1) with (P + 0) by lia. rewrite Hin by lia. reflexivity. }
      rewrite E1, mask_80, mask_40 by lia. split_ifs.
    + assert (E1 : char_at (pre ++ [l; c1; c2; c3] ++ post) (P + 2 - 1) = c1).
      { replace (P + 2 - 1) with (P + 1) by lia. rewrite Hin by lia. reflexivity. }
      assert (E2 : char_at (pre ++ [l; c1; c2; c3] ++ post) (P + 2 - 2) = l).
      { replace (P + 2 - 2) with (P + 0) by lia. rewrite Hin by lia. reflexivity. }
      rewrite E1, E2, mask_80, mask_40, mask_e0 by lia. split_ifs.
    + assert (E1 : char_at (pre ++ [l; c1; c2; c3] ++ post) (P + 3 - 1) = c2).
      { replace (P + 3 - 1) with (P + 2) by lia. rewrite Hin by lia. reflexivity. }
      assert (E2 : char_at (pre ++ [l; c1; c2; c3] ++ post) (P + 3 - 2) = c1).
      { replace (P + 3 - 2) with (P + 1) by lia. rewrite Hin by lia. reflexivity. }
      assert (E3 : char_at (pre ++ [l; c1; c2; c3] ++ post) (P + 3 - 3) = l).
      { replace (P + 3 - 3) with (P + 0) by lia. rewrite Hin by lia. reflexivity. }
      rewrite E1, E2, E3, mask_80, mask_40, mask_e0, mask_f0 by lia. split_ifs.
    + assert (E1 : char_at (pre ++ [l; c1; c2; c3] ++ post) (P + 4 - 1) = c3).
      { replace (P + 4 - 1) with (P + 3) by lia. rewrite Hin by lia. reflexivity. }
      assert (E2 : char_at (pre ++ [l; c1; c2; c3] ++ post) (P + 4 - 2) = c2).
      { replace (P + 4 - 2) with (P + 2) by lia. rewrite Hin by lia. reflexivity. }
      assert (E3 : char_at (pre ++ [l; c1; c2; c3] ++ post) (P + 4 - 3) = c1).
      { replace (P + 4 - 3) with (P + 1) by lia. rewrite Hin by lia. reflexivity. }
      rewrite E1, E2, E3, mask_80, mask_40, mask_e0, mask_f0 by lia. split_ifs.
Qed.

(** X2. For well-formed UTF-8 text and a length of at least 3 bytes,
    [utf8_truncate] returns the largest character boundary that is not above
    the length: the text is never cut inside a character, and at most three
    bytes are given up. *)
Theorem utf8_truncate_cuts_between_characters (chs : list (list Z)) (len : Z) :
  Forall utf8_char chs ->
  3 <= len <= Z.of_nat (length (concat chs)) ->
  let n := utf8_truncate (concat chs) len in
  (exists k, n = bytes_of chs k) /\
  len - 3 <= n <= len /\
  forall k, bytes_of chs k <= len -> bytes_of chs k <= n.
Proof.
  intros Hall Hlen n. subst n.
  destruct (character_at chs len Hall ltac:(lia)) as (k & c & Hk & Hr).
  assert (Hc : utf8_char c).
  { rewrite Forall_forall in Hall. apply Hall. eapply list_elem_of_lookup_2.
    exact Hk. }
  pose proof (utf8_char_length c Hc) as Hcl.
  pose proof (bytes_of_S _ _ _ Hk) as HS.
  rewrite (utf8_truncate_at_character chs k c len Hall Hk ltac:(lia) Hr).
  destruct (len =? bytes_of chs k + Z.of_nat (length c)) eqn:E; zbool.
  - split; [exists (S k); lia|]. split; [lia|]. intros k' Hk'. exact Hk'.
  - split; [exists k; reflexivity|]. split; [lia|]. intros k' Hk'.
    destruct (le_gt_dec k' k) as [Hle | Hgt].
    + apply bytes_of_mono. exact Hle.
    + pose proof (bytes_of_mono chs (S k) k' ltac:(lia)). lia.
Qed.

(** "a", U+00E9, U+20AC and U+1F600, cut after 5 bytes: the three-byte
    character is dropped whole. *)
Lemma utf8_truncate_cuts_between_characters_example :
  let n := utf8_truncate
             [0x61; 0xC3; 0xA9; 0xE2; 0x82; 0xAC; 0xF0; 0x9F; 0x98; 0x80] 5 in
  3 <= n <= 5.
Proof.
  destruct (utf8_truncate_cuts_between_characters
              [[0x61]; [0xC3; 0xA9]; [0xE2; 0x82; 0xAC]; [0xF0; 0x9F; 0x98; 0x80]] 5)
    as (_ & Hle & Hmax).
  - repeat constructor; unfold continuation; lia.
  - simpl. lia.
  - pose proof (Hmax 2%nat) as H2.
    change (bytes_of [[0x61]; [0xC3; 0xA9]; [0xE2; 0x82; 0xAC];
                      [0xF0; 0x9F; 0x98; 0x80]] 2) with 3 in H2.
    split; [apply H2; lia | exact (proj2 Hle)].
Defined.

(** Below three bytes the length is returned as it is, also when that cuts a
    character. *)
Example utf8_truncate_short_text_is_cut :
  utf8_truncate [0x61; 0xC3; 0xA9] 2 = 2.
Proof. reflexivity. Qed.
End Utf8.


(** ** decoder.c: escape sequences *)

Module Escapes.

(** A [char] of the text read as a number: [char] is signed with the
    compiler the sources require. *)
Definition char_value (b : Z) : Z := if b >=? 128 then b - 256 else b.

(** [(unsigned int)c] and [(int)u]. *)
Definition to_unsigned (c : Z) : Z := wrap32 c.
Definition to_int (u : Z) : Z := if u >=? 2 ^ 31 then u - 2 ^ 32 else u.

Definition byte_at (buf : list Z) (i : Z) : Z :=
  if i <? 0 then 0 else default 0 (buf !! Z.to_nat i).

(** [*message] assigned to an [unsigned int]. *)
Definition data_at (buf : list Z) (m : Z) : Z :=
  to_unsigned (char_value (byte_at buf m)).

Section with_ctype.

(** [isxdigit] and [toupper] in the C locale.  Their result for an argument
    that is neither an [unsigned char] value nor [EOF] is not defined by C. *)
Variable isxdigit_other : Z -> bool.
Variable toupper_other : Z -> Z.

Definition isxdigit (c : Z) : bool :=
  if (0 <=? c) && (c <=? 255) then
    ((48 <=? c) && (c <=? 57)) || ((65 <=? c) && (c <=? 70))
    || ((97 <=? c) && (c <=? 102))
  else if c =? -1 then false
  else isxdigit_other c.

Definition toupper (c : Z) : Z :=
  if (0 <=? c) && (c <=? 255) then
    if (97 <=? c) && (c <=? 122) then c - 32 else c
  else if c =? -1 then -1
  else toupper_other c.

Definition convert_x_digit (data : Z) : Z :=
  let data := toupper data in
  if isxdigit data then
    if data <=? 57 then data - 48 else data - 65 + 10
  else 0.

(** The [do ... while] loop of [convert_octal_number]: the new [message],
    [result] and [*chars_processed].  [None] stands for a loop that is not
    finished when the fuel is used up. *)
Fixpoint octal_loop (fuel : nat) (buf : list Z) (m result data i : Z)
    : option (Z * Z * Z) :=
  match fuel with
  | O => None
  | S fuel' =>
      let m := m + 1 in
      let result := wrap64 (result * 8 + data - 48) in
      let i := wrap64 (i + 1) in
      let data := data_at buf m in
      if data =? 0 then Some (m, result, i)
      else if (data >=? 48) && (data <=? 55)
      then octal_loop fuel' buf m result data i
      else Some (m, result, i)
  end.

(** [convert_octal_number]: the pointer returned, [*chars_processed] and
    [*octal_value]. *)
Definition convert_octal_number (buf : list Z) (m i : Z) : option (Z * Z * Z) :=
  match octal_loop (length buf) buf m 0 (data_at buf m) i with
  | Some (m, result, i) => Some (m - 1, i, wrap32 result)
  | None => None
  end.

Definition convert_esc_char (data : Z) : Z :=
  if data =? 92 then 92
  else if data =? 110 then 10
  else if data =? 97 then 7
  else if data =? 118 then 11
  else if data =? 114 then 13
  else if data =? 116 then 9
  else if data =? 102 then 12
  else if data =? 63 then 63
  else if data =? 39 then 39
  else if data =? 34 then 34
  else data.

Fixpoint hex_loop (fuel : nat) (buf : list Z) (m result data i : Z)
    : option (Z * Z * Z) :=
  match fuel with
  | O => None
  | S fuel' =>
      let m := m + 1 in
      let result := wrap32 (result * 16 + convert_x_digit (to_int data)) in
      let i := wrap64 (i + 1) in
      let data := data_at buf m in
      if data =? 0 then Some (m, result, i)
      else if isxdigit (to_int data)
      then hex_loop fuel' buf m result data i
      else Some (m, result, i)
  end.

Definition convert_hex_number (buf : list Z) (m i hex_value : Z)
    : option (Z * Z * Z) :=
  if isxdigit (char_value (byte_at buf m)) then
    match hex_loop (length buf) buf m 0 (data_at buf m) i with
    | Some (m, result, i) => Some (m - 1, i, result)
    | None => None
    end
  else Some (m - 1, i, hex_value).

(** [process_hex_and_octal_values]: the new [*p_message], [*idx] and
    [*data]. *)
Definition process_hex_and_octal_values (buf : list Z) (m i data : Z)
    : option (Z * Z * Z) :=
  if data =? 120 then
    if isxdigit (char_value (byte_at buf (m + 1)))
    then convert_hex_number buf (m + 1) i data
    else Some (m, i, data)
  else if (data >=? 48) && (data <? 56) then convert_octal_number buf m i
  else Some (m, i, convert_esc_char data).

(** The [for] loop of [process_escape_sequences].  The text is converted in
    place: [message] is the index read, [output] the index written, both in
    the one buffer [buf]. *)
Fixpoint escape_loop (fuel : nat) (buf : list Z) (max_length message output i : Z)
    : option (list Z * Z) :=
  match fuel with
  | O => None
  | S fuel' =>
      if i <? max_length then
        let data := data_at buf message in
        if data =? 0 then Some (buf, output)
        else if data =? 92 then
          let message := message + 1 in
          let data := data_at buf message in
          let i := wrap64 (i + 1) in
          if data =? 0 then Some (buf, output)
          else
            match process_hex_and_octal_values buf message i data with
            | Some (message, i, data) =>
                escape_loop fuel' (<[Z.to_nat output := data mod 256]> buf)
                  max_length (message + 1) (output + 1) (wrap64 (i + 1))
            | None => None
            end
        else
          escape_loop fuel' (<[Z.to_nat output := data mod 256]> buf)
            max_length (message + 1) (output + 1) (wrap64 (i + 1))
      else Some (buf, output)
  end.

Definition process_escape_sequences (message : list Z) (max_length : Z)
    : option (list Z) :=
  match escape_loop (S (length message)) message max_length 0 0 0 with
  | Some (buf, output) => Some (<[Z.to_nat output := 0]> buf)
  | None => None
  end.

(** *** The conversion stays inside the string *)

Lemma data_at_zero buf t : byte_at buf t = 0 -> data_at buf t = 0.
Proof. intros H. unfold data_at. rewrite H. reflexivity. Qed.

Lemma byte_at_insert_other buf o b j :
  0 <= o -> j <> o -> byte_at (<[Z.to_nat o := b]> buf) j = byte_at buf j.
Proof.
  intros Ho Hne. unfold byte_at. destruct (j <? 0) eqn:E; [reflexivity|]. zbool.
  rewrite list_lookup_insert_ne by lia. reflexivity.
Qed.

Lemma octal_loop_stops (fuel : nat) (buf : list Z) (t : Z) :
  byte_at buf t = 0 ->
  forall m result data i,
    m < t -> (Z.to_nat (t - m) <= fuel)%nat ->
    exists m' result' i',
      octal_loop fuel buf m result data i = Some (m', result', i') /\
      m < m' <= t.
Proof.
  intros Ht. induction fuel as [|fuel IH]; intros m result data i Hm Hfuel; [lia|].
  cbn [octal_loop].
  destruct (data_at buf (m + 1) =? 0) eqn:E0; [do 3 eexists; split; [reflexivity | lia]|].
  zbool.
  assert (Hlt : m + 1 < t).
  { destruct (Z.eq_dec (m + 1) t) as [Heq | Hne]; [|lia].
    rewrite Heq in E0. rewrite (data_at_zero _ _ Ht) in E0. contradiction. }
  destruct ((data_at buf (m + 1) >=? 48) && (data_at buf (m + 1) <=? 55));
    [|do 3 eexists; split; [reflexivity | lia]].
  destruct (IH (m + 1) (wrap64 (result * 8 + data - 48)) (data_at buf (m + 1))
              (wrap64 (i + 1)) Hlt ltac:(lia)) as (m' & r' & i' & H & Hr).
  exists m', r', i'. split; [exact H | lia].
Qed.

Lemma hex_loop_stops (fuel : nat) (buf : list Z) (t : Z) :
  byte_at buf t = 0 ->
  forall m result data i,
    m < t -> (Z.to_nat (t - m) <= fuel)%nat ->
    exists m' result' i',
      hex_loop fuel buf m result data i = Some (m', result', i') /\
      m < m' <= t.
Proof.
  intros Ht. induction fuel as [|fuel IH]; intros m result data i Hm Hfuel; [lia|].
  cbn [hex_loop].
  destruct (data_at buf (m + 1) =? 0) eqn:E0; [do 3 eexists; split; [reflexivity | lia]|].
  zbool.
  assert (Hlt : m + 1 < t).
  { destruct (Z.eq_dec (m + 1) t) as [Heq | Hne]; [|lia].
    rewrite Heq in E0. rewrite (data_at_zero _ _ Ht) in E0. contradiction. }
  destruct (isxdigit (to_int (data_at buf (m + 1))));
    [|do 3 eexists; split; [reflexivity | lia]].
  destruct (IH (m + 1)
              (wrap32 (result * 16 + convert_x_digit (to_int data)))
              (data_at buf (m + 1)) (wrap64 (i + 1)) Hlt ltac:(lia))
    as (m' & r' & i' & H & Hr).
  exists m', r', i'. split; [exact H | lia].
Qed.

Lemma process_hex_and_octal_values_stops (buf : list Z) (t m i data : Z) :
  byte_at buf t = 0 -> 0 <= m < t -> (Z.to_nat t < length buf)%nat ->
  exists m' i' data',
    process_hex_and_octal_values buf m i data = Some (m', i', data') /\
    m <= m' < t.
Proof.
  intros Ht Hm Hlen. unfold process_hex_and_octal_values.
  destruct (data =? 120).
  - destruct (isxdigit (char_value (byte_at buf (m + 1)))) eqn:Ex;
      [|do 3 eexists; split; [reflexivity | lia]].
    assert (Hlt : m + 1 < t).
    { destruct (Z.eq_dec (m + 1) t) as [Heq | Hne]; [|lia].
      rewrite Heq, Ht in Ex. discriminate. }
    unfold convert_hex_number. rewrite Ex.
    destruct (hex_loop_stops (length buf) buf t Ht (m + 1) 0
                (data_at buf (m + 1)) i Hlt ltac:(lia))
      as (m' & r' & i' & H & Hr).
    rewrite H. do 3 eexists. split; [reflexivity | lia].
  - destruct ((data >=? 48) && (data <? 56));
      [|do 3 eexists; split; [reflexivity | lia]].
    unfold convert_octal_number.
    destruct (octal_loop_stops (length buf) buf t Ht m 0 (data_at buf m) i
                ltac:(lia) ltac:(lia)) as (m' & r' & i' & H & Hr).
    rewrite H. do 3 eexists. split; [reflexivity | lia].
Qed.

Lemma escape_loop_stays (fuel : nat) (t : Z) :
  forall buf max_length message output i,
    byte_at buf t = 0 -> (Z.to_nat t < length buf)%nat ->
    0 <= output <= message -> message <= t ->
    (Z.to_nat (t - message) < fuel)%nat ->
    exists buf' output',
      escape_loop fuel buf max_length message output i = Some (buf', output') /\
      output <= output' <= t /\
      length buf' = length buf /\
      (forall j, j < output \/ t <= j -> byte_at buf' j = byte_at buf j) /\
      drop (Z.to_nat t) buf' = drop (Z.to_nat t) buf.
Proof.
  induction fuel as [|fuel IH];
    intros buf max_length m o i Ht Hlen Ho Hm Hfuel; [lia|].
  cbn [escape_loop].
  assert (Hdone : exists buf' output',
            Some (buf, o) = Some (buf', output') /\
            o <= output' <= t /\ length buf' = length buf /\
            (forall j, j < o \/ t <= j -> byte_at buf' j = byte_at buf j) /\
            drop (Z.to_nat t) buf' = drop (Z.to_nat t) buf).
  { exists buf, o. split; [reflexivity|]. split; [lia|]. split; [reflexivity|].
    split; [intros; reflexivity | reflexivity]. }
  assert (Hwrite : forall m' d i',
            m <= m' < t ->
            exists buf' output',
              escape_loop fuel (<[Z.to_nat o := d]> buf) max_length (m' + 1)
                (o + 1) i' = Some (buf', output') /\
              o <= output' <= t /\ length buf' = length buf /\
              (forall j, j < o \/ t <= j -> byte_at buf' j = byte_at buf j) /\
              drop (Z.to_nat t) buf' = drop (Z.to_nat t) buf).
  { intros m' d i' Hm'.
    destruct (IH (<[Z.to_nat o := d]> buf) max_length (m' + 1) (o + 1) i')
      as (buf' & o' & H & Ho' & Hl & Hframe & Hdrop).
    - rewrite byte_at_insert_other by lia. exact Ht.
    - rewrite length_insert. exact Hlen.
    - lia.
    - lia.
    - lia.
    - exists buf', o'. split; [exact H|]. split; [lia|].
      split; [rewrite Hl; apply length_insert|]. split.
      + intros j Hj. rewrite Hframe by lia. apply byte_at_insert_other; lia.
      + rewrite Hdrop. apply drop_insert_lt. lia. }
  destruct (i <? max_length); [|exact Hdone].
  destruct (data_at buf m =? 0) eqn:E0; [exact Hdone|]. zbool.
  assert (Hlt : m < t).
  { destruct (Z.eq_dec m t) as [Heq | Hne]; [|lia].
    rewrite Heq in E0. rewrite (data_at_zero _ _ Ht) in E0. contradiction. }
  destruct (data_at buf m =? 92); [|apply Hwrite; lia].
  destruct (data_at buf (m + 1) =? 0) eqn:E1; [exact Hdone|]. zbool.
  assert (Hlt1 : m + 1 < t).
  { destruct (Z.eq_dec (m + 1) t) as [Heq | Hne]; [|lia].
    rewrite Heq in E1. rewrite (data_at_zero _ _ Ht) in E1. contradiction. }
  destruct (process_hex_and_octal_values_stops buf t (m + 1) (wrap64 (i + 1))
              (data_at buf (m + 1)) Ht ltac:(lia) Hlen)
    as (m' & i' & d' & H & Hr).
  rewrite H. apply Hwrite. lia.
Qed.

(** X3. [process_escape_sequences] returns for every text and every
    [max_length].  The converted text ends at or before the zero byte that
    ended the text: a zero is stored at an index that is not above it, the
    zero byte itself and everything after it are left as they were, and the
    buffer keeps its length. *)
Theorem escape_processing_stays_in_string (s rest : list Z) (max_length : Z) :
  exists buf' n,
    process_escape_sequences (s ++ 0 :: rest) max_length = Some buf' /\
    (n <= length s)%nat /\
    buf' !! n = Some 0 /\
    length buf' = length (s ++ 0 :: rest) /\
    drop (length s) buf' = 0 :: rest.
Proof.
  set (buf := s ++ 0 :: rest).
  set (t := Z.of_nat (length s)).
  assert (Ht : byte_at buf t = 0).
  { unfold byte_at, buf, t. destruct (Z.of_nat (length s) <? 0) eqn:E; [reflexivity|].
    rewrite Nat2Z.id, list_lookup_middle by reflexivity. reflexivity. }
  assert (Hlen : (Z.to_nat t < length buf)%nat).
  { unfold buf, t. rewrite length_app. cbn [length]. lia. }
  destruct (escape_loop_stays (S (length buf)) t buf max_length 0 0 0 Ht Hlen
              ltac:(lia) ltac:(lia) ltac:(lia))
    as (buf' & o' & H & Ho' & Hl & Hframe & Hdrop).
  unfold process_escape_sequences. fold buf. rewrite H.
  exists (<[Z.to_nat o' := 0]> buf'), (Z.to_nat o').
  split; [reflexivity|]. split; [unfold t in Ho'; lia|].
  split; [apply list_lookup_insert_eq; lia|].
  split; [rewrite length_insert; exact Hl|].
  assert (Hrest : drop (length s) buf' = 0 :: rest).
  { unfold t in Hdrop. rewrite Nat2Z.id in Hdrop. rewrite Hdrop. unfold buf.
    rewrite drop_app_length. reflexivity. }
  destruct (Z.eq_dec o' t) as [-> | Hne].
  - unfold t. rewrite Nat2Z.id, drop_insert_ge, Hrest by lia.
    rewrite Nat.sub_diag. reflexivity.
  - rewrite drop_insert_lt by (unfold t in Ho'; lia). exact Hrest.
Qed.

(** *** Reading the text *)

Lemma data_at_char buf m b :
  byte_at buf m = b -> 1 <= b <= 255 ->
  data_at buf m <> 0 /\ (b <> 92 -> data_at buf m <> 92) /\
  data_at buf m mod 256 = b /\ (b <= 127 -> data_at buf m = b).
Proof.
  intros Hb Hr. unfold data_at, to_unsigned, char_value, wrap32. rewrite Hb.
  destruct (b >=? 128) eqn:E; zbool.
  - assert (H : (b - 256) mod 2 ^ 32 = b - 256 + 2 ^ 32).
    { symmetry. apply (Z.mod_unique _ _ (-1)); lia. }
    rewrite H. split; [lia|]. split; [lia|]. split; [|lia].
    symmetry. apply (Z.mod_unique _ _ (2 ^ 24 - 1)); lia.
  - rewrite (Z.mod_small b (2 ^ 32)) by lia.
    split; [lia|]. split; [lia|]. split; [apply Z.mod_small; lia | reflexivity].
Qed.

Lemma byte_at_drop (buf : list Z) (n : nat) (x : Z) (tl : list Z) :
  drop n buf = x :: tl -> byte_at buf (Z.of_nat n) = x /\ (n < length buf)%nat.
Proof.
  intros Hd.
  assert (Hl : buf !! n = Some x).
  { pose proof (lookup_drop buf n 0) as H. rewrite Hd, Nat.add_0_r in H.
    symmetry. exact H. }
  split; [|eapply lookup_lt_Some; exact Hl].
  unfold byte_at. destruct (Z.of_nat n <? 0) eqn:E; zbool; [lia|].
  rewrite Nat2Z.id, Hl. reflexivity.
Qed.

Lemma drop_next (buf : list Z) (n : nat) (x : Z) (tl : list Z) :
  drop n buf = x :: tl -> drop (S n) buf = tl.
Proof.
  intros Hd. replace (S n) with (n + 1)%nat by lia.
  rewrite <- drop_drop, Hd. reflexivity.
Qed.

Lemma take_write (buf : list Z) (n : nat) (d : Z) :
  (n < length buf)%nat -> take (S n) (<[n := d]> buf) = take n buf ++ [d].
Proof.
  intros Hn. destruct (lookup_lt_is_Some_2 buf n Hn) as [x Hx].
  rewrite take_insert_lt by lia. rewrite (take_S_r buf n x Hx).
  rewrite insert_app_r_alt by (rewrite length_take; lia).
  rewrite length_take. replace (n - n `min` length buf)%nat with 0%nat by lia.
  reflexivity.
Qed.

Lemma convert_esc_char_range c : 1 <= c <= 127 -> 1 <= convert_esc_char c <= 127.
Proof.
  intros Hc. unfold convert_esc_char.
  repeat match goal with
         | |- context [?a =? ?b] => destruct (a =? b) eqn:?; zbool; try lia
         end.
Qed.

(** *** Numeric escapes *)

Definition octal_digit (d : Z) : Prop := 48 <= d <= 55.

Definition hex_digit (d : Z) : Prop :=
  48 <= d <= 57 \/ 65 <= d <= 70 \/ 97 <= d <= 102.

(** The number that a run of digits stands for. *)
Definition octal_value (ds : list Z) : Z :=
  fold_left (fun r d => r * 8 + d - 48) ds 0.

Definition hex_digit_value (d : Z) : Z :=
  if d <=? 57 then d - 48 else if d <=? 70 then d - 55 else d - 87.

Definition hex_value (ds : list Z) : Z :=
  fold_left (fun r d => r * 16 + hex_digit_value d) ds 0.

Lemma wrap_congruence (n a b c d : Z) :
  0 < n -> a mod n = b mod n -> (a * c + d) mod n = (b * c + d) mod n.
Proof.
  intros Hn Hab.
  rewrite (Z.add_mod (a * c)), (Z.mul_mod a), Hab, <- Z.mul_mod, <- Z.add_mod by lia.
  reflexivity.
Qed.

Lemma fold_octal_congruence (ds : list Z) :
  forall a b, wrap64 a = wrap64 b ->
    wrap64 (fold_left (fun r d => r * 8 + d - 48) ds a)
    = wrap64 (fold_left (fun r d => r * 8 + d - 48) ds b).
Proof.
  induction ds as [|d ds IH]; intros a b Hab; [exact Hab|].
  cbn [fold_left]. apply IH. unfold wrap64 in *.
  replace (a * 8 + d - 48) with (a * 8 + (d - 48)) by lia.
  replace (b * 8 + d - 48) with (b * 8 + (d - 48)) by lia.
  apply wrap_congruence; [lia | exact Hab].
Qed.

Lemma fold_hex_congruence (ds : list Z) :
  forall a b, wrap32 a = wrap32 b ->
    wrap32 (fold_left (fun r d => r * 16 + hex_digit_value d) ds a)
    = wrap32 (fold_left (fun r d => r * 16 + hex_digit_value d) ds b).
Proof.
  induction ds as [|d ds IH]; intros a b Hab; [exact Hab|].
  cbn [fold_left]. apply IH. unfold wrap32 in *.
  apply wrap_congruence; [lia | exact Hab].
Qed.

Lemma wrap64_idem x : wrap64 (wrap64 x) = wrap64 x.
Proof. unfold wrap64. apply Z.mod_mod. lia. Qed.

Lemma wrap32_idem x : wrap32 (wrap32 x) = wrap32 x.
Proof. unfold wrap32. apply Z.mod_mod. lia. Qed.

Lemma wrap32_wrap64 x : wrap32 (wrap64 x) = wrap32 x.
Proof.
  unfold wrap32, wrap64. apply Z.mod_mod_divide.
  exists (2 ^ 32). reflexivity.
Qed.

Lemma data_at_stop buf m stop :
  byte_at buf m = stop -> 0 <= stop <= 255 -> ~ octal_digit stop ->
  (data_at buf m =? 0) = false ->
  (data_at buf m >=? 48) && (data_at buf m <=? 55) = false.
Proof.
  intros Hb Hr Hno H0. zbool.
  assert (Hs : 1 <= stop <= 255).
  { destruct (Z.eq_dec stop 0) as [-> | Hne]; [|lia].
    exfalso. apply H0. apply data_at_zero. exact Hb. }
  destruct (data_at_char buf m stop Hb Hs) as (_ & _ & Hmod & Hsmall).
  unfold octal_digit in Hno.
  destruct (data_at buf m >=? 48) eqn:E1; [|reflexivity].
  destruct (data_at buf m <=? 55) eqn:E2; [|reflexivity]. zbool. exfalso.
  rewrite Z.mod_small in Hmod by lia. lia.
Qed.

Lemma octal_loop_digits (ds : list Z) :
  forall (fuel : nat) (buf : list Z) (nm : nat) (result d0 i stop : Z)
         (tail : list Z),
    drop (S nm) buf = ds ++ stop :: tail ->
    Forall octal_digit ds -> ~ octal_digit stop -> 0 <= stop <= 255 ->
    (length ds < fuel)%nat ->
    0 <= i -> i + 1 + Z.of_nat (length ds) < 2 ^ 64 ->
    octal_loop fuel buf (Z.of_nat nm) result d0 i
    = Some (Z.of_nat (nm + 1 + length ds),
            wrap64 (fold_left (fun r d => r * 8 + d - 48) ds (result * 8 + d0 - 48)),
            i + 1 + Z.of_nat (length ds)).
Proof.
  induction ds as [|d ds IH];
    intros fuel buf nm result d0 i stop tail Hd Hds Hstop Hr Hfuel Hi Hmax;
    (destruct fuel as [|fuel]; [cbn [length] in Hfuel; lia|]);
    cbn [octal_loop fold_left length];
    replace (Z.of_nat nm + 1) with (Z.of_nat (S nm)) by lia.
  - cbn [app] in Hd. destruct (byte_at_drop _ _ _ _ Hd) as [Hb _].
    assert (Ew : wrap64 (i + 1) = i + 1) by (apply Z.mod_small; lia).
    rewrite Ew.
    destruct (data_at buf (Z.of_nat (S nm)) =? 0) eqn:E0.
    + do 2 f_equal; [f_equal|]; lia.
    + rewrite (data_at_stop _ _ _ Hb Hr Hstop E0). do 2 f_equal; [f_equal|]; lia.
  - cbn [app] in Hd. apply Forall_cons in Hds. destruct Hds as [Hdig Hds].
    destruct (byte_at_drop _ _ _ _ Hd) as [Hb _]. unfold octal_digit in Hdig.
    destruct (data_at_char buf (Z.of_nat (S nm)) d Hb ltac:(lia))
      as (D0 & _ & _ & Dd).
    specialize (Dd ltac:(lia)). rewrite Dd.
    assert (Ed0 : (d =? 0) = false) by (apply Z.eqb_neq; lia).
    assert (Edig : (d >=? 48) && (d <=? 55) = true).
    { apply andb_true_iff. split; [apply Z.geb_le | apply Z.leb_le]; lia. }
    rewrite Ed0, Edig.
    assert (Ew : wrap64 (i + 1) = i + 1) by (apply Z.mod_small; lia).
    rewrite Ew.
    rewrite (IH fuel buf (S nm) (wrap64 (result * 8 + d0 - 48)) d (i + 1) stop
               tail (drop_next _ _ _ _ Hd) Hds Hstop Hr ltac:(cbn [length] in Hfuel; lia)
               ltac:(lia) ltac:(cbn [length] in Hmax; lia)).
    f_equal. f_equal; [f_equal; [lia|]|lia].
    apply fold_octal_congruence. unfold wrap64 at 1 3.
    replace (wrap64 (result * 8 + d0 - 48) * 8 + d - 48)
      with (wrap64 (result * 8 + d0 - 48) * 8 + (d - 48)) by lia.
    replace ((result * 8 + d0 - 48) * 8 + d - 48)
      with ((result * 8 + d0 - 48) * 8 + (d - 48)) by lia.
    apply wrap_congruence; [lia|]. apply wrap64_idem.
Qed.

(** X4. [convert_octal_number], called at a run of octal digits that
    is followed by another character or by the end of the text, takes every
    digit of the run - not at most three, as C does - and returns their
    value in 32 bits; the pointer returned is at the last digit, and
    [*chars_processed] has grown by the number of digits. *)
Theorem convert_octal_number_takes_all_digits (buf : list Z) (nm : nat)
    (d0 : Z) (ds : list Z) (stop : Z) (tail : list Z) (i : Z) :
  drop nm buf = (d0 :: ds) ++ stop :: tail ->
  Forall octal_digit (d0 :: ds) -> ~ octal_digit stop -> 0 <= stop <= 255 ->
  0 <= i -> i + Z.of_nat (length (d0 :: ds)) < 2 ^ 64 ->
  convert_octal_number buf (Z.of_nat nm) i
  = Some (Z.of_nat (nm + length ds), i + Z.of_nat (length (d0 :: ds)),
          wrap32 (octal_value (d0 :: ds))).
Proof.
  intros Hd Hds Hstop Hr Hi Hmax. unfold convert_octal_number.
  cbn [app] in Hd. apply Forall_cons in Hds. destruct Hds as [Hdig Hds].
  destruct (byte_at_drop _ _ _ _ Hd) as [Hb Hlt]. unfold octal_digit in Hdig.
  destruct (data_at_char buf (Z.of_nat nm) d0 Hb ltac:(lia)) as (_ & _ & _ & Dd).
  specialize (Dd ltac:(lia)). rewrite Dd.
  assert (Hlen : (length ds < length buf)%nat).
  { pose proof (f_equal length Hd) as Hl. rewrite length_drop in Hl.
    cbn [length] in Hl. rewrite length_app in Hl. cbn [length] in Hl. lia. }
  cbn [length] in Hmax.
  rewrite (octal_loop_digits ds (length buf) buf nm 0 d0 i stop tail
             (drop_next _ _ _ _ Hd) Hds Hstop Hr Hlen Hi ltac:(lia)).
  rewrite wrap32_wrap64. unfold octal_value. cbn [fold_left length].
  assert (E1 : Z.of_nat (nm + 1 + length ds) - 1 = Z.of_nat (nm + length ds)) by lia.
  assert (E2 : i + 1 + Z.of_nat (length ds) = i + Z.of_nat (S (length ds))) by lia.
  rewrite E1, E2. reflexivity.
Qed.

Lemma convert_x_digit_hex d :
  hex_digit d -> convert_x_digit (to_int d) = hex_digit_value d /\
                 isxdigit (to_int d) = true /\ to_int d = d.
Proof.
  intros Hd. unfold hex_digit in Hd.
  assert (Hint : to_int d = d).
  { unfold to_int. destruct (d >=? 2 ^ 31) eqn:E; zbool; lia. }
  rewrite Hint. unfold convert_x_digit, toupper, isxdigit, hex_digit_value.
  assert (Hr : (0 <=? d) && (d <=? 255) = true).
  { apply andb_true_iff. split; apply Z.leb_le; lia. }
  rewrite Hr.
  destruct Hd as [H | [H | H]].
  - assert (E1 : (97 <=? d) = false) by (apply Z.leb_gt; lia).
    rewrite E1. cbn [andb]. rewrite Hr.
    assert (E2 : (48 <=? d) && (d <=? 57) = true).
    { apply andb_true_iff. split; apply Z.leb_le; lia. }
    rewrite E2. cbn [orb]. rewrite (proj2 (Z.leb_le d 57)) by lia.
    repeat split.
  - assert (E1 : (97 <=? d) = false) by (apply Z.leb_gt; lia).
    rewrite E1. cbn [andb]. rewrite Hr.
    assert (E2 : (65 <=? d) && (d <=? 70) = true).
    { apply andb_true_iff. split; apply Z.leb_le; lia. }
    rewrite E2, orb_true_r. cbn [orb].
    rewrite (proj2 (Z.leb_gt d 57)), (proj2 (Z.leb_le d 70)) by lia.
    repeat split. lia.
  - assert (E1 : (97 <=? d) && (d <=? 122) = true).
    { apply andb_true_iff. split; apply Z.leb_le; lia. }
    rewrite E1.
    assert (Hr' : (0 <=? d - 32) && (d - 32 <=? 255) = true).
    { apply andb_true_iff. split; apply Z.leb_le; lia. }
    rewrite Hr'.
    assert (E2 : (65 <=? d - 32) && (d - 32 <=? 70) = true).
    { apply andb_true_iff. split; apply Z.leb_le; lia. }
    rewrite E2, orb_true_r. cbn [orb].
    assert (E3 : (97 <=? d) && (d <=? 102) = true).
    { apply andb_true_iff. split; apply Z.leb_le; lia. }
    rewrite E3, orb_true_r.
    rewrite (proj2 (Z.leb_gt (d - 32) 57)), (proj2 (Z.leb_gt d 57)),
      (proj2 (Z.leb_gt d 70)) by lia.
    repeat split. lia.
Qed.

Lemma isxdigit_stop (stop : Z) :
  1 <= stop <= 127 -> ~ hex_digit stop -> isxdigit stop = false.
Proof.
  intros Hr Hno. unfold hex_digit in Hno. unfold isxdigit.
  assert (Hin : (0 <=? stop) && (stop <=? 255) = true).
  { apply andb_true_iff. split; apply Z.leb_le; lia. }
  rewrite Hin.
  destruct ((48 <=? stop) && (stop <=? 57)) eqn:E1; [zbool; lia|].
  destruct ((65 <=? stop) && (stop <=? 70)) eqn:E2; [zbool; lia|].
  destruct ((97 <=? stop) && (stop <=? 102)) eqn:E3; [zbool; lia|].
  reflexivity.
Qed.

Lemma hex_loop_digits (ds : list Z) :
  forall (fuel : nat) (buf : list Z) (nm : nat) (result d0 i stop : Z)
         (tail : list Z),
    drop (S nm) buf = ds ++ stop :: tail ->
    hex_digit d0 -> Forall hex_digit ds -> ~ hex_digit stop -> 0 <= stop <= 127 ->
    (length ds < fuel)%nat ->
    0 <= i -> i + 1 + Z.of_nat (length ds) < 2 ^ 64 ->
    hex_loop fuel buf (Z.of_nat nm) result d0 i
    = Some (Z.of_nat (nm + 1 + length ds),
            wrap32 (fold_left (fun r d => r * 16 + hex_digit_value d) ds
                      (result * 16 + hex_digit_value d0)),
            i + 1 + Z.of_nat (length ds)).
Proof.
  induction ds as [|d ds IH];
    intros fuel buf nm result d0 i stop tail Hd Hd0 Hds Hstop Hr Hfuel Hi Hmax;
    (destruct fuel as [|fuel]; [cbn [length] in Hfuel; lia|]);
    cbn [hex_loop fold_left length];
    replace (Z.of_nat nm + 1) with (Z.of_nat (S nm)) by lia;
    destruct (convert_x_digit_hex d0 Hd0) as (Hx0 & _ & _); rewrite Hx0.
  - cbn [app] in Hd. destruct (byte_at_drop _ _ _ _ Hd) as [Hb _].
    assert (Ew : wrap64 (i + 1) = i + 1) by (apply Z.mod_small; lia).
    rewrite Ew.
    destruct (data_at buf (Z.of_nat (S nm)) =? 0) eqn:E0.
    + do 2 f_equal; [f_equal|]; lia.
    + zbool.
      assert (Hs : 1 <= stop <= 127).
      { destruct (Z.eq_dec stop 0) as [-> | Hne]; [|lia].
        exfalso. apply E0. apply data_at_zero. exact Hb. }
      destruct (data_at_char buf (Z.of_nat (S nm)) stop Hb ltac:(lia))
        as (_ & _ & _ & Ds).
      specialize (Ds ltac:(lia)). rewrite Ds.
      assert (Hint : to_int stop = stop).
      { unfold to_int. destruct (stop >=? 2 ^ 31) eqn:E; zbool; lia. }
      rewrite Hint, (isxdigit_stop stop Hs Hstop).
      do 2 f_equal; [f_equal|]; lia.
  - cbn [app] in Hd. apply Forall_cons in Hds. destruct Hds as [Hdig Hds].
    destruct (byte_at_drop _ _ _ _ Hd) as [Hb _].
    assert (Hdr : 1 <= d <= 127) by (unfold hex_digit in Hdig; lia).
    destruct (data_at_char buf (Z.of_nat (S nm)) d Hb ltac:(lia))
      as (D0 & _ & _ & Dd).
    specialize (Dd ltac:(lia)). rewrite Dd.
    assert (Ed0 : (d =? 0) = false) by (apply Z.eqb_neq; lia).
    destruct (convert_x_digit_hex d Hdig) as (_ & Hxd & _).
    rewrite Ed0, Hxd.
    assert (Ew : wrap64 (i + 1) = i + 1) by (apply Z.mod_small; lia).
    rewrite Ew.
    rewrite (IH fuel buf (S nm) (wrap32 (result * 16 + hex_digit_value d0)) d
               (i + 1) stop tail (drop_next _ _ _ _ Hd) Hdig Hds Hstop Hr
               ltac:(cbn [length] in Hfuel; lia) ltac:(lia)
               ltac:(cbn [length] in Hmax; lia)).
    f_equal. f_equal; [f_equal; [lia|]|lia].
    apply fold_hex_congruence. unfold wrap32 at 1 3.
    apply wrap_congruence; [lia|]. apply wrap32_idem.
Qed.

(** X5. [convert_hex_number], called at a run of hexadecimal digits
    that is followed by another ASCII character or by the end of the text,
    takes every digit of the run and returns their value in 32 bits; the
    pointer returned is at the last digit, and [*chars_processed] has grown
    by the number of digits. *)
Theorem convert_hex_number_takes_all_digits (buf : list Z) (nm : nat)
    (d0 : Z) (ds : list Z) (stop : Z) (tail : list Z) (i hex_value0 : Z) :
  drop nm buf = (d0 :: ds) ++ stop :: tail ->
  Forall hex_digit (d0 :: ds) -> ~ hex_digit stop -> 0 <= stop <= 127 ->
  0 <= i -> i + Z.of_nat (length (d0 :: ds)) < 2 ^ 64 ->
  convert_hex_number buf (Z.of_nat nm) i hex_value0
  = Some (Z.of_nat (nm + length ds), i + Z.of_nat (length (d0 :: ds)),
          wrap32 (hex_value (d0 :: ds))).
Proof.
  intros Hd Hds Hstop Hr Hi Hmax. unfold convert_hex_number.
  cbn [app] in Hd. apply Forall_cons in Hds. destruct Hds as [Hdig Hds].
  destruct (byte_at_drop _ _ _ _ Hd) as [Hb Hlt].
  assert (Hdr : 1 <= d0 <= 127) by (unfold hex_digit in Hdig; lia).
  destruct (data_at_char buf (Z.of_nat nm) d0 Hb ltac:(lia)) as (_ & _ & _ & Dd).
  specialize (Dd ltac:(lia)). rewrite Dd, Hb.
  assert (Hcv : char_value d0 = d0).
  { unfold char_value. destruct (d0 >=? 128) eqn:E; zbool; lia. }
  destruct (convert_x_digit_hex d0 Hdig) as (_ & Hx & Hint).
  rewrite Hcv. rewrite Hint in Hx. rewrite Hx.
  assert (Hlen : (length ds < length buf)%nat).
  { pose proof (f_equal length Hd) as Hl. rewrite length_drop in Hl.
    cbn [length] in Hl. rewrite length_app in Hl. cbn [length] in Hl. lia. }
  cbn [length] in Hmax.
  rewrite (hex_loop_digits ds (length buf) buf nm 0 d0 i stop tail
             (drop_next _ _ _ _ Hd) Hdig Hds Hstop Hr Hlen Hi ltac:(lia)).
  unfold hex_value. cbn [fold_left length].
  assert (E1 : Z.of_nat (nm + 1 + length ds) - 1 = Z.of_nat (nm + length ds)) by lia.
  assert (E2 : i + 1 + Z.of_nat (length ds) = i + Z.of_nat (S (length ds))) by lia.
  rewrite E1, E2. reflexivity.
Qed.

(** *** The pieces of a text *)

(** A character that is no backslash; a backslash followed by a character
    other than [x] and the octal digits; a backslash followed by a run of
    octal digits; and [\x] followed by a run of hexadecimal digits. *)
Inductive token :=
| Plain (b : Z)
| Esc (c : Z)
| Oct (d0 : Z) (ds : list Z)
| Hex (d0 : Z) (ds : list Z).

(** [next] is the character that follows the token in the text. *)
Definition valid_token (k : token) (next : Z) : Prop :=
  match k with
  | Plain b => 1 <= b <= 255 /\ b <> 92
  | Esc c => 1 <= c <= 127 /\ c <> 120 /\ ~ octal_digit c
  | Oct d0 ds =>
      Forall octal_digit (d0 :: ds) /\ ~ octal_digit next /\ 0 <= next <= 255
  | Hex d0 ds =>
      Forall hex_digit (d0 :: ds) /\ ~ hex_digit next /\ 0 <= next <= 127
  end.

Definition token_text (k : token) : list Z :=
  match k with
  | Plain b => [b]
  | Esc c => [92; c]
  | Oct d0 ds => 92 :: d0 :: ds
  | Hex d0 ds => 92 :: 120 :: d0 :: ds
  end.

Definition token_char (k : token) : Z :=
  match k with
  | Plain b => b
  | Esc c => convert_esc_char c
  | Oct d0 ds => octal_value (d0 :: ds) mod 256
  | Hex d0 ds => hex_value (d0 :: ds) mod 256
  end.

Definition text_of (toks : list token) : list Z := concat (map token_text toks).

Fixpoint valid_text (toks : list token) (stop : Z) : Prop :=
  match toks with
  | [] => True
  | k :: toks' => valid_token k (hd stop (text_of toks')) /\ valid_text toks' stop
  end.

Definition is_octal (k : token) : bool :=
  match k with Oct _ _ => true | _ => false end.

(** What the text counts against [max_length]: its characters, and one more
    for each octal escape. *)
Definition counted (toks : list token) : Z :=
  Z.of_nat (length (text_of toks)) + Z.of_nat (length (List.filter is_octal toks)).

Definition token_count (k : token) : Z :=
  Z.of_nat (length (token_text k)) + (if is_octal k then 1 else 0).

Lemma counted_cons k toks : counted (k :: toks) = token_count k + counted toks.
Proof.
  unfold counted, token_count, text_of. cbn [map concat List.filter].
  rewrite length_app. destruct (is_octal k); cbn [length]; lia.
Qed.

Lemma counted_nonneg toks : 0 <= counted toks.
Proof. unfold counted. lia. Qed.

Lemma text_starts (toks : list token) (stop : Z) (tail : list Z) :
  exists tl, text_of toks ++ stop :: tail = hd stop (text_of toks) :: tl.
Proof.
  destruct (text_of toks) as [|x xs]; cbn [hd app]; eauto.
Qed.

Lemma wrap32_mod_256 v : wrap32 v mod 256 = v mod 256.
Proof. unfold wrap32. apply Z.mod_mod_divide. exists (2 ^ 24). reflexivity. Qed.

(** One turn of the loop for each token. *)
Lemma escape_loop_token (k : token) (fuel : nat) (buf : list Z)
    (max_length : Z) (nm no : nat) (i next : Z) (tail : list Z) :
  valid_token k next -> (no <= nm)%nat ->
  drop nm buf = token_text k ++ next :: tail ->
  0 <= i -> i + token_count k <= max_length ->
  max_length < 2 ^ 64 ->
  let buf' := <[no := token_char k]> buf in
  escape_loop (S fuel) buf max_length (Z.of_nat nm) (Z.of_nat no) i
  = escape_loop fuel buf' max_length
      (Z.of_nat (nm + length (token_text k))) (Z.of_nat (no + 1))
      (i + token_count k) /\
  take (no + 1) buf' = take no buf ++ [token_char k] /\
  drop (nm + length (token_text k)) buf' = next :: tail /\
  length buf' = length buf.
Proof.
  intros Hv Hno Hd Hi Hmax H64 buf'. subst buf'.
  assert (Hlenb : (nm < length buf)%nat).
  { pose proof (f_equal length Hd) as Hl. rewrite length_drop, length_app in Hl.
    cbn [length] in Hl. lia. }
  assert (Hframe : forall n d,
            (1 <= n)%nat -> drop (nm + n) buf = next :: tail ->
            take (no + 1) (<[no := d]> buf) = take no buf ++ [d] /\
            drop (nm + n) (<[no := d]> buf) = next :: tail /\
            length (<[no := d]> buf) = length buf).
  { intros n d Hn Hdn.
    split; [replace (no + 1)%nat with (S no) by lia; apply take_write; lia|].
    split; [rewrite drop_insert_lt by lia; exact Hdn | apply length_insert]. }
  assert (Hdrop : forall n, drop (nm + n) buf = drop n (token_text k ++ next :: tail)).
  { intros n. rewrite <- drop_drop, Hd. reflexivity. }
  assert (E1 : (i <? max_length) = true).
  { apply Z.ltb_lt. unfold token_count in Hmax.
    assert (1 <= length (token_text k))%nat by (destruct k; cbn; lia).
    destruct (is_octal k); lia. }
  destruct k as [b | c | d0 ds | d0 ds];
    cbn [valid_token token_text token_char] in *; unfold token_count in *;
    cbn [is_octal token_text length] in *.
  - destruct Hv as [Hb Hne]. cbn [app] in Hd.
    destruct (byte_at_drop _ _ _ _ Hd) as [Hbyte _].
    destruct (data_at_char buf (Z.of_nat nm) b Hbyte Hb) as (D0 & D92 & Dmod & _).
    cbn [escape_loop]. rewrite E1.
    rewrite (proj2 (Z.eqb_neq _ _) D0), (proj2 (Z.eqb_neq _ _) (D92 Hne)).
    rewrite Dmod, Nat2Z.id.
    assert (Ew : wrap64 (i + 1) = i + 1) by (apply Z.mod_small; lia).
    rewrite Ew. split; [f_equal; lia|].
    apply Hframe; [lia|]. rewrite Hdrop. reflexivity.
  - destruct Hv as (Hc & Hx & Hoct). unfold octal_digit in Hoct. cbn [app] in Hd.
    destruct (byte_at_drop _ _ _ _ Hd) as [Hbyte _].
    pose proof (drop_next _ _ _ _ Hd) as Hd1.
    destruct (byte_at_drop _ _ _ _ Hd1) as [Hbyte1 _].
    destruct (data_at_char buf (Z.of_nat nm) 92 Hbyte ltac:(lia))
      as (_ & _ & _ & D92).
    destruct (data_at_char buf (Z.of_nat (S nm)) c Hbyte1 ltac:(lia))
      as (_ & _ & _ & Cc).
    specialize (D92 ltac:(lia)). specialize (Cc ltac:(lia)).
    cbn [escape_loop]. rewrite E1, D92.
    change (92 =? 0) with false. change (92 =? 92) with true. cbv iota.
    replace (Z.of_nat nm + 1) with (Z.of_nat (S nm)) by lia.
    assert (Ec0 : (c =? 0) = false) by (apply Z.eqb_neq; lia).
    rewrite Cc, Ec0. unfold process_hex_and_octal_values.
    rewrite (proj2 (Z.eqb_neq _ _) Hx).
    assert (Eo : (c >=? 48) && (c <? 56) = false).
    { destruct (c >=? 48) eqn:E48; [|reflexivity].
      destruct (c <? 56) eqn:E56; [|reflexivity]. zbool. lia. }
    rewrite Eo.
    pose proof (convert_esc_char_range c Hc) as Hr.
    rewrite (Z.mod_small (convert_esc_char c) 256) by lia.
    assert (Ew : wrap64 (wrap64 (i + 1) + 1) = i + (Z.of_nat 2 + 0)).
    { unfold wrap64. rewrite (Z.mod_small (i + 1)) by lia.
      rewrite Z.mod_small by lia. lia. }
    rewrite Ew, Nat2Z.id. split; [f_equal; lia|].
    apply Hframe; [lia|]. rewrite Hdrop. reflexivity.
  - destruct Hv as (Hds & Hstop & Hr). cbn [app] in Hd.
    pose proof Hds as Hds'. apply Forall_cons in Hds'. destruct Hds' as [Hd0 Hds'].
    unfold octal_digit in Hd0.
    destruct (byte_at_drop _ _ _ _ Hd) as [Hbyte _].
    pose proof (drop_next _ _ _ _ Hd) as Hd1.
    destruct (byte_at_drop _ _ _ _ Hd1) as [Hbyte1 _].
    pose proof (drop_next _ _ _ _ Hd1) as Hd2.
    destruct (data_at_char buf (Z.of_nat nm) 92 Hbyte ltac:(lia))
      as (_ & _ & _ & D92).
    destruct (data_at_char buf (Z.of_nat (S nm)) d0 Hbyte1 ltac:(lia))
      as (_ & _ & _ & Cc).
    specialize (D92 ltac:(lia)). specialize (Cc ltac:(lia)).
    cbn [escape_loop]. rewrite E1, D92.
    change (92 =? 0) with false. change (92 =? 92) with true. cbv iota.
    replace (Z.of_nat nm + 1) with (Z.of_nat (S nm)) by lia.
    assert (Ec0 : (d0 =? 0) = false) by (apply Z.eqb_neq; lia).
    rewrite Cc, Ec0. unfold process_hex_and_octal_values.
    rewrite (proj2 (Z.eqb_neq d0 120)) by lia.
    assert (Eo : (d0 >=? 48) && (d0 <? 56) = true).
    { apply andb_true_iff. split; [apply Z.geb_le | apply Z.ltb_lt]; lia. }
    rewrite Eo. unfold convert_octal_number. rewrite Cc.
    assert (Ew1 : wrap64 (i + 1) = i + 1) by (apply Z.mod_small; lia).
    rewrite Ew1.
    assert (Hfuel : (length ds < length buf)%nat).
    { pose proof (f_equal length Hd2) as Hl. rewrite length_drop, length_app in Hl.
      cbn [length] in Hl. lia. }
    rewrite (octal_loop_digits ds (length buf) buf (S nm) 0 d0 (i + 1) next tail
               Hd2 Hds' Hstop Hr Hfuel ltac:(lia) ltac:(lia)).
    rewrite wrap32_wrap64, wrap32_mod_256.
    assert (Ew : wrap64 (i + 1 + 1 + Z.of_nat (length ds) + 1)
                 = i + (Z.of_nat (S (S (length ds))) + 1))
      by (unfold wrap64; rewrite Z.mod_small by lia; lia).
    rewrite Ew, Nat2Z.id. unfold octal_value. cbn [fold_left].
    split; [f_equal; lia|].
    apply Hframe; [lia|]. rewrite Hdrop. cbn [drop]. apply drop_app_length.
  - destruct Hv as (Hds & Hstop & Hr). cbn [app] in Hd.
    pose proof Hds as Hds'. apply Forall_cons in Hds'. destruct Hds' as [Hd0 Hds'].
    assert (Hd0r : 1 <= d0 <= 127) by (unfold hex_digit in Hd0; lia).
    destruct (byte_at_drop _ _ _ _ Hd) as [Hbyte _].
    pose proof (drop_next _ _ _ _ Hd) as Hd1.
    destruct (byte_at_drop _ _ _ _ Hd1) as [Hbyte1 _].
    pose proof (drop_next _ _ _ _ Hd1) as Hd2.
    destruct (byte_at_drop _ _ _ _ Hd2) as [Hbyte2 _].
    pose proof (drop_next _ _ _ _ Hd2) as Hd3.
    destruct (data_at_char buf (Z.of_nat nm) 92 Hbyte ltac:(lia))
      as (_ & _ & _ & D92).
    destruct (data_at_char buf (Z.of_nat (S nm)) 120 Hbyte1 ltac:(lia))
      as (_ & _ & _ & Dx).
    destruct (data_at_char buf (Z.of_nat (S (S nm))) d0 Hbyte2 ltac:(lia))
      as (_ & _ & _ & Cc).
    specialize (D92 ltac:(lia)). specialize (Dx ltac:(lia)).
    specialize (Cc ltac:(lia)).
    cbn [escape_loop]. rewrite E1, D92.
    change (92 =? 0) with false. change (92 =? 92) with true. cbv iota.
    replace (Z.of_nat nm + 1) with (Z.of_nat (S nm)) by lia.
    rewrite Dx. change (120 =? 0) with false. cbv iota.
    unfold process_hex_and_octal_values. change (120 =? 120) with true. cbv iota.
    replace (Z.of_nat (S nm) + 1) with (Z.of_nat (S (S nm))) by lia.
    assert (Hcv : char_value d0 = d0).
    { unfold char_value. destruct (d0 >=? 128) eqn:E; zbool; lia. }
    destruct (convert_x_digit_hex d0 Hd0) as (_ & Hx & Hint).
    rewrite Hint in Hx.
    rewrite Hbyte2, Hcv, Hx. unfold convert_hex_number.
    rewrite Hbyte2, Hcv, Hx, Cc.
    assert (Ew1 : wrap64 (i + 1) = i + 1) by (apply Z.mod_small; lia).
    rewrite Ew1.
    assert (Hfuel : (length ds < length buf)%nat).
    { pose proof (f_equal length Hd3) as Hl. rewrite length_drop, length_app in Hl.
      cbn [length] in Hl. lia. }
    rewrite (hex_loop_digits ds (length buf) buf (S (S nm)) 0 d0 (i + 1) next tail
               Hd3 Hd0 Hds' Hstop Hr Hfuel ltac:(lia) ltac:(lia)).
    rewrite wrap32_mod_256.
    assert (Ew : wrap64 (i + 1 + 1 + Z.of_nat (length ds) + 1)
                 = i + (Z.of_nat (S (S (S (length ds)))) + 0))
      by (unfold wrap64; rewrite Z.mod_small by lia; lia).
    rewrite Ew, Nat2Z.id. unfold hex_value. cbn [fold_left].
    split; [f_equal; lia|].
    apply Hframe; [lia|]. rewrite Hdrop. cbn [drop]. apply drop_app_length.
Qed.

Lemma escape_loop_tokens (max_length : Z) (toks : list token) :
  max_length < 2 ^ 64 ->
  forall (fuel : nat) (buf : list Z) (nm no : nat) (i stop : Z) (tail : list Z),
    valid_text toks stop -> (no <= nm)%nat ->
    drop nm buf = text_of toks ++ stop :: tail ->
    0 <= i -> i + counted toks <= max_length ->
    exists buf',
      escape_loop (length toks + fuel) buf max_length (Z.of_nat nm) (Z.of_nat no) i
      = escape_loop fuel buf' max_length
          (Z.of_nat (nm + length (text_of toks))) (Z.of_nat (no + length toks))
          (i + counted toks) /\
      take (no + length toks) buf' = take no buf ++ map token_char toks /\
      drop (nm + length (text_of toks)) buf' = stop :: tail /\
      length buf' = length buf.
Proof.
  intros H64. induction toks as [|k toks IH];
    intros fuel buf nm no i stop tail Hv Hno Hd Hi Hmax.
  - exists buf. unfold counted. cbn [length text_of map concat app plus List.filter] in *.
    rewrite !Nat.add_0_r, !Z.add_0_r, app_nil_r. repeat split. exact Hd.
  - destruct Hv as [Hk Hv]. rewrite counted_cons in Hmax |- *.
    pose proof (counted_nonneg toks) as Hc0.
    change (text_of (k :: toks)) with (token_text k ++ text_of toks) in Hd |- *.
    rewrite <- app_assoc in Hd.
    destruct (text_starts toks stop tail) as [tl Htl]. rewrite Htl in Hd.
    destruct (escape_loop_token k (length toks + fuel) buf max_length nm no i
                (hd stop (text_of toks)) tl Hk Hno Hd Hi ltac:(lia) H64)
      as (Hstep & Htake & Hdrop & Hlen).
    set (buf1 := <[no := token_char k]> buf) in *.
    assert (Hposn : (1 <= length (token_text k))%nat) by (destruct k; cbn; lia).
    assert (Hpos : 1 <= token_count k).
    { unfold token_count. destruct (is_octal k); lia. }
    rewrite <- Htl in Hdrop.
    destruct (IH fuel buf1 (nm + length (token_text k))%nat (no + 1)%nat
                (i + token_count k) stop tail Hv ltac:(lia) Hdrop
                ltac:(lia) ltac:(lia))
      as (buf' & Hrun & Htake' & Hdrop' & Hlen').
    exists buf'. cbn [length]. rewrite length_app. split; [|split; [|split]].
    + change (S (length toks) + fuel)%nat with (S (length toks + fuel)).
      rewrite Hstep, Hrun. f_equal; lia.
    + replace (no + S (length toks))%nat with (no + 1 + length toks)%nat by lia.
      rewrite Htake', Htake, <- app_assoc. reflexivity.
    + rewrite <- Hdrop'. f_equal. lia.
    + rewrite Hlen'. exact Hlen.
Qed.

(** X6. A text made of plain characters, simple escapes, octal
    escapes and hexadecimal escapes is converted in place to one character
    per piece and closed by a zero byte: an escape letter gives its control
    code, another escaped character itself, a numeric escape the low eight
    bits of its number.  This holds when [max_length] is not below the
    number of characters of the text plus the number of its octal escapes;
    when it is equal to that number, whatever follows is cut off. *)
Theorem escape_sequences_are_decoded (toks : list token) (stop : Z)
    (tail : list Z) (max_length : Z) :
  valid_text toks stop ->
  counted toks <= max_length < 2 ^ 64 ->
  stop = 0 \/ counted toks = max_length ->
  exists buf',
    process_escape_sequences (text_of toks ++ stop :: tail) max_length = Some buf' /\
    take (length toks) buf' = map token_char toks /\
    buf' !! length toks = Some 0 /\
    length buf' = length (text_of toks ++ stop :: tail).
Proof.
  intros Hv Hmax Hstop. set (buf := text_of toks ++ stop :: tail).
  assert (Hlen : (length toks <= length (text_of toks))%nat).
  { clear. unfold text_of. induction toks as [|k toks IH]; [cbn; lia|].
    cbn [map concat length]. rewrite length_app.
    destruct k; cbn [token_text length]; lia. }
  assert (Hbuf : length buf = S (length (text_of toks) + length tail)).
  { unfold buf. rewrite length_app. cbn [length]. lia. }
  destruct (escape_loop_tokens max_length toks ltac:(lia)
              (S (length buf) - length toks) buf 0 0 0 stop tail Hv ltac:(lia)
              eq_refl ltac:(lia) ltac:(lia))
    as (buf' & Hrun & Htake & Hdrop & Hl).
  unfold process_escape_sequences. fold buf.
  replace (S (length buf)) with (length toks + (S (length buf) - length toks))%nat
    by lia.
  change (Z.of_nat 0) with 0 in Hrun. rewrite Hrun.
  cbn [plus take app] in Htake, Hdrop.
  destruct (byte_at_drop _ _ _ _ Hdrop) as [Hbyte Hlt].
  assert (Hend : escape_loop (S (length buf) - length toks) buf' max_length
                   (Z.of_nat (0 + length (text_of toks)))
                   (Z.of_nat (0 + length toks)) (0 + counted toks)
                 = Some (buf', Z.of_nat (length toks))).
  { destruct (S (length buf) - length toks)%nat as [|f] eqn:Ef; [lia|].
    cbn [escape_loop plus].
    destruct (0 + counted toks <? max_length) eqn:E; [|reflexivity]. zbool.
    destruct Hstop as [-> | Heq]; [|lia].
    rewrite (data_at_zero _ _ Hbyte). reflexivity. }
  rewrite Hend. exists (<[Z.to_nat (Z.of_nat (length toks)) := 0]> buf').
  rewrite Nat2Z.id. split; [reflexivity|].
  split; [rewrite take_insert_ge by lia; exact Htake|].
  split; [apply list_lookup_insert_eq; lia|].
  rewrite length_insert. exact Hl.
Qed.

End with_ctype.

(** [a\tb\x41\\] becomes [a], TAB, [b], [A], backslash. *)
Lemma escape_sequences_are_decoded_example :
  exists buf',
    process_escape_sequences (fun _ => false) (fun c => c)
      [97; 92; 116; 98; 92; 120; 52; 49; 92; 92; 0; 7] 100 = Some buf' /\
    take 5 buf' = [97; 9; 98; 65; 92] /\ buf' !! 5%nat = Some 0.
Proof.
  destruct (escape_sequences_are_decoded (fun _ => false) (fun c => c)
              [Plain 97; Esc 116; Plain 98; Hex 52 [49]; Esc 92] 0 [7] 100)
    as (buf' & H & Ht & H0 & _).
  - cbn [valid_text valid_token text_of map concat token_text app hd].
    unfold octal_digit, hex_digit.
    repeat split; try lia; repeat constructor; lia.
  - unfold counted. cbn. lia.
  - left. reflexivity.
  - exists buf'. split; [exact H|]. split; [exact Ht | exact H0].
Defined.

(** [\101BC] converted with [max_length] set to its length of six: the
    octal escape counts for five, and [C] is lost. *)
Example text_after_octal_escape_is_cut :
  process_escape_sequences (fun _ => false) (fun c => c)
    [92; 49; 48; 49; 66; 67; 0] 6
  = Some [65; 66; 0; 49; 66; 67; 0].
Proof. reflexivity. Qed.

(** Numeric escapes: [\101] and [\x41] are both [A]; the octal digits are
    not limited to three. *)
Example numeric_escapes :
  process_escape_sequences (fun _ => false) (fun c => c)
    [92; 49; 48; 49; 92; 120; 52; 49; 33; 0] 100
  = Some [65; 65; 33; 0; 92; 120; 52; 49; 33; 0].
Proof. reflexivity. Qed.

(** [\1234] is taken as one number, 0o1234 = 668, where C reads [\123]
    followed by [4]. *)
Lemma convert_octal_number_takes_all_digits_example :
  convert_octal_number [92; 49; 50; 51; 52; 0] 1 1 = Some (4, 5, 668).
Proof.
  apply (convert_octal_number_takes_all_digits [92; 49; 50; 51; 52; 0] 1 49
           [50; 51; 52] 0 [] 1).
  - reflexivity.
  - repeat constructor; unfold octal_digit; lia.
  - unfold octal_digit. lia.
  - lia.
  - lia.
  - simpl. lia.
Defined.

Lemma convert_hex_number_takes_all_digits_example :
  convert_hex_number (fun _ => false) (fun c => c)
    [92; 120; 52; 102; 33; 0] 2 1 120 = Some (3, 3, 0x4F).
Proof.
  apply (convert_hex_number_takes_all_digits (fun _ => false) (fun c => c)
           [92; 120; 52; 102; 33; 0] 2 52 [102] 33 [0] 1 120).
  - reflexivity.
  - repeat constructor; unfold hex_digit; lia.
  - unfold hex_digit. lia.
  - lia.
  - lia.
  - simpl. lia.
Defined.

End Escapes.


(** ** main.h: the enum table and the value registers *)

Inductive enums_type_t :=
| FILTER_TYPE
| OUT_FILE_TYPE
| IN_FILE_TYPE
| Y_TEXT_TYPE
| MEMO_TYPE.

Definition enums_type_eqb (a b : enums_type_t) : bool :=
  match a, b with
  | FILTER_TYPE, FILTER_TYPE | OUT_FILE_TYPE, OUT_FILE_TYPE
  | IN_FILE_TYPE, IN_FILE_TYPE | Y_TEXT_TYPE, Y_TEXT_TYPE
  | MEMO_TYPE, MEMO_TYPE => true
  | _, _ => false
  end.

(** The anonymous union of [enum_data_t]: one cell read through the member
    that was last written. *)
Inductive def_union :=
| filter_description (d : option (list Z))
| p_file (f : option Z)
| in_file_txt (t : option (list Z))
| memo_value (v : float).

Record enum_data_t := mk_enum_data {
  name : option (list Z);
  type : enums_type_t;
  vcd_data : option Z;
  file_name : option (list Z);
  payload : def_union
}.

(** A zero-initialised entry, as every entry of the global [g_msg.enums] is
    before the format files are parsed. *)
Definition enum_zero : enum_data_t :=
  mk_enum_data None FILTER_TYPE None None (filter_description None).

Definition enum_at (enums : list enum_data_t) (i : Z) : enum_data_t :=
  if i <? 0 then enum_zero else default enum_zero (enums !! Z.to_nat i).

Definition set_memo_value (e : enum_data_t) (v : float) : enum_data_t :=
  mk_enum_data (name e) (type e) (vcd_data e) (file_name e) (memo_value v).

(** [value_t]: the value being printed, in its three views. *)
Record value_t := mk_value {
  data_double : float;
  data_i64 : Z;
  data_u64 : Z;
  data_null : Z
}.

Definition value_zero : value_t := mk_value 0%float 0 0 0.

(** ** print_message.c: memo store *)

Module Memo.
Import Errors.

Section with_messages.
Context {M : messages_h}.

Definition save_to_memo (memo : Z) (enums : list enum_data_t) (value : value_t)
    (es : err_state) : list enum_data_t * err_state :=
  if (memo >=? NUMBER_OF_FILTER_BITS) && (memo <? MAX_ENUMS) then
    if enums_type_eqb (type (enum_at enums memo)) MEMO_TYPE then
      (<[Z.to_nat memo := set_memo_value (enum_at enums memo) (data_double value)]>
         enums, es)
    else
      (enums, save_internal_decoding_error INT_SET_MEMO_TYPE_IS_NOT_MEMO memo es)
  else
    (enums, save_internal_decoding_error INT_SET_MEMO_OUT_OF_RANGE memo es).

(** The condition under which the store is carried out. *)
Definition memo_store_allowed (memo : Z) (enums : list enum_data_t) : Prop :=
  NUMBER_OF_FILTER_BITS <= memo < MAX_ENUMS /\
  type (enum_at enums memo) = MEMO_TYPE.

Lemma enums_type_eqb_eq a b : enums_type_eqb a b = true <-> a = b.
Proof. destruct a, b; simpl; split; intros H; congruence. Qed.

Lemma save_internal_counts sys d2 es :
  total_errors (save_internal_decoding_error sys d2 es)
  = wrap32 (total_errors es + 1).
Proof.
  unfold save_internal_decoding_error, save_decoding_error.
  destruct (msg_error_counter es >=? MAX_ERRORS_IN_SINGLE_MESSAGE); reflexivity.
Qed.

Lemma enum_at_lookup enums i e :
  0 <= i -> enums !! Z.to_nat i = Some e -> enum_at enums i = e.
Proof.
  intros Hi He. unfold enum_at.
  destruct (i <? 0) eqn:E; [lia|]. rewrite He. reflexivity.
Qed.

Lemma enum_at_memo_in_table enums i :
  type (enum_at enums i) = MEMO_TYPE ->
  0 <= i /\ enums !! Z.to_nat i = Some (enum_at enums i).
Proof.
  unfold enum_at. destruct (i <? 0) eqn:E; [discriminate|].
  destruct (enums !! Z.to_nat i) eqn:L; simpl; [|discriminate].
  intros _. split; [lia | reflexivity].
Qed.

(** C10. A memo store writes only the [memo_value] member of entry [memo], and
    only when [32 <= memo < MAX_ENUMS] and the entry has type [MEMO_TYPE]; in
    every other case the enum table is returned unchanged and an internal
    decoding error is counted.  Either way an entry that is not of type
    [MEMO_TYPE] is never modified. *)
Theorem save_to_memo_writes_only_memo (memo : Z) (enums : list enum_data_t)
    (value : value_t) (es : err_state) :
  let r := save_to_memo memo enums value es in
  (memo_store_allowed memo enums ->
     fst r = <[Z.to_nat memo :=
                 set_memo_value (enum_at enums memo) (data_double value)]> enums /\
     snd r = es /\
     length (fst r) = length enums /\
     (forall j, j <> Z.to_nat memo -> fst r !! j = enums !! j) /\
     (exists e', fst r !! Z.to_nat memo = Some e' /\
        payload e' = memo_value (data_double value) /\
        name e' = name (enum_at enums memo) /\
        type e' = MEMO_TYPE /\
        vcd_data e' = vcd_data (enum_at enums memo) /\
        file_name e' = file_name (enum_at enums memo))) /\
  (~ memo_store_allowed memo enums ->
     fst r = enums /\
     total_errors (snd r) = wrap32 (total_errors es + 1) /\
     exists sys, snd r = save_internal_decoding_error sys memo es) /\
  (forall j e, enums !! j = Some e -> type e <> MEMO_TYPE -> fst r !! j = Some e).
Proof.
  unfold memo_store_allowed, save_to_memo. simpl.
  destruct ((memo >=? NUMBER_OF_FILTER_BITS) && (memo <? MAX_ENUMS)) eqn:Hrange.
  - apply andb_true_iff in Hrange. destruct Hrange as [H1 H2].
    apply Z.geb_le in H1. apply Z.ltb_lt in H2.
    destruct (enums_type_eqb (type (enum_at enums memo)) MEMO_TYPE) eqn:Hty.
    + apply enums_type_eqb_eq in Hty.
      destruct (enum_at_memo_in_table enums memo Hty) as [H0 Hin].
      simpl. split; [|split].
      * intros _. repeat split.
        -- apply length_insert.
        -- intros j Hj. apply list_lookup_insert_ne. congruence.
        -- eexists. split.
           ++ apply list_lookup_insert_eq. eapply lookup_lt_Some. exact Hin.
           ++ simpl. repeat split. exact Hty.
      * intros Hn. exfalso. apply Hn. split; [lia | exact Hty].
      * intros j e Hj Hne.
        destruct (decide (j = Z.to_nat memo)) as [->|Hd].
        -- rewrite Hin in Hj. injection Hj as <-. contradiction.
        -- rewrite list_lookup_insert_ne by congruence. exact Hj.
    + simpl. split; [|split].
      * intros [_ Hm]. apply enums_type_eqb_eq in Hm. congruence.
      * intros _. split; [reflexivity|]. split; [apply save_internal_counts|].
        eexists. reflexivity.
      * intros j e Hj _. exact Hj.
  - simpl. split; [|split].
    + intros [[H1 H2] _].
      apply andb_false_iff in Hrange. destruct Hrange as [H|H]; zbool; lia.
    + intros _. split; [reflexivity|]. split; [apply save_internal_counts|].
      eexists. reflexivity.
    + intros j e Hj _. exact Hj.
Qed.

End with_messages.
End Memo.

(** ** format.h: value descriptors *)

Inductive fmt_type_t :=
| PRINT_PLAIN_TEXT | PRINT_STRING | PRINT_SELECTED_TEXT | PRINT_UINT64
| PRINT_INT64 | PRINT_DOUBLE | PRINT_BINARY | PRINT_TIMESTAMP
| PRINT_dTIMESTAMP | PRINT_MSG_NO | PRINT_HEX1U | PRINT_HEX2U | PRINT_HEX4U
| PRINT_BIN_TO_FILE | PRINT_DATE | PRINT_MSG_FMT_ID_NAME.

Inductive data_type_t :=
| VALUE_AUTO | VALUE_UINT64 | VALUE_INT64 | VALUE_DOUBLE | VALUE_STRING
| VALUE_TIMESTAMP | VALUE_dTIMESTAMP | VALUE_MEMO | VALUE_TIME_DIFF
| VALUE_MESSAGE_NO.

(** [value_format_t] without the statistics pointer and the link to the next
    descriptor (the list of descriptors is a Rocq list). *)
Record value_format_t := mk_value_format {
  fmt_string : option (list Z);
  out_file : Z;
  in_file : Z;
  get_memo : Z;
  put_memo : Z;
  fmt_id_timer : Z;
  bit_address : Z;
  data_size : Z;
  data_type : data_type_t;
  fmt_type : fmt_type_t;
  print_copy_to_main_log : bool;
  mult : float;
  offset : float
}.

(** ** print_message.c: bit-field extraction *)

Module Extract.
Import Errors.

(** Byte [i] of the assembled message, an array of 32-bit words read through
    a [uint8_t] pointer on a little-endian machine (the sources build for
    64-bit Windows only). *)
Definition msg_byte (assembled_msg : list Z) (i : Z) : Z :=
  Z.land (Z.shiftr (word_at assembled_msg (i / 4)) (8 * (i mod 4))) 255.

Definition to_int64 (z : Z) : Z := if z <? 2 ^ 63 then z else z - 2 ^ 64.

(** [extract_bit_sized_value]; the second component lists the byte addresses
    read, in order. *)
Fixpoint extract_bit_sized_value (size : nat) (address : Z) (message : list Z)
    (value : Z) : Z * list Z :=
  match size with
  | O => (value, [])
  | S size' =>
      let bit := Z.land address 7 in
      let byte_address := Z.shiftr address 3 in
      let value := Z.shiftr value 1 in
      let value :=
        if Z.land (msg_byte message byte_address) (Z.shiftl 1 bit) =? 0
        then value
        else Z.lor value (Z.shiftl 1 63) in
      let '(v, reads) :=
        extract_bit_sized_value size' (wrap32 (address + 1)) message value in
      (v, byte_address :: reads)
  end.

(** The byte-wise [do ... while (--size != 0)] loop of
    [extract_value_from_message]; it is entered with a size that is a
    nonzero multiple of 8 bits, so it runs [size / 8] times. *)
Fixpoint extract_bytes (count : nat) (byte_address : Z) (message : list Z)
    (value : Z) : Z * list Z :=
  match count with
  | O => (value, [])
  | S count' =>
      let value :=
        Z.lor (Z.shiftr value 8) (Z.shiftl (msg_byte message byte_address) 56) in
      let '(v, reads) := extract_bytes count' (byte_address + 1) message value in
      (v, byte_address :: reads)
  end.

Section with_messages.
Context {M : messages_h}.

(** [extract_value_from_message]: the new value registers, the new error
    state and the byte addresses read from the message. *)
Definition extract_value_from_message (fmt : value_format_t) (asm_size : Z)
    (assembled_msg : list Z) (value : value_t) (es : err_state)
    : value_t * err_state * list Z :=
  let size := data_size fmt in
  let address := bit_address fmt in
  if size =? 0 then (value, es, [])
  else if size >? 64 then
    (value,
     save_decoding_error ERR_DECODE_VALUE_SIZE_TOO_LARGE size 64 (fmt_string fmt) es,
     [])
  else
    let end_address := wrap32 (size + address) in
    if end_address >? wrap32 (asm_size * 8) then
      (value,
       save_decoding_error ERR_DECODE_VALUE_NOT_IN_MESSAGE end_address
         (wrap32 (asm_size * 8)) (fmt_string fmt) es,
       [])
    else
      let '(v, reads) :=
        if Z.land (Z.lor size address) 7 =? 0
        then extract_bytes (Z.to_nat (Z.shiftr size 3)) (Z.shiftr address 3)
               assembled_msg 0
        else extract_bit_sized_value (Z.to_nat size) address assembled_msg 0 in
      let shift := 64 - data_size fmt in
      (mk_value (data_double value) (Z.shiftr (to_int64 v) shift)
         (Z.shiftr v shift) (data_null value),
       es, reads).

Lemma extract_bytes_reads count byte_address message value :
  Forall (fun a => byte_address <= a < byte_address + Z.of_nat count)
    (snd (extract_bytes count byte_address message value)).
Proof.
  revert byte_address value.
  induction count as [|n IH]; intros a v; simpl; [constructor|].
  specialize (IH (a + 1)
    (Z.lor (Z.shiftr v 8) (Z.shiftl (msg_byte message a) 56))).
  destruct (extract_bytes n (a + 1) message _) as [v' reads]. simpl in *.
  constructor; [lia|].
  eapply Forall_impl; [exact IH|]. simpl. intros x Hx. lia.
Qed.

Lemma extract_bits_reads size address message value :
  0 <= address -> address + Z.of_nat size <= 2 ^ 32 ->
  Forall (fun a => 0 <= a /\ 8 * a < address + Z.of_nat size)
    (snd (extract_bit_sized_value size address message value)).
Proof.
  revert address value.
  induction size as [|n IH]; intros a v Ha Hn; simpl; [constructor|].
  set (v1 := if Z.land (msg_byte message (Z.shiftr a 3))
                  (Z.shiftl 1 (Z.land a 7)) =? 0
             then Z.shiftr v 1 else Z.lor (Z.shiftr v 1) (Z.shiftl 1 63)).
  destruct n as [|n'].
  - simpl. constructor; [|constructor].
    rewrite Z.shiftr_div_pow2 by lia. change (2 ^ 3) with 8.
    pose proof (Z.div_mod a 8). pose proof (Z.mod_pos_bound a 8).
    split; [apply Z.div_pos; lia | lia].
  - assert (Hw : wrap32 (a + 1) = a + 1) by (apply wrap32_small; lia).
    rewrite Hw. specialize (IH (a + 1) v1).
    destruct (extract_bit_sized_value (S n') (a + 1) message v1) as [v' reads].
    simpl in *. constructor.
    + rewrite Z.shiftr_div_pow2 by lia. change (2 ^ 3) with 8.
      pose proof (Z.div_mod a 8). pose proof (Z.mod_pos_bound a 8).
      split; [apply Z.div_pos; lia | lia].
    + eapply Forall_impl; [apply IH; lia|]. simpl. intros x Hx. lia.
Qed.

Lemma save_counts code d1 d2 text es :
  total_errors (save_decoding_error code d1 d2 text es)
  = wrap32 (total_errors es + 1).
Proof.
  unfold save_decoding_error.
  destruct (msg_error_counter es >=? MAX_ERRORS_IN_SINGLE_MESSAGE); reflexivity.
Qed.

(** X25. For a slot whose [bit_address + data_size] does not wrap around 32
    bits: a slot of size 0 reads nothing and records no error; a slot of at
    least one bit whose size exceeds 64 or whose end lies beyond the message
    reads no message byte, leaves the value registers as they were and counts
    one decoding error; and in every case each byte read lies inside the
    assembled message. *)
Theorem extraction_stays_in_message (fmt : value_format_t) (asm_size : Z)
    (assembled_msg : list Z) (value : value_t) (es : err_state) :
  0 <= data_size fmt ->
  0 <= bit_address fmt ->
  bit_address fmt + data_size fmt < 2 ^ 32 ->
  0 <= asm_size < 2 ^ 29 ->
  let r := extract_value_from_message fmt asm_size assembled_msg value es in
  (data_size fmt = 0 -> r = (value, es, [])) /\
  (1 <= data_size fmt ->
   data_size fmt > 64 \/ bit_address fmt + data_size fmt > 8 * asm_size ->
   snd r = [] /\
   fst (fst r) = value /\
   (exists code d1 d2,
      snd (fst r) = save_decoding_error code d1 d2 (fmt_string fmt) es) /\
   total_errors (snd (fst r)) = wrap32 (total_errors es + 1)) /\
  (data_size fmt <= 64 -> bit_address fmt + data_size fmt <= 8 * asm_size ->
   snd (fst r) = es) /\
  Forall (fun a => 0 <= a < asm_size) (snd r).
Proof.
  intros Hs Ha Hsum Hasm r. subst r. unfold extract_value_from_message.
  assert (Hend : wrap32 (data_size fmt + bit_address fmt)
                 = bit_address fmt + data_size fmt)
    by (rewrite wrap32_small; lia).
  assert (Hmsg : wrap32 (asm_size * 8) = 8 * asm_size)
    by (rewrite wrap32_small; lia).
  rewrite Hend, Hmsg.
  destruct (data_size fmt =? 0) eqn:E0; zbool.
  { repeat split; try reflexivity; try lia; try constructor. }
  destruct (data_size fmt >? 64) eqn:E64; zbool.
  { simpl. split; [lia|]. split.
    - intros _ _. repeat split; [repeat eexists | apply save_counts].
    - split; [lia | constructor]. }
  destruct (bit_address fmt + data_size fmt >? 8 * asm_size) eqn:Eend; zbool.
  { simpl. split; [lia|]. split.
    - intros _ _. repeat split; [repeat eexists | apply save_counts].
    - split; [lia | constructor]. }
  split; [lia|]. split; [lia|].
  destruct (Z.land (Z.lor (data_size fmt) (bit_address fmt)) 7 =? 0) eqn:Eal.
  - pose proof (extract_bytes_reads (Z.to_nat (Z.shiftr (data_size fmt) 3))
      (Z.shiftr (bit_address fmt) 3) assembled_msg 0) as Hr.
    destruct (extract_bytes _ _ _ _) as [v reads]. simpl in *.
    split; [reflexivity|].
    eapply Forall_impl; [exact Hr|]. simpl. intros x Hx.
    rewrite !Z.shiftr_div_pow2 in Hx by lia. change (2 ^ 3) with 8 in Hx.
    assert (0 <= data_size fmt / 8) by (apply Z.div_pos; lia).
    assert (0 <= bit_address fmt / 8) by (apply Z.div_pos; lia).
    rewrite Z2Nat.id in Hx by lia.
    pose proof (Z.div_mod (data_size fmt) 8).
    pose proof (Z.mod_pos_bound (data_size fmt) 8).
    pose proof (Z.div_mod (bit_address fmt) 8).
    pose proof (Z.mod_pos_bound (bit_address fmt) 8).
    lia.
  - pose proof (extract_bits_reads (Z.to_nat (data_size fmt)) (bit_address fmt)
      assembled_msg 0) as Hr.
    destruct (extract_bit_sized_value _ _ _ _) as [v reads]. simpl in *.
    split; [reflexivity|].
    eapply Forall_impl; [apply Hr; lia|]. simpl. intros x Hx.
    rewrite Z2Nat.id in Hx by lia. lia.
Qed.

End with_messages.

Example extract_16_bits_at_16 :
  extract_value_from_message (M := messages_example)
    (mk_value_format (Some []) 0 0 0 0 0 16 16 VALUE_UINT64 PRINT_UINT64 false
       0%float 0%float)
    4 [0x00640000] value_zero (mk_err_state 0 [] [] 0 0)
  = (mk_value 0%float 100 100 0, mk_err_state 0 [] [] 0 0, [2; 3]).
Proof. reflexivity. Qed.

Example extract_5_bits_at_3 :
  extract_value_from_message (M := messages_example)
    (mk_value_format (Some []) 0 0 0 0 0 3 5 VALUE_INT64 PRINT_INT64 false
       0%float 0%float)
    4 [0x000000F8] value_zero (mk_err_state 0 [] [] 0 0)
  = (mk_value 0%float (-1) 31 0, mk_err_state 0 [] [] 0 0, [0; 0; 0; 0; 0]).
Proof. reflexivity. Qed.

Definition whole_message_slot : value_format_t :=
  mk_value_format (Some [37; 115]) 0 0 0 0 0 64 0 VALUE_STRING PRINT_STRING false
    0%float 0%float.

Definition no_errors : err_state :=
  mk_err_state 0 (replicate 261 0) (replicate 10 (mk_error_log 0 0 0 0 None)) 0 0.

(** A slot of size 0 at bit address 64 of a 4-byte message: its end lies
    beyond the message, and no decoding error is recorded. *)
Lemma size_zero_slot_beyond_message_records_no_error :
  bit_address whole_message_slot + data_size whole_message_slot > 8 * 4 /\
  extract_value_from_message (M := messages_example) whole_message_slot 4
    [0x64636261] value_zero no_errors
  = (value_zero, no_errors, []).
Proof. split; [reflexivity | reflexivity]. Qed.

Definition slot_beyond_message : value_format_t :=
  mk_value_format (Some [37; 117]) 0 0 0 0 0 24 16 VALUE_UINT64 PRINT_UINT64 false
    0%float 0%float.

Lemma extraction_stays_in_message_example :
  let r := extract_value_from_message (M := messages_example) slot_beyond_message
             4 [0x64636261] value_zero no_errors in
  snd r = [] /\ fst (fst r) = value_zero /\ total_errors (snd (fst r)) = 1.
Proof.
  destruct (extraction_stays_in_message (M := messages_example)
    slot_beyond_message 4 [0x64636261] value_zero no_errors)
    as (_ & H & _).
  - simpl. lia.
  - simpl. lia.
  - simpl. lia.
  - lia.
  - destruct H as (H1 & H2 & _ & H4).
    + simpl. lia.
    + right. simpl. lia.
    + split; [exact H1|]. split; [exact H2 | exact H4].
Defined.

(** The slot [[4294967280:32u]]: 32 bits at bit address [2 ^ 32 - 16]. *)
Definition wrapping_slot : value_format_t :=
  mk_value_format (Some [37; 117]) 0 0 0 0 0 0xFFFFFFF0 32 VALUE_UINT64
    PRINT_UINT64 false 0%float 0%float.

(** C9. The slot [[4294967280:32u]] on a message of four bytes: the end of
    the slot lies beyond the message, but [size + address] is computed in 32
    bits and wraps to 16, so the range check of [extract_value_from_message]
    is passed.  No decoding error is recorded, and the four bytes read are
    at the addresses from [0x1FFFFFFE] on, all outside the message. *)
Theorem extraction_wraps_around :
  let r := extract_value_from_message (M := messages_example) wrapping_slot
             4 [0x64636261] value_zero no_errors in
  data_size wrapping_slot <= 64 /\
  bit_address wrapping_slot + data_size wrapping_slot > 8 * 4 /\
  wrap32 (data_size wrapping_slot + bit_address wrapping_slot) = 16 /\
  snd (fst r) = no_errors /\
  snd r = [0x1FFFFFFE; 0x1FFFFFFF; 0x20000000; 0x20000001] /\
  Forall (fun a => 4 <= a) (snd r).
Proof.
  cbv zeta. split; [cbn; lia|]. split; [reflexivity|]. split; [reflexivity|].
  split; [reflexivity|]. split; [reflexivity|].
  change (snd (extract_value_from_message (M := messages_example) wrapping_slot
                 4 [0x64636261] value_zero no_errors))
    with [0x1FFFFFFE; 0x1FFFFFFF; 0x20000000; 0x20000001].
  repeat constructor; lia.
Qed.

(** *** The extracted value *)

(** Bit [a] of the message, counted from bit 0 of byte 0. *)
Definition msg_bit (assembled_msg : list Z) (a : Z) : bool :=
  Z.testbit (msg_byte assembled_msg (a / 8)) (a mod 8).

Lemma msg_byte_range m i : 0 <= msg_byte m i < 256.
Proof.
  unfold msg_byte. change 255 with (Z.ones 8). rewrite Z.land_ones by lia.
  apply Z.mod_pos_bound. lia.
Qed.

Lemma land_bit_test x b :
  0 <= b -> (Z.land x (Z.shiftl 1 b) =? 0) = negb (Z.testbit x b).
Proof.
  intros Hb. rewrite Z.shiftl_1_l.
  destruct (Z.testbit x b) eqn:E; cbn [negb].
  - apply Z.eqb_neq. intros H0.
    assert (Ht : Z.testbit (Z.land x (2 ^ b)) b = true)
      by (rewrite Z.land_spec, E, Z.pow2_bits_true by lia; reflexivity).
    rewrite H0, Z.bits_0 in Ht. discriminate.
  - apply Z.eqb_eq. apply Z.bits_inj'. intros n Hn.
    rewrite Z.land_spec, Z.bits_0, Z.pow2_bits_eqb by lia.
    destruct (Z.eqb_spec b n) as [-> | Hne]; [rewrite E; reflexivity|].
    apply andb_false_r.
Qed.

Lemma testbit_above v n j : 0 <= v < 2 ^ n -> n <= j -> Z.testbit v j = false.
Proof.
  intros Hv Hj. destruct (Z.eq_dec v 0) as [-> | Hne]; [apply Z.bits_0|].
  apply Z.bits_above_log2; [lia|].
  assert (Z.log2 v < n) by (apply Z.log2_lt_pow2; lia). lia.
Qed.

Lemma below_pow2 v n :
  0 <= n -> 0 <= v -> (forall j, n <= j -> Z.testbit v j = false) -> v < 2 ^ n.
Proof.
  intros Hn Hv Hbits.
  destruct (Z_lt_le_dec v (2 ^ n)) as [Hlt | Hge]; [exact Hlt|]. exfalso.
  assert (Hpos : 0 < v) by (pose proof (Z.pow_pos_nonneg 2 n); lia).
  assert (Hlog : n <= Z.log2 v) by (apply Z.log2_le_pow2; lia).
  pose proof (Z.bit_log2 v Hpos) as Hb. rewrite Hbits in Hb by lia. discriminate.
Qed.

(** The bit loop: the bits of the message enter at bit 63 and move down. *)
Lemma extract_bits_value (size : nat) :
  forall address m v0,
    0 <= address -> 0 <= v0 < 2 ^ 64 -> address + Z.of_nat size <= 2 ^ 32 ->
    Z.of_nat size <= 64 ->
    let v := fst (extract_bit_sized_value size address m v0) in
    0 <= v < 2 ^ 64 /\
    forall j, 0 <= j < 64 ->
      Z.testbit v j
      = if j <? 64 - Z.of_nat size then Z.testbit v0 (j + Z.of_nat size)
        else msg_bit m (address + (j - (64 - Z.of_nat size))).
Proof.
  induction size as [|n IH]; intros address m v0 Ha Hv Hmax Hsz v; subst v.
  - cbn [extract_bit_sized_value fst]. split; [exact Hv|]. intros j Hj.
    destruct (j <? 64 - Z.of_nat 0) eqn:E; zbool; [|lia]. f_equal. lia.
  - cbn [extract_bit_sized_value].
    rewrite land_bit_test by (apply Z.land_nonneg; right; lia).
    set (b := Z.testbit (msg_byte m (Z.shiftr address 3)) (Z.land address 7)).
    assert (Hb : b = msg_bit m address).
    { subst b. unfold msg_bit. rewrite Z.shiftr_div_pow2 by lia.
      change 7 with (Z.ones 3). rewrite Z.land_ones by lia. reflexivity. }
    set (v1 := if negb b then Z.shiftr v0 1 else Z.lor (Z.shiftr v0 1) (Z.shiftl 1 63)).
    assert (Hv1 : 0 <= v1 < 2 ^ 64 /\
                  forall j, 0 <= j < 64 ->
                    Z.testbit v1 j = if j =? 63 then b else Z.testbit v0 (j + 1)).
    { assert (Hs : 0 <= Z.shiftr v0 1 < 2 ^ 63).
      { rewrite Z.shiftr_div_pow2 by lia. change (2 ^ 1) with 2.
        Z.div_mod_to_equations. lia. }
      assert (Hbits : forall j, 0 <= j < 64 ->
                Z.testbit v1 j = if j =? 63 then b else Z.testbit v0 (j + 1)).
      { intros j Hj. subst v1. destruct b; cbn [negb].
        - rewrite Z.lor_spec, Z.shiftr_spec, Z.shiftl_1_l, Z.pow2_bits_eqb by lia.
          destruct (j =? 63) eqn:E; zbool.
          + subst j. rewrite Z.eqb_refl. apply orb_true_r.
          + assert (E2 : (63 =? j) = false) by (apply Z.eqb_neq; lia).
            rewrite E2. apply orb_false_r.
        - rewrite Z.shiftr_spec by lia.
          destruct (j =? 63) eqn:E; zbool; [|reflexivity].
          subst j. apply (testbit_above v0 64); lia. }
      split; [|exact Hbits].
      subst v1. destruct b; cbn [negb]; [|lia].
      split; [apply Z.lor_nonneg; split; [lia | rewrite Z.shiftl_1_l; lia]|].
      apply below_pow2; [lia | |].
      - apply Z.lor_nonneg. split; [lia | rewrite Z.shiftl_1_l; lia].
      - intros j Hj. rewrite Z.lor_spec, Z.shiftl_1_l, Z.pow2_bits_eqb by lia.
        rewrite (testbit_above (Z.shiftr v0 1) 63) by lia.
        destruct (63 =? j) eqn:E; zbool; [lia | reflexivity]. }
    destruct Hv1 as [Hr1 Hb1].
    destruct n as [|n'].
    + cbn [extract_bit_sized_value fst]. split; [exact Hr1|]. intros j Hj.
      rewrite Hb1 by lia.
      destruct (j =? 63) eqn:E; zbool.
      * subst j. destruct (63 <? 64 - Z.of_nat 1) eqn:E2; zbool; [lia|].
        rewrite Hb. f_equal. lia.
      * destruct (j <? 64 - Z.of_nat 1) eqn:E2; zbool; [|lia]. f_equal.
    + rewrite (wrap32_small (address + 1)) by lia.
      specialize (IH (address + 1) m v1 ltac:(lia) Hr1 ltac:(lia) ltac:(lia)).
      cbv zeta in IH.
      destruct (extract_bit_sized_value (S n') (address + 1) m v1) as [v reads].
      cbn [fst] in *. destruct IH as [I1 I2]. split; [exact I1|].
      intros j Hj. rewrite I2 by lia.
      destruct (j <? 64 - Z.of_nat (S n')) eqn:E1; zbool.
      * rewrite Hb1 by lia.
        destruct (j + Z.of_nat (S n') =? 63) eqn:E2; zbool.
        -- destruct (j <? 64 - Z.of_nat (S (S n'))) eqn:E3; zbool; [lia|].
           rewrite Hb. f_equal. lia.
        -- destruct (j <? 64 - Z.of_nat (S (S n'))) eqn:E3; zbool; [|lia].
           f_equal. lia.
      * destruct (j <? 64 - Z.of_nat (S (S n'))) eqn:E3; zbool; [lia|].
        f_equal. lia.
Qed.

(** The byte loop: the bytes of the message enter at bits 56 to 63. *)
Lemma extract_bytes_value (count : nat) :
  forall byte_address m v0,
    0 <= byte_address -> 0 <= v0 < 2 ^ 64 -> 8 * Z.of_nat count <= 64 ->
    let v := fst (extract_bytes count byte_address m v0) in
    0 <= v < 2 ^ 64 /\
    forall j, 0 <= j < 64 ->
      Z.testbit v j
      = if j <? 64 - 8 * Z.of_nat count then Z.testbit v0 (j + 8 * Z.of_nat count)
        else msg_bit m (8 * byte_address + (j - (64 - 8 * Z.of_nat count))).
Proof.
  induction count as [|n IH]; intros ba m v0 Ha Hv Hsz v; subst v.
  - cbn [extract_bytes fst]. split; [exact Hv|]. intros j Hj.
    destruct (j <? 64 - 8 * Z.of_nat 0) eqn:E; zbool; [|lia]. f_equal. lia.
  - cbn [extract_bytes].
    set (v1 := Z.lor (Z.shiftr v0 8) (Z.shiftl (msg_byte m ba) 56)).
    pose proof (msg_byte_range m ba) as Hbyte.
    assert (Hs : 0 <= Z.shiftr v0 8 < 2 ^ 56).
    { rewrite Z.shiftr_div_pow2 by lia. change (2 ^ 8) with 256.
      Z.div_mod_to_equations. lia. }
    assert (Hb1 : forall j, 0 <= j ->
              Z.testbit v1 j
              = if j <? 56 then Z.testbit v0 (j + 8)
                else Z.testbit (msg_byte m ba) (j - 56)).
    { intros j Hj. subst v1. rewrite Z.lor_spec, Z.shiftr_spec by lia.
      destruct (j <? 56) eqn:E; zbool.
      - rewrite Z.shiftl_spec_low by lia. apply orb_false_r.
      - rewrite Z.shiftl_spec by lia.
        rewrite (testbit_above v0 64) by lia. reflexivity. }
    assert (Hr1 : 0 <= v1 < 2 ^ 64).
    { assert (0 <= v1).
      { subst v1. apply Z.lor_nonneg. split; [lia|]. apply Z.shiftl_nonneg. lia. }
      split; [assumption|]. apply below_pow2; [lia | assumption |].
      intros j Hj. rewrite Hb1 by lia.
      destruct (j <? 56) eqn:E; zbool; [lia|].
      apply (testbit_above _ 8); lia. }
    specialize (IH (ba + 1) m v1 ltac:(lia) Hr1 ltac:(lia)). cbv zeta in IH.
    destruct (extract_bytes n (ba + 1) m v1) as [v reads].
    cbn [fst] in *. destruct IH as [I1 I2]. split; [exact I1|].
    intros j Hj. rewrite I2 by lia.
    destruct (j <? 64 - 8 * Z.of_nat n) eqn:E1; zbool.
    + rewrite Hb1 by lia.
      destruct (j + 8 * Z.of_nat n <? 56) eqn:E2; zbool.
      * destruct (j <? 64 - 8 * Z.of_nat (S n)) eqn:E3; zbool; [|lia].
        f_equal. lia.
      * destruct (j <? 64 - 8 * Z.of_nat (S n)) eqn:E3; zbool; [lia|].
        unfold msg_bit.
        replace (8 * ba + (j - (64 - 8 * Z.of_nat (S n))))
          with ((j + 8 * Z.of_nat n - 56) + ba * 8) by lia.
        rewrite Z.div_add, Z.mod_add by lia.
        rewrite Z.div_small, Z.mod_small by lia. reflexivity.
    + destruct (j <? 64 - 8 * Z.of_nat (S n)) eqn:E3; zbool; [lia|].
      f_equal. lia.
Qed.

Lemma aligned_size_and_address s a :
  0 <= s -> 0 <= a -> Z.land (Z.lor s a) 7 = 0 -> s mod 8 = 0 /\ a mod 8 = 0.
Proof.
  intros Hs Ha H. rewrite Z.land_lor_distr_l in H.
  apply Z.lor_eq_0_iff in H. destruct H as [H1 H2].
  change 7 with (Z.ones 3) in H1, H2. rewrite Z.land_ones in H1, H2 by lia.
  split; assumption.
Qed.

Lemma testbit_63 v : 0 <= v < 2 ^ 64 -> Z.testbit v 63 = negb (v <? 2 ^ 63).
Proof.
  intros Hv. destruct (v <? 2 ^ 63) eqn:E; zbool; cbn [negb].
  - apply (testbit_above v 63); lia.
  - apply Z.testbit_true; [lia|].
    assert (v / 2 ^ 63 = 1) by (Z.div_mod_to_equations; lia).
    rewrite H. reflexivity.
Qed.

Section with_messages_value.
Context {M : messages_h}.

(** X7. For a slot of 1 to 64 bits that lies inside the message,
    [extract_value_from_message] records no error and leaves in [data_u64]
    the bit field of the message: bit [k] of the value is bit
    [bit_address + k] of the message, counted from bit 0 of byte 0, and the
    bits from [data_size] on are zero; [data_i64] is the same field with its
    top bit as the sign.  The byte loop and the bit loop give the same
    value. *)
Theorem extracted_value_is_the_bit_field (fmt : value_format_t) (asm_size : Z)
    (assembled_msg : list Z) (value : value_t) (es : err_state) :
  1 <= data_size fmt <= 64 ->
  0 <= bit_address fmt ->
  bit_address fmt + data_size fmt <= 8 * asm_size ->
  0 <= asm_size < 2 ^ 29 ->
  let r := extract_value_from_message fmt asm_size assembled_msg value es in
  let u := data_u64 (fst (fst r)) in
  snd (fst r) = es /\
  data_double (fst (fst r)) = data_double value /\
  0 <= u < 2 ^ data_size fmt /\
  (forall k, 0 <= k < data_size fmt ->
     Z.testbit u k = msg_bit assembled_msg (bit_address fmt + k)) /\
  data_i64 (fst (fst r))
  = (if Z.testbit u (data_size fmt - 1) then u - 2 ^ data_size fmt else u).
Proof.
  intros Hs Ha Hend Hasm r u. subst u r. unfold extract_value_from_message.
  rewrite (wrap32_small (data_size fmt + bit_address fmt)) by lia.
  rewrite (wrap32_small (asm_size * 8)) by lia.
  destruct (data_size fmt =? 0) eqn:E0; zbool; [lia|].
  destruct (data_size fmt >? 64) eqn:E64; zbool; [lia|].
  destruct (data_size fmt + bit_address fmt >? asm_size * 8) eqn:Ee; zbool; [lia|].
  assert (Hv : exists v,
            0 <= v < 2 ^ 64 /\
            (forall j, 0 <= j < 64 ->
               Z.testbit v j
               = if j <? 64 - data_size fmt then false
                 else msg_bit assembled_msg
                        (bit_address fmt + (j - (64 - data_size fmt)))) /\
            fst (if Z.land (Z.lor (data_size fmt) (bit_address fmt)) 7 =? 0
                 then extract_bytes (Z.to_nat (Z.shiftr (data_size fmt) 3))
                        (Z.shiftr (bit_address fmt) 3) assembled_msg 0
                 else extract_bit_sized_value (Z.to_nat (data_size fmt))
                        (bit_address fmt) assembled_msg 0) = v).
  { destruct (Z.land (Z.lor (data_size fmt) (bit_address fmt)) 7 =? 0) eqn:Eal; zbool.
    - assert (Hs0 : 0 <= data_size fmt) by lia.
      destruct (aligned_size_and_address _ _ Hs0 Ha Eal) as [Hsm Ham].
      rewrite !Z.shiftr_div_pow2 by lia. change (2 ^ 3) with 8.
      assert (Hs8 : data_size fmt = 8 * (data_size fmt / 8))
        by (Z.div_mod_to_equations; lia).
      assert (Ha8 : bit_address fmt = 8 * (bit_address fmt / 8))
        by (Z.div_mod_to_equations; lia).
      destruct (extract_bytes_value (Z.to_nat (data_size fmt / 8))
                  (bit_address fmt / 8) assembled_msg 0) as [V1 V2];
        [Z.div_mod_to_equations; lia | lia
         | rewrite Z2Nat.id by (Z.div_mod_to_equations; lia); lia |].
      eexists. split; [exact V1|]. split; [|reflexivity].
      intros j Hj. rewrite V2 by lia.
      rewrite Z2Nat.id by (Z.div_mod_to_equations; lia).
      rewrite <- Hs8, <- Ha8. rewrite Z.bits_0. reflexivity.
    - destruct (extract_bits_value (Z.to_nat (data_size fmt)) (bit_address fmt)
                  assembled_msg 0) as [V1 V2];
        [exact Ha | lia | rewrite Z2Nat.id by lia; lia
         | rewrite Z2Nat.id by lia; lia |].
      eexists. split; [exact V1|]. split; [|reflexivity].
      intros j Hj. rewrite V2 by lia. rewrite Z2Nat.id by lia.
      rewrite Z.bits_0. reflexivity. }
  destruct Hv as (v & Hvr & Hvb & Hfst).
  destruct (if Z.land (Z.lor (data_size fmt) (bit_address fmt)) 7 =? 0
            then _ else _) as [v' reads].
  cbn [fst] in Hfst. subst v'. cbn [fst snd data_u64 data_i64 data_double].
  set (s := data_size fmt) in *.
  assert (Hpow : 2 ^ 64 = 2 ^ s * 2 ^ (64 - s))
    by (rewrite <- Z.pow_add_r by lia; f_equal; lia).
  assert (Hps : 0 < 2 ^ s) by (apply Z.pow_pos_nonneg; lia).
  assert (Hpd : 0 < 2 ^ (64 - s)) by (apply Z.pow_pos_nonneg; lia).
  assert (Hu : Z.shiftr v (64 - s) = v / 2 ^ (64 - s))
    by (apply Z.shiftr_div_pow2; lia).
  assert (Hur : 0 <= v / 2 ^ (64 - s) < 2 ^ s).
  { split; [apply Z.div_pos; lia|].
    apply Z.div_lt_upper_bound; [lia|]. lia. }
  split; [reflexivity|]. split; [reflexivity|]. split; [rewrite Hu; exact Hur|].
  split.
  - intros k Hk. rewrite Z.shiftr_spec by lia. rewrite Hvb by lia.
    destruct (k + (64 - s) <? 64 - s) eqn:E; zbool; [lia|]. f_equal. lia.
  - rewrite (Z.shiftr_spec v) by lia.
    replace (s - 1 + (64 - s)) with 63 by lia.
    rewrite testbit_63 by exact Hvr. unfold to_int64.
    destruct (v <? 2 ^ 63) eqn:E; zbool; cbn [negb]; [reflexivity|].
    rewrite Hu, Z.shiftr_div_pow2 by lia.
    replace (v - 2 ^ 64) with (v + (- 2 ^ s) * 2 ^ (64 - s)) by lia.
    rewrite Z.div_add by lia. lia.
Qed.

End with_messages_value.

(** Twelve bits at bit 12 of the message [0x00ABC000], read as unsigned and
    as signed. *)
Lemma extracted_value_is_the_bit_field_example :
  let r := extract_value_from_message (M := messages_example)
             (mk_value_format (Some []) 0 0 0 0 0 12 12 VALUE_INT64 PRINT_INT64
                false 0%float 0%float)
             4 [0x00ABC000] value_zero no_errors in
  data_u64 (fst (fst r)) = 0xABC /\ data_i64 (fst (fst r)) = 0xABC - 0x1000 /\
  Z.testbit (data_u64 (fst (fst r))) 2 = msg_bit [0x00ABC000] 14.
Proof.
  intros r.
  destruct (extracted_value_is_the_bit_field (M := messages_example)
              (mk_value_format (Some []) 0 0 0 0 0 12 12 VALUE_INT64 PRINT_INT64
                 false 0%float 0%float)
              4 [0x00ABC000] value_zero no_errors) as (_ & _ & _ & Hbits & _).
  - simpl. lia.
  - simpl. lia.
  - simpl. lia.
  - lia.
  - fold r in Hbits. split; [reflexivity|]. split; [reflexivity|].
    apply (Hbits 2). simpl. lia.
Defined.

(** *** A slot whose end wraps around 32 bits *)

Section with_messages_wrap.
Context {M : messages_h}.

(** X8. The range check of [extract_value_from_message] compares the
    sum [data_size + bit_address] computed in 32 bits.  For a slot of 1 to 64
    bits whose sum reaches 2^32, and whose wrapped end is not beyond the
    message, no error is recorded and the first byte read is byte
    [bit_address >> 3], which lies beyond the end of the message. *)
Theorem wrapped_slot_is_read_outside_message (fmt : value_format_t)
    (asm_size : Z) (assembled_msg : list Z) (value : value_t) (es : err_state) :
  1 <= data_size fmt <= 64 ->
  0 <= bit_address fmt < 2 ^ 32 ->
  2 ^ 32 <= bit_address fmt + data_size fmt ->
  0 <= asm_size <= 2 ^ 29 - 8 ->
  bit_address fmt + data_size fmt - 2 ^ 32 <= 8 * asm_size ->
  let r := extract_value_from_message fmt asm_size assembled_msg value es in
  snd (fst r) = es /\
  exists rest, snd r = Z.shiftr (bit_address fmt) 3 :: rest /\
               asm_size <= Z.shiftr (bit_address fmt) 3.
Proof.
  intros Hs Ha Hwrap Hasm Hend r. subst r. unfold extract_value_from_message.
  assert (E1 : wrap32 (data_size fmt + bit_address fmt)
               = bit_address fmt + data_size fmt - 2 ^ 32).
  { unfold wrap32.
    replace (data_size fmt + bit_address fmt)
      with (bit_address fmt + data_size fmt - 2 ^ 32 + 1 * 2 ^ 32) by lia.
    rewrite Z_mod_plus_full. apply Z.mod_small. lia. }
  assert (E2 : wrap32 (asm_size * 8) = 8 * asm_size)
    by (rewrite wrap32_small; lia).
  assert (Hout : asm_size <= Z.shiftr (bit_address fmt) 3).
  { rewrite Z.shiftr_div_pow2 by lia. change (2 ^ 3) with 8.
    pose proof (Z.div_mod (bit_address fmt) 8 ltac:(lia)).
    pose proof (Z.mod_pos_bound (bit_address fmt) 8 ltac:(lia)). lia. }
  destruct (data_size fmt =? 0) eqn:E0; zbool; [lia|].
  destruct (data_size fmt >? 64) eqn:E64; zbool; [lia|].
  rewrite E1, E2.
  destruct (bit_address fmt + data_size fmt - 2 ^ 32 >? 8 * asm_size) eqn:Ec;
    zbool; [lia|].
  destruct (Z.land (Z.lor (data_size fmt) (bit_address fmt)) 7 =? 0) eqn:Eal.
  - zbool.
    assert (Hcount : 1 <= Z.shiftr (data_size fmt) 3).
    { assert (Hlow : Z.land (data_size fmt) 7 = 0).
      { apply Z.bits_inj'. intros n Hn. rewrite Z.bits_0.
        assert (Hb : Z.testbit (Z.land (Z.lor (data_size fmt) (bit_address fmt)) 7) n
                     = false) by (rewrite Eal; apply Z.bits_0).
        rewrite Z.land_spec, Z.lor_spec in Hb. rewrite Z.land_spec.
        destruct (Z.testbit (data_size fmt) n); [|reflexivity].
        exact Hb. }
      change 7 with (Z.ones 3) in Hlow. rewrite Z.land_ones in Hlow by lia.
      rewrite Z.shiftr_div_pow2 by lia. change (2 ^ 3) with 8 in *.
      pose proof (Z.div_mod (data_size fmt) 8 ltac:(lia)). lia. }
    destruct (Z.to_nat (Z.shiftr (data_size fmt) 3)) as [|n] eqn:En; [lia|].
    cbn [extract_bytes].
    destruct (extract_bytes n _ assembled_msg _) as [v reads].
    cbn [fst snd]. split; [reflexivity|]. eexists. split; [reflexivity | exact Hout].
  - destruct (Z.to_nat (data_size fmt)) as [|n] eqn:En; [lia|].
    cbn [extract_bit_sized_value].
    destruct (extract_bit_sized_value n _ assembled_msg _) as [v reads].
    cbn [fst snd]. split; [reflexivity|]. eexists. split; [reflexivity | exact Hout].
Qed.

End with_messages_wrap.

Lemma wrapped_slot_is_read_outside_message_example :
  let r := extract_value_from_message (M := messages_example)
             (mk_value_format (Some [37; 117]) 0 0 0 0 0 0xFFFFFFF0 32
                VALUE_UINT64 PRINT_UINT64 false 0%float 0%float)
             4 [0x64636261] value_zero no_errors in
  snd (fst r) = no_errors /\ exists rest, snd r = 0x1FFFFFFE :: rest.
Proof.
  intros r.
  destruct (wrapped_slot_is_read_outside_message (M := messages_example)
              (mk_value_format (Some [37; 117]) 0 0 0 0 0 0xFFFFFFF0 32
                 VALUE_UINT64 PRINT_UINT64 false 0%float 0%float)
              4 [0x64636261] value_zero no_errors) as (H1 & rest & H2 & _).
  - simpl. lia.
  - simpl. lia.
  - simpl. lia.
  - lia.
  - simpl. lia.
  - fold r in H1, H2. split; [exact H1|]. exists rest. exact H2.
Defined.

End Extract.

(** ** print_message.c: half-precision values *)

Module HalfFloat.

(** The [do ... while] loop that makes a subnormal mantissa normal; [None]
    stands for a loop that is not finished when the fuel is used up. *)
Fixpoint normalise (fuel : nat) (mant exp : Z) : option (Z * Z) :=
  match fuel with
  | O => None
  | S fuel' =>
      let mant := Z.shiftl mant 1 in
      let exp := exp - 0x400 in
      if Z.land mant 0x400 =? 0 then normalise fuel' mant exp
      else Some (mant, exp)
  end.

(** [convert_half_float_to_float]: the 32 bits stored in [data_u], which the
    function returns read as a [float].  [mant] and [exp] are of type [int];
    their values stay below 2^18. *)
Definition convert_half_float_to_float (hbits : Z) : option Z :=
  let mant := Z.land hbits 0x03ff in
  let exp := Z.land hbits 0x7c00 in
  let combine (exp mant : Z) :=
    wrap32 (Z.lor (Z.shiftl (Z.land hbits 0x8000) 16)
                  (Z.shiftl (Z.lor exp mant) 13)) in
  if exp =? 0x7c00 then Some (combine 0x3fc00 mant)
  else if negb (exp =? 0) then
    let exp := exp + 0x1c000 in
    if (mant =? 0) && (exp >? 0x1c400) then
      Some (wrap32 (Z.lor (Z.lor (Z.shiftl (Z.land hbits 0x8000) 16)
                                 (Z.shiftl exp 13))
                          0x3ff))
    else Some (combine exp mant)
  else if negb (mant =? 0) then
    match normalise 10 mant 0x1c400 with
    | Some (mant, exp) => Some (combine exp (Z.land mant 0x3ff))
    | None => None
    end
  else Some (combine exp mant).

(** The fields of the two IEEE 754 formats. *)
Definition half_exp (h : Z) : Z := Z.land (Z.shiftr h 10) 31.
Definition half_mant (h : Z) : Z := Z.land h 1023.
Definition single_exp (f : Z) : Z := Z.land (Z.shiftr f 23) 255.
Definition single_mant (f : Z) : Z := Z.land f (2 ^ 23 - 1).

(** The value of a finite half-precision number times 2^24, and the value of
    a finite single-precision number times 2^149. *)
Definition half_scaled (h : Z) : Z :=
  (if Z.testbit h 15 then -1 else 1)
  * (if half_exp h =? 0 then half_mant h
     else (1024 + half_mant h) * 2 ^ (half_exp h - 1)).

Definition single_scaled (f : Z) : Z :=
  (if Z.testbit f 31 then -1 else 1)
  * (if single_exp f =? 0 then single_mant f
     else (2 ^ 23 + single_mant f) * 2 ^ (single_exp f - 1)).

(** The powers of two from 2^-13 on: mantissa 0 and an exponent field of at
    least 2. *)
Definition smooth_transition (h : Z) : bool :=
  (half_mant h =? 0) && (2 <=? half_exp h) && (half_exp h <? 31).

Definition conversion_checked (h : Z) : bool :=
  match convert_half_float_to_float h with
  | Some f =>
      (0 <=? f) && (f <? 2 ^ 32)
      && Bool.eqb (Z.testbit f 31) (Z.testbit h 15)
      && (if half_exp h =? 31
          then (single_exp f =? 255) && (single_mant f =? half_mant h * 2 ^ 13)
          else if smooth_transition h
          then (single_exp f =? half_exp h + 112) && (single_mant f =? 1023)
          else (single_exp f <? 255)
               && (single_scaled f =? half_scaled h * 2 ^ 125))
  | None => false
  end.

(** [f] holds for the [n] values from [h] on. *)
Fixpoint all_from (n : nat) (h : Z) (f : Z -> bool) : bool :=
  match n with
  | O => true
  | S n' => f h && all_from n' (h + 1) f
  end.

Lemma all_from_spec (n : nat) (f : Z -> bool) :
  forall h0, all_from n h0 f = true ->
             forall h, h0 <= h < h0 + Z.of_nat n -> f h = true.
Proof.
  induction n as [|n IH]; intros h0 H h Hh; [lia|].
  cbn [all_from] in H. apply andb_true_iff in H. destruct H as [H0 H].
  destruct (Z.eq_dec h h0) as [-> | Hne]; [exact H0|].
  apply (IH (h0 + 1) H). lia.
Qed.

Lemma every_half_checked :
  all_from (Z.to_nat 65536) 0 conversion_checked = true.
Proof. vm_cast_no_check (eq_refl true). Qed.

(** X9. [convert_half_float_to_float] returns for each of the 65536
    half-precision patterns, with the sign kept.  Infinities and NaNs keep an
    all-ones exponent and their mantissa, moved up 13 bits.  Every other
    number is converted exactly - zeros and subnormal numbers included -
    except the powers of two from 2^-13 on, which get the low ten mantissa
    bits set and so come out 1023 units in the last place too large. *)
Theorem half_float_conversion (h : Z) :
  0 <= h < 65536 ->
  exists f,
    convert_half_float_to_float h = Some f /\
    0 <= f < 2 ^ 32 /\
    Z.testbit f 31 = Z.testbit h 15 /\
    (half_exp h = 31 ->
       single_exp f = 255 /\ single_mant f = half_mant h * 2 ^ 13) /\
    (half_exp h <> 31 -> smooth_transition h = true ->
       single_exp f = half_exp h + 112 /\ single_mant f = 1023) /\
    (half_exp h <> 31 -> smooth_transition h = false ->
       single_exp f < 255 /\ single_scaled f = half_scaled h * 2 ^ 125).
Proof.
  intros Hh.
  pose proof (all_from_spec _ _ 0 every_half_checked h ltac:(lia)) as Hc.
  unfold conversion_checked in Hc.
  destruct (convert_half_float_to_float h) as [f|]; [|discriminate].
  exists f. split; [reflexivity|].
  apply andb_true_iff in Hc. destruct Hc as [Hc H4].
  apply andb_true_iff in Hc. destruct Hc as [Hc H3].
  apply andb_true_iff in Hc. destruct Hc as [H1 H2].
  zbool. split; [lia|]. split; [apply Bool.eqb_prop; exact H3|].
  destruct (half_exp h =? 31) eqn:E31; zbool.
  - split; [intros _; split; assumption|]. split; intros; contradiction.
  - split; [intros; contradiction|].
    destruct (smooth_transition h) eqn:Es; zbool.
    + split; [intros _ _; split; assumption | intros _; discriminate].
    + split; [intros _; discriminate | intros _ _; split; assumption].
Qed.

(** 1.0 (0x3C00) is a power of two and comes out as 0x3F8003FF, 1.5 (0x3E00)
    is converted exactly to 0x3FC00000. *)
Lemma half_float_conversion_example :
  convert_half_float_to_float 0x3C00 = Some 0x3F8003FF /\
  exists f, convert_half_float_to_float 0x3E00 = Some f /\
            single_scaled f = half_scaled 0x3E00 * 2 ^ 125.
Proof.
  split; [reflexivity|].
  destruct (half_float_conversion 0x3E00) as (f & Hf & _ & _ & _ & _ & Hexact).
  - lia.
  - exists f. split; [exact Hf|]. apply Hexact; [vm_compute; discriminate | reflexivity].
Defined.

End HalfFloat.


(** ** print_message.c: binary output *)

Module Binary.

(** The [for] loop of [print_binary64]: the characters written. *)
Fixpoint print_binary64_loop (n : nat) (value mask size i : Z) : list Z :=
  match n with
  | O => []
  | S n' =>
      (if ((wrap32 (size - i) mod 8) =? 0) && negb (i =? 0) then [39] else [])
      ++ (if negb (Z.land value mask =? 0) then 49 else 48)
         :: print_binary64_loop n' value (Z.shiftr mask 1) size (wrap32 (i + 1))
  end.

(** [print_binary64]: the text written to [out].  The shift that makes the
    mask is defined for a size of 1 to 64 bits. *)
Definition print_binary64 (value size max_size : Z) : list Z :=
  if size =? 0 then [63]
  else
    let size := if size >? max_size then max_size else size in
    let mask := wrap64 (Z.shiftl 1 (size - 1)) in
    print_binary64_loop (Z.to_nat size) value mask size 0.

(** The number that a text of binary digits with apostrophes stands for. *)
Definition read_binary (text : list Z) : Z :=
  fold_left (fun acc c => if c =? 39 then acc else 2 * acc + (c - 48)) text 0.

Definition read_binary_from (acc : Z) (text : list Z) : Z :=
  fold_left (fun acc c => if c =? 39 then acc else 2 * acc + (c - 48)) text acc.

Lemma low_bits_split value n :
  0 <= n ->
  value mod 2 ^ (n + 1)
  = (if Z.testbit value n then 1 else 0) * 2 ^ n + value mod 2 ^ n.
Proof.
  intros Hn.
  change (if Z.testbit value n then 1 else 0) with (Z.b2z (Z.testbit value n)).
  rewrite Z.testbit_spec' by lia.
  rewrite Z.pow_add_r by lia. change (2 ^ 1) with 2.
  pose proof (Z.pow_pos_nonneg 2 n ltac:(lia) Hn) as Hp.
  rewrite Z.rem_mul_r by lia. lia.
Qed.

Lemma mask_test value n :
  0 <= n -> (Z.land value (2 ^ n) =? 0) = negb (Z.testbit value n).
Proof.
  intros Hn. destruct (Z.testbit value n) eqn:E; cbn [negb].
  - apply Z.eqb_neq. intros H0.
    assert (Ht : Z.testbit (Z.land value (2 ^ n)) n = true)
      by (rewrite Z.land_spec, E, Z.pow2_bits_true by lia; reflexivity).
    rewrite H0, Z.bits_0 in Ht. discriminate.
  - apply Z.eqb_eq. apply Z.bits_inj'. intros k Hk.
    rewrite Z.land_spec, Z.bits_0, Z.pow2_bits_eqb by lia.
    destruct (Z.eqb_spec n k) as [-> | Hne]; [rewrite E; reflexivity|].
    apply andb_false_r.
Qed.

Lemma print_binary64_loop_reads (n : nat) :
  forall value size i acc,
    read_binary_from acc
      (print_binary64_loop (S n) value (2 ^ Z.of_nat n) size i)
    = acc * 2 ^ (Z.of_nat n + 1) + value mod 2 ^ (Z.of_nat n + 1).
Proof.
  induction n as [|n IH]; intros value size i acc.
  - cbn [print_binary64_loop]. unfold read_binary_from.
    rewrite fold_left_app. change (Z.of_nat 0) with 0.
    rewrite mask_test by lia. rewrite low_bits_split by lia.
    change (2 ^ 0) with 1. rewrite Z.mod_1_r.
    destruct ((wrap32 (size - i) mod 8 =? 0) && negb (i =? 0));
      destruct (Z.testbit value 0); cbn; lia.
  - change (print_binary64_loop (S (S n)) value (2 ^ Z.of_nat (S n)) size i)
      with ((if ((wrap32 (size - i) mod 8) =? 0) && negb (i =? 0)
             then [39] else [])
            ++ (if negb (Z.land value (2 ^ Z.of_nat (S n)) =? 0) then 49 else 48)
               :: print_binary64_loop (S n) value
                    (Z.shiftr (2 ^ Z.of_nat (S n)) 1) size (wrap32 (i + 1))).
    assert (Hm : Z.shiftr (2 ^ Z.of_nat (S n)) 1 = 2 ^ Z.of_nat n).
    { rewrite Z.shiftr_div_pow2 by lia. change (2 ^ 1) with 2.
      replace (Z.of_nat (S n)) with (Z.of_nat n + 1) by lia.
      rewrite Z.pow_add_r by lia. change (2 ^ 1) with 2.
      apply Z.div_mul. lia. }
    rewrite Hm. unfold read_binary_from in *. rewrite fold_left_app.
    cbn [fold_left]. rewrite mask_test by lia.
    set (acc0 := fold_left _ (if (wrap32 (size - i) mod 8 =? 0) && negb (i =? 0)
                              then [39] else []) acc).
    assert (Hacc0 : acc0 = acc).
    { subst acc0. destruct ((wrap32 (size - i) mod 8 =? 0) && negb (i =? 0));
        reflexivity. }
    rewrite Hacc0. rewrite (IH value size (wrap32 (i + 1))).
    rewrite (low_bits_split value (Z.of_nat (S n))) by lia.
    replace (Z.of_nat (S n)) with (Z.of_nat n + 1) by lia.
    rewrite (Z.pow_add_r 2 (Z.of_nat n + 1) 1) by lia. change (2 ^ 1) with 2.
    destruct (Z.testbit value (Z.of_nat n + 1)); cbn [negb];
      change (49 =? 39) with false; change (48 =? 39) with false; cbv iota; lia.
Qed.

Lemma print_binary64_loop_length (n : nat) :
  forall value mask size i,
    1 <= i -> size = i + Z.of_nat n -> size < 2 ^ 32 ->
    Z.of_nat (length (print_binary64_loop n value mask size i))
    = Z.of_nat n + Z.of_nat n / 8.
Proof.
  induction n as [|n IH]; intros value mask size i Hi Hs Hmax; [reflexivity|].
  cbn [print_binary64_loop]. rewrite length_app. cbn [length].
  rewrite Nat2Z.inj_add, Nat2Z.inj_succ.
  rewrite (wrap32_small (i + 1)) by lia.
  rewrite (IH value (Z.shiftr mask 1) size (i + 1)) by lia.
  rewrite (wrap32_small (size - i)) by lia.
  replace (size - i) with (Z.of_nat (S n)) by lia.
  assert (Hi0 : (i =? 0) = false) by (apply Z.eqb_neq; lia).
  rewrite Hi0. cbn [negb]. rewrite andb_true_r.
  destruct (Z.of_nat (S n) mod 8 =? 0) eqn:E; zbool; cbn [length];
    Z.div_mod_to_equations; lia.
Qed.

(** X10. For a size of 1 to 64 bits [print_binary64] writes the low
    [size] bits of the value, most significant bit first, so that reading the
    digits back gives [value mod 2^size]; an apostrophe separates groups of
    eight digits counted from the right, which makes [size + (size - 1) / 8]
    characters. *)
Theorem print_binary64_reads_back (value size max_size : Z) :
  let s := if size >? max_size then max_size else size in
  1 <= size -> 1 <= s <= 64 ->
  let text := print_binary64 value size max_size in
  read_binary text = value mod 2 ^ s /\
  Z.of_nat (length text) = s + (s - 1) / 8 /\
  Forall (fun c => c = 48 \/ c = 49 \/ c = 39) text.
Proof.
  intros s Hsize Hs text. subst text. unfold print_binary64.
  destruct (size =? 0) eqn:E0; zbool; [lia|]. fold s.
  assert (Hmask : wrap64 (Z.shiftl 1 (s - 1)) = 2 ^ (s - 1)).
  { rewrite Z.shiftl_1_l. unfold wrap64. apply Z.mod_small. split.
    - apply Z.pow_nonneg. lia.
    - apply Z.pow_lt_mono_r; lia. }
  rewrite Hmask.
  destruct (Z.to_nat s) as [|n] eqn:En; [lia|].
  assert (Hn : s - 1 = Z.of_nat n) by lia. rewrite Hn.
  split; [|split].
  - unfold read_binary.
    pose proof (print_binary64_loop_reads n value s 0 0) as H.
    unfold read_binary_from in H. rewrite H.
    replace (Z.of_nat n + 1) with s by lia. lia.
  - cbn [print_binary64_loop]. change (0 =? 0) with true. cbn [negb].
    rewrite andb_false_r. cbn [app length]. rewrite Nat2Z.inj_succ.
    change (wrap32 (0 + 1)) with 1.
    rewrite (print_binary64_loop_length n value _ s 1) by lia. lia.
  - generalize (2 ^ Z.of_nat n) as mask. generalize 0 as i. clear.
    generalize (S n) as m. intros m. induction m as [|m IH]; intros i mask;
      [constructor|].
    cbn [print_binary64_loop]. apply Forall_app. split.
    + destruct ((wrap32 (s - i) mod 8 =? 0) && negb (i =? 0));
        [apply Forall_cons; split; [right; right; reflexivity | constructor]
        | constructor].
    + constructor; [destruct (negb (Z.land value mask =? 0)); auto | apply IH].
Qed.

(** Twelve bits of 0xABC. *)
Lemma print_binary64_reads_back_example :
  print_binary64 0xABC 12 12
  = [49; 48; 49; 48; 39; 49; 48; 49; 49; 49; 49; 48; 48] /\
  read_binary (print_binary64 0xABC 12 12) = 0xABC.
Proof.
  split; [reflexivity|].
  destruct (print_binary64_reads_back 0xABC 12 12) as (H & _).
  - lia.
  - simpl. lia.
  - rewrite H. reflexivity.
Defined.

End Binary.


(** ** print_message.c: value scaling *)

Module Scaling.

(** The finite value of a double, truncated toward zero, as the C casts to
    integer types do for values in range. *)
Definition double_trunc (f : float) : option Z :=
  match Prim2SF f with
  | S754_zero _ => Some 0
  | S754_finite s m e =>
      let mag := if 0 <=? e then Z.pos m * 2 ^ e else Z.pos m / 2 ^ (- e) in
      Some (if s then - mag else mag)
  | _ => None
  end.

Definition trunc_or_zero (f : float) : Z := default 0 (double_trunc f).

Section with_casts.

(** The casts [(int64_t)] and [(uint64_t)] of a double.  C defines them by
    truncation when the truncated value fits the type and leaves them
    undefined otherwise, so they are parameters here. *)
Variable cast_i64 : float -> Z.
Variable cast_u64 : float -> Z.

Definition value_scaling (fmt : value_format_t) (data : float) (value : value_t)
    : value_t :=
  let value := mk_value data (data_i64 value) (data_u64 value) (data_null value) in
  if negb (PrimFloat.eqb (mult fmt) 0) then
    let scaled := ((data + offset fmt) * mult fmt)%float in
    mk_value scaled (cast_i64 (scaled + 0.5)%float) (cast_u64 (scaled + 0.5)%float)
      (data_null value)
  else value.

(** [value_scaling] by itself: with a nonzero multiplier the double is
    [(data + offset) * multiplier] and both integer views are recomputed from
    it (the scaled value plus one half, cast to the integer type); with a zero
    multiplier the double is [data] and the integer views are untouched. *)
Lemma value_scaling_applies_offset_and_multiplier (fmt : value_format_t)
    (data : float) (value : value_t) :
  let v' := value_scaling fmt data value in
  (PrimFloat.eqb (mult fmt) 0 = false ->
     data_double v' = ((data + offset fmt) * mult fmt)%float /\
     data_i64 v' = cast_i64 (data_double v' + 0.5)%float /\
     data_u64 v' = cast_u64 (data_double v' + 0.5)%float) /\
  (PrimFloat.eqb (mult fmt) 0 = true ->
     data_double v' = data /\
     data_i64 v' = data_i64 value /\
     data_u64 v' = data_u64 value) /\
  data_null v' = data_null value.
Proof.
  unfold value_scaling. simpl.
  destruct (PrimFloat.eqb (mult fmt) 0) eqn:E; simpl.
  - split; [discriminate|]. split; [|reflexivity]. intros _. repeat split.
  - split; [|split; [discriminate | reflexivity]]. intros _. repeat split.
Qed.

End with_casts.

Definition scaled_slot (o m : float) : value_format_t :=
  mk_value_format (Some [37; 102]) 0 0 0 0 0 8 16 VALUE_UINT64 PRINT_DOUBLE false
    m o.

(** A raw value of 100 with [(+0*0.1)] prints as 10; the literal is the
    double nearest to 0.1. *)
Example scaling_100_by_tenth :
  value_scaling trunc_or_zero trunc_or_zero (scaled_slot 0 0x1.999999999999ap-4) 100
    (mk_value 100 100 100 0)
  = mk_value 10 10 10 0.
Proof. reflexivity. Qed.

(** [(-32+0)]: a multiplier of zero leaves the raw value and its views. *)
Example scaling_with_zero_multiplier :
  value_scaling trunc_or_zero trunc_or_zero (scaled_slot (-32) 0) 100
    (mk_value 100 100 100 0)
  = mk_value 100 100 100 0.
Proof. reflexivity. Qed.

Example scaling_rounds_to_nearest :
  value_scaling trunc_or_zero trunc_or_zero (scaled_slot 1 0.5) 6
    (mk_value 6 6 6 0)
  = mk_value 3.5 4 4 0.
Proof. reflexivity. Qed.

End Scaling.

(** ** print_message.c: reading a memo *)

Module MemoRead.
Import Errors Memo Scaling.

Section with_messages_and_casts.
Context {M : messages_h}.
Variable cast_i64 : float -> Z.
Variable cast_u64 : float -> Z.

(** The cell of the union read as a double when a pointer member was written
    last: the bits of that pointer. *)
Variable pointer_as_double : def_union -> float.

Definition union_memo_value (u : def_union) : float :=
  match u with
  | memo_value v => v
  | _ => pointer_as_double u
  end.

Definition is_null {A} (p : option A) : bool :=
  match p with None => true | Some _ => false end.

(** [process_memo] *)
Definition process_memo (fmt : value_format_t) (enums : list enum_data_t)
    (value : value_t) (es : err_state) : value_t * err_state :=
  if (get_memo fmt >=? NUMBER_OF_FILTER_BITS) && (get_memo fmt <=? MAX_ENUMS) then
    let e := enum_at enums (get_memo fmt) in
    if negb (is_null (name e)) && enums_type_eqb (type e) MEMO_TYPE then
      let d := union_memo_value (payload e) in
      let value := mk_value d (cast_i64 d) (cast_u64 d) (data_null value) in
      (value_scaling cast_i64 cast_u64 fmt d value, es)
    else
      (value, save_internal_decoding_error INT_GET_MEMO_TYPE_IS_NOT_MEMO 0 es)
  else
    (value, save_internal_decoding_error INT_GET_MEMO_OUT_OF_RANGE (get_memo fmt) es).

Lemma enum_at_insert_same enums i e :
  0 <= i -> (Z.to_nat i < length enums)%nat ->
  enum_at (<[Z.to_nat i := e]> enums) i = e.
Proof.
  intros Hi Hlen. unfold enum_at. destruct (i <? 0) eqn:E; zbool; [lia|].
  rewrite list_lookup_insert_eq by exact Hlen. reflexivity.
Qed.

Lemma enum_at_insert_other enums i j e :
  0 <= i -> i <> j -> enum_at (<[Z.to_nat i := e]> enums) j = enum_at enums j.
Proof.
  intros Hi Hne. unfold enum_at. destruct (j <? 0) eqn:E; zbool; [reflexivity|].
  rewrite list_lookup_insert_ne by lia. reflexivity.
Qed.

(** X11. A value stored with [save_to_memo] in a named memo is what
    [process_memo] reads from that memo afterwards: the double is the stored
    one, the integer views are its casts, and [value_scaling] is applied to
    it; no error is recorded.  Reading any other memo gives what it gave
    before the store. *)
Theorem stored_memo_is_read_back (memo : Z) (enums : list enum_data_t)
    (stored : value_t) (fmt : value_format_t) (value : value_t)
    (es : err_state) :
  memo_store_allowed memo enums ->
  name (enum_at enums memo) <> None ->
  get_memo fmt = memo ->
  let r := save_to_memo memo enums stored es in
  let d := data_double stored in
  process_memo fmt (fst r) value (snd r)
  = (value_scaling cast_i64 cast_u64 fmt d
       (mk_value d (cast_i64 d) (cast_u64 d) (data_null value)), es) /\
  forall fmt' value' es',
    get_memo fmt' <> memo ->
    process_memo fmt' (fst r) value' es' = process_memo fmt' enums value' es'.
Proof.
  intros [[H1 H2] Hty] Hname Hget r d. subst r d. unfold save_to_memo.
  assert (Hr : (memo >=? NUMBER_OF_FILTER_BITS) && (memo <? MAX_ENUMS) = true).
  { apply andb_true_iff. split; [apply Z.geb_le | apply Z.ltb_lt]; assumption. }
  rewrite Hr. pose proof Hty as Hty'. apply enums_type_eqb_eq in Hty'.
  rewrite Hty'. cbn [fst snd].
  destruct (enum_at_memo_in_table enums memo Hty) as [H0 Hin].
  assert (Hlen : (Z.to_nat memo < length enums)%nat)
    by (eapply lookup_lt_Some; exact Hin).
  split.
  - unfold process_memo. rewrite Hget.
    assert (Hr' : (memo >=? NUMBER_OF_FILTER_BITS) && (memo <=? MAX_ENUMS) = true).
    { apply andb_true_iff. split; [apply Z.geb_le | apply Z.leb_le]; lia. }
    rewrite Hr', enum_at_insert_same by assumption.
    cbn [name type payload set_memo_value union_memo_value]. rewrite Hty'.
    destruct (name (enum_at enums memo)); [reflexivity | contradiction].
  - intros fmt' value' es' Hne. unfold process_memo.
    rewrite enum_at_insert_other by (try lia; congruence). reflexivity.
Qed.

End with_messages_and_casts.

Definition memo_reader : value_format_t :=
  mk_value_format (Some [37; 102]) 0 0 33 0 0 0 0 VALUE_MEMO PRINT_DOUBLE false
    0%float 0%float.

Definition memo_table : list enum_data_t :=
  repeat enum_zero 33
  ++ [mk_enum_data (Some [77]) MEMO_TYPE None None (memo_value 0%float)].

Lemma stored_memo_is_read_back_example :
  let r := save_to_memo (M := messages_example) 33 memo_table
             (mk_value 2.5 2 2 0) Extract.no_errors in
  process_memo (M := messages_example) trunc_or_zero trunc_or_zero
    (fun _ => 0%float) memo_reader (fst r) value_zero (snd r)
  = (mk_value 2.5 2 2 0, Extract.no_errors).
Proof.
  intros r.
  destruct (stored_memo_is_read_back (M := messages_example) trunc_or_zero
              trunc_or_zero (fun _ => 0%float) 33 memo_table
              (mk_value 2.5 2 2 0) memo_reader value_zero Extract.no_errors) as [H _].
  - split; [unfold NUMBER_OF_FILTER_BITS, MAX_ENUMS; lia | reflexivity].
  - discriminate.
  - reflexivity.
  - fold r in H. rewrite H. reflexivity.
Defined.

End MemoRead.

(** ** print_message.c and parse_fmt_string.c: indexed text *)

Module SelectedText.
Import Errors.

Definition TXT_UNDEFINED_TEXT : list Z :=
  [60; 117; 110; 100; 101; 102; 105; 110; 101; 100; 32; 116; 101; 120; 116; 62].

(** [p[i]] for a pointer [p] into a byte buffer, given as the buffer and the
    offset of [p] in it. *)
Definition byte_at (mem : list Z) (i : nat) : Z := default 0 (mem !! i).

(** The C string stored at the start of a buffer: the bytes before the first
    NUL. *)
Fixpoint c_string (buf : list Z) : list Z :=
  match buf with
  | [] => []
  | c :: rest => if c =? 0 then [] else c :: c_string rest
  end.

(** [strncpy (dst, src, n)]: the [n] bytes written to [dst]. *)
Fixpoint strncpy (n : nat) (src : list Z) : list Z :=
  match n with
  | O => []
  | S n' =>
      match src with
      | [] => replicate (S n') 0
      | c :: rest => if c =? 0 then replicate (S n') 0 else c :: strncpy n' rest
      end
  end.

(** Bytes written at the start of a buffer. *)
Definition write_front (bytes buf : list Z) : list Z :=
  bytes ++ drop (length bytes) buf.

(** The [for] loop of [copy_selected_text]: [pos] is the offset of [y_text]
    in the text blob. *)
Fixpoint skip_texts (count : nat) (y_text : list Z) (pos text_length : nat)
    : nat * nat :=
  match count with
  | O => (pos, text_length)
  | S count' =>
      if byte_at y_text (pos + (1 + text_length)) =? 0 then (pos, text_length)
      else
        let pos' := (pos + (text_length + 1))%nat in
        skip_texts count' y_text pos' (Z.to_nat (byte_at y_text pos'))
  end.

(** [copy_selected_text]: the new contents of [txt_buffer] and the C string
    the returned pointer designates.  [y_text = None] is the NULL pointer. *)
Definition copy_selected_text (y_text : option (list Z)) (txt_buffer : list Z)
    (index : Z) : list Z * list Z :=
  let buf0 := <[0%nat := 0]> txt_buffer in
  match y_text with
  | None => (buf0, TXT_UNDEFINED_TEXT)
  | Some blob =>
      if byte_at blob 0 =? 0 then (buf0, TXT_UNDEFINED_TEXT)
      else
        let '(pos, text_length) :=
          skip_texts (Z.to_nat index) blob 0 (Z.to_nat (byte_at blob 0)) in
        if (0 <? text_length)%nat then
          let buf1 := write_front (strncpy text_length (drop (pos + 1) blob)) buf0 in
          let buf2 := <[text_length := 0]> buf1 in
          (buf2, c_string buf2)
        else (buf0, TXT_UNDEFINED_TEXT)
  end.

(** The member [in_file_txt] of the union. *)
Definition union_in_file_txt (u : def_union) : option (list Z) :=
  match u with in_file_txt t => t | _ => None end.

Definition enums_type_code (t : enums_type_t) : Z :=
  match t with
  | FILTER_TYPE => 0 | OUT_FILE_TYPE => 1 | IN_FILE_TYPE => 2
  | Y_TEXT_TYPE => 3 | MEMO_TYPE => 4
  end.

Section with_messages.
Context {M : messages_h}.

(** [get_selected_text]; [txt_buffer] is the function's static buffer, whose
    address is returned in every case. *)
Definition get_selected_text (in_file index : Z) (enums : list enum_data_t)
    (txt_buffer : list Z) (es : err_state) : list Z * err_state :=
  if in_file <? MAX_ENUMS then
    let e := enum_at enums in_file in
    if enums_type_eqb (type e) Y_TEXT_TYPE || enums_type_eqb (type e) IN_FILE_TYPE
    then
      match union_in_file_txt (payload e) with
      | None =>
          (txt_buffer,
           save_internal_decoding_error INT_DECODE_Y_TYPE_STRING_NULL 0 es)
      | Some blob => (fst (copy_selected_text (Some blob) txt_buffer index), es)
      end
    else
      (txt_buffer,
       save_internal_decoding_error INT_DECODE_Y_TYPE_STRING
         (enums_type_code (type e)) es)
  else (txt_buffer, es).

End with_messages.

(** The layout [get_selected_text] documents and [parse_indexed_text] builds:
    every option preceded by its length, a zero length at the end. *)
Definition indexed_text (options : list (list Z)) : list Z :=
  flat_map (fun o => Z.of_nat (length o) :: o) options ++ [0].

Definition valid_option (o : list Z) : Prop :=
  (1 <= length o <= 255)%nat /\ Forall (fun c => 1 <= c <= 255) o.

(** [parse_indexed_text] of parse_fmt_string.c, from the character after the
    opening brace; the result is the string handed to
    [save_the_indexed_text_line] and duplicated into the enum table. *)
Definition MAX_INPUT_LINE_LENGTH : nat := 2004.

Inductive indexed_text_error :=
| ERR_PARSE_LINE_TOO_LONG
| ERR_PARSE_BAD_INDEXED_TEXT_LENGTH
| ERR_PARSE_INDEXED_TEXT_ATLEAST_2_OPTIONS.

Fixpoint parse_indexed_loop (p : list Z) (index start_index substrings : nat)
    (buff : list Z) : indexed_text_error + (list Z * nat * nat) :=
  match p with
  | [] => inr (buff, index, substrings)
  | c :: rest =>
      if c =? 0 then inr (buff, index, substrings)
      else if (MAX_INPUT_LINE_LENGTH - 1 <=? index)%nat then
        inl ERR_PARSE_LINE_TOO_LONG
      else
        let buff := <[index := c]> buff in
        if (c =? 124) || (c =? 125) then
          let len := (index - start_index - 1)%nat in
          if ((len <? 1) || (255 <? len))%nat then
            inl ERR_PARSE_BAD_INDEXED_TEXT_LENGTH
          else
            let buff := <[start_index := Z.of_nat len]> buff in
            if c =? 125 then inr (buff, index, S substrings)
            else parse_indexed_loop rest (S index) index (S substrings) buff
        else parse_indexed_loop rest (S index) start_index substrings buff
  end.

Definition parse_indexed_text (p : list Z) : indexed_text_error + list Z :=
  match parse_indexed_loop p 1 0 0 (replicate MAX_INPUT_LINE_LENGTH 0) with
  | inl e => inl e
  | inr (buff, index, substrings) =>
      let buff := <[index := 0]> buff in
      if (substrings <? 2)%nat then inl ERR_PARSE_INDEXED_TEXT_ATLEAST_2_OPTIONS
      else inr (c_string buff ++ [0])
  end.

Definition encoded (options : list (list Z)) : list Z :=
  flat_map (fun o => Z.of_nat (length o) :: o) options.

Lemma byte_at_app_r (a b : list Z) (i : nat) :
  byte_at (a ++ b) (length a + i) = byte_at b i.
Proof.
  unfold byte_at. rewrite lookup_app_r by lia.
  replace (length a + i - length a)%nat with i by lia. reflexivity.
Qed.

Lemma skip_texts_S count blob pos tl :
  skip_texts (S count) blob pos tl
  = if byte_at blob (pos + (1 + tl)) =? 0 then (pos, tl)
    else skip_texts count blob (pos + (tl + 1))
           (Z.to_nat (byte_at blob (pos + (tl + 1)))).
Proof. reflexivity. Qed.

Lemma encoded_cons o rest :
  encoded (o :: rest) = (Z.of_nat (length o) :: o) ++ encoded rest.
Proof. reflexivity. Qed.

Lemma byte_after_option pre o tail :
  byte_at (pre ++ (Z.of_nat (length o) :: o) ++ tail) (length pre + (1 + length o))
  = byte_at tail 0.
Proof.
  rewrite app_assoc.
  replace (length pre + (1 + length o))%nat
    with (length (pre ++ Z.of_nat (length o) :: o) + 0)%nat
    by (rewrite length_app; simpl; lia).
  apply byte_at_app_r.
Qed.

Lemma skip_texts_selects count pre o rest :
  valid_option o -> Forall valid_option rest ->
  exists pre' o' rest',
    pre ++ encoded (o :: rest) = pre' ++ encoded (o' :: rest') /\
    (o :: rest) !! Nat.min count (length rest) = Some o' /\
    valid_option o' /\
    skip_texts count (pre ++ encoded (o :: rest) ++ [0]) (length pre) (length o)
    = (length pre', length o').
Proof.
  revert pre o rest. induction count as [|n IH]; intros pre o rest Ho Hrest.
  - exists pre, o, rest. repeat split; try assumption; apply Ho.
  - rewrite skip_texts_S, encoded_cons, <- app_assoc, byte_after_option.
    destruct rest as [|o2 rest2].
    + exists pre, o, []. split; [reflexivity|]. split; [reflexivity|].
      split; [exact Ho | reflexivity].
    + apply Forall_cons in Hrest. destruct Hrest as [Ho2 Hrest2].
      destruct (IH (pre ++ Z.of_nat (length o) :: o) o2 rest2 Ho2 Hrest2)
        as (pre' & o' & rest' & E1 & E2 & E3 & E4).
      exists pre', o', rest'. split.
      { rewrite <- E1, <- app_assoc. reflexivity. }
      split; [exact E2|]. split; [exact E3|].
      change (byte_at (encoded (o2 :: rest2) ++ [0]) 0) with (Z.of_nat (length o2)).
      destruct Ho2 as [Hl2 _].
      destruct (Z.of_nat (length o2) =? 0) eqn:E; zbool; [lia|].
      replace (length pre + (length o + 1))%nat
        with (length pre + (1 + length o))%nat by lia.
      rewrite byte_after_option.
      change (byte_at (encoded (o2 :: rest2) ++ [0]) 0) with (Z.of_nat (length o2)).
      rewrite Nat2Z.id.
      replace (length pre + (1 + length o))%nat
        with (length (pre ++ Z.of_nat (length o) :: o))
        by (rewrite length_app; simpl; lia).
      rewrite app_assoc. exact E4.
Qed.

Lemma strncpy_option o tail :
  Forall (fun c => 1 <= c <= 255) o -> strncpy (length o) (o ++ tail) = o.
Proof.
  induction 1 as [|c o Hc Ho IH]; simpl; [reflexivity|].
  destruct (c =? 0) eqn:E; zbool; [lia|]. rewrite IH. reflexivity.
Qed.

Lemma c_string_terminated o tail :
  Forall (fun c => 1 <= c <= 255) o ->
  c_string (<[length o := 0]> (o ++ tail)) = o.
Proof.
  induction 1 as [|c o Hc Ho IH]; simpl.
  - destruct tail; reflexivity.
  - destruct (c =? 0) eqn:E; zbool; [lia|]. rewrite IH. reflexivity.
Qed.

Lemma copy_selected_text_selects options txt_buffer index :
  options <> [] -> Forall valid_option options -> 0 <= index ->
  options !! Nat.min (Z.to_nat index) (length options - 1)
  = Some (c_string (fst (copy_selected_text (Some (indexed_text options))
                           txt_buffer index))).
Proof.
  intros Hne Hall Hidx. destruct options as [|o rest]; [congruence|].
  apply Forall_cons in Hall. destruct Hall as [Ho Hrest].
  unfold copy_selected_text, indexed_text. fold (encoded (o :: rest)).
  change (byte_at (encoded (o :: rest) ++ [0]) 0) with (Z.of_nat (length o)).
  pose proof Ho as [Hlen _].
  destruct (Z.of_nat (length o) =? 0) eqn:E; zbool; [lia|].
  rewrite Nat2Z.id.
  destruct (skip_texts_selects (Z.to_nat index) [] o rest Ho Hrest)
    as (pre' & o' & rest' & E1 & E2 & E3 & E4).
  rewrite !app_nil_l in E1. rewrite app_nil_l in E4.
  change (length (@nil Z)) with 0%nat in E4.
  rewrite E4.
  replace (length (o :: rest) - 1)%nat with (length rest) by (simpl; lia).
  rewrite E2. destruct E3 as [Hl' Hc'].
  destruct (0 <? length o')%nat eqn:E0; [|apply Nat.ltb_ge in E0; lia].
  cbn [fst]. f_equal.
  rewrite E1, encoded_cons, <- !app_assoc.
  replace (pre' ++ (Z.of_nat (length o') :: o') ++ encoded rest' ++ [0])
    with ((pre' ++ [Z.of_nat (length o')]) ++ o' ++ encoded rest' ++ [0])
    by (rewrite <- !app_assoc; reflexivity).
  replace (length pre' + 1)%nat with (length (pre' ++ [Z.of_nat (length o')]))
    by (rewrite length_app; simpl; lia).
  rewrite drop_app_length, strncpy_option by exact Hc'.
  unfold write_front. symmetry. apply c_string_terminated. exact Hc'.
Qed.

(** *** Parsing a list of options *)

(** The text of a list of options as a format file has it after the opening
    brace: the options separated by [|] and closed by a brace. *)
Fixpoint braced (options : list (list Z)) : list Z :=
  match options with
  | [] => []
  | [o] => o ++ [125]
  | o :: rest => o ++ 124 :: braced rest
  end.

(** An option that can be written in a format file. *)
Definition option_text (o : list Z) : Prop :=
  valid_option o /\ Forall (fun c => c <> 124 /\ c <> 125) o.

Lemma insert_zeros (pre : list Z) (k : nat) (c : Z) :
  <[length pre := c]> (pre ++ replicate (S k) 0) = (pre ++ [c]) ++ replicate k 0.
Proof.
  rewrite insert_app_r_alt by lia. rewrite Nat.sub_diag.
  cbn [replicate insert list_insert]. rewrite <- app_assoc. reflexivity.
Qed.

(** The characters of one option are copied to the buffer. *)
Lemma parse_indexed_loop_option (o : list Z) :
  forall (p : list Z) (pre : list Z) (k start_index substrings : nat),
    Forall (fun c => 1 <= c <= 255 /\ c <> 124 /\ c <> 125) o ->
    (length pre + length o <= MAX_INPUT_LINE_LENGTH - 1)%nat ->
    (length o <= k)%nat ->
    parse_indexed_loop (o ++ p) (length pre) start_index substrings
      (pre ++ replicate k 0)
    = parse_indexed_loop p (length pre + length o) start_index substrings
        ((pre ++ o) ++ replicate (k - length o) 0).
Proof.
  induction o as [|c o IH]; intros p pre k start_index substrings Ho Hmax Hk.
  - cbn [app length]. rewrite Nat.add_0_r, Nat.sub_0_r, app_nil_r. reflexivity.
  - apply Forall_cons in Ho. destruct Ho as [(Hc & H124 & H125) Ho].
    cbn [app length] in *. cbn [parse_indexed_loop].
    assert (E0 : (c =? 0) = false) by (apply Z.eqb_neq; lia).
    assert (E1 : (c =? 124) = false) by (apply Z.eqb_neq; lia).
    assert (E2 : (c =? 125) = false) by (apply Z.eqb_neq; lia).
    rewrite E0, E1, E2. cbn [orb].
    assert (Ei : (MAX_INPUT_LINE_LENGTH - 1 <=? length pre)%nat = false)
      by (apply Nat.leb_gt; lia).
    rewrite Ei.
    destruct k as [|k]; [lia|]. rewrite insert_zeros.
    replace (S (length pre)) with (length (pre ++ [c]))
      by (rewrite length_app; cbn [length]; lia).
    rewrite (IH p (pre ++ [c]) k start_index substrings Ho)
      by (rewrite ?length_app; cbn [length]; lia).
    rewrite length_app. cbn [length]. rewrite <- !app_assoc. cbn [app].
    f_equal. lia.
Qed.

Lemma parse_indexed_loop_options (options : list (list Z)) :
  forall (p done : list Z) (x : Z) (k substrings : nat),
    options <> [] ->
    Forall option_text options ->
    (length done + length (encoded options) < MAX_INPUT_LINE_LENGTH - 1)%nat ->
    (length (encoded options) <= k)%nat ->
    parse_indexed_loop (braced options ++ p) (S (length done)) (length done)
      substrings ((done ++ [x]) ++ replicate k 0)
    = inr ((done ++ encoded options ++ [125])
             ++ replicate (k - length (encoded options)) 0,
           (length done + length (encoded options))%nat,
           (substrings + length options)%nat).
Proof.
  induction options as [|o options IH];
    intros p done x k substrings Hne Hall Hmax Hk; [contradiction|].
  apply Forall_cons in Hall. destruct Hall as [[[Hlen Hchars] Hsep] Hall].
  rewrite encoded_cons in Hmax, Hk |- *. rewrite length_app in Hmax, Hk.
  cbn [length] in Hmax, Hk.
  assert (Ho : Forall (fun c => 1 <= c <= 255 /\ c <> 124 /\ c <> 125) o).
  { rewrite Forall_forall in Hchars, Hsep |- *. intros c Hc.
    split; [apply Hchars; exact Hc | apply Hsep; exact Hc]. }
  assert (Hstep : forall sep tail,
            parse_indexed_loop ((o ++ sep :: tail)) (S (length done)) (length done)
              substrings ((done ++ [x]) ++ replicate k 0)
            = parse_indexed_loop (sep :: tail) (S (length done) + length o)
                (length done) substrings
                (((done ++ [x]) ++ o) ++ replicate (k - length o) 0)).
  { intros sep tail.
    replace (S (length done)) with (length (done ++ [x]))
      by (rewrite length_app; cbn [length]; lia).
    apply parse_indexed_loop_option; [exact Ho | | lia].
    rewrite length_app. cbn [length]. unfold MAX_INPUT_LINE_LENGTH in *. lia. }
  assert (Hsepstep : forall sep,
            sep = 124 \/ sep = 125 ->
            let index := (S (length done) + length o)%nat in
            (MAX_INPUT_LINE_LENGTH - 1 <=? index)%nat = false /\
            (((index - length done - 1 <? 1) || (255 <? index - length done - 1))%nat
             = false) /\
            <[length done := Z.of_nat (index - length done - 1)]>
              (<[index := sep]>
                 (((done ++ [x]) ++ o) ++ replicate (k - length o) 0))
            = ((done ++ Z.of_nat (length o) :: o) ++ [sep])
              ++ replicate (k - length o - 1) 0).
  { intros sep Hs index. subst index.
    split; [apply Nat.leb_gt; unfold MAX_INPUT_LINE_LENGTH in *; lia|].
    replace (S (length done) + length o - length done - 1)%nat with (length o)
      by lia.
    split.
    - apply orb_false_iff. split; [apply Nat.ltb_ge | apply Nat.ltb_ge]; lia.
    - replace (S (length done) + length o)%nat
        with (length ((done ++ [x]) ++ o))
        by (rewrite !length_app; cbn [length]; lia).
      destruct (k - length o)%nat as [|k'] eqn:Ek; [lia|].
      rewrite insert_zeros.
      replace (S k' - 1)%nat with k' by lia.
      rewrite <- !app_assoc. cbn [app].
      rewrite insert_app_r_alt by lia. rewrite Nat.sub_diag.
      cbn [insert list_insert]. reflexivity. }
  destruct options as [|o2 options].
  - cbn [braced encoded flat_map app length] in *. rewrite app_nil_r in *.
    rewrite <- app_assoc. cbn [app]. rewrite Hstep.
    destruct (Hsepstep 125 ltac:(right; reflexivity)) as (Ei & El & Hb).
    cbn zeta in Ei, El, Hb. cbn [parse_indexed_loop].
    change (125 =? 0) with false. change (125 =? 124) with false.
    change (125 =? 125) with true. cbn [orb]. cbv iota.
    rewrite Ei, El, Hb.
    replace (k - S (length o))%nat with (k - length o - 1)%nat by lia.
    replace (length done + S (length o))%nat with (S (length done) + length o)%nat
      by lia.
    replace (substrings + 1)%nat with (S substrings) by lia.
    repeat (rewrite <- app_assoc; cbn [app]). reflexivity.
  - change (braced (o :: o2 :: options)) with (o ++ 124 :: braced (o2 :: options)).
    rewrite <- app_assoc. cbn [app]. rewrite Hstep.
    destruct (Hsepstep 124 ltac:(left; reflexivity)) as (Ei & El & Hb).
    cbn zeta in Ei, El, Hb. cbn [parse_indexed_loop].
    change (124 =? 0) with false. change (124 =? 124) with true.
    change (124 =? 125) with false. cbn [orb]. cbv iota.
    rewrite Ei, El, Hb.
    set (done' := done ++ Z.of_nat (length o) :: o).
    assert (Hd' : length done' = (S (length done) + length o)%nat)
      by (unfold done'; rewrite length_app; cbn [length]; lia).
    rewrite <- Hd'.
    rewrite (IH p done' 124 (k - length o - 1)%nat (S substrings)
               ltac:(discriminate) Hall ltac:(lia) ltac:(lia)).
    rewrite Hd'. cbn [length]. rewrite length_app.
    replace (k - length o - 1 - length (encoded (o2 :: options)))%nat
      with (k - S (length o + length (encoded (o2 :: options))))%nat by lia.
    replace (S (length done) + length o + length (encoded (o2 :: options)))%nat
      with (length done + S (length o + length (encoded (o2 :: options))))%nat
      by lia.
    replace (S substrings + S (length options))%nat
      with (substrings + S (S (length options)))%nat by lia.
    unfold done'. repeat (rewrite <- app_assoc; cbn [app]). reflexivity.
Qed.

Lemma c_string_nonzero (l tl : list Z) :
  Forall (fun c => c <> 0) l -> c_string (l ++ 0 :: tl) = l.
Proof.
  induction l as [|c l IH]; intros Hl; [reflexivity|].
  apply Forall_cons in Hl. destruct Hl as [Hc Hl]. cbn [app c_string].
  rewrite (proj2 (Z.eqb_neq c 0) Hc), (IH Hl). reflexivity.
Qed.

Lemma encoded_nonzero (options : list (list Z)) :
  Forall valid_option options -> Forall (fun c => c <> 0) (encoded options).
Proof.
  induction options as [|o options IH]; intros Hall; [constructor|].
  apply Forall_cons in Hall. destruct Hall as [[Hlen Hchars] Hall].
  rewrite encoded_cons. apply Forall_app. split; [|apply IH; exact Hall].
  apply Forall_cons. split; [lia|].
  eapply Forall_impl; [exact Hchars|]. cbn. intros c Hc. lia.
Qed.

(** X12. [parse_indexed_text] turns the text [o1|o2|...|on}] of two or
    more options - each of 1 to 255 characters, none of them [|] or a
    closing brace - into the list that [get_selected_text] reads: every
    option preceded by its length, and a zero at the end.  What follows the
    closing brace is not looked at. *)
Theorem parse_indexed_text_builds_the_list (options : list (list Z))
    (p : list Z) :
  (2 <= length options)%nat ->
  Forall option_text options ->
  (length (encoded options) < MAX_INPUT_LINE_LENGTH - 1)%nat ->
  parse_indexed_text (braced options ++ p) = inr (indexed_text options).
Proof.
  intros Hn Hall Hmax. unfold parse_indexed_text.
  assert (Hne : options <> []) by (destruct options; [cbn in Hn; lia | discriminate]).
  pose proof (parse_indexed_loop_options options p [] 0 (MAX_INPUT_LINE_LENGTH - 1) 0
                Hne Hall ltac:(cbn [length]; lia) ltac:(lia)) as Hrun.
  change (parse_indexed_loop (braced options ++ p) 1 0 0
            (replicate MAX_INPUT_LINE_LENGTH 0)
          = inr (([] ++ encoded options ++ [125])
                   ++ replicate (MAX_INPUT_LINE_LENGTH - 1 - length (encoded options)) 0,
                 (0 + length (encoded options))%nat, (0 + length options)%nat))
    in Hrun.
  rewrite Hrun.
  cbn [length app plus].
  assert (Hsub : (length options <? 2)%nat = false) by (apply Nat.ltb_ge; lia).
  rewrite Hsub.
  rewrite <- app_assoc. rewrite insert_app_r_alt by lia. rewrite Nat.sub_diag.
  cbn [app insert list_insert].
  rewrite c_string_nonzero.
  - reflexivity.
  - apply encoded_nonzero. eapply Forall_impl; [exact Hall|].
    intros o [Ho _]. exact Ho.
Qed.

Section selection.
Context {M : messages_h}.

(** [get_selected_text] on a well-formed list: the option at the index,
    clamped to the last one, is copied and no error is recorded. *)
Lemma get_selected_text_selects (options : list (list Z))
    (in_file index : Z) (enums : list enum_data_t) (txt_buffer : list Z)
    (es : err_state) :
  options <> [] ->
  Forall valid_option options ->
  in_file < MAX_ENUMS ->
  type (enum_at enums in_file) = Y_TEXT_TYPE \/
  type (enum_at enums in_file) = IN_FILE_TYPE ->
  payload (enum_at enums in_file) = in_file_txt (Some (indexed_text options)) ->
  0 <= index ->
  let r := get_selected_text in_file index enums txt_buffer es in
  snd r = es /\
  options !! Nat.min (Z.to_nat index) (length options - 1)
  = Some (c_string (fst r)).
Proof.
  intros Hne Hall Hin Hty Hpay Hidx r. subst r. unfold get_selected_text.
  destruct (in_file <? MAX_ENUMS) eqn:E; zbool; [|lia].
  assert (Hb : enums_type_eqb (type (enum_at enums in_file)) Y_TEXT_TYPE
               || enums_type_eqb (type (enum_at enums in_file)) IN_FILE_TYPE = true).
  { destruct Hty as [-> | ->]; reflexivity. }
  rewrite Hb, Hpay. cbn [union_in_file_txt fst snd].
  split; [reflexivity|].
  apply copy_selected_text_selects; assumption.
Qed.

End selection.

(** The list [{ok|warn|err}] of a format string. *)
Definition text_ok : list Z := [111; 107].
Definition text_warn : list Z := [119; 97; 114; 110].
Definition text_err : list Z := [101; 114; 114].

Example parse_ok_warn_err :
  parse_indexed_text (text_ok ++ [124] ++ text_warn ++ [124] ++ text_err ++ [125])
  = inr (indexed_text [text_ok; text_warn; text_err]).
Proof. vm_compute. reflexivity. Qed.

Definition enums_with_ok_warn_err : list enum_data_t :=
  replicate 32 enum_zero
  ++ [mk_enum_data (Some [35; 89]) Y_TEXT_TYPE None None
        (in_file_txt (Some (indexed_text [text_ok; text_warn; text_err])))].

Definition err_state_zero : err_state :=
  mk_err_state 0 (replicate 261 0) (replicate 10 (mk_error_log 0 0 0 0 None)) 0 0.

Lemma parse_indexed_text_builds_the_list_example :
  parse_indexed_text (text_ok ++ [124] ++ text_warn ++ [125] ++ [34; 10])
  = inr [2; 111; 107; 4; 119; 97; 114; 110; 0].
Proof.
  apply (parse_indexed_text_builds_the_list [text_ok; text_warn] [34; 10]).
  - cbn. lia.
  - repeat constructor; cbn; lia.
  - cbn. lia.
Defined.

End SelectedText.

(** ** format.h: message types *)

Inductive msg_type_t := TYPE_MSG0_8 | TYPE_MSGN | TYPE_EXT_MSG | TYPE_MSGX.

Definition msg_type_eqb (a b : msg_type_t) : bool :=
  match a, b with
  | TYPE_MSG0_8, TYPE_MSG0_8 | TYPE_MSGN, TYPE_MSGN
  | TYPE_EXT_MSG, TYPE_EXT_MSG | TYPE_MSGX, TYPE_MSGX => true
  | _, _ => false
  end.

(** ** decoder.c: finishing a MSGX message *)

Module Msgx.
Import Errors.

(** The assembled message of [g_msg]. *)
Record asm_state := mk_asm_state {
  fmt_id : Z;
  additional_data : Z;
  asm_words : Z;
  asm_size : Z;
  assembled_msg : list Z
}.

(** What is written to the logs: the report of a problem and the hex dump of
    the current message. *)
Inductive report_event :=
| ev_problem (error_code d1 d2 : Z)
| ev_hex_dump (print_words : bool) (data : list Z).

(** Byte [i] of a word array seen through a byte pointer (little-endian). *)
Definition msg_byte (words : list Z) (i : Z) : Z := Extract.msg_byte words i.

Definition set_byte (words : list Z) (i b : Z) : list Z :=
  let shift := 8 * (i mod 4) in
  alter (fun w => Z.lor (Z.land w (Z.lnot (Z.shiftl 255 shift))) (Z.shiftl b shift))
    (Z.to_nat (i / 4)) words.

Definition message_bytes (st : asm_state) : list Z :=
  map (fun i => msg_byte (assembled_msg st) (Z.of_nat i))
    (seq 0 (Z.to_nat (wrap32 (asm_words st * 4)))).

Definition message_words (st : asm_state) : list Z :=
  map (fun i => word_at (assembled_msg st) (Z.of_nat i))
    (seq 0 (Z.to_nat (asm_words st))).

(** [hex_dump_current_message] of print_helper.c. *)
Definition hex_dump_current_message (print_words : bool) (st : asm_state)
    : list report_event :=
  if asm_words st =? 0 then []
  else [ev_hex_dump print_words
          (if print_words then message_words st else message_bytes st)].

Section with_messages.
Context {M : messages_h}.

(** [report_problem2] and [report_problem] of errors.c: one report (written
    to the error log and to the main log), one more error in the total and
    under the code. *)
Definition count_problem (error_code : Z) (es : err_state) : err_state :=
  mk_err_state (wrap32 (total_errors es + 1))
    (alter (fun c => wrap32 (c + 1)) (Z.to_nat error_code) (error_counter es))
    (error_log es) (msg_error_counter es) (error_value_no es).

Definition report_problem2 (error_code d1 d2 : Z) (es : err_state)
    : err_state * list report_event :=
  let error_code :=
    if (error_code <? FIRST_ERROR) || (error_code >=? TOTAL_ERRORS)
    then ERR_DECODE_UNKNOWN_ERROR else error_code in
  (count_problem error_code es, [ev_problem error_code d1 d2]).

Definition report_problem (error_code d : Z) (es : err_state)
    : err_state * list report_event :=
  let error_code :=
    if (error_code >=? TOTAL_ERRORS) || (error_code <? FIRST_FATAL_ERROR)
    then FATAL_LAST else error_code in
  (count_problem error_code es, [ev_problem error_code d 0]).

Definition set_asm_size (n : Z) (st : asm_state) : asm_state :=
  mk_asm_state (fmt_id st) (additional_data st) (asm_words st) n (assembled_msg st).

Definition set_assembled_msg (m : list Z) (st : asm_state) : asm_state :=
  mk_asm_state (fmt_id st) (additional_data st) (asm_words st) (asm_size st) m.

(** [prepare_message_msgx]: whether the message is valid, the message, the
    error state and the reports written. *)
Definition prepare_message_msgx (st : asm_state) (es : err_state)
    : bool * asm_state * err_state * list report_event :=
  if asm_size st =? 0 then
    let '(es', ev) := report_problem ERR_MSGX_SIZE_EMPTY 0 es in
    (false, st, es', ev)
  else
    let last := word_at (assembled_msg st) (wrap32 (asm_words st - 1)) in
    let size := Z.land (Z.shiftr last 24) 255 in
    if size >? wrap32 (asm_size st - 1) then
      let '(es', ev) :=
        report_problem2 ERR_MSGX_SIZE_TOO_LARGE size (wrap32 (asm_size st - 1)) es in
      (false, st, es', ev ++ hex_dump_current_message false st)
    else if size <? wrap32 (asm_size st - 4) then
      let '(es', ev) :=
        report_problem2 ERR_MSGX_SIZE_TOO_SMALL size (wrap32 (asm_size st - 4)) es in
      (false, st, es', ev ++ hex_dump_current_message false st)
    else
      let last_word := Z.land last 0x00FFFFFF in
      if negb (Z.shiftr last_word (Z.land size 3 * 8) =? 0) then
        let '(es', ev) := report_problem ERR_MSGX_CORRUPTED 0 es in
        (false, st, es', ev ++ hex_dump_current_message false st)
      else
        let m := set_byte (assembled_msg st) (size + 0) 0 in
        let m := set_byte m (size + 1) 0 in
        let m := set_byte m (size + 2) 0 in
        let m := set_byte m (size + 3) 0 in
        (true, set_assembled_msg m (set_asm_size size st), es, []).

(** [prepare_msg_and_check_it]. *)
Definition prepare_msg_and_check_it (type : msg_type_t) (mask : Z)
    (st : asm_state) (es : err_state)
    : bool * asm_state * err_state * list report_event :=
  let st := set_asm_size (wrap32 (4 * asm_words st)) st in
  let st :=
    set_assembled_msg (<[Z.to_nat (asm_words st) := 0]> (assembled_msg st)) st in
  match type with
  | TYPE_EXT_MSG =>
      let m := <[Z.to_nat (asm_words st) := Z.land (additional_data st) mask]>
                 (assembled_msg st) in
      let m := <[Z.to_nat (asm_words st + 1) := 0]> m in
      (true,
       mk_asm_state (Z.land (fmt_id st) (wrap32 (Z.lnot mask))) (additional_data st)
         (asm_words st) (wrap32 (asm_size st + 4)) m,
       es, [])
  | TYPE_MSGX => prepare_message_msgx st es
  | _ => (true, st, es, [])
  end.

(** The size byte of a MSGX message: the last byte of its last data word. *)
Definition msgx_size (st : asm_state) : Z :=
  msg_byte (assembled_msg st) (4 * asm_words st - 1).

(** The bytes of the last word between the end of the data and the size
    byte. *)
Definition padding_is_zero (st : asm_state) : Prop :=
  forall i, msgx_size st <= i < 4 * asm_words st - 1 ->
            msg_byte (assembled_msg st) i = 0.

Lemma land_255 x : Z.land x 255 = x mod 256.
Proof. change 255 with (Z.ones 8). rewrite Z.land_ones by lia. reflexivity. Qed.

Lemma land_24 x : Z.land x 0x00FFFFFF = x mod 2 ^ 24.
Proof. change 0x00FFFFFF with (Z.ones 24). rewrite Z.land_ones by lia. reflexivity. Qed.

Lemma land_3 x : Z.land x 3 = x mod 4.
Proof. change 3 with (Z.ones 2). rewrite Z.land_ones by lia. reflexivity. Qed.

Lemma padding_check last k :
  0 <= k <= 3 ->
  Z.shiftr (Z.land last 0x00FFFFFF) (k * 8) = 0
  <-> forall j, k <= j < 3 -> Z.land (Z.shiftr last (8 * j)) 255 = 0.
Proof.
  intros Hk. rewrite land_24, Z.shiftr_div_pow2 by lia.
  assert (Hb : forall j, 0 <= j -> Z.land (Z.shiftr last (8 * j)) 255
                               = (last / 2 ^ (8 * j)) mod 256).
  { intros j Hj. rewrite land_255, Z.shiftr_div_pow2 by lia. reflexivity. }
  assert (k = 0 \/ k = 1 \/ k = 2 \/ k = 3) as [-> | [-> | [-> | ->]]] by lia.
  - split.
    + intros H j Hj. rewrite Hb by lia.
      assert (j = 0 \/ j = 1 \/ j = 2) as [-> | [-> | ->]] by lia;
        simpl in *; Z.div_mod_to_equations; lia.
    + intros H. pose proof (H 0 ltac:(lia)) as H0. pose proof (H 1 ltac:(lia)) as H1.
      pose proof (H 2 ltac:(lia)) as H2. rewrite Hb in H0, H1, H2 by lia.
      simpl in *. Z.div_mod_to_equations. lia.
  - split.
    + intros H j Hj. rewrite Hb by lia.
      assert (j = 1 \/ j = 2) as [-> | ->] by lia;
        simpl in *; Z.div_mod_to_equations; lia.
    + intros H. pose proof (H 1 ltac:(lia)) as H1.
      pose proof (H 2 ltac:(lia)) as H2. rewrite Hb in H1, H2 by lia.
      simpl in *. Z.div_mod_to_equations. lia.
  - split.
    + intros H j Hj. rewrite Hb by lia.
      assert (j = 2) as -> by lia.
      simpl in *; Z.div_mod_to_equations; lia.
    + intros H. pose proof (H 2 ltac:(lia)) as H2. rewrite Hb in H2 by lia.
      simpl in *. Z.div_mod_to_equations. lia.
  - split.
    + intros H j Hj. lia.
    + intros _. simpl. Z.div_mod_to_equations. lia.
Qed.

Lemma clear_byte_other w si sj :
  0 <= si -> 0 <= sj -> (si + 8 <= sj \/ sj + 8 <= si) ->
  Z.land (Z.shiftr (Z.lor (Z.land w (Z.lnot (Z.shiftl 255 sj))) (Z.shiftl 0 sj)) si) 255
  = Z.land (Z.shiftr w si) 255.
Proof.
  intros Hi Hj Hd. rewrite Z.shiftl_0_l, Z.lor_0_r.
  apply Z.bits_inj'. intros n Hn.
  rewrite !Z.land_spec, !Z.shiftr_spec, Z.land_spec, Z.lnot_spec by lia.
  change 255 with (Z.ones 8).
  destruct (Z.testbit (Z.ones 8) n) eqn:E8; [|rewrite !andb_false_r; reflexivity].
  rewrite !andb_true_r.
  assert (Hn8 : n < 8).
  { destruct (Z_lt_le_dec n 8) as [H|H]; [exact H|].
    rewrite Z.ones_spec_high in E8 by lia. discriminate. }
  rewrite Z.shiftl_spec by lia.
  destruct (Z_lt_le_dec (n + si - sj) 0) as [Hneg | Hpos].
  - rewrite (Z.testbit_neg_r _ _ Hneg). simpl. apply andb_true_r.
  - rewrite Z.ones_spec_high by lia. simpl. apply andb_true_r.
Qed.

Lemma word_at_insert_other (l : list Z) (n : nat) (x i : Z) :
  0 <= i -> Z.to_nat i <> n -> word_at (<[n := x]> l) i = word_at l i.
Proof.
  intros Hi Hn. unfold word_at. destruct (i <? 0); [reflexivity|].
  rewrite list_lookup_insert_ne by congruence. reflexivity.
Qed.

Lemma msg_byte_clear_other words i j :
  0 <= i -> 0 <= j -> i <> j ->
  msg_byte (set_byte words j 0) i = msg_byte words i.
Proof.
  intros Hi Hj Hne. unfold msg_byte, Extract.msg_byte, set_byte, word_at.
  assert (Hi4 : 0 <= i / 4) by (apply Z.div_pos; lia).
  assert (Hj4 : 0 <= j / 4) by (apply Z.div_pos; lia).
  destruct (i / 4 <? 0) eqn:E; zbool; [lia|].
  destruct (decide (Z.to_nat (j / 4) = Z.to_nat (i / 4))) as [Heq | Hd].
  - rewrite Heq, list_lookup_alter_eq.
    destruct (words !! Z.to_nat (i / 4)) as [w|]; [|reflexivity]. simpl.
    apply clear_byte_other.
    + pose proof (Z.mod_pos_bound i 4). lia.
    + pose proof (Z.mod_pos_bound j 4). lia.
    + assert (i / 4 = j / 4) by lia.
      pose proof (Z.div_mod i 4). pose proof (Z.div_mod j 4).
      pose proof (Z.mod_pos_bound i 4). pose proof (Z.mod_pos_bound j 4). lia.
  - rewrite list_lookup_alter_ne by exact Hd. reflexivity.
Qed.

(** C4. A MSGX message of [words >= 1] data words, with [size] the last byte
    of its last data word, is accepted exactly when [size <= 4 * words - 1],
    [size >= 4 * words - 4] and the padding bytes between the data and the
    size byte are zero.  An accepted message gets the length [size], its first
    [size] bytes unchanged; a rejected one is reported (one problem, counted
    in the total) and dumped in hex, byte by byte. *)
Theorem msgx_size_validated_and_trimmed (mask : Z) (st : asm_state)
    (es : err_state) :
  1 <= asm_words st < 2 ^ 30 ->
  let r := prepare_msg_and_check_it TYPE_MSGX mask st es in
  let ok := fst (fst (fst r)) in
  let st' := snd (fst (fst r)) in
  let size := msgx_size st in
  let words := asm_words st in
  (ok = true <->
     size <= 4 * words - 1 /\ 4 * words - 4 <= size /\ padding_is_zero st) /\
  (ok = true ->
     asm_size st' = size /\ asm_words st' = words /\
     (forall i, 0 <= i < size ->
        msg_byte (assembled_msg st') i = msg_byte (assembled_msg st) i) /\
     snd (fst r) = es /\ snd r = []) /\
  (ok = false ->
     (exists code d1 d2,
        snd r = [ev_problem code d1 d2; ev_hex_dump false (message_bytes st)]) /\
     total_errors (snd (fst r)) = wrap32 (total_errors es + 1)).
Proof.
  intros Hw r ok st' size words. subst ok st' r.
  unfold prepare_msg_and_check_it.
  set (st1 := set_assembled_msg _ (set_asm_size _ st)).
  assert (Hsz : asm_size st1 = 4 * words).
  { unfold st1. simpl. apply wrap32_small. unfold words. lia. }
  assert (Hwd : asm_words st1 = words) by reflexivity.
  assert (Hbytes : forall i, 0 <= i < 4 * words ->
            msg_byte (assembled_msg st1) i = msg_byte (assembled_msg st) i).
  { intros i Hi. unfold st1, msg_byte, Extract.msg_byte. simpl.
    rewrite word_at_insert_other; [reflexivity | apply Z.div_pos; lia |].
    fold words. pose proof (Z.div_mod i 4). pose proof (Z.mod_pos_bound i 4).
    assert (0 <= i / 4) by (apply Z.div_pos; lia). lia. }
  assert (Hdump : message_bytes st1 = message_bytes st).
  { unfold message_bytes. rewrite Hwd. fold words.
    apply map_ext_in. intros a Ha. apply in_seq in Ha.
    apply Hbytes. rewrite wrap32_small in Ha by lia. lia. }
  assert (Hlast : Z.land (Z.shiftr (word_at (assembled_msg st1)
                                      (wrap32 (asm_words st1 - 1))) 24) 255 = size).
  { rewrite Hwd, wrap32_small by (unfold words; lia).
    unfold size, msgx_size. rewrite <- Hbytes by (fold words; lia).
    unfold msg_byte, Extract.msg_byte. fold words.
    replace ((4 * words - 1) / 4) with (words - 1)
      by (Z.div_mod_to_equations; lia).
    replace ((4 * words - 1) mod 4) with 3 by (Z.div_mod_to_equations; lia).
    reflexivity. }
  assert (Hrange : 0 <= size < 256).
  { rewrite <- Hlast, land_255. apply Z.mod_pos_bound. lia. }
  assert (Hhex : hex_dump_current_message false st1
                 = [ev_hex_dump false (message_bytes st)]).
  { unfold hex_dump_current_message. rewrite Hwd.
    destruct (words =? 0) eqn:E; zbool; [unfold words in *; lia|].
    rewrite Hdump. reflexivity. }
  unfold prepare_message_msgx. rewrite Hhex, Hlast, Hsz.
  destruct (4 * words =? 0) eqn:E0; zbool; [unfold words in *; lia|].
  rewrite !wrap32_small by (unfold words; lia).
  destruct (size >? 4 * words - 1) eqn:E1; zbool.
  { simpl. split; [split; [discriminate | lia]|]. split; [discriminate|].
    intros _. split; [repeat eexists | reflexivity]. }
  destruct (size <? 4 * words - 4) eqn:E2; zbool.
  { simpl. split; [split; [discriminate | lia]|]. split; [discriminate|].
    intros _. split; [repeat eexists | reflexivity]. }
  assert (Hk : Z.land size 3 = size - (4 * words - 4)).
  { rewrite land_3. Z.div_mod_to_equations. lia. }
  assert (Hpad : Z.shiftr (Z.land (word_at (assembled_msg st1)
                                     (asm_words st1 - 1)) 0x00FFFFFF)
                   (Z.land size 3 * 8) = 0 <-> padding_is_zero st).
  { rewrite padding_check by lia. unfold padding_is_zero. fold size words.
    rewrite Hk, Hwd. split.
    - intros H i Hi. rewrite <- Hbytes by lia.
      specialize (H (i - (4 * words - 4)) ltac:(lia)).
      unfold msg_byte, Extract.msg_byte.
      replace (i / 4) with (words - 1) by (Z.div_mod_to_equations; lia).
      replace (i mod 4) with (i - (4 * words - 4))
        by (Z.div_mod_to_equations; lia).
      exact H.
    - intros H j Hj. specialize (H (j + (4 * words - 4)) ltac:(lia)).
      rewrite <- Hbytes in H by lia.
      unfold msg_byte, Extract.msg_byte in H.
      replace ((j + (4 * words - 4)) / 4) with (words - 1) in H
        by (Z.div_mod_to_equations; lia).
      replace ((j + (4 * words - 4)) mod 4) with j in H
        by (Z.div_mod_to_equations; lia).
      exact H. }
  rewrite Hwd in Hpad |- *.
  destruct (Z.shiftr _ (Z.land size 3 * 8) =? 0) eqn:E3; zbool; simpl.
  - split; [split; [intros _ | reflexivity]|].
    { split; [lia|]. split; [lia|]. apply Hpad. exact E3. }
    split; [|discriminate]. intros _.
    split; [reflexivity|]. split; [reflexivity|]. split; [|split; reflexivity].
    intros i Hi. rewrite !Z.add_0_r.
    rewrite !msg_byte_clear_other by lia.
    apply Hbytes. lia.
  - split; [split; [discriminate|]|].
    { intros (_ & _ & Hp). apply Hpad in Hp. contradiction. }
    split; [discriminate|].
    intros _. split; [repeat eexists | reflexivity].
Qed.

End with_messages.

(** Two data words holding "hello" and the size byte 5. *)
Definition hello_message : asm_state :=
  mk_asm_state 16 0 2 0 [0x6C6C6568; 0x0500006F; 0xAAAAAAAA; 0xAAAAAAAA].

Lemma hello_message_is_trimmed_to_5 :
  let r := prepare_msg_and_check_it (M := messages_example) TYPE_MSGX 0
             hello_message SelectedText.err_state_zero in
  fst (fst (fst r)) = true /\ asm_size (snd (fst (fst r))) = 5.
Proof.
  destruct (msgx_size_validated_and_trimmed (M := messages_example) 0
              hello_message SelectedText.err_state_zero) as (Hiff & Hok & _).
  - simpl. lia.
  - assert (Htrue : fst (fst (fst (prepare_msg_and_check_it (M := messages_example)
                       TYPE_MSGX 0 hello_message SelectedText.err_state_zero)))
                    = true).
    { apply Hiff. split; [|split].
      - vm_compute. discriminate.
      - vm_compute. discriminate.
      - intros i Hi. change (msgx_size hello_message) with 5 in Hi.
        change (4 * asm_words hello_message - 1) with 7 in Hi.
        assert (i = 5 \/ i = 6) as [-> | ->] by lia; reflexivity. }
    split; [exact Htrue|]. destruct (Hok Htrue) as (H1 & _). exact H1.
Defined.

(** The same message with a nonzero padding byte is rejected, reported and
    dumped. *)
Example corrupted_message_is_rejected :
  let r := prepare_msg_and_check_it (M := messages_example) TYPE_MSGX 0
             (mk_asm_state 16 0 2 0 [0x6C6C6568; 0x0500216F; 0; 0])
             SelectedText.err_state_zero in
  fst (fst (fst r)) = false /\
  snd r = [ev_problem 123 0 0;
           ev_hex_dump false [0x68; 0x65; 0x6C; 0x6C; 0x6F; 0x21; 0; 5]].
Proof. split; reflexivity. Qed.

End Msgx.

(** ** print_message.c: preparing and printing the values of a message *)

Module PrintMessage.
Import Errors Memo Extract Scaling MemoRead SelectedText.

(** The codes of messages.h that the printing functions report. *)
Class decode_messages_h := {
  ERR_DECODE_DATA_SIZE_NOT_DIVISIBLE_BY_8 : Z;
  ERR_DECODE_ADDRESS_NOT_DIVISIBLE_BY_8 : Z;
  ERR_DECODE_AUTO_VALUE_ADDRESS_NOT_DIVISIBLE_BY_32 : Z;
  ERR_DECODE_AUTO_VALUE_SIZE_NOT_32 : Z;
  ERR_AUTO_VALUE_AND_SCALING : Z;
  ERR_DECODE_TOO_SMALL_INT_DATA_SIZE : Z;
  ERR_DECODE_TOO_SMALL_UINT_DATA_SIZE : Z;
  ERR_DECODE_FLOAT_SIZE_MUST_BE_16_32_OR_64 : Z;
  ERR_PRINT_BIN_VALUE_TYPE : Z;
  ERR_MESSAGE_MUST_CONTAIN_ONE_FMT_DEFINITION : Z;
  ERR_UNWANTED_EXTENDED_DATA : Z;
  MSG_UNDEFINED_NAME : Z
}.

Definition decode_messages_example : decode_messages_h := {|
  ERR_DECODE_DATA_SIZE_NOT_DIVISIBLE_BY_8 := 112;
  ERR_DECODE_ADDRESS_NOT_DIVISIBLE_BY_8 := 113;
  ERR_DECODE_AUTO_VALUE_ADDRESS_NOT_DIVISIBLE_BY_32 := 114;
  ERR_DECODE_AUTO_VALUE_SIZE_NOT_32 := 115;
  ERR_AUTO_VALUE_AND_SCALING := 116;
  ERR_DECODE_TOO_SMALL_INT_DATA_SIZE := 117;
  ERR_DECODE_TOO_SMALL_UINT_DATA_SIZE := 118;
  ERR_DECODE_FLOAT_SIZE_MUST_BE_16_32_OR_64 := 119;
  ERR_PRINT_BIN_VALUE_TYPE := 124;
  ERR_MESSAGE_MUST_CONTAIN_ONE_FMT_DEFINITION := 125;
  ERR_UNWANTED_EXTENDED_DATA := 126;
  MSG_UNDEFINED_NAME := 250
|}.

(** Further internal error numbers of errors.h. *)
Definition INT_INCORRECT_AUTO_VALUE_TYPE : Z := 6.
Definition INT_FMT_ID_OUT_OF_RANGE : Z := 7.
Definition INT_FMT_STRING_NULL : Z := 8.
Definition INT_BAD_DATA_TYPE : Z := 9.
Definition INT_DECODE_INTERNAL_UNKNOWN_TYPE : Z := 10.
Definition INT_OUT_FILE_INDEX_OUT_OF_RANGE : Z := 11.
Definition INT_BAD_OUT_FILE_TYPE : Z := 12.
Definition INT_OUT_FILE_PTR_NULL : Z := 13.

(** The numbers of the enumerators of [fmt_type_t] and [data_type_t]. *)
Definition fmt_type_code (t : fmt_type_t) : Z :=
  match t with
  | PRINT_PLAIN_TEXT => 0 | PRINT_STRING => 1 | PRINT_SELECTED_TEXT => 2
  | PRINT_UINT64 => 3 | PRINT_INT64 => 4 | PRINT_DOUBLE => 5
  | PRINT_BINARY => 6 | PRINT_TIMESTAMP => 7 | PRINT_dTIMESTAMP => 8
  | PRINT_MSG_NO => 9 | PRINT_HEX1U => 10 | PRINT_HEX2U => 11
  | PRINT_HEX4U => 12 | PRINT_BIN_TO_FILE => 13 | PRINT_DATE => 14
  | PRINT_MSG_FMT_ID_NAME => 15
  end.

Definition data_type_code (t : data_type_t) : Z :=
  match t with
  | VALUE_AUTO => 0 | VALUE_UINT64 => 1 | VALUE_INT64 => 2 | VALUE_DOUBLE => 3
  | VALUE_STRING => 4 | VALUE_TIMESTAMP => 5 | VALUE_dTIMESTAMP => 6
  | VALUE_MEMO => 7 | VALUE_TIME_DIFF => 8 | VALUE_MESSAGE_NO => 9
  end.

(** *** Conversions to double *)

(** [(double)] of an integer: the nearest double, ties to even. *)
Definition double_of_Z (z : Z) : float :=
  SF2Prim (SpecFloat.binary_normalize 53 1024 z 0 false).

(** [(double)] of the [float] whose 32 bits are [b], as read through
    [val_convert32_t]; every single-precision number is a double.  The model
    has one NaN. *)
Definition double_of_float_bits (b : Z) : float :=
  let sign := Z.testbit b 31 in
  let e := Z.land (Z.shiftr b 23) 255 in
  let m := Z.land b (2 ^ 23 - 1) in
  if e =? 255 then
    if m =? 0 then (if sign then neg_infinity else infinity) else nan
  else
    let mag := if e =? 0 then m else m + 2 ^ 23 in
    let ex := if e =? 0 then -149 else e - 150 in
    SF2Prim (SpecFloat.binary_normalize 53 1024 (if sign then - mag else mag)
               ex sign).

(** The double whose 64 bits are [b], as read through [val_convert64_t]. *)
Definition double_of_bits (b : Z) : float :=
  let sign := Z.testbit b 63 in
  let e := Z.land (Z.shiftr b 52) 2047 in
  let m := Z.land b (2 ^ 52 - 1) in
  if e =? 2047 then
    if m =? 0 then (if sign then neg_infinity else infinity) else nan
  else
    let mag := if e =? 0 then m else m + 2 ^ 52 in
    let ex := if e =? 0 then -1074 else e - 1075 in
    SF2Prim (SpecFloat.binary_normalize 53 1024 (if sign then - mag else mag)
               ex sign).

(** The [n] bytes of an integer in memory (little-endian). *)
Definition le_bytes (n : nat) (v : Z) : list Z :=
  map (fun i => Z.land (Z.shiftr v (8 * Z.of_nat i)) 255) (seq 0 n).

(** *** The state of the decoder that printing reads *)

(** [msg_data_t] of format.h, with the linked list of value descriptors as a
    list ([NULL] is the empty list). *)
Record msg_data_t := mk_msg_data {
  message_name : option (list Z);
  msg_type : msg_type_t;
  counter : Z;
  total_data_received : Z;
  time_last_message : float;
  format : list value_format_t
}.

Definition msg_data_zero : msg_data_t :=
  mk_msg_data None TYPE_MSG0_8 0 0 0%float [].

(** The part of [g_msg] and [g_fmt] that is not changed while the values of a
    message are printed.  [g_fmt] holds pointers, several format IDs share one
    [msg_data_t]; a pointer is the index of its target in [msg_data].  The
    three [bool]s tell whether the [FILE] pointers are set. *)
Record env := mk_env {
  main_log : bool;
  error_log_file : bool;
  timestamps : bool;
  msg_number_print : option (list Z);
  timestamp_print : option (list Z);
  time_multiplier : float;
  date_string : list Z;
  fmt_id : Z;
  asm_words : Z;
  asm_size : Z;
  assembled_msg : list Z;
  message_cnt : Z;
  timestamp_f : float;
  g_fmt : list (option Z);
  msg_data : list msg_data_t
}.

(** [g_fmt[i]] and the structure a pointer of [g_fmt] designates; every
    pointer stored in [g_fmt] is that of an allocated structure, the default
    only makes the model total. *)
Definition fmt_at (g : list (option Z)) (i : Z) : option Z :=
  if i <? 0 then None else default None (g !! Z.to_nat i).

Definition msg_at (m : list msg_data_t) (p : Z) : msg_data_t :=
  default msg_data_zero (m !! Z.to_nat p).

(** The value registers, the enum table and the static buffer of
    [get_selected_text]. *)
Record print_state := mk_print_state {
  value : value_t;
  enums : list enum_data_t;
  txt_buffer : list Z
}.

Definition set_value (v : value_t) (st : print_state) : print_state :=
  mk_print_state v (enums st) (txt_buffer st).

Definition set_data_double (d : float) (v : value_t) : value_t :=
  mk_value d (data_i64 v) (data_u64 v) (data_null v).

(** *** What is written *)

(** A [FILE] pointer: one of the two logs, Timestamps.csv, or the file of an
    [OUT_FILE] entry of the enum table. *)
Inductive stream :=
| log (f : file_t)
| timestamps_csv
| out_file_ptr (p : Z).

Inductive printf_arg :=
| arg_u32 (v : Z)
| arg_u64 (v : Z)
| arg_i64 (v : Z)
| arg_double (v : float)
| arg_string (s : option (list Z)).

(** One call of [fprintf], [fwrite], [print_binary64] or
    [hex_print_complete_message], one report of [report_problem], or one line
    of the report of decoding errors. *)
Inductive print_event :=
| pr_fprintf (out : stream) (fmt_text : option (list Z)) (args : list printf_arg)
| pr_fwrite (out : stream) (data : list Z) (count : Z)
| pr_binary (out : stream) (text : list Z)
| pr_hex_print (out : stream) (bytes_to_skip size print_as : Z)
| pr_problem (e : Msgx.report_event)
| pr_errors (e : out_event).

(** Whether an event belongs to the report of decoding errors. *)
Definition is_error_report (e : print_event) : bool :=
  match e with pr_errors _ => true | _ => false end.

Section with_messages.
Context {M : messages_h} {D : decode_messages_h}.

(** The casts [(int64_t)] and [(uint64_t)] of a double (see [Scaling]), the
    union cell read as a double (see [MemoRead]) and [get_message_text] of
    the message table. *)
Variable cast_i64 : float -> Z.
Variable cast_u64 : float -> Z.
Variable pointer_as_double : def_union -> float.
Variable get_message_text : Z -> list Z.

Definition MAIN : stream := log MAIN_LOG.

(** The copy that a descriptor with [print_copy_to_main_log] sends to
    Main.log. *)
Definition copy_to_main_log (fmt : value_format_t) (events : list print_event)
    : list print_event :=
  if print_copy_to_main_log fmt then events else [].

(** [print_message_number] and [print_timestamp] of print_helper.c. *)
Definition print_message_number (e : env) (out : stream) (msg_no : Z)
    : print_event :=
  pr_fprintf out
    (Some (default [78; 37; 48; 53; 117] (msg_number_print e)))
    [arg_u32 msg_no].

Definition print_timestamp (e : env) (out : stream) (timestamp : float)
    : print_event :=
  pr_fprintf out (timestamp_print e)
    [arg_double (timestamp * time_multiplier e)%float].

(** [get_format_id_name] of format.c. *)
Definition get_format_id_name (e : env) (id : Z) : list Z :=
  let p_name :=
    if id <? MAX_FMT_IDS then
      match fmt_at (g_fmt e) id with
      | Some p => message_name (msg_at (msg_data e) p)
      | None => None
      end
    else None in
  default (get_message_text MSG_UNDEFINED_NAME) p_name.

(** *** Preparing a value *)

Definition check_value_bit_address (fmt : value_format_t) (divisible_by_8 : bool)
    (es : err_state) : err_state :=
  if divisible_by_8 then
    if negb (Z.land (data_size fmt) 7 =? 0) then
      save_decoding_error ERR_DECODE_DATA_SIZE_NOT_DIVISIBLE_BY_8 (data_size fmt) 8
        (fmt_string fmt) es
    else if negb (Z.land (bit_address fmt) 7 =? 0) then
      save_decoding_error ERR_DECODE_ADDRESS_NOT_DIVISIBLE_BY_8 (bit_address fmt) 8
        (fmt_string fmt) es
    else es
  else es.

(** [extract_value_from_message] on the current message. *)
Definition extract (e : env) (fmt : value_format_t) (v : value_t)
    (es : err_state) : value_t * err_state :=
  fst (extract_value_from_message fmt (asm_size e) (assembled_msg e) v es).

(** [process_value_auto]; the first component is the returned flag. *)
Definition process_value_auto (e : env) (fmt : value_format_t) (v : value_t)
    (es : err_state) : bool * value_t * err_state :=
  if negb (bit_address fmt mod 32 =? 0) then
    (true, v,
     save_decoding_error ERR_DECODE_AUTO_VALUE_ADDRESS_NOT_DIVISIBLE_BY_32
       (bit_address fmt) 32 (fmt_string fmt) es)
  else if negb (data_size fmt =? 32) then
    (true, v,
     save_decoding_error ERR_DECODE_AUTO_VALUE_SIZE_NOT_32 (data_size fmt) 32
       (fmt_string fmt) es)
  else if negb (PrimFloat.eqb (mult fmt) 0) then
    (true, v, save_decoding_error ERR_AUTO_VALUE_AND_SCALING 0 0 (fmt_string fmt) es)
  else
    let '(v, es) := extract e fmt v es in
    match fmt_type fmt with
    | PRINT_DOUBLE =>
        let d := double_of_float_bits (wrap32 (data_u64 v)) in
        (false, value_scaling cast_i64 cast_u64 fmt d (set_data_double d v), es)
    | PRINT_INT64 =>
        let d := double_of_Z (data_i64 v) in
        (false, value_scaling cast_i64 cast_u64 fmt d (set_data_double d v), es)
    | PRINT_UINT64 =>
        let d := double_of_Z (data_u64 v) in
        (false, value_scaling cast_i64 cast_u64 fmt d (set_data_double d v), es)
    | PRINT_STRING => (false, v, es)
    | _ =>
        (false, v,
         save_internal_decoding_error INT_INCORRECT_AUTO_VALUE_TYPE
           (fmt_type_code (fmt_type fmt)) es)
    end.

(** [process_double_value]; the conversion of a half-precision number
    returns for each of the 65536 bit patterns. *)
Definition process_double_value (e : env) (fmt : value_format_t) (v : value_t)
    (es : err_state) : value_t * err_state :=
  let scaled (d : float) (r : value_t * err_state) :=
    (value_scaling cast_i64 cast_u64 fmt d (set_data_double d (fst r)), snd r) in
  if data_size fmt =? 16 then
    let r := extract e fmt v es in
    scaled
      (double_of_float_bits
         (default 0
            (HalfFloat.convert_half_float_to_float (data_u64 (fst r) mod 2 ^ 16))))
      r
  else if data_size fmt =? 32 then
    let r := extract e fmt v es in
    scaled (double_of_float_bits (wrap32 (data_u64 (fst r)))) r
  else if data_size fmt =? 64 then
    let r := extract e fmt v es in
    scaled (double_of_bits (data_u64 (fst r))) r
  else
    (v,
     save_decoding_error ERR_DECODE_FLOAT_SIZE_MUST_BE_16_32_OR_64 (data_size fmt) 0
       (fmt_string fmt) es).

Definition prepare_message_time_period (e : env) (fmt : value_format_t)
    (v : value_t) : value_t :=
  if fmt_id e >=? MAX_FMT_IDS then v
  else
    match fmt_at (g_fmt e) (fmt_id e) with
    | None => v
    | Some p =>
        let p_msg := msg_at (msg_data e) p in
        if counter p_msg >? 0 then
          let d := (timestamp_f e - time_last_message p_msg)%float in
          value_scaling cast_i64 cast_u64 fmt d (set_data_double d v)
        else v
    end.

Definition prepare_time_difference (e : env) (fmt : value_format_t)
    (v : value_t) : value_t :=
  let fmt_timer_start := fmt_id_timer fmt in
  if fmt_timer_start >=? MAX_FMT_IDS then v
  else
    match fmt_at (g_fmt e) fmt_timer_start with
    | None => v
    | Some p =>
        let p_fmt := msg_at (msg_data e) p in
        if counter p_fmt >? 0 then
          let time_diff := (timestamp_f e - time_last_message p_fmt)%float in
          value_scaling cast_i64 cast_u64 fmt time_diff
            (mk_value time_diff (cast_i64 time_diff) (cast_u64 time_diff)
               (data_null v))
        else v
    end.

(** The switch of [prepare_value]; the flag tells whether the switch was left
    with [break] (the memo store follows) or the function returned.  The ten
    cases are the enumerators of [data_type_t], so the [default] case has no
    counterpart. *)
Definition prepare_by_type (e : env) (fmt : value_format_t) (v : value_t)
    (enums : list enum_data_t) (es : err_state) : bool * value_t * err_state :=
  match data_type fmt with
  | VALUE_AUTO =>
      let '(rez, v, es) := process_value_auto e fmt v es in
      (negb rez, v, es)
  | VALUE_INT64 =>
      if data_size fmt <? 2 then
        (false, v,
         save_decoding_error ERR_DECODE_TOO_SMALL_INT_DATA_SIZE (data_size fmt) 1
           (fmt_string fmt) es)
      else
        let '(v, es) := extract e fmt v es in
        let d := double_of_Z (data_i64 v) in
        (true, value_scaling cast_i64 cast_u64 fmt d (set_data_double d v), es)
  | VALUE_UINT64 =>
      if data_size fmt <? 1 then
        (false, v,
         save_decoding_error ERR_DECODE_TOO_SMALL_UINT_DATA_SIZE (data_size fmt) 0
           (fmt_string fmt) es)
      else
        let '(v, es) := extract e fmt v es in
        let d := double_of_Z (data_u64 v) in
        (true, value_scaling cast_i64 cast_u64 fmt d (set_data_double d v), es)
  | VALUE_DOUBLE =>
      let '(v, es) := process_double_value e fmt v es in (true, v, es)
  | VALUE_STRING =>
      let '(v, es) := extract e fmt v es in (true, v, es)
  | VALUE_dTIMESTAMP => (true, prepare_message_time_period e fmt v, es)
  | VALUE_TIMESTAMP =>
      let d := timestamp_f e in
      (true, value_scaling cast_i64 cast_u64 fmt d (set_data_double d v), es)
  | VALUE_MEMO =>
      let '(v, es) :=
        process_memo cast_i64 cast_u64 pointer_as_double fmt enums v es in
      (true, v, es)
  | VALUE_MESSAGE_NO =>
      (true,
       mk_value (double_of_Z (message_cnt e)) (message_cnt e) (message_cnt e)
         (data_null v),
       es)
  | VALUE_TIME_DIFF => (true, prepare_time_difference e fmt v, es)
  end.

(** The lines [memo = fmt->put_memo; if (memo != 0) save_to_memo (memo);]
    that end [prepare_value] and three of the print functions. *)
Definition put_to_memo (fmt : value_format_t) (st : print_state) (es : err_state)
    : print_state * err_state :=
  if negb (put_memo fmt =? 0) then
    let '(enums, es) := save_to_memo (put_memo fmt) (enums st) (value st) es in
    (mk_print_state (value st) enums (txt_buffer st), es)
  else (st, es).

Definition prepare_value (e : env) (fmt : value_format_t) (divisible_by_8 : bool)
    (st : print_state) (es : err_state) : print_state * err_state :=
  match fmt_string fmt with
  | None => (st, save_internal_decoding_error INT_FMT_STRING_NULL 0 es)
  | Some _ =>
      let es := check_value_bit_address fmt divisible_by_8 es in
      let '(go_on, v, es) := prepare_by_type e fmt (value st) (enums st) es in
      if go_on then put_to_memo fmt (set_value v st) es
      else (set_value v st, es)
  end.

(** *** The print functions

    Each returns the new state, the new error state and what it writes. *)

Definition result : Type := print_state * err_state * list print_event.

Definition print_plain_text (out : stream) (fmt : value_format_t)
    (st : print_state) (es : err_state) : result :=
  (st, es,
   pr_fprintf out (fmt_string fmt) []
   :: copy_to_main_log fmt [pr_fprintf MAIN (fmt_string fmt) []]).

Definition print_uint (e : env) (out : stream) (fmt : value_format_t)
    (st : print_state) (es : err_state) : result :=
  let '(st, es) := prepare_value e fmt false st es in
  (st, es,
   pr_fprintf out (fmt_string fmt) [arg_u64 (data_u64 (value st))]
   :: copy_to_main_log fmt
        [pr_fprintf MAIN (fmt_string fmt) [arg_u64 (data_u64 (value st))]]).

Definition print_int (e : env) (out : stream) (fmt : value_format_t)
    (st : print_state) (es : err_state) : result :=
  let '(st, es) := prepare_value e fmt false st es in
  (st, es,
   pr_fprintf out (fmt_string fmt) [arg_i64 (data_i64 (value st))]
   :: copy_to_main_log fmt
        [pr_fprintf MAIN (fmt_string fmt) [arg_i64 (data_i64 (value st))]]).

Definition print_double (e : env) (out : stream) (fmt : value_format_t)
    (st : print_state) (es : err_state) : result :=
  let '(st, es) := prepare_value e fmt false st es in
  (st, es,
   pr_fprintf out (fmt_string fmt) [arg_double (data_double (value st))]
   :: copy_to_main_log fmt
        [pr_fprintf MAIN (fmt_string fmt) [arg_double (data_double (value st))]]).

(** The bytes of the message buffer, an array of 32-bit words. *)
Definition buffer_bytes (words : list Z) : list Z :=
  flat_map (le_bytes 4) words.

(** The string at [&g_msg.value.data_u64]: the bytes of [data_u64], then
    those of [data_null]. *)
Definition value_as_string (v : value_t) : list Z :=
  c_string (le_bytes 8 (data_u64 v) ++ le_bytes 8 (data_null v)).

Definition print_message_as_string_to_file (e : env) (out : stream)
    (fmt : value_format_t) (st : print_state) (es : err_state) : result :=
  if data_size fmt =? 0 then
    let text := arg_string (Some (c_string (buffer_bytes (assembled_msg e)))) in
    (st, es,
     pr_fprintf out (fmt_string fmt) [text]
     :: copy_to_main_log fmt [pr_fprintf MAIN (fmt_string fmt) [text]])
  else
    let '(st, es) := prepare_value e fmt true st es in
    let text := arg_string (Some (value_as_string (value st))) in
    (st, es,
     pr_fprintf out (fmt_string fmt) [text]
     :: copy_to_main_log fmt [pr_fprintf MAIN (fmt_string fmt) [text]]).

(** The format ["%s"]. *)
Definition percent_s : option (list Z) := Some [37; 115].

(** [print_selected_text]; [get_selected_text] returns the address of its
    static buffer, which is never [NULL]. *)
Definition print_selected_text (e : env) (out : stream) (fmt : value_format_t)
    (st : print_state) (es : err_state) : result :=
  let '(st, es) := prepare_value e fmt false st es in
  let '(buf, es) :=
    get_selected_text (in_file fmt) (wrap32 (data_u64 (value st))) (enums st)
      (txt_buffer st) es in
  let text := arg_string (Some (c_string buf)) in
  (mk_print_state (value st) (enums st) buf, es,
   [pr_fprintf out percent_s [arg_string (fmt_string fmt)];
    pr_fprintf out percent_s [text]]
   ++ copy_to_main_log fmt
        [pr_fprintf MAIN percent_s [arg_string (fmt_string fmt)];
         pr_fprintf MAIN percent_s [text]]).

Definition print_binary_value_to_file (e : env) (out : stream)
    (fmt : value_format_t) (st : print_state) (es : err_state) : result :=
  let '(st, es) := prepare_value e fmt false st es in
  let v := set_data_double (double_of_Z (data_u64 (value st))) (value st) in
  let st := set_value v st in
  match data_type fmt with
  | VALUE_UINT64 =>
      let text :=
        Binary.print_binary64 (data_u64 v) (data_size fmt) (data_size fmt) in
      (st, es,
       [pr_fprintf out (fmt_string fmt) []; pr_binary out text]
       ++ copy_to_main_log fmt
            [pr_fprintf MAIN (fmt_string fmt) []; pr_binary MAIN text])
  | _ =>
      (st,
       save_decoding_error ERR_PRINT_BIN_VALUE_TYPE (data_type_code (data_type fmt))
         0 (fmt_string fmt) es,
       [pr_fprintf out (fmt_string fmt) []])
  end.

Definition print_timestamp_to_file (e : env) (out : stream)
    (fmt : value_format_t) (st : print_state) (es : err_state) : result :=
  let st := set_value (set_data_double (timestamp_f e) (value st)) st in
  let '(st, es) := put_to_memo fmt st es in
  (st, es,
   [pr_fprintf out (fmt_string fmt) []; print_timestamp e out (timestamp_f e)]
   ++ copy_to_main_log fmt [pr_fprintf MAIN (fmt_string fmt) []]).

Definition print_dTimeStamp_to_file (e : env) (out : stream) (p_fmt : Z)
    (fmt : value_format_t) (st : print_state) (es : err_state) : result :=
  let p := msg_at (msg_data e) p_fmt in
  let v :=
    if counter p >? 0 then (timestamp_f e - time_last_message p)%float
    else 0%float in
  let st := set_value (set_data_double v (value st)) st in
  let '(st, es) := put_to_memo fmt st es in
  (st, es,
   [pr_fprintf out (fmt_string fmt) []; print_timestamp e out v]
   ++ copy_to_main_log fmt
        [pr_fprintf MAIN (fmt_string fmt) []; print_timestamp e MAIN v]).

Definition print_current_message_name (e : env) (out : stream)
    (fmt : value_format_t) (st : print_state) (es : err_state) : result :=
  (st, es,
   [pr_fprintf out (fmt_string fmt) [];
    pr_fprintf out (Some (get_format_id_name e (fmt_id e))) []]
   ++ copy_to_main_log fmt [pr_fprintf MAIN (fmt_string fmt) []]).

Definition print_current_message_number (e : env) (out : stream)
    (fmt : value_format_t) (st : print_state) (es : err_state) : result :=
  let '(st, es) := put_to_memo fmt st es in
  (st, es,
   [pr_fprintf out (fmt_string fmt) []; print_message_number e out (message_cnt e)]
   ++ copy_to_main_log fmt [pr_fprintf MAIN (fmt_string fmt) []]).

(** [hex_dump_complete_message_to_file]; the dump itself is the call of
    [hex_print_complete_message] with the bytes skipped, the size and the
    word width. *)
Definition hex_dump_complete_message_to_file (e : env) (out : stream)
    (fmt : value_format_t) (st : print_state) (es : err_state) : result :=
  let print_as :=
    match fmt_type fmt with
    | PRINT_HEX2U => 2
    | PRINT_HEX4U => 4
    | _ => 1
    end in
  let size := asm_size e in
  let bytes_to_skip := wrap32 (bit_address fmt + 7) / 8 in
  if size <? bytes_to_skip then (st, es, [])
  else
    let size := size - bytes_to_skip in
    (st, es,
     [pr_fprintf out (fmt_string fmt) [];
      pr_hex_print out bytes_to_skip size print_as]
     ++ copy_to_main_log fmt
          [pr_fprintf MAIN (fmt_string fmt) [];
           pr_hex_print MAIN bytes_to_skip size print_as]).

Definition print_date_to_file (e : env) (out : stream) (fmt : value_format_t)
    (st : print_state) (es : err_state) : result :=
  let args := [arg_string (fmt_string fmt); arg_string (Some (date_string e))] in
  (st, es,
   pr_fprintf out (Some [37; 115; 37; 115]) args
   :: copy_to_main_log fmt [pr_fprintf MAIN (Some [37; 115; 37; 115]) args]).

(** [write_binary_message_data_to_file]; [fwrite] is given the bytes of the
    object written from and the number of bytes asked for. *)
Definition write_binary_message_data_to_file (e : env) (out : stream)
    (fmt : value_format_t) (st : print_state) (es : err_state) : result :=
  if data_size fmt =? 0 then
    let data := buffer_bytes (assembled_msg e) in
    (st, es,
     [pr_fprintf out (fmt_string fmt) []; pr_fwrite out data (asm_size e)]
     ++ copy_to_main_log fmt
          [pr_fprintf MAIN (fmt_string fmt) []; pr_fwrite MAIN data (asm_size e)])
  else if negb (Z.land (data_size fmt) 7 =? 0) then
    (st,
     save_decoding_error ERR_DECODE_DATA_SIZE_NOT_DIVISIBLE_BY_8 (data_size fmt) 8
       (fmt_string fmt) es,
     [])
  else
    let '(st, es) := prepare_value e fmt true st es in
    let data := le_bytes 8 (data_u64 (value st)) in
    (st, es,
     [pr_fprintf out (fmt_string fmt) []; pr_fwrite out data (data_size fmt / 8)]
     ++ copy_to_main_log fmt
          [pr_fprintf MAIN (fmt_string fmt) [];
           pr_fwrite MAIN data (data_size fmt / 8)]).

(** [print_single_value]; the sixteen cases are the enumerators of
    [fmt_type_t]. *)
Definition print_single_value (e : env) (out : stream) (p_fmt : Z)
    (fmt : value_format_t) (st : print_state) (es : err_state) : result :=
  match fmt_type fmt with
  | PRINT_PLAIN_TEXT => print_plain_text out fmt st es
  | PRINT_STRING => print_message_as_string_to_file e out fmt st es
  | PRINT_SELECTED_TEXT => print_selected_text e out fmt st es
  | PRINT_UINT64 => print_uint e out fmt st es
  | PRINT_INT64 => print_int e out fmt st es
  | PRINT_DOUBLE => print_double e out fmt st es
  | PRINT_BINARY => print_binary_value_to_file e out fmt st es
  | PRINT_TIMESTAMP => print_timestamp_to_file e out fmt st es
  | PRINT_dTIMESTAMP => print_dTimeStamp_to_file e out p_fmt fmt st es
  | PRINT_MSG_NO => print_current_message_number e out fmt st es
  | PRINT_MSG_FMT_ID_NAME => print_current_message_name e out fmt st es
  | PRINT_HEX1U | PRINT_HEX2U | PRINT_HEX4U =>
      hex_dump_complete_message_to_file e out fmt st es
  | PRINT_BIN_TO_FILE => write_binary_message_data_to_file e out fmt st es
  | PRINT_DATE => print_date_to_file e out fmt st es
  end.

(** *** The message *)

(** The member [p_file] of the union. *)
Definition union_p_file (u : def_union) : option Z :=
  match u with p_file f => f | _ => None end.

Definition get_out_file (fmt : value_format_t) (enums : list enum_data_t)
    (es : err_state) : stream * err_state :=
  let out_file := out_file fmt in
  if (out_file >=? NUMBER_OF_FILTER_BITS) && (out_file <? MAX_ENUMS) then
    if enums_type_eqb (type (enum_at enums out_file)) OUT_FILE_TYPE then
      match union_p_file (payload (enum_at enums out_file)) with
      | Some p => (out_file_ptr p, es)
      | None => (MAIN, save_internal_decoding_error INT_OUT_FILE_PTR_NULL 0 es)
      end
    else (MAIN, save_internal_decoding_error INT_BAD_OUT_FILE_TYPE out_file es)
  else if negb (out_file =? 0) then
    (MAIN, save_internal_decoding_error INT_OUT_FILE_INDEX_OUT_OF_RANGE out_file es)
  else (MAIN, es).

Definition fmt_type_is_plain_text (t : fmt_type_t) : bool :=
  match t with PRINT_PLAIN_TEXT => true | _ => false end.

(** One turn of the [while (fmt != NULL)] loop of [print_message].
    [process_statistics_for_the_current_value] reads the value registers and
    writes the statistics of the descriptor only, which are not part of the
    state here. *)
Definition print_value (e : env) (p_fmt : Z) (fmt : value_format_t)
    (st : print_state) (es : err_state) : result :=
  let st := set_value value_zero st in
  let '(out, es) := get_out_file fmt (enums st) es in
  let es :=
    if fmt_type_is_plain_text (fmt_type fmt) then es
    else set_error_value_no (wrap32 (error_value_no es + 1)) es in
  print_single_value e out p_fmt fmt st es.

Fixpoint print_values (e : env) (p_fmt : Z) (formats : list value_format_t)
    (st : print_state) (es : err_state) : result :=
  match formats with
  | [] => (st, es, [])
  | fmt :: rest =>
      let '(st, es, ev1) := print_value e p_fmt fmt st es in
      let '(st, es, ev2) := print_values e p_fmt rest st es in
      (st, es, ev1 ++ ev2)
  end.

(** The variables of [g_msg] outside the value registers that [print_message]
    writes, and the static variable of [timestamp_logging]. *)
Record message_state := mk_message_state {
  additional_data : Z;
  mark_problematic_tstamps : bool;
  suspicious_timestamp : Z;
  no_previous_tstamp : bool;
  messages_processed_after_restart : Z;
  previous_time : float;
  print_nl_to_main_log : bool
}.

(** [check_and_get_print_info]; [None] is the exit through
    [report_fatal_error_and_exit]. *)
Definition check_and_get_print_info (e : env) (current_fmt_id : Z)
    (es : err_state) : option (option Z * err_state * list print_event) :=
  if negb (main_log e) || negb (error_log_file e) then None
  else if current_fmt_id >=? MAX_FMT_IDS then
    Some (None,
          save_internal_decoding_error INT_FMT_ID_OUT_OF_RANGE current_fmt_id es,
          [pr_fprintf MAIN (Some [63; 63; 63]) []])
  else
    let no_definition :=
      let '(es, ev) :=
        Msgx.report_problem ERR_MESSAGE_MUST_CONTAIN_ONE_FMT_DEFINITION 0 es in
      Some (None, es, map pr_problem ev) in
    match fmt_at (g_fmt e) current_fmt_id with
    | None => no_definition
    | Some p =>
        match format (msg_at (msg_data e) p) with
        | [] => no_definition
        | _ :: _ => Some (Some p, es, [])
        end
    end.

(** [check_extended_data]; [report_problem] takes the data as an [int]. *)
Definition check_extended_data (t : msg_type_t) (ms : message_state)
    (es : err_state) : message_state * err_state * list print_event :=
  if (msg_type_eqb t TYPE_MSGN || msg_type_eqb t TYPE_MSGX)
     && negb (additional_data ms =? 0) then
    let '(es, ev) :=
      Msgx.report_problem ERR_UNWANTED_EXTENDED_DATA
        (Escapes.to_int (additional_data ms)) es in
    (mk_message_state 0 (mark_problematic_tstamps ms) (suspicious_timestamp ms)
       (no_previous_tstamp ms) (messages_processed_after_restart ms)
       (previous_time ms) (print_nl_to_main_log ms),
     es, map pr_problem ev)
  else (ms, es, []).

Definition timestamp_logging (e : env) (ms : message_state) (es : err_state)
    : message_state * list print_event :=
  if negb (timestamps e) then (ms, [])
  else
    (mk_message_state (additional_data ms) (mark_problematic_tstamps ms)
       (suspicious_timestamp ms) (no_previous_tstamp ms)
       (messages_processed_after_restart ms) (timestamp_f e)
       (print_nl_to_main_log ms),
     if (messages_processed_after_restart ms >? 0) && (msg_error_counter es =? 0)
     then
       let timestamp_diff :=
         ((timestamp_f e - previous_time ms) * time_multiplier e)%float in
       [print_message_number e timestamps_csv (message_cnt e);
        pr_fprintf timestamps_csv
          (Some [59; 37; 56; 46; 54; 102; 59; 37; 103; 10])
          [arg_double (timestamp_f e * time_multiplier e)%float;
           arg_double timestamp_diff]]
     else []).

Definition calculate_total_message_size (e : env) (p : msg_data_t) : msg_data_t :=
  let total_words := asm_words e in
  let remainder := Z.land total_words 3 in
  let total_words := wrap32 (total_words / 4 * 5) in
  let total_words :=
    if negb (remainder =? 0) then wrap32 (total_words + (remainder + 1))
    else total_words in
  let total_words := if total_words =? 0 then 1 else total_words in
  mk_msg_data (message_name p) (msg_type p) (counter p)
    (wrap32 (total_data_received p + total_words)) (time_last_message p)
    (format p).

(** What [print_message] leaves behind. *)
Record outcome := mk_outcome {
  out_state : print_state;
  out_errors : err_state;
  out_message_state : message_state;
  out_msg_data : list msg_data_t;
  out_events : list print_event
}.

(** The lines of [print_message] that write the message number, the time and
    the name of the message to Main.log. *)
Definition print_message_heading (e : env) (ms : message_state)
    : message_state * list print_event :=
  let mark := mark_problematic_tstamps ms in
  (mk_message_state (additional_data ms) false
     (if mark then wrap32 (suspicious_timestamp ms + 1)
      else suspicious_timestamp ms)
     (no_previous_tstamp ms) (messages_processed_after_restart ms)
     (previous_time ms) (print_nl_to_main_log ms),
   [pr_fprintf MAIN (Some [10]) []]
   ++ (if mark then [pr_fprintf MAIN (Some [35]) []] else [])
   ++ [print_message_number e MAIN (message_cnt e);
       pr_fprintf MAIN (Some [32]) [];
       print_timestamp e MAIN (timestamp_f e);
       pr_fprintf MAIN (Some [32; 37; 115; 58; 32])
         [arg_string (Some (get_format_id_name e (fmt_id e)))]]).

(** [print_message]; [None] is the exit of [check_and_get_print_info]. *)
Definition print_message (e : env) (ms : message_state) (st : print_state)
    (es : err_state) : option outcome :=
  let es := set_msg_error_counter 0 (set_error_value_no 0 es) in
  match check_and_get_print_info e (fmt_id e) es with
  | None => None
  | Some (None, es, ev) => Some (mk_outcome st es ms (msg_data e) ev)
  | Some (Some p_fmt, es, ev0) =>
      let p := msg_at (msg_data e) p_fmt in
      let '(ms, es, ev1) := check_extended_data (msg_type p) ms es in
      let '(ms, ev2) := print_message_heading e ms in
      let '(ms, ev3) := timestamp_logging e ms es in
      let ms :=
        mk_message_state (additional_data ms) (mark_problematic_tstamps ms)
          (suspicious_timestamp ms) (no_previous_tstamp ms)
          (wrap32 (messages_processed_after_restart ms + 1)) (previous_time ms)
          (print_nl_to_main_log ms) in
      let '(st, es, ev4) := print_values e p_fmt (format p) st es in
      let reported := negb (msg_error_counter es =? 0) in
      let '(es, ev5) :=
        print_decoding_errors (main_log e) (error_log_file e) (message_cnt e) es in
      let ms :=
        mk_message_state (additional_data ms) (mark_problematic_tstamps ms)
          (suspicious_timestamp ms)
          (if msg_error_counter es >? 0 then true else no_previous_tstamp ms)
          (messages_processed_after_restart ms) (previous_time ms)
          (if reported then true else print_nl_to_main_log ms) in
      let p :=
        mk_msg_data (message_name p) (msg_type p) (wrap32 (counter p + 1))
          (total_data_received p) (time_last_message p) (format p) in
      let p := calculate_total_message_size e p in
      let p :=
        mk_msg_data (message_name p) (msg_type p) (counter p)
          (total_data_received p) (timestamp_f e) (format p) in
      Some (mk_outcome st es ms (<[Z.to_nat p_fmt := p]> (msg_data e))
              (ev0 ++ ev1 ++ ev2 ++ ev3 ++ ev4 ++ map pr_errors ev5))
  end.

End with_messages.

(** *** Errors are raised, never read *)

Section raising.
Context {M : messages_h} {D : decode_messages_h}.
Variable cast_i64 : float -> Z.
Variable cast_u64 : float -> Z.
Variable pointer_as_double : def_union -> float.
Variable get_message_text : Z -> list Z.

Lemma save_is_raise c d1 d2 t es :
  save_decoding_error c d1 d2 t es = raise_all [mk_raise c d1 d2 t] es.
Proof. reflexivity. Qed.

Lemma save_internal_is_raise s d es :
  save_internal_decoding_error s d es
  = raise_all [mk_raise ERR_INTERNAL_ERROR s d (Some [])] es.
Proof. reflexivity. Qed.

Lemma raise_all_app a b es :
  raise_all (a ++ b) es = raise_all b (raise_all a es).
Proof.
  revert es. induction a as [|r a IH]; intros es; [reflexivity|].
  cbn [raise_all app]. apply IH.
Qed.

Ltac raised :=
  intros;
  rewrite ?save_internal_is_raise, ?save_is_raise;
  rewrite <- ?raise_all_app;
  first
    [ reflexivity
    | match goal with
      | |- (_, ?es) = _ => exact (eq_refl : _ = (_, raise_all [] es))
      | |- (_, ?es, _) = _ => exact (eq_refl : _ = (_, raise_all [] es, _))
      end ].

Lemma extract_raises e fmt v :
  exists rs v', forall es, extract e fmt v es = (v', raise_all rs es).
Proof.
  unfold extract, extract_value_from_message.
  destruct (data_size fmt =? 0); [do 2 eexists; cbn [fst]; raised|].
  destruct (data_size fmt >? 64); [do 2 eexists; cbn [fst]; raised|].
  destruct (_ >? _); [do 2 eexists; cbn [fst]; raised|].
  destruct (if _ : bool then _ else _) as [v1 reads].
  do 2 eexists; cbn [fst]; raised.
Qed.

Lemma save_to_memo_raises memo enums v :
  exists rs enums', forall es, save_to_memo memo enums v es = (enums', raise_all rs es).
Proof.
  unfold save_to_memo.
  destruct (_ && _); [|do 2 eexists; raised].
  destruct (enums_type_eqb _ _); do 2 eexists; raised.
Qed.

Lemma process_memo_raises fmt enums v :
  exists rs v', forall es,
    process_memo cast_i64 cast_u64 pointer_as_double fmt enums v es
    = (v', raise_all rs es).
Proof.
  unfold process_memo.
  destruct (_ && _); [|do 2 eexists; raised].
  destruct (_ && _); do 2 eexists; raised.
Qed.

Lemma get_selected_text_raises in_file index enums buf :
  exists rs buf', forall es,
    get_selected_text in_file index enums buf es = (buf', raise_all rs es).
Proof.
  unfold get_selected_text.
  destruct (in_file <? MAX_ENUMS); [|do 2 eexists; raised].
  destruct (_ || _); [|do 2 eexists; raised].
  destruct (union_in_file_txt _); do 2 eexists; raised.
Qed.

Lemma check_value_bit_address_raises fmt b :
  exists rs, forall es, check_value_bit_address fmt b es = raise_all rs es.
Proof.
  unfold check_value_bit_address.
  destruct b; [|exists []; reflexivity].
  destruct (negb _); [eexists; intros; apply save_is_raise|].
  destruct (negb _); [eexists; intros; apply save_is_raise|].
  exists []; reflexivity.
Qed.

Lemma process_value_auto_raises e fmt v :
  exists rs rez v', forall es,
    process_value_auto cast_i64 cast_u64 e fmt v es = (rez, v', raise_all rs es).
Proof.
  unfold process_value_auto.
  destruct (negb _); [do 3 eexists; raised|].
  destruct (negb _); [do 3 eexists; raised|].
  destruct (negb _); [do 3 eexists; raised|].
  destruct (extract_raises e fmt v) as (rs & v' & H).
  destruct (fmt_type fmt); do 3 eexists; intros es; rewrite H; raised.
Qed.

Lemma process_double_value_raises e fmt v :
  exists rs v', forall es,
    process_double_value cast_i64 cast_u64 e fmt v es = (v', raise_all rs es).
Proof.
  unfold process_double_value.
  destruct (extract_raises e fmt v) as (rs & v' & H).
  destruct (data_size fmt =? 16);
    [do 2 eexists; intros es; rewrite H; cbn [fst snd]; raised|].
  destruct (data_size fmt =? 32);
    [do 2 eexists; intros es; rewrite H; cbn [fst snd]; raised|].
  destruct (data_size fmt =? 64);
    [do 2 eexists; intros es; rewrite H; cbn [fst snd]; raised|].
  do 2 eexists; raised.
Qed.

Lemma prepare_by_type_raises e fmt v enums :
  exists rs go v', forall es,
    prepare_by_type cast_i64 cast_u64 pointer_as_double e fmt v enums es
    = (go, v', raise_all rs es).
Proof.
  unfold prepare_by_type.
  destruct (extract_raises e fmt v) as (rs & v' & H).
  destruct (data_type fmt).
  - destruct (process_value_auto_raises e fmt v) as (rs1 & rez & v1 & H1).
    do 3 eexists; intros es; rewrite H1; raised.
  - destruct (_ <? _); do 3 eexists; intros es; rewrite ?H; raised.
  - destruct (_ <? _); do 3 eexists; intros es; rewrite ?H; raised.
  - destruct (process_double_value_raises e fmt v) as (rs1 & v1 & H1).
    do 3 eexists; intros es; rewrite H1; raised.
  - do 3 eexists; intros es; rewrite H; raised.
  - do 3 eexists; raised.
  - do 3 eexists; raised.
  - destruct (process_memo_raises fmt enums v) as (rs1 & v1 & H1).
    do 3 eexists; intros es; rewrite H1; raised.
  - do 3 eexists; raised.
  - do 3 eexists; raised.
Qed.

Lemma put_to_memo_raises fmt st :
  exists rs st', forall es, put_to_memo fmt st es = (st', raise_all rs es).
Proof.
  unfold put_to_memo.
  destruct (negb _); [|do 2 eexists; raised].
  destruct (save_to_memo_raises (put_memo fmt) (enums st) (value st))
    as (rs & en & H).
  do 2 eexists; intros es; rewrite H; raised.
Qed.

Lemma prepare_value_raises e fmt b st :
  exists rs st', forall es,
    prepare_value cast_i64 cast_u64 pointer_as_double e fmt b st es
    = (st', raise_all rs es).
Proof.
  unfold prepare_value.
  destruct (fmt_string fmt); [|do 2 eexists; raised].
  destruct (check_value_bit_address_raises fmt b) as (rs0 & H0).
  destruct (prepare_by_type_raises e fmt (value st) (enums st))
    as (rs1 & go & v1 & H1).
  destruct go.
  - destruct (put_to_memo_raises fmt (set_value v1 st)) as (rs2 & st2 & H2).
    do 2 eexists; intros es; rewrite H0, H1, H2; raised.
  - do 2 eexists; intros es; rewrite H0, H1; raised.
Qed.

(** What a print function does with the error state: it raises the errors
    [rs], whatever the state; what it writes holds no line of the error
    report. *)
Definition raises_and_writes (f : err_state -> result) : Prop :=
  exists rs st' ev,
    Forall (fun x => is_error_report x = false) ev /\
    forall es, f es = (st', raise_all rs es, ev).

Lemma copy_is_text fmt ev :
  Forall (fun x => is_error_report x = false) ev ->
  Forall (fun x => is_error_report x = false) (copy_to_main_log fmt ev).
Proof.
  intros H. unfold copy_to_main_log.
  destruct (print_copy_to_main_log fmt); [exact H | constructor].
Qed.

Ltac texts :=
  repeat first
    [ apply Forall_nil_2
    | apply Forall_cons; split; [reflexivity|]
    | apply Forall_app; split
    | apply copy_is_text ].

Lemma print_single_value_raises e out p_fmt fmt st :
  raises_and_writes
    (print_single_value cast_i64 cast_u64 pointer_as_double get_message_text
       e out p_fmt fmt st).
Proof.
  unfold raises_and_writes, print_single_value.
  destruct (prepare_value_raises e fmt false st) as (rs0 & st0 & H0).
  destruct (prepare_value_raises e fmt true st) as (rs1 & st1 & H1).
  destruct (fmt_type fmt).
  - unfold print_plain_text. do 3 eexists. split; [|raised]. texts.
  - unfold print_message_as_string_to_file.
    destruct (data_size fmt =? 0).
    + do 3 eexists. split; [|raised]. texts.
    + do 3 eexists. split; [|intros es; rewrite H1; raised]. texts.
  - unfold print_selected_text.
    destruct (get_selected_text_raises (in_file fmt)
                (wrap32 (data_u64 (value st0))) (enums st0) (txt_buffer st0))
      as (rs2 & buf & H2).
    do 3 eexists. split; [|intros es; rewrite H0, H2; raised]. texts.
  - unfold print_uint. do 3 eexists.
    split; [|intros es; rewrite H0; raised]. texts.
  - unfold print_int. do 3 eexists.
    split; [|intros es; rewrite H0; raised]. texts.
  - unfold print_double. do 3 eexists.
    split; [|intros es; rewrite H0; raised]. texts.
  - unfold print_binary_value_to_file.
    destruct (data_type fmt); do 3 eexists;
      (split; [|intros es; rewrite H0; raised]); texts.
  - unfold print_timestamp_to_file.
    destruct (put_to_memo_raises fmt
                (set_value (set_data_double (timestamp_f e) (value st)) st))
      as (rs2 & st2 & H2).
    do 3 eexists. split; [|intros es; rewrite H2; raised]. texts.
  - unfold print_dTimeStamp_to_file.
    match goal with
    | |- context [put_to_memo fmt ?s] =>
        destruct (put_to_memo_raises fmt s) as (rs2 & st2 & H2)
    end.
    do 3 eexists. split; [|intros es; rewrite H2; raised]. texts.
  - unfold print_current_message_number.
    destruct (put_to_memo_raises fmt st) as (rs2 & st2 & H2).
    do 3 eexists. split; [|intros es; rewrite H2; raised]. texts.
  - unfold hex_dump_complete_message_to_file.
    destruct (_ <? _); do 3 eexists; (split; [|raised]); texts.
  - unfold hex_dump_complete_message_to_file.
    destruct (_ <? _); do 3 eexists; (split; [|raised]); texts.
  - unfold hex_dump_complete_message_to_file.
    destruct (_ <? _); do 3 eexists; (split; [|raised]); texts.
  - unfold write_binary_message_data_to_file.
    destruct (data_size fmt =? 0);
      [do 3 eexists; (split; [|raised]); texts|].
    destruct (negb _); [do 3 eexists; (split; [|raised]); texts|].
    do 3 eexists. split; [|intros es; rewrite H1; raised]. texts.
  - unfold print_date_to_file. do 3 eexists. split; [|raised]. texts.
  - unfold print_current_message_name. do 3 eexists. split; [|raised]. texts.
Qed.

Lemma get_out_file_raises fmt enums :
  exists rs out, forall es, get_out_file fmt enums es = (out, raise_all rs es).
Proof.
  unfold get_out_file.
  destruct (_ && _).
  - destruct (enums_type_eqb _ _); [|do 2 eexists; raised].
    destruct (union_p_file _); do 2 eexists; raised.
  - destruct (negb _); do 2 eexists; raised.
Qed.

End raising.

(** *** The errors of a message *)

Section reporting.
Context {M : messages_h} {D : decode_messages_h}.
Variable cast_i64 : float -> Z.
Variable cast_u64 : float -> Z.
Variable pointer_as_double : def_union -> float.
Variable get_message_text : Z -> list Z.

(** The print functions that write in every case; a hex dump and a binary
    write can refuse the slot and write nothing. *)
Definition always_writes (t : fmt_type_t) : bool :=
  match t with
  | PRINT_HEX1U | PRINT_HEX2U | PRINT_HEX4U | PRINT_BIN_TO_FILE => false
  | _ => true
  end.

(** What the turn of the loop for the descriptor [fmt] writes: no line of the
    error report; something, unless the descriptor is a hex dump or a binary
    write; and for a descriptor of plain text its text (with the copy for
    Main.log when one is asked for). *)
Definition slot_text (fmt : value_format_t) (text : list print_event) : Prop :=
  Forall (fun x => is_error_report x = false) text /\
  (always_writes (fmt_type fmt) = true -> text <> []) /\
  (fmt_type fmt = PRINT_PLAIN_TEXT ->
   exists out,
     text = pr_fprintf out (fmt_string fmt) []
            :: copy_to_main_log fmt [pr_fprintf MAIN (fmt_string fmt) []]).

Lemma print_single_value_writes e out p_fmt fmt st es :
  always_writes (fmt_type fmt) = true ->
  snd (print_single_value cast_i64 cast_u64 pointer_as_double get_message_text
         e out p_fmt fmt st es) <> [].
Proof.
  unfold print_single_value.
  destruct (fmt_type fmt); intros Hw; try discriminate Hw; clear Hw;
    unfold print_plain_text, print_message_as_string_to_file,
      print_selected_text, print_uint, print_int, print_double,
      print_binary_value_to_file, print_timestamp_to_file,
      print_dTimeStamp_to_file, print_current_message_number,
      print_current_message_name, print_date_to_file;
    repeat match goal with
      | |- context [prepare_value ?a ?b ?c ?d ?f ?g ?h ?i] =>
          destruct (prepare_value a b c d f g h i)
      | |- context [get_selected_text ?a ?b ?c ?d ?f] =>
          destruct (get_selected_text a b c d f)
      | |- context [put_to_memo ?a ?b ?c] => destruct (put_to_memo a b c)
      | |- context [data_size fmt =? 0] => destruct (data_size fmt =? 0)
      | |- context [data_type fmt] => destruct (data_type fmt)
      end;
    discriminate.
Qed.

(** The report of [n] errors in the file [f]: the heading, the notice when
    not all errors are shown, and the lines. *)
Definition error_report (f : file_t) (message_cnt n : Z) (lines : list out_event)
    : list print_event :=
  map pr_errors
    (ev_errors_found f message_cnt
     :: (if MAX_ERRORS_IN_SINGLE_MESSAGE <=? n then [ev_too_many f] else [])
     ++ lines).

Lemma print_value_runs e p_fmt fmt st :
  exists run st' text,
    is_plain_text run = fmt_type_is_plain_text (fmt_type fmt) /\
    slot_text fmt text /\
    forall es,
      print_value cast_i64 cast_u64 pointer_as_double get_message_text
        e p_fmt fmt st es
      = (st', raise_slot run es, text).
Proof.
  unfold print_value.
  destruct (get_out_file_raises fmt (enums (set_value value_zero st)))
    as (rs0 & out & H0).
  destruct (print_single_value_raises cast_i64 cast_u64 pointer_as_double
              get_message_text e out p_fmt fmt (set_value value_zero st))
    as (rs1 & st' & text & Htext & H1).
  exists (mk_slot_run rs0 (fmt_type_is_plain_text (fmt_type fmt)) rs1), st', text.
  split; [reflexivity|]. split.
  - split; [exact Htext|]. split.
    + intros Hw.
      pose proof (print_single_value_writes e out p_fmt fmt
                    (set_value value_zero st) no_errors Hw) as Hne.
      rewrite H1 in Hne. exact Hne.
    + intros Hplain. exists out.
      specialize (H1 no_errors). unfold print_single_value in H1.
      rewrite Hplain in H1. unfold print_plain_text in H1.
      injection H1 as _ _ <-. reflexivity.
  - intros es. rewrite H0. unfold raise_slot.
    cbn [out_file_errors is_plain_text value_errors].
    destruct (fmt_type_is_plain_text (fmt_type fmt)); apply H1.
Qed.

Lemma print_values_runs e p_fmt formats :
  forall st,
  exists runs st' texts,
    Forall2 (fun fmt run =>
               is_plain_text run = fmt_type_is_plain_text (fmt_type fmt))
      formats runs /\
    Forall2 slot_text formats texts /\
    forall es,
      print_values cast_i64 cast_u64 pointer_as_double get_message_text
        e p_fmt formats st es
      = (st', raise_slots runs es, concat texts).
Proof.
  induction formats as [|fmt rest IH]; intros st.
  - exists [], st, []. split; [constructor|]. split; [constructor|].
    intros es. reflexivity.
  - destruct (print_value_runs e p_fmt fmt st) as (run & st1 & text & Hp & Ht & H1).
    destruct (IH st1) as (runs & st' & texts & Hps & Hts & H2).
    exists (run :: runs), st', (text :: texts).
    split; [constructor; assumption|]. split; [constructor; assumption|].
    intros es. cbn [print_values raise_slots concat].
    rewrite H1, H2. reflexivity.
Qed.

(** The error state is in the ranges of its C types. *)
Definition err_state_ok (es : err_state) : Prop :=
  length (error_log es) = Z.to_nat MAX_ERRORS_IN_SINGLE_MESSAGE /\
  0 <= total_errors es < 2 ^ 32 /\
  Forall (fun v => 0 <= v < 2 ^ 32) (error_counter es) /\
  Z.of_nat (length (error_counter es)) = TOTAL_ERRORS + 1.

Lemma count_problem_ok code es :
  err_state_ok es -> err_state_ok (Msgx.count_problem code es).
Proof.
  intros (H1 & H2 & H3 & H4). unfold err_state_ok, Msgx.count_problem.
  cbn [error_log total_errors error_counter].
  split; [exact H1|]. split; [apply wrap32_range|]. split.
  - apply Forall_alter; [exact H3|]. intros x _ _. apply wrap32_range.
  - rewrite length_alter. exact H4.
Qed.

Lemma reset_ok es :
  err_state_ok es ->
  err_state_ok (set_msg_error_counter 0 (set_error_value_no 0 es)).
Proof. intros H. exact H. Qed.

(** [check_extended_data] reports at once; the per-message log is not
    touched. *)
Lemma check_extended_data_frame t ms :
  exists ms1 ev1,
    Forall (fun x => is_error_report x = false) ev1 /\
    forall es,
      exists es0,
        check_extended_data t ms es = (ms1, es0, ev1) /\
        msg_error_counter es0 = msg_error_counter es /\
        error_value_no es0 = error_value_no es /\
        error_log es0 = error_log es /\
        (err_state_ok es -> err_state_ok es0) /\
        no_previous_tstamp ms1 = no_previous_tstamp ms /\
        mark_problematic_tstamps ms1 = mark_problematic_tstamps ms /\
        messages_processed_after_restart ms1
        = messages_processed_after_restart ms.
Proof.
  unfold check_extended_data, Msgx.report_problem.
  destruct (_ && _).
  - do 2 eexists. split; [|intros es; eexists; split; [reflexivity|]].
    + repeat constructor.
    + cbn. repeat (split; [reflexivity|]).
      split; [apply count_problem_ok|]. repeat split.
  - do 2 eexists. split; [|intros es; eexists; split; [reflexivity|]].
    + constructor.
    + repeat (split; [reflexivity|]). split; [intros H; exact H|]. repeat split.
Qed.

Lemma Forall2_reported f rvs :
  Forall2 (reported_as f) rvs (map (print_one_error f) (map log_entry rvs)).
Proof.
  induction rvs as [|rv rvs IH]; [constructor|].
  cbn [map]. constructor; [apply print_one_error_reported | exact IH].
Qed.

(** The report that [print_decoding_errors] makes after the slots. *)
Lemma print_decoding_errors_after_slots (runs : list slot_run) (cnt : Z)
    (es0 : err_state) :
  err_state_ok es0 ->
  ERR_PARSE_UNKNOWN <= TOTAL_ERRORS + 1 ->
  0 <= ERR_DECODE_UNKNOWN_ERROR <= TOTAL_ERRORS ->
  msg_error_counter es0 = 0 ->
  error_value_no es0 = 0 ->
  let rvs := stamped runs 0 in
  let n := Z.of_nat (length rvs) in
  let shown := take (Z.to_nat MAX_ERRORS_IN_SINGLE_MESSAGE) rvs in
  let es1 := raise_slots runs es0 in
  exists lines_main lines_err,
    Forall2 (reported_as MAIN_LOG) shown lines_main /\
    Forall2 (reported_as ERROR_LOG) shown lines_err /\
    print_decoding_errors true true cnt es1 =
    (es1,
     if n =? 0 then []
     else
       (ev_errors_found MAIN_LOG cnt
        :: (if MAX_ERRORS_IN_SINGLE_MESSAGE <=? n then [ev_too_many MAIN_LOG]
            else [])
        ++ lines_main)
       ++ (ev_errors_found ERROR_LOG cnt
           :: (if MAX_ERRORS_IN_SINGLE_MESSAGE <=? n then [ev_too_many ERROR_LOG]
               else [])
           ++ lines_err)).
Proof.
  intros (Hlen & Htot & Hcnt & Hclen) Hparse Hunk Hm0 Hv0 rvs n shown es1.
  destruct (errors_after_slots runs es0 Hlen Htot Hcnt Hclen Hparse Hunk Hm0 Hv0)
    as (_ & _ & _ & Hm1 & _ & Htake).
  fold rvs n es1 shown in Hm1, Htake.
  exists (map (print_one_error MAIN_LOG) (map log_entry shown)),
         (map (print_one_error ERROR_LOG) (map log_entry shown)).
  split; [apply Forall2_reported|]. split; [apply Forall2_reported|].
  unfold print_decoding_errors. rewrite Hm1.
  assert (Hz : (Z.min n MAX_ERRORS_IN_SINGLE_MESSAGE =? 0) = (n =? 0)).
  { unfold MAX_ERRORS_IN_SINGLE_MESSAGE.
    destruct (n =? 0) eqn:E; [apply Z.eqb_eq | apply Z.eqb_neq]; zbool; lia. }
  rewrite Hz. destruct (n =? 0) eqn:E; [reflexivity|].
  assert (Hb : 0 <= msg_error_counter es1 <= MAX_ERRORS_IN_SINGLE_MESSAGE).
  { rewrite Hm1. unfold n, MAX_ERRORS_IN_SINGLE_MESSAGE. lia. }
  assert (Hmany : (MAX_ERRORS_IN_SINGLE_MESSAGE <=? msg_error_counter es1)
                  = (MAX_ERRORS_IN_SINGLE_MESSAGE <=? n)).
  { rewrite Hm1. unfold MAX_ERRORS_IN_SINGLE_MESSAGE.
    destruct (10 <=? n) eqn:E1; [apply Z.leb_le | apply Z.leb_gt]; zbool; lia. }
  rewrite (print_to_file_report _ _ _ Hb). cbv iota beta.
  rewrite (print_to_file_report _ _ _ Hb). cbv iota beta.
  rewrite Hmany, Htake. reflexivity.
Qed.

End reporting.

Section message.
Context {M : messages_h} {D : decode_messages_h}.
Variable cast_i64 : float -> Z.
Variable cast_u64 : float -> Z.
Variable pointer_as_double : def_union -> float.
Variable get_message_text : Z -> list Z.

Lemma check_and_get_print_info_found e p_fmt es :
  main_log e = true ->
  error_log_file e = true ->
  fmt_id e < MAX_FMT_IDS ->
  fmt_at (g_fmt e) (fmt_id e) = Some p_fmt ->
  format (msg_at (msg_data e) p_fmt) <> [] ->
  check_and_get_print_info e (fmt_id e) es = Some (Some p_fmt, es, []).
Proof.
  intros Hm He Hid Hp Hf. unfold check_and_get_print_info.
  rewrite Hm, He. cbn [negb orb].
  destruct (fmt_id e >=? MAX_FMT_IDS) eqn:E; zbool; [lia|].
  rewrite Hp. destruct (format (msg_at (msg_data e) p_fmt)); [contradiction|].
  reflexivity.
Qed.


End message.

(** *** The prepared value *)

Section values.
Context {M : messages_h} {D : decode_messages_h}.
Variable cast_i64 : float -> Z.
Variable cast_u64 : float -> Z.
Variable pointer_as_double : def_union -> float.
Variable get_message_text : Z -> list Z.

Lemma put_to_memo_value fmt st es :
  value (fst (put_to_memo fmt st es)) = value st.
Proof.
  unfold put_to_memo. destruct (negb _); [|reflexivity].
  destruct (save_to_memo _ _ _ _). reflexivity.
Qed.

(** A memo store leaves the entries that are not memos as they are. *)
Lemma put_to_memo_keeps_enum fmt st es i :
  type (enum_at (enums st) i) <> MEMO_TYPE ->
  enum_at (enums (fst (put_to_memo fmt st es))) i = enum_at (enums st) i.
Proof.
  intros Hty. unfold put_to_memo. destruct (negb _); [|reflexivity].
  unfold save_to_memo.
  destruct ((put_memo fmt >=? NUMBER_OF_FILTER_BITS)
            && (put_memo fmt <? MAX_ENUMS)) eqn:Hr; [|reflexivity].
  destruct (enums_type_eqb (type (enum_at (enums st) (put_memo fmt))) MEMO_TYPE)
    eqn:Hm; [|reflexivity].
  cbn [fst enums]. zbool. apply enums_type_eqb_eq in Hm.
  apply enum_at_insert_other.
  - unfold NUMBER_OF_FILTER_BITS in *. lia.
  - intros Heq. subst i. contradiction.
Qed.

Lemma prepare_value_keeps_enum e fmt b st es i :
  type (enum_at (enums st) i) <> MEMO_TYPE ->
  enum_at
    (enums (fst (prepare_value cast_i64 cast_u64 pointer_as_double e fmt b st es)))
    i
  = enum_at (enums st) i.
Proof.
  intros Hty. unfold prepare_value. destruct (fmt_string fmt); [|reflexivity].
  destruct (prepare_by_type _ _ _ _ _ _ _ _) as [[go v] es1].
  destruct go; [|reflexivity].
  apply (put_to_memo_keeps_enum fmt (set_value v st) es1 i). exact Hty.
Qed.


(** The message with format ID [id], when it has been decoded before. *)
Definition earlier_message (e : env) (id : Z) : option msg_data_t :=
  if id <? MAX_FMT_IDS then
    match fmt_at (g_fmt e) id with
    | Some p =>
        if 0 <? counter (msg_at (msg_data e) p)
        then Some (msg_at (msg_data e) p) else None
    | None => None
    end
  else None.

(** The raw value of a slot: the double it yields before scaling, and the
    value registers at that point.  A slot has one when it is an integer of
    at least one bit (two if signed) extracted from the message, a float of
    16, 32 or 64 bits, the timestamp of the message, the time since an
    earlier message, or a named memo; the message number and a 32-bit slot
    without a type of its own have one when no multiplier is given.  Strings
    have none.  (What is extracted does not depend on the error state.) *)
Definition raw_value (e : env) (fmt : value_format_t) (v : value_t)
    (enums : list enum_data_t) : option (float * value_t) :=
  let x := fst (extract e fmt v no_errors) in
  match data_type fmt with
  | VALUE_INT64 =>
      if 2 <=? data_size fmt then Some (double_of_Z (data_i64 x), x) else None
  | VALUE_UINT64 =>
      if 1 <=? data_size fmt then Some (double_of_Z (data_u64 x), x) else None
  | VALUE_DOUBLE =>
      if data_size fmt =? 16 then
        Some (double_of_float_bits
                (default 0
                   (HalfFloat.convert_half_float_to_float (data_u64 x mod 2 ^ 16))),
              x)
      else if data_size fmt =? 32 then
        Some (double_of_float_bits (wrap32 (data_u64 x)), x)
      else if data_size fmt =? 64 then Some (double_of_bits (data_u64 x), x)
      else None
  | VALUE_TIMESTAMP => Some (timestamp_f e, v)
  | VALUE_dTIMESTAMP =>
      match earlier_message e (fmt_id e) with
      | Some p => Some ((timestamp_f e - time_last_message p)%float, v)
      | None => None
      end
  | VALUE_TIME_DIFF =>
      match earlier_message e (fmt_id_timer fmt) with
      | Some p =>
          let d := (timestamp_f e - time_last_message p)%float in
          Some (d, mk_value d (cast_i64 d) (cast_u64 d) (data_null v))
      | None => None
      end
  | VALUE_MEMO =>
      let m := enum_at enums (get_memo fmt) in
      if (NUMBER_OF_FILTER_BITS <=? get_memo fmt) && (get_memo fmt <=? MAX_ENUMS)
         && negb (is_null (name m)) && enums_type_eqb (type m) MEMO_TYPE
      then
        let d := union_memo_value pointer_as_double (payload m) in
        Some (d, mk_value d (cast_i64 d) (cast_u64 d) (data_null v))
      else None
  | VALUE_AUTO =>
      if (bit_address fmt mod 32 =? 0) && (data_size fmt =? 32)
         && PrimFloat.eqb (mult fmt) 0
      then
        match fmt_type fmt with
        | PRINT_DOUBLE => Some (double_of_float_bits (wrap32 (data_u64 x)), x)
        | PRINT_INT64 => Some (double_of_Z (data_i64 x), x)
        | PRINT_UINT64 => Some (double_of_Z (data_u64 x), x)
        | _ => None
        end
      else None
  | VALUE_MESSAGE_NO =>
      if PrimFloat.eqb (mult fmt) 0 then
        let d := double_of_Z (message_cnt e) in
        Some (d, mk_value d (message_cnt e) (message_cnt e) (data_null v))
      else None
  | VALUE_STRING => None
  end.

Lemma extract_value e fmt v es :
  fst (extract e fmt v es) = fst (extract e fmt v no_errors).
Proof.
  destruct (extract_raises e fmt v) as (rs & v' & H). rewrite !H. reflexivity.
Qed.

Lemma value_scaling_set_double fmt d d' x :
  value_scaling cast_i64 cast_u64 fmt d (set_data_double d' x)
  = value_scaling cast_i64 cast_u64 fmt d x.
Proof. reflexivity. Qed.

Lemma prepare_by_type_scales e fmt v enums es data raw :
  raw_value e fmt v enums = Some (data, raw) ->
  exists es',
    prepare_by_type cast_i64 cast_u64 pointer_as_double e fmt v enums es
    = (true, value_scaling cast_i64 cast_u64 fmt data raw, es').
Proof.
  unfold raw_value, prepare_by_type. intros H.
  pose proof (extract_value e fmt v es) as Hx.
  destruct (data_type fmt); try discriminate.
  - unfold process_value_auto.
    destruct (bit_address fmt mod 32 =? 0); [|discriminate].
    destruct (data_size fmt =? 32); [|discriminate].
    destruct (PrimFloat.eqb (mult fmt) 0); [|discriminate].
    cbn [andb negb] in *.
    destruct (extract e fmt v es) as [x es']. cbn [fst] in Hx. subst x.
    destruct (fmt_type fmt); try discriminate; injection H as <- <-;
      eexists; reflexivity.
  - destruct (1 <=? data_size fmt) eqn:E; [|discriminate]. injection H as <- <-.
    zbool. destruct (data_size fmt <? 1) eqn:E1; zbool; [lia|].
    destruct (extract e fmt v es) as [x es']. cbn [fst] in Hx. subst x.
    eexists. reflexivity.
  - destruct (2 <=? data_size fmt) eqn:E; [|discriminate]. injection H as <- <-.
    zbool. destruct (data_size fmt <? 2) eqn:E1; zbool; [lia|].
    destruct (extract e fmt v es) as [x es']. cbn [fst] in Hx. subst x.
    eexists. reflexivity.
  - unfold process_double_value. rewrite Hx.
    destruct (data_size fmt =? 16); [injection H as <- <-; eexists; reflexivity|].
    destruct (data_size fmt =? 32); [injection H as <- <-; eexists; reflexivity|].
    destruct (data_size fmt =? 64); [injection H as <- <-; eexists; reflexivity|].
    discriminate.
  - injection H as <- <-. eexists. reflexivity.
  - unfold prepare_message_time_period. unfold earlier_message in H.
    rewrite Z.geb_leb. rewrite Z.leb_antisym.
    destruct (fmt_id e <? MAX_FMT_IDS); [|discriminate]. cbn [negb].
    destruct (fmt_at (g_fmt e) (fmt_id e)); [|discriminate].
    rewrite Z.gtb_ltb. destruct (0 <? _); [|discriminate].
    injection H as <- <-. eexists. reflexivity.
  - unfold process_memo. rewrite Z.geb_leb.
    destruct ((NUMBER_OF_FILTER_BITS <=? get_memo fmt)
              && (get_memo fmt <=? MAX_ENUMS)); [|discriminate].
    cbn [andb] in H.
    destruct (negb (is_null (name (enum_at enums (get_memo fmt))))
              && enums_type_eqb (type (enum_at enums (get_memo fmt))) MEMO_TYPE);
      [|discriminate].
    injection H as <- <-. eexists. reflexivity.
  - unfold prepare_time_difference. unfold earlier_message in H.
    rewrite Z.geb_leb. rewrite Z.leb_antisym.
    destruct (fmt_id_timer fmt <? MAX_FMT_IDS); [|discriminate]. cbn [negb].
    destruct (fmt_at (g_fmt e) (fmt_id_timer fmt)); [|discriminate].
    rewrite Z.gtb_ltb. destruct (0 <? _); [|discriminate].
    injection H as <- <-. eexists. reflexivity.
  - destruct (PrimFloat.eqb (mult fmt) 0) eqn:Em; [|discriminate].
    injection H as <- <-. eexists. unfold value_scaling. rewrite Em.
    reflexivity.
Qed.

Lemma prepare_value_scales e fmt b st es data raw :
  fmt_string fmt <> None ->
  raw_value e fmt (value st) (enums st) = Some (data, raw) ->
  value (fst (prepare_value cast_i64 cast_u64 pointer_as_double e fmt b st es))
  = value_scaling cast_i64 cast_u64 fmt data raw.
Proof.
  intros Hs Hraw. unfold prepare_value.
  destruct (fmt_string fmt); [|contradiction].
  destruct (prepare_by_type_scales e fmt (value st) (enums st)
              (check_value_bit_address fmt b es) data raw Hraw) as [es' H].
  rewrite H. rewrite put_to_memo_value. reflexivity.
Qed.

(** The argument with which the three numeric print functions call
    [fprintf]. *)
Definition printed_view (t : fmt_type_t) (v : value_t) : option printf_arg :=
  match t with
  | PRINT_UINT64 => Some (arg_u64 (data_u64 v))
  | PRINT_INT64 => Some (arg_i64 (data_i64 v))
  | PRINT_DOUBLE => Some (arg_double (data_double v))
  | _ => None
  end.

(** C7. A slot that has a raw value ([raw_value]): with a nonzero multiplier
    the prepared double is [(raw + offset) * multiplier] and the two integer
    views are the casts of that double plus one half; with a zero multiplier
    the double is the raw value and the integer views are those of the raw
    value.  A slot printed as unsigned, signed or floating-point number
    passes the matching view of the prepared value to [fprintf]. *)
Theorem scaling_applies_to_prepared_value (e : env) (out : stream) (p_fmt : Z)
    (fmt : value_format_t) (st : print_state) (es : err_state)
    (data : float) (raw : value_t) :
  fmt_string fmt <> None ->
  raw_value e fmt (value st) (enums st) = Some (data, raw) ->
  let v :=
    value (fst (prepare_value cast_i64 cast_u64 pointer_as_double e fmt false
                  st es)) in
  let r :=
    print_single_value cast_i64 cast_u64 pointer_as_double get_message_text
      e out p_fmt fmt st es in
  (PrimFloat.eqb (mult fmt) 0 = false ->
     data_double v = ((data + offset fmt) * mult fmt)%float /\
     data_i64 v = cast_i64 (data_double v + 0.5)%float /\
     data_u64 v = cast_u64 (data_double v + 0.5)%float) /\
  (PrimFloat.eqb (mult fmt) 0 = true ->
     data_double v = data /\
     data_i64 v = data_i64 raw /\
     data_u64 v = data_u64 raw) /\
  (forall a, printed_view (fmt_type fmt) v = Some a ->
     value (fst (fst r)) = v /\
     snd r = pr_fprintf out (fmt_string fmt) [a]
             :: copy_to_main_log fmt [pr_fprintf MAIN (fmt_string fmt) [a]]).
Proof.
  intros Hs Hraw v r.
  pose proof (prepare_value_scales e fmt false st es data raw Hs Hraw) as Hv.
  fold v in Hv.
  split; [|split].
  - intros Hm. rewrite Hv. unfold value_scaling. rewrite Hm.
    cbn [negb data_double data_i64 data_u64]. repeat split.
  - intros Hm. rewrite Hv. unfold value_scaling. rewrite Hm.
    cbn [negb data_double data_i64 data_u64]. repeat split.
  - intros a Ha. subst r v. unfold print_single_value.
    unfold printed_view in Ha.
    destruct (fmt_type fmt); try discriminate; injection Ha as <-.
    + unfold print_uint. destruct (prepare_value _ _ _ _ _ _ _ _).
      split; reflexivity.
    + unfold print_int. destruct (prepare_value _ _ _ _ _ _ _ _).
      split; reflexivity.
    + unfold print_double. destruct (prepare_value _ _ _ _ _ _ _ _).
      split; reflexivity.
Qed.

End values.

(** *** Examples *)

(** The models are run with casts that truncate (and give 0 outside the
    finite doubles), no pointer in a memo cell and an empty message table. *)
Definition no_pointer (u : def_union) : float := 0%float.
Definition no_texts (code : Z) : list Z := [].

(** A decoder state in which the message with format ID 2 is being printed:
    message number 7 at 1.5 s, both logs open. *)
Definition example_env (words : list Z) (formats : list value_format_t) : env :=
  mk_env true true false None (Some [37; 102]) 1 [] 2
    (Z.of_nat (length words)) (4 * Z.of_nat (length words)) words 7 1.5
    [None; None; Some 0]
    [mk_msg_data (Some [77; 83; 71]) TYPE_MSG0_8 0 0 0 formats].

Definition example_message_state : message_state :=
  mk_message_state 0 false 0 false 0 0 false.

Definition example_state : print_state :=
  mk_print_state value_zero enums_with_ok_warn_err (replicate 256 0).

(** ["A=%[40:8u]u B=%[0:1i]d"] on a message of four bytes: the first value
    lies beyond the message, the second is a signed integer of one bit. *)
Definition two_errors_formats : list value_format_t :=
  [ mk_value_format (Some [65; 61]) 0 0 0 0 0 0 0 VALUE_AUTO PRINT_PLAIN_TEXT
      false 0 0;
    mk_value_format (Some [37; 117]) 0 0 0 0 0 40 8 VALUE_UINT64 PRINT_UINT64
      false 0 0;
    mk_value_format (Some [32; 66; 61]) 0 0 0 0 0 0 0 VALUE_AUTO PRINT_PLAIN_TEXT
      false 0 0;
    mk_value_format (Some [37; 100]) 0 0 0 0 0 0 1 VALUE_INT64 PRINT_INT64
      false 0 0 ].

Lemma no_errors_ok : err_state_ok (M := messages_example) no_errors.
Proof.
  split; [reflexivity|]. split; [cbn; lia|]. split; [|reflexivity].
  apply Forall_replicate. lia.
Qed.


(** The same message run: both values print as 0, the text between them is
    written, and the two errors are reported after the last slot, to both
    logs, with their value numbers 1 and 2. *)
Example print_message_with_two_errors :
  out_events
  <$> print_message (M := messages_example) (D := decode_messages_example)
        trunc_or_zero trunc_or_zero no_pointer no_texts
        (example_env [0x64636261] two_errors_formats) example_message_state
        example_state no_errors
  = Some
      [pr_fprintf MAIN (Some [10]) [];
       pr_fprintf MAIN (Some [78; 37; 48; 53; 117]) [arg_u32 7];
       pr_fprintf MAIN (Some [32]) [];
       pr_fprintf MAIN (Some [37; 102]) [arg_double 1.5];
       pr_fprintf MAIN (Some [32; 37; 115; 58; 32])
         [arg_string (Some [77; 83; 71])];
       pr_fprintf MAIN (Some [65; 61]) [];
       pr_fprintf MAIN (Some [37; 117]) [arg_u64 0];
       pr_fprintf MAIN (Some [32; 66; 61]) [];
       pr_fprintf MAIN (Some [37; 100]) [arg_i64 0];
       pr_errors (ev_errors_found MAIN_LOG 7);
       pr_errors (ev_error MAIN_LOG 1 [37; 117] 111 48 32);
       pr_errors (ev_error MAIN_LOG 2 [37; 100] 117 1 1);
       pr_errors (ev_errors_found ERROR_LOG 7);
       pr_errors (ev_error ERROR_LOG 1 [37; 117] 111 48 32);
       pr_errors (ev_error ERROR_LOG 2 [37; 100] 117 1 1)].
Proof. vm_compute. reflexivity. Qed.

(** [%[0:8u]{ok|warn|err}Y] and [%[8:8u]{ok|warn|err}Y] on a message whose
    first two bytes are 1 and 5. *)
Definition selector_slot (address size : Z) : value_format_t :=
  mk_value_format (Some [61]) 0 32 0 0 0 address size VALUE_UINT64
    PRINT_SELECTED_TEXT false 0 0.



(** [T=%[8:16u](+0*0.1)f] on a message whose bits 8 to 23 hold 100; the
    multiplier is the double nearest to 0.1. *)
Definition tenth_slot : value_format_t :=
  mk_value_format (Some [84; 61; 37; 102]) 0 0 0 0 0 8 16 VALUE_UINT64
    PRINT_DOUBLE false 0x1.999999999999ap-4 0.

Lemma scaling_applies_to_prepared_value_example :
  let r :=
    print_single_value (M := messages_example) (D := decode_messages_example)
      trunc_or_zero trunc_or_zero no_pointer no_texts
      (example_env [0x00006400] []) MAIN 0 tenth_slot example_state no_errors in
  value (fst (fst r)) = mk_value 10 10 10 0 /\
  snd r = [pr_fprintf MAIN (Some [84; 61; 37; 102]) [arg_double 10]].
Proof.
  intros r.
  destruct (scaling_applies_to_prepared_value (M := messages_example)
              (D := decode_messages_example) trunc_or_zero trunc_or_zero
              no_pointer no_texts (example_env [0x00006400] []) MAIN 0
              tenth_slot example_state no_errors 100 (mk_value 0 100 100 0))
    as (H1 & _ & H3).
  - discriminate.
  - reflexivity.
  - specialize (H1 eq_refl). destruct H1 as (D1 & D2 & D3).
    destruct (H3 (arg_double 10)) as [Hv Hev].
    + cbn [printed_view fmt_type tenth_slot]. rewrite D1. reflexivity.
    + fold r in Hv, Hev. split; [|exact Hev].
      rewrite Hv. reflexivity.
Defined.

(** The message number ([[N]]) with a multiplier of 2 printed with [%u], in
    message number 7: the number is printed as it is. *)
Definition doubled_message_number : value_format_t :=
  mk_value_format (Some [37; 117]) 0 0 0 0 0 0 0 VALUE_MESSAGE_NO PRINT_UINT64
    false 2 0.

Lemma message_number_slot_is_not_scaled :
  let r :=
    print_single_value (M := messages_example) (D := decode_messages_example)
      trunc_or_zero trunc_or_zero no_pointer no_texts
      (example_env [0] []) MAIN 0 doubled_message_number example_state
      no_errors in
  PrimFloat.eqb (mult doubled_message_number) 0 = false /\
  ((7 + offset doubled_message_number) * mult doubled_message_number)%float
  = 14%float /\
  value (fst (fst r)) = mk_value 7 7 7 0 /\
  snd r = [pr_fprintf MAIN (Some [37; 117]) [arg_u64 7]] /\
  snd (fst r) = no_errors.
Proof. vm_compute. repeat split. Qed.

(** [%[4294967280:32u]u] on a message of four bytes: the slot, whose end
    wraps around 32 bits, is prepared and printed like any other, and no
    error is recorded. *)
Example wrapped_slot_is_printed_without_error :
  let r :=
    print_single_value (M := messages_example) (D := decode_messages_example)
      trunc_or_zero trunc_or_zero no_pointer no_texts
      (example_env [0x64636261] []) MAIN 0 wrapping_slot example_state
      no_errors in
  length (snd r) = 1%nat /\ snd (fst r) = no_errors.
Proof. lazy. split; reflexivity. Qed.

(** Twelve values beyond the message: all twelve are printed (as 0) and
    counted, the first ten errors are stored and reported, with the notice
    that not all are shown. *)
Example print_message_with_twelve_errors :
  let o :=
    print_message (M := messages_example) (D := decode_messages_example)
      trunc_or_zero trunc_or_zero no_pointer no_texts
      (example_env [0x64636261]
         (replicate 12
            (mk_value_format (Some [37; 117]) 0 0 0 0 0 40 8 VALUE_UINT64
               PRINT_UINT64 false 0 0)))
      example_message_state example_state no_errors in
  total_errors <$> (out_errors <$> o) = Some 12 /\
  msg_error_counter <$> (out_errors <$> o) = Some 10 /\
  drop 5 <$> (out_events <$> o)
  = Some
      (replicate 12 (pr_fprintf MAIN (Some [37; 117]) [arg_u64 0])
       ++ map pr_errors
            (ev_errors_found MAIN_LOG 7 :: ev_too_many MAIN_LOG
             :: map (fun i => ev_error MAIN_LOG (Z.of_nat i) [37; 117] 111 48 32)
                  (seq 1 10))
       ++ map pr_errors
            (ev_errors_found ERROR_LOG 7 :: ev_too_many ERROR_LOG
             :: map (fun i => ev_error ERROR_LOG (Z.of_nat i) [37; 117] 111 48 32)
                  (seq 1 10))).
Proof. vm_compute. repeat split. Qed.

(** The conversions on a few bit patterns: 10 as a float and as a double,
    the smallest single-precision number, minus zero. *)
Example conversions_to_double :
  double_of_float_bits 0x41200000 = 10%float /\
  double_of_bits 0x4024000000000000 = 10%float /\
  double_of_float_bits 1 = 0x1p-149%float /\
  double_of_float_bits 0x80000000 = (-0)%float /\
  double_of_Z (-3) = (-3)%float /\
  double_of_Z (2 ^ 64 - 1) = 0x1p64%float.
Proof. vm_compute. repeat split. Qed.

End PrintMessage.

(** ** format.c: allocation of format IDs *)

Module FmtAlloc.

(** [g_fmt] and the cursors of [g_msg].  A slot of [g_fmt] holds a pointer to
    the message data, [None] for NULL. *)
Record alloc_state := mk_alloc_state {
  g_fmt : list (option Z);
  topmost_fmt_id : Z;
  fmt_ids_defined : Z;
  fmt_align_value : Z
}.

Definition NOT_ASSIGNED : Z := 0xFFFFFFFF.

(** [g_fmt[i]]. *)
Definition fmt_at (g : list (option Z)) (i : Z) : option Z :=
  if i <? 0 then None else default None (g !! Z.to_nat i).

Definition is_null (p : option Z) : bool :=
  match p with None => true | Some _ => false end.

(** First loop: advance the cursor over assigned IDs. *)
Fixpoint skip_assigned (fuel : nat) (g : list (option Z)) (topmost a : Z) : Z :=
  match fuel with
  | O => a
  | S fuel' =>
      if a <? topmost then
        if is_null (fmt_at g a) then a
        else skip_assigned fuel' g topmost (wrap32 (a + 1))
      else a
  end.

(** Inner loop: are the IDs [fmt_id + i], ..., [fmt_id + i + n - 1] free? *)
Fixpoint ids_free (g : list (option Z)) (fmt_id i : Z) (n : nat) : bool :=
  match n with
  | O => true
  | S n' =>
      if is_null (fmt_at g (wrap32 (fmt_id + i)))
      then ids_free g fmt_id (i + 1) n'
      else false
  end.

(** Outer loop: the first aligned ID below [topmost] with [no_fmt_ids] free
    IDs, and whether one was found. *)
Fixpoint find_free (fuel : nat) (g : list (option Z)) (topmost no_fmt_ids fmt_id : Z)
    : Z * bool :=
  match fuel with
  | O => (fmt_id, false)
  | S fuel' =>
      if fmt_id <? topmost then
        if is_null (fmt_at g fmt_id) && ids_free g fmt_id 0 (Z.to_nat no_fmt_ids)
        then (fmt_id, true)
        else find_free fuel' g topmost no_fmt_ids (wrap32 (fmt_id + no_fmt_ids))
      else (fmt_id, false)
  end.

(** Last loop: store the pointer in every ID of the range. *)
Fixpoint set_ids (g : list (option Z)) (fmt_id i : Z) (n : nat) (p : option Z)
    : list (option Z) :=
  match n with
  | O => g
  | S n' =>
      set_ids (<[Z.to_nat (wrap32 (fmt_id + i)) := p]> g) fmt_id (i + 1) n' p
  end.

(** The loops run at most [topmost] times; the lemmas below show that this
    amount of fuel is never used up. *)
Definition assign_fmt_id (no_fmt_ids : Z) (p_msg_data : option Z)
    (st : alloc_state) : Z * alloc_state :=
  if no_fmt_ids =? 0 then (NOT_ASSIGNED, st)
  else
    let topmost := topmost_fmt_id st in
    let fuel := S (Z.to_nat topmost) in
    let align := skip_assigned fuel (g_fmt st) topmost (fmt_align_value st) in
    let st1 := mk_alloc_state (g_fmt st) topmost (fmt_ids_defined st) align in
    let fmt_id :=
      Z.land (wrap32 (wrap32 (align + no_fmt_ids) - 1))
             (wrap32 (Z.lnot (wrap32 (no_fmt_ids - 1)))) in
    let '(fmt_id, fmt_id_assigned) :=
      find_free fuel (g_fmt st) topmost no_fmt_ids fmt_id in
    if fmt_id_assigned then
      if (wrap32 (fmt_id + no_fmt_ids) <? topmost) && (no_fmt_ids <? topmost) then
        let new_limit := wrap32 (fmt_id + no_fmt_ids) in
        (fmt_id,
         mk_alloc_state
           (set_ids (g_fmt st) fmt_id 0 (Z.to_nat no_fmt_ids) p_msg_data)
           topmost
           (if new_limit >? fmt_ids_defined st then new_limit else fmt_ids_defined st)
           align)
      else (NOT_ASSIGNED, st1)
    else (NOT_ASSIGNED, st1).

(** All of [id], ..., [id + k - 1] are free. *)
Definition range_is_free (g : list (option Z)) (id k : Z) : Prop :=
  forall i, 0 <= i < k -> fmt_at g (id + i) = None.

Lemma is_null_true p : is_null p = true <-> p = None.
Proof. destruct p; simpl; split; congruence. Qed.

Lemma is_null_false p : is_null p = false <-> p <> None.
Proof. destruct p; simpl; split; congruence. Qed.

Lemma skip_assigned_spec fuel g topmost a :
  0 <= a -> topmost < 2 ^ 32 ->
  (Z.to_nat (topmost - a) <= fuel)%nat ->
  let r := skip_assigned fuel g topmost a in
  a <= r /\
  (forall j, a <= j < r -> fmt_at g j <> None) /\
  (r < topmost -> fmt_at g r = None) /\
  r <= Z.max a topmost.
Proof.
  revert a. induction fuel as [|fuel IH]; intros a Ha Htop Hfuel; simpl.
  - split; [lia|]. split; [intros j Hj; lia|]. split; lia.
  - destruct (a <? topmost) eqn:E; zbool.
    + destruct (is_null (fmt_at g a)) eqn:En.
      * apply is_null_true in En.
        split; [lia|]. split; [intros j Hj; lia|]. split; [auto | lia].
      * apply is_null_false in En.
        rewrite wrap32_small by lia.
        destruct (IH (a + 1)) as (I1 & I2 & I3 & I4); [lia | lia | lia |].
        split; [lia|]. split; [|split; [exact I3 | lia]].
        intros j Hj. destruct (Z.eq_dec j a) as [-> | Hne]; [exact En|].
        apply I2. lia.
    + split; [lia|]. split; [intros j Hj; lia|]. split; lia.
Qed.

Lemma ids_free_spec g fmt_id n i :
  0 <= fmt_id -> 0 <= i -> fmt_id + i + Z.of_nat n <= 2 ^ 32 ->
  ids_free g fmt_id i n = true
  <-> forall j, i <= j < i + Z.of_nat n -> fmt_at g (fmt_id + j) = None.
Proof.
  revert i. induction n as [|n IH]; intros i Hid Hi Hn; simpl ids_free.
  - split; [intros _ j Hj; lia | reflexivity].
  - rewrite wrap32_small by lia.
    destruct (is_null (fmt_at g (fmt_id + i))) eqn:En.
    + apply is_null_true in En. rewrite IH by lia. split.
      * intros H j Hj. destruct (Z.eq_dec j i) as [-> | Hne]; [exact En|].
        apply H. lia.
      * intros H j Hj. apply H. lia.
    + apply is_null_false in En. split; [discriminate|].
      intros H. exfalso. apply En. apply H. lia.
Qed.

(** [(x + k - 1) & ~(k - 1)] rounds up to a multiple of the power of two [k]. *)
Lemma align_up_spec a e :
  0 <= e < 31 -> 0 <= a < 2 ^ 31 ->
  let k := 2 ^ e in
  Z.land (wrap32 (wrap32 (a + k) - 1)) (wrap32 (Z.lnot (wrap32 (k - 1))))
  = k * ((a + k - 1) / k).
Proof.
  intros He Ha k.
  assert (Hk : 1 <= k < 2 ^ 31).
  { unfold k. split.
    - apply (Z.pow_le_mono_r 2 0 e); lia.
    - apply Z.pow_lt_mono_r; lia. }
  rewrite (wrap32_small (a + k)) by lia.
  rewrite (wrap32_small (a + k - 1)) by lia.
  rewrite (wrap32_small (k - 1)) by lia.
  replace (k - 1) with (Z.ones e) by (rewrite Z.ones_equiv; unfold k; lia).
  set (x := a + k - 1).
  assert (Hx : 0 <= x < 2 ^ 32) by (unfold x; lia).
  unfold wrap32. rewrite <- (Z.land_ones (Z.lnot (Z.ones e)) 32) by lia.
  rewrite (Z.land_comm (Z.lnot (Z.ones e))), Z.land_assoc.
  rewrite (Z.land_ones x 32) by lia.
  rewrite (Z.mod_small x) by lia.
  rewrite <- Z.ldiff_land.
  rewrite Z.ldiff_ones_r by lia.
  rewrite Z.shiftr_div_pow2, Z.shiftl_mul_pow2 by lia. fold k. lia.
Qed.

Lemma find_free_spec fuel g topmost k fmt_id :
  1 <= k -> 0 <= fmt_id -> topmost + k < 2 ^ 32 -> fmt_id mod k = 0 ->
  (Z.to_nat (topmost - fmt_id) <= fuel)%nat ->
  let r := find_free fuel g topmost k fmt_id in
  (snd r = true ->
     fmt_id <= fst r < topmost /\ fst r mod k = 0 /\
     range_is_free g (fst r) k /\
     forall c, fmt_id <= c < fst r -> c mod k = 0 -> ~ range_is_free g c k) /\
  (snd r = false ->
     forall c, fmt_id <= c < topmost -> c mod k = 0 -> ~ range_is_free g c k).
Proof.
  intros Hk. revert fmt_id.
  induction fuel as [|fuel IH]; intros fmt_id Hid Htop Hmod Hfuel; simpl.
  - split; [discriminate|]. intros _ c Hc. lia.
  - destruct (fmt_id <? topmost) eqn:E; zbool.
    + destruct (is_null (fmt_at g fmt_id)
                && ids_free g fmt_id 0 (Z.to_nat k)) eqn:Efree.
      * simpl. split; [|discriminate]. intros _.
        apply andb_true_iff in Efree. destruct Efree as [_ Efree].
        pose proof (proj1 (ids_free_spec g fmt_id (Z.to_nat k) 0
                             ltac:(lia) ltac:(lia) ltac:(lia)) Efree) as Hfree.
        split; [lia|]. split; [exact Hmod|]. split.
        -- intros i Hi. apply Hfree. lia.
        -- intros c Hc. lia.
      * assert (Hnot : ~ range_is_free g fmt_id k).
        { intros Hfree. apply andb_false_iff in Efree. destruct Efree as [En | En].
          - apply is_null_false in En. apply En.
            specialize (Hfree 0 ltac:(lia)). rewrite Z.add_0_r in Hfree. exact Hfree.
          - assert (ids_free g fmt_id 0 (Z.to_nat k) = true); [|congruence].
            apply ids_free_spec; [lia | lia | lia |].
            intros j Hj. apply Hfree. lia. }
        rewrite wrap32_small by lia.
        assert (Hmod' : (fmt_id + k) mod k = 0).
        { rewrite <- Zplus_mod_idemp_r, Z_mod_same_full, Z.add_0_r. exact Hmod. }
        destruct (IH (fmt_id + k) ltac:(lia) Htop Hmod' ltac:(lia)) as [I1 I2].
        assert (Hgap : forall c, fmt_id <= c < fmt_id + k -> c mod k = 0 ->
                                 c = fmt_id).
        { intros c Hc Hcm.
          apply Z.mod_divide in Hmod; [|lia]. apply Z.mod_divide in Hcm; [|lia].
          destruct Hmod as [q Hq]. destruct Hcm as [q' Hq'].
          assert (q <= q') by (apply (Z.mul_le_mono_pos_r _ _ k); lia).
          assert (q' < q + 1) by (apply (Z.mul_lt_mono_pos_r k); lia).
          assert (q' = q) by lia. congruence. }
        split.
        -- intros Hfound. destruct (I1 Hfound) as (J1 & J2 & J3 & J4).
           split; [lia|]. split; [exact J2|]. split; [exact J3|].
           intros c Hc Hcm.
           destruct (Z_lt_le_dec c (fmt_id + k)) as [Hlt | Hge].
           ++ rewrite (Hgap c) by (lia || assumption). exact Hnot.
           ++ apply J4; [lia | exact Hcm].
        -- intros Hnone c Hc Hcm.
           destruct (Z_lt_le_dec c (fmt_id + k)) as [Hlt | Hge].
           ++ rewrite (Hgap c) by (lia || assumption). exact Hnot.
           ++ apply (I2 Hnone); [lia | exact Hcm].
    + simpl. split; [discriminate|]. intros _ c Hc. lia.
Qed.

Lemma fmt_at_insert_eq g (i : Z) p :
  0 <= i < Z.of_nat (length g) -> fmt_at (<[Z.to_nat i := p]> g) i = p.
Proof.
  intros Hi. unfold fmt_at. destruct (i <? 0) eqn:E; zbool; [lia|].
  rewrite list_lookup_insert_eq by lia. reflexivity.
Qed.

Lemma fmt_at_insert_ne g (i j : Z) p :
  0 <= i -> i <> j -> fmt_at (<[Z.to_nat i := p]> g) j = fmt_at g j.
Proof.
  intros Hi Hne. unfold fmt_at. destruct (j <? 0) eqn:E; zbool; [reflexivity|].
  rewrite list_lookup_insert_ne by lia. reflexivity.
Qed.

Lemma set_ids_spec g fmt_id n i p :
  0 <= fmt_id -> 0 <= i -> fmt_id + i + Z.of_nat n <= Z.of_nat (length g) ->
  fmt_id + i + Z.of_nat n <= 2 ^ 32 ->
  length (set_ids g fmt_id i n p) = length g /\
  forall j,
    fmt_at (set_ids g fmt_id i n p) j
    = if (fmt_id + i <=? j) && (j <? fmt_id + i + Z.of_nat n) then p
      else fmt_at g j.
Proof.
  revert g i. induction n as [|n IH]; intros g i Hid Hi Hlen Hwrap; simpl set_ids.
  - split; [reflexivity|]. intros j.
    destruct ((fmt_id + i <=? j) && (j <? fmt_id + i + Z.of_nat 0)) eqn:E;
      [zbool; lia | reflexivity].
  - rewrite wrap32_small by lia.
    destruct (IH (<[Z.to_nat (fmt_id + i) := p]> g) (i + 1)) as [L1 L2];
      [lia | lia | rewrite length_insert; lia | lia |].
    rewrite L1, length_insert. split; [reflexivity|]. intros j. rewrite L2.
    destruct ((fmt_id + (i + 1) <=? j) && (j <? fmt_id + (i + 1) + Z.of_nat n)) eqn:E1;
      destruct ((fmt_id + i <=? j) && (j <? fmt_id + i + Z.of_nat (S n))) eqn:E2;
      try reflexivity.
    + apply andb_false_iff in E2. zbool. destruct E2; zbool; lia.
    + zbool. apply andb_false_iff in E1.
      assert (j = fmt_id + i) as -> by (destruct E1; zbool; lia).
      apply fmt_at_insert_eq. lia.
    + apply fmt_at_insert_ne; [lia|].
      apply andb_false_iff in E2. intros Heq. destruct E2; zbool; lia.
Qed.

Lemma round_up_props a k :
  1 <= k -> 0 <= a ->
  let r := k * ((a + k - 1) / k) in
  a <= r < a + k /\ r mod k = 0 /\
  forall c, a <= c -> c mod k = 0 -> r <= c.
Proof.
  intros Hk Ha r.
  pose proof (Z.div_mod (a + k - 1) k ltac:(lia)) as Hdm.
  pose proof (Z.mod_pos_bound (a + k - 1) k ltac:(lia)) as Hm.
  fold r in Hdm.
  split; [lia|]. split.
  - unfold r. rewrite Z.mul_comm. apply Z_mod_mult.
  - intros c Hc Hcm. apply Z.mod_divide in Hcm; [|lia].
    destruct Hcm as [q Hq].
    destruct (Z_lt_le_dec c r) as [Hlt | Hge]; [|exact Hge]. exfalso.
    set (q0 := (a + k - 1) / k) in *.
    assert (Hr : r = q0 * k) by (unfold r; lia).
    assert (q < q0).
    { apply (Z.mul_lt_mono_pos_r k); lia. }
    assert (q + 1 <= q0) by lia.
    assert ((q + 1) * k <= q0 * k) by (apply Z.mul_le_mono_nonneg_r; lia).
    lia.
Qed.

(** C1. For a power of two [k = 2 ^ e]: the cursor is advanced over the
    assigned IDs; a successful call returns the first multiple of [k] at or
    after the cursor whose [k] IDs are all free, with [id + k < topmost], and
    stores the pointer in exactly these [k] slots; a failing call changes no
    slot and happens only when no free aligned range ends below [topmost].
    In particular the call fails when the first free aligned range [start]
    has [start + k > topmost]. *)
Theorem assign_fmt_id_allocates_aligned_range (e : Z) (p : option Z)
    (st : alloc_state) :
  0 <= e < 31 ->
  0 <= fmt_align_value st < 2 ^ 31 ->
  0 <= topmost_fmt_id st <= Z.of_nat (length (g_fmt st)) ->
  Z.of_nat (length (g_fmt st)) < 2 ^ 31 ->
  let k := 2 ^ e in
  let g := g_fmt st in
  let topmost := topmost_fmt_id st in
  let r := assign_fmt_id k p st in
  let id := fst r in
  let st' := snd r in
  let cursor := fmt_align_value st' in
  (fmt_align_value st <= cursor /\
   (forall j, fmt_align_value st <= j < cursor -> fmt_at g j <> None) /\
   (cursor < topmost -> fmt_at g cursor = None)) /\
  (id <> NOT_ASSIGNED ->
     cursor <= id /\ id mod k = 0 /\ id + k < topmost /\
     range_is_free g id k /\
     (forall c, cursor <= c < id -> c mod k = 0 -> ~ range_is_free g c k) /\
     length (g_fmt st') = length g /\
     (forall j, fmt_at (g_fmt st') j
                = if (id <=? j) && (j <? id + k) then p else fmt_at g j) /\
     fmt_ids_defined st' = Z.max (fmt_ids_defined st) (id + k)) /\
  (id = NOT_ASSIGNED ->
     g_fmt st' = g /\ fmt_ids_defined st' = fmt_ids_defined st /\
     forall c, cursor <= c -> c mod k = 0 -> c + k < topmost ->
               ~ range_is_free g c k) /\
  (forall start,
     cursor <= start -> start mod k = 0 -> range_is_free g start k ->
     (forall c, cursor <= c < start -> c mod k = 0 -> ~ range_is_free g c k) ->
     topmost < start + k ->
     id = NOT_ASSIGNED /\ g_fmt st' = g).
Proof.
  intros He Ha Htop Hlen k g topmost r id st' cursor.
  assert (Hk : 1 <= k < 2 ^ 31).
  { unfold k. split.
    - apply (Z.pow_le_mono_r 2 0 e); lia.
    - apply Z.pow_lt_mono_r; lia. }
  subst cursor st' id r. unfold assign_fmt_id.
  destruct (k =? 0) eqn:Ek; zbool; [lia|].
  fold topmost g. fold g in Htop, Hlen. fold topmost in Htop.
  destruct (skip_assigned_spec (S (Z.to_nat topmost)) g topmost
              (fmt_align_value st)) as (S1 & S2 & S3 & S4); [lia | lia | lia |].
  set (align := skip_assigned (S (Z.to_nat topmost)) g topmost (fmt_align_value st))
    in *.
  pose proof (align_up_spec align e He ltac:(lia)) as Hal.
  cbv zeta in Hal. fold k in Hal. rewrite Hal. clear Hal.
  destruct (round_up_props align k ltac:(lia) ltac:(lia)) as (R1 & R2 & R3).
  set (first := k * ((align + k - 1) / k)) in *.
  destruct (find_free_spec (S (Z.to_nat topmost)) g topmost k first)
    as [F1 F2]; [lia | lia | lia | exact R2 | lia |].
  destruct (find_free (S (Z.to_nat topmost)) g topmost k first) as [fmt_id found].
  cbn [fst snd] in F1, F2. cbv beta iota.
  assert (Hmain :
    (found = true /\ fmt_id + k < topmost ->
       fmt_id <> NOT_ASSIGNED /\ align <= fmt_id /\ fmt_id mod k = 0 /\
       range_is_free g fmt_id k /\
       (forall c, align <= c < fmt_id -> c mod k = 0 -> ~ range_is_free g c k)) /\
    (~ (found = true /\ fmt_id + k < topmost) ->
       forall c, align <= c -> c mod k = 0 -> c + k < topmost ->
                 ~ range_is_free g c k)).
  { split.
    - intros [Hf Hfit]. destruct (F1 Hf) as (G1 & G2 & G3 & G4).
      split; [unfold NOT_ASSIGNED; lia|]. split; [lia|]. split; [exact G2|].
      split; [exact G3|]. intros c Hc Hcm.
      apply G4; [|exact Hcm]. split; [apply R3; [lia | exact Hcm] | lia].
    - intros Hno c Hc Hcm Hfit.
      assert (Hfc : first <= c) by (apply R3; [lia | exact Hcm]).
      destruct found.
      + destruct (F1 eq_refl) as (G1 & G2 & G3 & G4).
        destruct (Z_lt_le_dec c fmt_id) as [Hlt | Hge].
        * apply G4; [lia | exact Hcm].
        * exfalso. apply Hno. split; [reflexivity | lia].
      + apply (F2 eq_refl); [lia | exact Hcm]. }
  destruct Hmain as [Hyes Hnot].
  assert (Hcase : (found = true /\ fmt_id + k < topmost) \/
                  ~ (found = true /\ fmt_id + k < topmost)).
  { destruct found; [|right; intros [? _]; discriminate].
    destruct (Z_lt_le_dec (fmt_id + k) topmost); [left; split; [reflexivity | lia]|].
    right. intros [_ ?]. lia. }
  destruct Hcase as [Hsucc | Hfail].
  - destruct Hsucc as [Hf Hfit]. destruct (Hyes (conj Hf Hfit)) as (Y0 & Y1 & Y2 & Y3 & Y4).
    rewrite Hf. cbv beta iota.
    assert (Hw : wrap32 (fmt_id + k) = fmt_id + k) by (apply wrap32_small; lia).
    rewrite Hw.
    assert (Hcond : (fmt_id + k <? topmost) && (k <? topmost) = true).
    { apply andb_true_iff. split; apply Z.ltb_lt; lia. }
    rewrite Hcond. cbn [fst snd fmt_align_value g_fmt fmt_ids_defined].
    destruct (set_ids_spec g fmt_id (Z.to_nat k) 0 p) as [L1 L2];
      [lia | lia | lia | lia |].
    split; [split; [exact S1 | split; [exact S2 | exact S3]]|].
    split.
    { intros _. split; [exact Y1|]. split; [exact Y2|]. split; [lia|].
      split; [exact Y3|]. split; [exact Y4|]. split; [exact L1|]. split.
      - intros j. rewrite L2. rewrite Z.add_0_r, Z2Nat.id by lia. reflexivity.
      - destruct (fmt_id + k >? fmt_ids_defined st) eqn:E; zbool; lia. }
    split; [intros Hna; contradiction|].
    intros start Hs Hsm Hsfree Hsmin Hover. exfalso.
    destruct (Z_lt_le_dec start fmt_id) as [Hlt | Hge].
    + apply (Y4 start); [lia | exact Hsm | exact Hsfree].
    + destruct (Z.eq_dec start fmt_id) as [-> | Hne]; [lia|].
      apply (Hsmin fmt_id); [lia | exact Y2 | exact Y3].
  - assert (Hres :
      (if found
       then if (wrap32 (fmt_id + k) <? topmost) && (k <? topmost)
            then (fmt_id,
                  mk_alloc_state (set_ids g fmt_id 0 (Z.to_nat k) p) topmost
                    (if wrap32 (fmt_id + k) >? fmt_ids_defined st
                     then wrap32 (fmt_id + k) else fmt_ids_defined st) align)
            else (NOT_ASSIGNED,
                  mk_alloc_state g topmost (fmt_ids_defined st) align)
       else (NOT_ASSIGNED, mk_alloc_state g topmost (fmt_ids_defined st) align))
      = (NOT_ASSIGNED, mk_alloc_state g topmost (fmt_ids_defined st) align)).
    { destruct found; [|reflexivity].
      destruct (F1 eq_refl) as (G1 & _).
      rewrite wrap32_small by lia.
      destruct ((fmt_id + k <? topmost) && (k <? topmost)) eqn:E; [|reflexivity].
      zbool. exfalso. apply Hfail. split; [reflexivity | lia]. }
    rewrite Hres. cbn [fst snd fmt_align_value g_fmt fmt_ids_defined].
    split; [split; [exact S1 | split; [exact S2 | exact S3]]|].
    split; [intros Hna; congruence|].
    split.
    { intros _. split; [reflexivity|]. split; [reflexivity|]. exact (Hnot Hfail). }
    intros start _ _ _ _ _. split; reflexivity.
Qed.

(** A table of eight IDs with 0 and 2 taken. *)
Definition example_table : alloc_state :=
  mk_alloc_state [Some 1; None; Some 2; None; None; None; None; None] 8 3 0.

Lemma pair_of_ids_allocated_at_4 :
  let r := assign_fmt_id (2 ^ 1) (Some 9) example_table in
  fst r = 4 /\
  fmt_align_value (snd r) = 1 /\
  g_fmt (snd r) = [Some 1; None; Some 2; None; Some 9; Some 9; None; None] /\
  fst r mod 2 ^ 1 = 0 /\
  range_is_free (g_fmt example_table) (fst r) (2 ^ 1).
Proof.
  destruct (assign_fmt_id_allocates_aligned_range 1 (Some 9) example_table)
    as (_ & H & _); [lia | simpl; lia | simpl; lia | simpl; lia |].
  destruct H as (_ & Hmod & _ & Hfree & _); [vm_compute; discriminate|].
  split; [reflexivity|]. split; [reflexivity|]. split; [reflexivity|].
  split; [exact Hmod | exact Hfree].
Defined.

(** Four IDs are requested; the first free aligned range starts at 4 and
    would end beyond [topmost = 6]: nothing is assigned. *)
Example range_straddling_topmost_is_refused :
  let st := mk_alloc_state
              [Some 1; Some 1; Some 1; Some 1; None; None; None; None] 6 4 0 in
  let r := assign_fmt_id 4 (Some 9) st in
  fst r = NOT_ASSIGNED /\ g_fmt (snd r) = g_fmt st /\ fmt_align_value (snd r) = 4.
Proof. vm_compute. repeat split. Qed.

(** A free aligned range that ends exactly at [topmost] is refused as
    well. *)
Example range_ending_at_topmost_is_refused :
  let st := mk_alloc_state
              [Some 1; Some 1; Some 1; Some 1; None; None; None; None] 8 4 0 in
  let r := assign_fmt_id 4 (Some 9) st in
  fst r = NOT_ASSIGNED /\ g_fmt (snd r) = g_fmt st.
Proof. vm_compute. repeat split. Qed.

(** *** Allocations do not disturb each other *)

(** The state is one the allocator can work on. *)
Definition table_fits (st : alloc_state) : Prop :=
  0 <= fmt_align_value st < 2 ^ 31 /\
  0 <= topmost_fmt_id st <= Z.of_nat (length (g_fmt st)) /\
  Z.of_nat (length (g_fmt st)) < 2 ^ 31.

Lemma assign_fmt_id_effect (e : Z) (p : option Z) (st : alloc_state) :
  0 <= e < 31 -> table_fits st ->
  let k := 2 ^ e in
  let r := assign_fmt_id k p st in
  table_fits (snd r) /\
  topmost_fmt_id (snd r) = topmost_fmt_id st /\
  fmt_align_value st <= fmt_align_value (snd r) /\
  fmt_ids_defined st <= fmt_ids_defined (snd r) /\
  (fst r = NOT_ASSIGNED -> g_fmt (snd r) = g_fmt st) /\
  (fst r <> NOT_ASSIGNED ->
   0 <= fst r /\ fst r + k < topmost_fmt_id st /\
   range_is_free (g_fmt st) (fst r) k /\
   fst r + k <= fmt_ids_defined (snd r) /\
   forall j, fmt_at (g_fmt (snd r)) j
             = if (fst r <=? j) && (j <? fst r + k) then p else fmt_at (g_fmt st) j).
Proof.
  intros He (Ha & Htop & Hlen) k r. subst r.
  assert (Hk : 1 <= k < 2 ^ 31).
  { unfold k. split.
    - apply (Z.pow_le_mono_r 2 0 e); lia.
    - apply Z.pow_lt_mono_r; lia. }
  unfold assign_fmt_id. destruct (k =? 0) eqn:Ek; zbool; [lia|].
  set (g := g_fmt st) in *. set (topmost := topmost_fmt_id st) in *.
  destruct (skip_assigned_spec (S (Z.to_nat topmost)) g topmost
              (fmt_align_value st)) as (S1 & _ & _ & S4); [lia | lia | lia |].
  set (align := skip_assigned (S (Z.to_nat topmost)) g topmost (fmt_align_value st))
    in *.
  pose proof (align_up_spec align e He ltac:(lia)) as Hal.
  cbv zeta in Hal. fold k in Hal. rewrite Hal. clear Hal.
  destruct (round_up_props align k ltac:(lia) ltac:(lia)) as (R1 & R2 & _).
  set (first := k * ((align + k - 1) / k)) in *.
  destruct (find_free_spec (S (Z.to_nat topmost)) g topmost k first)
    as [F1 _]; [lia | lia | lia | exact R2 | lia |].
  destruct (find_free (S (Z.to_nat topmost)) g topmost k first) as [id found].
  cbn [fst snd] in F1. cbv beta iota.
  assert (Hfail : forall s, s = mk_alloc_state g topmost (fmt_ids_defined st) align ->
            table_fits s /\ topmost_fmt_id s = topmost /\
            fmt_align_value st <= fmt_align_value s /\
            fmt_ids_defined st <= fmt_ids_defined s /\
            (NOT_ASSIGNED = NOT_ASSIGNED -> g_fmt s = g) /\
            (NOT_ASSIGNED <> NOT_ASSIGNED ->
             0 <= NOT_ASSIGNED /\ NOT_ASSIGNED + k < topmost /\
             range_is_free g NOT_ASSIGNED k /\
             NOT_ASSIGNED + k <= fmt_ids_defined s /\
             forall j, fmt_at (g_fmt s) j
                       = if (NOT_ASSIGNED <=? j) && (j <? NOT_ASSIGNED + k)
                         then p else fmt_at g j)).
  { intros s ->. unfold table_fits.
    cbn [g_fmt topmost_fmt_id fmt_ids_defined fmt_align_value].
    split; [fold g topmost; lia|]. split; [reflexivity|]. split; [lia|].
    split; [lia|]. split; [reflexivity | intros H; contradiction]. }
  destruct found; [|cbn [fst snd]; apply Hfail; reflexivity].
  destruct (F1 eq_refl) as (G1 & _ & G3 & _).
  destruct ((wrap32 (id + k) <? topmost) && (k <? topmost)) eqn:Ec;
    [|cbn [fst snd]; apply Hfail; reflexivity].
  rewrite (wrap32_small (id + k)) in * by lia. zbool.
  destruct (set_ids_spec g id (Z.to_nat k) 0 p) as [L1 L2];
    [lia | lia | lia | lia |].
  cbn [fst snd g_fmt topmost_fmt_id fmt_ids_defined fmt_align_value].
  unfold table_fits. cbn [g_fmt topmost_fmt_id fmt_align_value]. rewrite L1.
  fold g topmost.
  split; [lia|]. split; [reflexivity|]. split; [lia|].
  split; [destruct (id + k >? fmt_ids_defined st) eqn:Eg; zbool; lia|].
  split; [unfold NOT_ASSIGNED; intros; lia|]. intros _.
  split; [lia|]. split; [lia|]. split; [exact G3|].
  split; [destruct (id + k >? fmt_ids_defined st) eqn:Eg; zbool; lia|].
  intros j. rewrite L2. rewrite Z.add_0_r, Z2Nat.id by lia. reflexivity.
Qed.

(** X13. [assign_fmt_id] leaves every format ID that is assigned as it
    is: it writes only to slots that were NULL.  The cursor and the number of
    IDs defined do not go back, and the table stays one the allocator can
    work on. *)
Theorem assign_fmt_id_keeps_assigned_ids (e : Z) (p : option Z)
    (st : alloc_state) :
  0 <= e < 31 -> table_fits st ->
  let st' := snd (assign_fmt_id (2 ^ e) p st) in
  (forall j, fmt_at (g_fmt st) j <> None ->
             fmt_at (g_fmt st') j = fmt_at (g_fmt st) j) /\
  table_fits st' /\
  topmost_fmt_id st' = topmost_fmt_id st /\
  fmt_align_value st <= fmt_align_value st' /\
  fmt_ids_defined st <= fmt_ids_defined st'.
Proof.
  intros He Hfit st'. subst st'.
  destruct (assign_fmt_id_effect e p st He Hfit) as (E1 & E2 & E3 & E4 & E5 & E6).
  split; [|split; [exact E1 | split; [exact E2 | split; [exact E3 | exact E4]]]].
  intros j Hj.
  destruct (Z.eq_dec (fst (assign_fmt_id (2 ^ e) p st)) NOT_ASSIGNED) as [Hna | Hid].
  - rewrite (E5 Hna). reflexivity.
  - destruct (E6 Hid) as (_ & _ & Hfree & _ & Hset). rewrite Hset.
    destruct ((fst (assign_fmt_id (2 ^ e) p st) <=? j)
              && (j <? fst (assign_fmt_id (2 ^ e) p st) + 2 ^ e)) eqn:Ein;
      [|reflexivity].
    zbool. exfalso. apply Hj.
    specialize (Hfree (j - fst (assign_fmt_id (2 ^ e) p st)) ltac:(lia)).
    replace (fst (assign_fmt_id (2 ^ e) p st)
             + (j - fst (assign_fmt_id (2 ^ e) p st))) with j in Hfree by lia.
    exact Hfree.
Qed.

Lemma example_table_fits : table_fits example_table.
Proof. unfold table_fits. simpl. lia. Qed.

Lemma assign_fmt_id_keeps_assigned_ids_example :
  fmt_at (g_fmt (snd (assign_fmt_id (2 ^ 1) (Some 9) example_table))) 2 = Some 2.
Proof.
  destruct (assign_fmt_id_keeps_assigned_ids 1 (Some 9) example_table) as (H & _).
  - lia.
  - exact example_table_fits.
  - rewrite (H 2); [reflexivity | discriminate].
Defined.

(** X14. Two allocations made one after the other, the first with a
    pointer that is not NULL, get ranges of format IDs that do not overlap,
    and the IDs of the first still hold its pointer after the second. *)
Theorem successive_allocations_are_disjoint (e1 e2 : Z) (p1 p2 : option Z)
    (st : alloc_state) :
  0 <= e1 < 31 -> 0 <= e2 < 31 -> table_fits st -> p1 <> None ->
  let r1 := assign_fmt_id (2 ^ e1) p1 st in
  let r2 := assign_fmt_id (2 ^ e2) p2 (snd r1) in
  fst r1 <> NOT_ASSIGNED -> fst r2 <> NOT_ASSIGNED ->
  (fst r1 + 2 ^ e1 <= fst r2 \/ fst r2 + 2 ^ e2 <= fst r1) /\
  forall j, fst r1 <= j < fst r1 + 2 ^ e1 -> fmt_at (g_fmt (snd r2)) j = p1.
Proof.
  intros He1 He2 Hfit Hp r1 r2 H1 H2. subst r2.
  destruct (assign_fmt_id_effect e1 p1 st He1 Hfit) as (A1 & _ & _ & _ & _ & A6).
  fold r1 in A1, A6. destruct (A6 H1) as (B1 & _ & _ & _ & Bset).
  destruct (assign_fmt_id_effect e2 p2 (snd r1) He2 A1) as (_ & _ & _ & _ & _ & C6).
  destruct (C6 H2) as (D1 & _ & Dfree & _ & Dset).
  set (id1 := fst r1) in *.
  set (id2 := fst (assign_fmt_id (2 ^ e2) p2 (snd r1))) in *.
  assert (Hk1 : 1 <= 2 ^ e1) by (apply (Z.pow_le_mono_r 2 0 e1); lia).
  assert (Hk2 : 1 <= 2 ^ e2) by (apply (Z.pow_le_mono_r 2 0 e2); lia).
  assert (Hdis : id1 + 2 ^ e1 <= id2 \/ id2 + 2 ^ e2 <= id1).
  { destruct (Z_le_gt_dec (id1 + 2 ^ e1) id2) as [? | Hgt]; [left; assumption|].
    destruct (Z_le_gt_dec (id2 + 2 ^ e2) id1) as [? | Hgt2]; [right; assumption|].
    exfalso. set (j := Z.max id1 id2).
    specialize (Dfree (j - id2) ltac:(lia)).
    replace (id2 + (j - id2)) with j in Dfree by lia.
    rewrite Bset in Dfree.
    assert (Hin : (id1 <=? j) && (j <? id1 + 2 ^ e1) = true).
    { apply andb_true_iff. split; [apply Z.leb_le | apply Z.ltb_lt]; lia. }
    rewrite Hin in Dfree. contradiction. }
  split; [exact Hdis|]. intros j Hj. rewrite Dset.
  destruct ((id2 <=? j) && (j <? id2 + 2 ^ e2)) eqn:Ein; [zbool; lia|].
  rewrite Bset.
  assert (Hin : (id1 <=? j) && (j <? id1 + 2 ^ e1) = true).
  { apply andb_true_iff. split; [apply Z.leb_le | apply Z.ltb_lt]; lia. }
  rewrite Hin. reflexivity.
Qed.

Lemma successive_allocations_are_disjoint_example :
  let r1 := assign_fmt_id (2 ^ 1) (Some 9) example_table in
  let r2 := assign_fmt_id (2 ^ 0) (Some 10) (snd r1) in
  fst r1 = 4 /\ fst r2 = 1 /\ fmt_at (g_fmt (snd r2)) 5 = Some 9.
Proof.
  intros r1 r2.
  pose proof (successive_allocations_are_disjoint 1 0 (Some 9) (Some 10)
                example_table ltac:(lia) ltac:(lia) example_table_fits
                ltac:(discriminate)) as H.
  cbv zeta in H. fold r1 in H. fold r2 in H.
  assert (H1 : fst r1 = 4) by reflexivity.
  assert (H2 : fst r2 = 1) by reflexivity.
  destruct H as (_ & H).
  - rewrite H1. discriminate.
  - rewrite H2. discriminate.
  - split; [exact H1|]. split; [exact H2|].
    apply (H 5). rewrite H1. lia.
Defined.

(** *** Looking a message up by its name *)

Definition MSG_NAME_NOT_FOUND : Z := 0xFFFFFFFF.

Section names.

(** [p->message_name] of the definition that the pointer [p] refers to. *)
Variable message_name : Z -> option (list Z).

Definition name_matches (p : Z) (name : list Z) : bool :=
  match message_name p with
  | Some n => bool_decide (n = name)
  | None => false
  end.

Definition same_pointer (a : option Z) (p : Z) : bool :=
  match a with Some q => q =? p | None => false end.

(** The [for] loop of [find_message_format_index]; [i] is a [uint16_t].
    [None] stands for a loop that is not finished when the fuel is used
    up. *)
Fixpoint find_index_loop (fuel : nat) (g : list (option Z)) (name : list Z)
    (ids_defined i : Z) (p_already_processed : option Z) : option Z :=
  match fuel with
  | O => None
  | S fuel' =>
      if i <? ids_defined then
        let next := (i + 1) mod 2 ^ 16 in
        match fmt_at g i with
        | None => find_index_loop fuel' g name ids_defined next p_already_processed
        | Some p_fmt =>
            if same_pointer p_already_processed p_fmt then
              find_index_loop fuel' g name ids_defined next p_already_processed
            else if name_matches p_fmt name then Some i
            else find_index_loop fuel' g name ids_defined next (Some p_fmt)
        end
      else Some MSG_NAME_NOT_FOUND
  end.

Definition find_message_format_index (name : option (list Z)) (st : alloc_state)
    : option Z :=
  match name with
  | None => Some MSG_NAME_NOT_FOUND
  | Some name =>
      find_index_loop (S (Z.to_nat (fmt_ids_defined st))) (g_fmt st) name
        (fmt_ids_defined st) 0 None
  end.

(** Format ID [j] is defined with the name [name]. *)
Definition named (g : list (option Z)) (name : list Z) (j : Z) : Prop :=
  exists p, fmt_at g j = Some p /\ message_name p = Some name.

Lemma name_matches_true p name :
  name_matches p name = true <-> message_name p = Some name.
Proof.
  unfold name_matches. destruct (message_name p) as [n|].
  - rewrite bool_decide_eq_true. split; [intros ->; reflexivity | congruence].
  - split; discriminate.
Qed.

Lemma find_index_loop_spec (fuel : nat) (g : list (option Z)) (name : list Z)
    (ids_defined : Z) :
  ids_defined < 2 ^ 16 ->
  forall i p_already_processed,
    0 <= i <= ids_defined ->
    (Z.to_nat (ids_defined - i) < fuel)%nat ->
    (forall q, p_already_processed = Some q -> message_name q <> Some name) ->
    exists r,
      find_index_loop fuel g name ids_defined i p_already_processed = Some r /\
      (r = MSG_NAME_NOT_FOUND ->
         forall j, i <= j < ids_defined -> ~ named g name j) /\
      (r <> MSG_NAME_NOT_FOUND ->
         i <= r < ids_defined /\ named g name r /\
         forall j, i <= j < r -> ~ named g name j).
Proof.
  intros Hmax. induction fuel as [|fuel IH]; intros i pa Hi Hfuel Hpa; [lia|].
  cbn [find_index_loop].
  destruct (i <? ids_defined) eqn:E; zbool.
  2:{ exists MSG_NAME_NOT_FOUND. split; [reflexivity|].
      split; [intros _ j Hj; lia | intros H; contradiction]. }
  assert (Hnext : (i + 1) mod 2 ^ 16 = i + 1) by (apply Z.mod_small; lia).
  rewrite Hnext.
  assert (Hstep : forall pa',
            (forall q, pa' = Some q -> message_name q <> Some name) ->
            ~ named g name i ->
            exists r,
              find_index_loop fuel g name ids_defined (i + 1) pa' = Some r /\
              (r = MSG_NAME_NOT_FOUND ->
                 forall j, i <= j < ids_defined -> ~ named g name j) /\
              (r <> MSG_NAME_NOT_FOUND ->
                 i <= r < ids_defined /\ named g name r /\
                 forall j, i <= j < r -> ~ named g name j)).
  { intros pa' Hpa' Hnot.
    destruct (IH (i + 1) pa' ltac:(lia) ltac:(lia) Hpa') as (r & Hr & Hnf & Hf).
    exists r. split; [exact Hr|]. split.
    - intros Hn j Hj. destruct (Z.eq_dec j i) as [-> | Hne]; [exact Hnot|].
      apply (Hnf Hn). lia.
    - intros Hn. destruct (Hf Hn) as (H1 & H2 & H3).
      split; [lia|]. split; [exact H2|]. intros j Hj.
      destruct (Z.eq_dec j i) as [-> | Hne]; [exact Hnot|]. apply H3. lia. }
  destruct (fmt_at g i) as [p|] eqn:Ep.
  - destruct (same_pointer pa p) eqn:Esame.
    + apply Hstep; [exact Hpa|]. intros (p' & Hp' & Hn).
      rewrite Ep in Hp'. injection Hp' as <-.
      unfold same_pointer in Esame. destruct pa as [q|]; [|discriminate]. zbool.
      subst q. exact (Hpa p eq_refl Hn).
    + destruct (name_matches p name) eqn:Em.
      * apply name_matches_true in Em. exists i. split; [reflexivity|].
        split; [unfold MSG_NAME_NOT_FOUND; intros; lia|]. intros _.
        split; [lia|]. split; [exists p; split; assumption|]. intros j Hj. lia.
      * assert (Hno : message_name p <> Some name).
        { intros Hn. apply name_matches_true in Hn. congruence. }
        apply Hstep.
        -- intros q Hq. injection Hq as <-. exact Hno.
        -- intros (p' & Hp' & Hn). rewrite Ep in Hp'. injection Hp' as <-.
           contradiction.
  - apply Hstep; [exact Hpa|]. intros (p' & Hp' & _). rewrite Ep in Hp'.
    discriminate.
Qed.

(** X15. With fewer than 65536 format IDs defined,
    [find_message_format_index] returns, and its result is the lowest format
    ID below [fmt_ids_defined] whose definition has the name looked for, or
    [MSG_NAME_NOT_FOUND] when there is none: stepping over an ID that shares
    its definition with the one before it loses no match. *)
Theorem find_message_format_index_finds_first (name : list Z)
    (st : alloc_state) :
  0 <= fmt_ids_defined st < 2 ^ 16 ->
  exists r,
    find_message_format_index (Some name) st = Some r /\
    (r = MSG_NAME_NOT_FOUND ->
       forall j, 0 <= j < fmt_ids_defined st -> ~ named (g_fmt st) name j) /\
    (r <> MSG_NAME_NOT_FOUND ->
       0 <= r < fmt_ids_defined st /\ named (g_fmt st) name r /\
       forall j, 0 <= j < r -> ~ named (g_fmt st) name j).
Proof.
  intros Hd. unfold find_message_format_index.
  apply find_index_loop_spec; [lia | lia | lia | intros q Hq; discriminate].
Qed.

(** X16. A definition registered with [assign_fmt_id] is found by
    its name afterwards: the search returns an ID that is defined with this
    name and that is not above the first ID just assigned. *)
Theorem registered_message_is_found (e : Z) (p : Z) (name : list Z)
    (st : alloc_state) :
  0 <= e < 31 -> table_fits st ->
  message_name p = Some name ->
  let r := assign_fmt_id (2 ^ e) (Some p) st in
  fst r <> NOT_ASSIGNED ->
  0 <= fmt_ids_defined (snd r) < 2 ^ 16 ->
  exists i,
    find_message_format_index (Some name) (snd r) = Some i /\
    0 <= i <= fst r /\ named (g_fmt (snd r)) name i.
Proof.
  intros He Hfit Hname r Hid Hdef.
  destruct (assign_fmt_id_effect e (Some p) st He Hfit) as (_ & _ & _ & _ & _ & A6).
  fold r in A6. destruct (A6 Hid) as (B1 & _ & _ & B4 & Bset).
  assert (Hk : 1 <= 2 ^ e) by (apply (Z.pow_le_mono_r 2 0 e); lia).
  assert (Hat : named (g_fmt (snd r)) name (fst r)).
  { exists p. split; [|exact Hname]. rewrite Bset.
    assert (Hin : (fst r <=? fst r) && (fst r <? fst r + 2 ^ e) = true).
    { apply andb_true_iff. split; [apply Z.leb_le | apply Z.ltb_lt]; lia. }
    rewrite Hin. reflexivity. }
  unfold find_message_format_index.
  destruct (find_index_loop_spec (S (Z.to_nat (fmt_ids_defined (snd r))))
              (g_fmt (snd r)) name (fmt_ids_defined (snd r)) ltac:(lia) 0 None
              ltac:(lia) ltac:(lia) ltac:(intros q Hq; discriminate))
    as (i & Hi & Hnf & Hf).
  exists i. split; [exact Hi|].
  destruct (Z.eq_dec i MSG_NAME_NOT_FOUND) as [Heq | Hne].
  - exfalso. apply (Hnf Heq (fst r)); [lia | exact Hat].
  - destruct (Hf Hne) as (H1 & H2 & H3). split; [|exact H2].
    split; [lia|]. destruct (Z_le_gt_dec i (fst r)) as [Hle | Hgt]; [exact Hle|].
    exfalso. apply (H3 (fst r)); [lia | exact Hat].
Qed.

End names.

Definition example_names (p : Z) : option (list Z) :=
  if p =? 1 then Some [65] else if p =? 2 then Some [66] else
  if p =? 9 then Some [66] else None.

Lemma find_message_format_index_finds_first_example :
  find_message_format_index example_names (Some [66]) example_table = Some 2.
Proof.
  destruct (find_message_format_index_finds_first example_names [66] example_table)
    as (r & Hr & _ & Hf).
  - simpl. lia.
  - rewrite Hr. f_equal.
    assert (Hv : find_message_format_index example_names (Some [66]) example_table
                 = Some 2) by reflexivity.
    congruence.
Defined.

Lemma registered_message_is_found_example :
  exists i,
    find_message_format_index example_names (Some [66])
      (snd (assign_fmt_id (2 ^ 1) (Some 9) example_table)) = Some i /\
    0 <= i <= 4.
Proof.
  destruct (registered_message_is_found example_names 1 9 [66] example_table)
    as (i & Hi & Hr & _).
  - lia.
  - exact example_table_fits.
  - reflexivity.
  - vm_compute. discriminate.
  - change (fmt_ids_defined (snd (assign_fmt_id (2 ^ 1) (Some 9) example_table)))
      with 6. lia.
  - exists i. split; [exact Hi | exact Hr].
Defined.

End FmtAlloc.

(** ** timestamp.h: reconstruction of the 64-bit timestamp *)

Module Timestamps.

(** The fields of [msg_data_t] read here. *)
Record msg_data_t := mk_msg_data {
  msg_type : msg_type_t;
  msg_len : Z
}.

(** [g_msg.timestamp] without the fields for printing and statistics. *)
Record timestamp_t := mk_timestamp {
  h : Z;
  l : Z;
  old : Z;
  searched_to_index : Z;
  msg_long_tstamp_incremented : Z;
  mark_problematic_tstamps : bool;
  no_previous_tstamp : bool;
  timestamp_long_timestamp_found : bool
}.

(** The rest of [g_msg] and [g_fmt] as the timestamp functions read it:
    [g_msg.param], [g_msg.hdr_data], the loaded buffer and the counters of the
    current message. *)
Record env := mk_env {
  max_positive_tstamp_diff : Z;
  max_negative_tstamp_diff : Z;
  long_timestamp_used : bool;
  fmt_id_bits : Z;
  fmt_id_shift : Z;
  topmost_fmt_id : Z;
  g_fmt : list (option msg_data_t);
  rte_buffer : list Z;
  in_size : Z;
  index : Z;
  message_cnt : Z;
  fmt_id : Z
}.

Definition MSG1_SYS_LONG_TIMESTAMP : Z := 0.
Definition MSG1_SYS_STREAMING_MODE_LOGGING (e : env) : Z := topmost_fmt_id e.

Definition set_h (v : Z) (ts : timestamp_t) : timestamp_t :=
  mk_timestamp v (l ts) (old ts) (searched_to_index ts)
    (msg_long_tstamp_incremented ts) (mark_problematic_tstamps ts)
    (no_previous_tstamp ts) (timestamp_long_timestamp_found ts).

Definition set_l (v : Z) (ts : timestamp_t) : timestamp_t :=
  mk_timestamp (h ts) v (old ts) (searched_to_index ts)
    (msg_long_tstamp_incremented ts) (mark_problematic_tstamps ts)
    (no_previous_tstamp ts) (timestamp_long_timestamp_found ts).

Definition set_old (v : Z) (ts : timestamp_t) : timestamp_t :=
  mk_timestamp (h ts) (l ts) v (searched_to_index ts)
    (msg_long_tstamp_incremented ts) (mark_problematic_tstamps ts)
    (no_previous_tstamp ts) (timestamp_long_timestamp_found ts).

Definition set_searched_to_index (v : Z) (ts : timestamp_t) : timestamp_t :=
  mk_timestamp (h ts) (l ts) (old ts) v
    (msg_long_tstamp_incremented ts) (mark_problematic_tstamps ts)
    (no_previous_tstamp ts) (timestamp_long_timestamp_found ts).

Definition set_msg_long_tstamp_incremented (v : Z) (ts : timestamp_t) : timestamp_t :=
  mk_timestamp (h ts) (l ts) (old ts) (searched_to_index ts)
    v (mark_problematic_tstamps ts)
    (no_previous_tstamp ts) (timestamp_long_timestamp_found ts).

Definition set_mark_problematic_tstamps (v : bool) (ts : timestamp_t) : timestamp_t :=
  mk_timestamp (h ts) (l ts) (old ts) (searched_to_index ts)
    (msg_long_tstamp_incremented ts) v
    (no_previous_tstamp ts) (timestamp_long_timestamp_found ts).

Definition set_no_previous_tstamp (v : bool) (ts : timestamp_t) : timestamp_t :=
  mk_timestamp (h ts) (l ts) (old ts) (searched_to_index ts)
    (msg_long_tstamp_incremented ts) (mark_problematic_tstamps ts)
    v (timestamp_long_timestamp_found ts).

Definition set_timestamp_long_timestamp_found (v : bool) (ts : timestamp_t)
    : timestamp_t :=
  mk_timestamp (h ts) (l ts) (old ts) (searched_to_index ts)
    (msg_long_tstamp_incremented ts) (mark_problematic_tstamps ts)
    (no_previous_tstamp ts) v.

Definition set_message_cnt (v : Z) (e : env) : env :=
  mk_env (max_positive_tstamp_diff e) (max_negative_tstamp_diff e)
    (long_timestamp_used e) (fmt_id_bits e) (fmt_id_shift e) (topmost_fmt_id e)
    (g_fmt e) (rte_buffer e) (in_size e) (index e) v (fmt_id e).

(** [g_fmt[fmt_id]] for [fmt_id < MAX_FMT_IDS]. *)
Definition fmt_at (g : list (option msg_data_t)) (i : Z) : option msg_data_t :=
  if i <? 0 then None else default None (g !! Z.to_nat i).

(** [fmt_id_valid]: the result and the new value of [*p_fmt_id]. *)
Definition fmt_id_valid (e : env) (p_fmt_id data_words : Z) : bool * Z :=
  if p_fmt_id =? 0xFFFFFFFF then (false, p_fmt_id)
  else
    let fmt_id := Z.shiftr p_fmt_id (fmt_id_shift e) in
    if fmt_id >=? MAX_FMT_IDS then (false, fmt_id)
    else
      match fmt_at (g_fmt e) fmt_id with
      | None => (false, fmt_id)
      | Some p_fmt =>
          let length := msg_len p_fmt / 4 in
          (match msg_type p_fmt with
           | TYPE_MSGX => true
           | TYPE_MSGN =>
               (length =? 0) || (data_words =? 4)
               || (Z.land data_words 3 =? Z.land length 3)
           | TYPE_EXT_MSG => wrap32 (length - 1) =? data_words
           | TYPE_MSG0_8 => length =? data_words
           end, fmt_id)
      end.

(** [small_tstamp_difference]: the result and the new values of
    [*tstamp_h_counter] and [*old_tstamp_l].  The difference is computed in
    64 bits from two unsigned 32-bit values, so it does not wrap.  The tests
    on the half period read [g_msg.timestamp.old], not [*old_tstamp_l]. *)
Definition small_tstamp_difference (e : env) (ts : timestamp_t)
    (tstamp_h_counter old_tstamp_l new_tstamp_l : Z) : bool * Z * Z :=
  let time_diff := new_tstamp_l - old_tstamp_l in
  if (time_diff >=? 0) && (time_diff <=? max_positive_tstamp_diff e) then
    (true, tstamp_h_counter, new_tstamp_l)
  else if (time_diff <? 0) && (time_diff >=? max_negative_tstamp_diff e) then
    (true, tstamp_h_counter, old_tstamp_l)
  else if (old ts >=? NORMALIZED_TSTAMP_PERIOD / 2)
          && (time_diff <=? - (NORMALIZED_TSTAMP_PERIOD - max_positive_tstamp_diff e))
  then (true, wrap32 (tstamp_h_counter + 1), new_tstamp_l)
  else if (old ts <? NORMALIZED_TSTAMP_PERIOD / 2)
          && (time_diff >=? NORMALIZED_TSTAMP_PERIOD + max_negative_tstamp_diff e)
  then (true, tstamp_h_counter, old_tstamp_l)
  else (false, tstamp_h_counter, old_tstamp_l).

(** The [for] loop of [long_timestamp_found]; every turn reads one word, so
    [in_size - index] turns are enough. *)
Fixpoint search_long_timestamp (fuel : nat) (e : env) (ts : timestamp_t)
    (index data data_words tstamp_h_counter old_timestamp_l : Z)
    : bool * timestamp_t :=
  match fuel with
  | O => (false, ts)
  | S fuel' =>
      if index <? in_size e then
        let previous_data := data in
        let data := word_at (rte_buffer e) index in
        let index := wrap32 (index + 1) in
        let ts := set_searched_to_index index ts in
        if Z.land data 1 =? 0 then
          let data_words := wrap32 (data_words + 1) in
          if data_words >? 4 then (false, ts)
          else search_long_timestamp fuel' e ts index data data_words
                 tstamp_h_counter old_timestamp_l
        else
          let '(valid, fmt_id) := fmt_id_valid e data data_words in
          if negb valid then
            search_long_timestamp fuel' e ts index data 0
              tstamp_h_counter old_timestamp_l
          else
            let new_timestamp_l :=
              wrap32 (Z.shiftl (Z.land data 0xFFFFFFFE) (fmt_id_bits e)) in
            if (fmt_id =? MSG1_SYS_STREAMING_MODE_LOGGING e) && (data_words =? 1)
            then (false, ts)
            else if (fmt_id =? MSG1_SYS_LONG_TIMESTAMP) && (data_words =? 1) then
              let timestamp_h :=
                Z.lor (Z.shiftr previous_data 1)
                      (Z.land (wrap32 (Z.shiftl data (fmt_id_bits e - 1)))
                              0x80000000) in
              if timestamp_h =? 0xFFFFFFFF then (false, ts)
              else if timestamp_h >=? tstamp_h_counter then
                let '(small, tstamp_h_counter, _) :=
                  small_tstamp_difference e ts tstamp_h_counter old_timestamp_l
                    new_timestamp_l in
                if negb small then (false, ts)
                else (true, set_h (wrap32 (timestamp_h - tstamp_h_counter)) ts)
              else (false, ts)
            else
              let '(small, tstamp_h_counter, old_timestamp_l) :=
                small_tstamp_difference e ts tstamp_h_counter old_timestamp_l
                  new_timestamp_l in
              if negb small then (false, ts)
              else search_long_timestamp fuel' e ts index data 0
                     tstamp_h_counter old_timestamp_l
      else (false, ts)
  end.

Definition long_timestamp_found (e : env) (ts : timestamp_t) : bool * timestamp_t :=
  if negb (long_timestamp_used e) then (false, ts)
  else if index e >=? in_size e then (false, ts)
  else
    search_long_timestamp (Z.to_nat (in_size e - index e)) e ts
      (index e) 0xFFFFFFFF 0 0 (l ts).

(** [((uint64_t)h << 32) | l]. *)
Definition timestamp_64 (h l : Z) : Z := Z.lor (Z.shiftl h 32) l.

(** [process_timestamp_value]: the new state and the new value of
    [*p_new_timestamp].  The chain of [if]s yields the state, the value of
    [*p_new_timestamp] and the two local flags. *)
Definition process_timestamp_value (e : env) (ts : timestamp_t)
    (p_new_timestamp : Z) : timestamp_t * Z :=
  let time_diff := l ts - old ts in
  let '(ts1, new_timestamp, search_next_long_tstamp, update_old_tstamp_value) :=
    if (time_diff >=? 0) && (time_diff <=? max_positive_tstamp_diff e) then
      (ts, p_new_timestamp, false, true)
    else if (time_diff <? 0) && (time_diff >=? max_negative_tstamp_diff e) then
      (ts, p_new_timestamp, false, false)
    else if (old ts >=? NORMALIZED_TSTAMP_PERIOD / 2)
            && (time_diff <=? - (NORMALIZED_TSTAMP_PERIOD - max_positive_tstamp_diff e))
            && negb (no_previous_tstamp ts)
    then
      let ts' :=
        if wrap32 (message_cnt e - msg_long_tstamp_incremented ts) >=? 4
        then set_h (wrap32 (h ts + 1))
               (set_msg_long_tstamp_incremented (message_cnt e) ts)
        else ts in
      (ts', timestamp_64 (h ts') (l ts'), false, true)
    else if (old ts <? NORMALIZED_TSTAMP_PERIOD / 2)
            && (time_diff >=? NORMALIZED_TSTAMP_PERIOD + max_negative_tstamp_diff e)
            && negb (no_previous_tstamp ts)
    then
      let stamp := if h ts >? 0 then h ts - 1 else 0 in
      (ts, timestamp_64 stamp (l ts), false, false)
    else
      (set_mark_problematic_tstamps (negb (no_previous_tstamp ts)) ts,
       p_new_timestamp, true, true) in
  let ts2 :=
    if update_old_tstamp_value || no_previous_tstamp ts1
    then set_old (l ts1) ts1 else ts1 in
  if (search_next_long_tstamp && (searched_to_index ts2 <? index e))
     || no_previous_tstamp ts2
  then
    let '(found, ts3) := long_timestamp_found e ts2 in
    if found then (set_old (l ts3) ts3, timestamp_64 (h ts3) (l ts3))
    else (ts3, new_timestamp)
  else (ts2, new_timestamp).

(** [prepare_timestamp_value]: the new state and the 64-bit timestamp of the
    message, from which [g_msg.timestamp.f] is computed. *)
Definition prepare_timestamp_value (e : env) (ts : timestamp_t) : timestamp_t * Z :=
  let new_timestamp := timestamp_64 (h ts) (l ts) in
  let '(ts1, new_timestamp) :=
    if fmt_id e =? MSG1_SYS_LONG_TIMESTAMP then
      (set_timestamp_long_timestamp_found true (set_old (l ts) ts), new_timestamp)
    else if negb (fmt_id e =? MSG1_SYS_STREAMING_MODE_LOGGING e) then
      process_timestamp_value e ts new_timestamp
    else (ts, new_timestamp) in
  (set_no_previous_tstamp false ts1, new_timestamp).

(** The assignments of [reset_statistics] to [g_msg.timestamp]. *)
Definition reset_statistics (ts : timestamp_t) : timestamp_t :=
  set_old 0
    (set_mark_problematic_tstamps false
       (set_no_previous_tstamp true (set_searched_to_index 0 ts))).

(** The timestamp of one message that is not a system message, as
    [process_message] handles it: [process_the_message_packet] has stored the
    low part in [g_msg.timestamp.l], the message is counted and
    [prepare_timestamp_value] is called. *)
Definition message_timestamp (e : env) (ts : timestamp_t) (tstamp_l : Z)
    : env * timestamp_t * Z :=
  let ts := set_l tstamp_l ts in
  let e := set_message_cnt (wrap32 (message_cnt e + 1)) e in
  let '(ts, new_timestamp) := prepare_timestamp_value e ts in
  (e, ts, new_timestamp).

(** ** The rows of the difference table *)

(** C2, as the code has it.  With a valid previous timestamp in the top half
    of the period and a difference of at most [-(PERIOD - max_positive)], the
    message is taken as a wrap-around of the low part: the old low part is
    updated, and the high part is incremented if at least four messages were
    counted since [msg_long_tstamp_incremented] and left as it is otherwise;
    the message gets the timestamp made of the resulting high part, and no
    search for a long timestamp is started. *)
Theorem wrap_around_increments_high_part (e : env) (ts : timestamp_t)
    (p_new_timestamp : Z) :
  no_previous_tstamp ts = false ->
  max_positive_tstamp_diff e - max_negative_tstamp_diff e < NORMALIZED_TSTAMP_PERIOD ->
  max_positive_tstamp_diff e < NORMALIZED_TSTAMP_PERIOD ->
  NORMALIZED_TSTAMP_PERIOD / 2 <= old ts ->
  l ts - old ts <= - (NORMALIZED_TSTAMP_PERIOD - max_positive_tstamp_diff e) ->
  let r := process_timestamp_value e ts p_new_timestamp in
  let since := wrap32 (message_cnt e - msg_long_tstamp_incremented ts) in
  old (fst r) = l ts /\
  (4 <= since ->
     h (fst r) = wrap32 (h ts + 1) /\
     msg_long_tstamp_incremented (fst r) = message_cnt e) /\
  (since < 4 ->
     h (fst r) = h ts /\
     msg_long_tstamp_incremented (fst r) = msg_long_tstamp_incremented ts) /\
  snd r = timestamp_64 (h (fst r)) (l ts) /\
  l (fst r) = l ts /\
  searched_to_index (fst r) = searched_to_index ts /\
  mark_problematic_tstamps (fst r) = mark_problematic_tstamps ts /\
  no_previous_tstamp (fst r) = false.
Proof.
  intros Hprev Hpar Hpos Hold Hdiff r since. subst r since.
  unfold process_timestamp_value.
  destruct ((l ts - old ts >=? 0) && (l ts - old ts <=? max_positive_tstamp_diff e))
    eqn:E1; [zbool; lia|].
  destruct ((l ts - old ts <? 0) && (l ts - old ts >=? max_negative_tstamp_diff e))
    eqn:E2; [zbool; lia|].
  assert (E3 : (old ts >=? NORMALIZED_TSTAMP_PERIOD / 2)
               && (l ts - old ts <=?
                   - (NORMALIZED_TSTAMP_PERIOD - max_positive_tstamp_diff e))
               && negb (no_previous_tstamp ts) = true).
  { rewrite Hprev. rewrite !andb_true_iff. split; [split|reflexivity].
    - apply Z.geb_le. exact Hold.
    - apply Z.leb_le. exact Hdiff. }
  rewrite E3. clear E1 E2 E3.
  destruct (wrap32 (message_cnt e - msg_long_tstamp_incremented ts) >=? 4) eqn:E4;
    zbool; cbn [orb andb]; cbn; rewrite ?Hprev; cbn;
    repeat split; intros; try reflexivity; try lia; try assumption.
Qed.

(** C8, as the code has it.  With a valid previous timestamp and a difference
    in [max_negative, 0), [process_timestamp_value] changes nothing: neither the
    old low part, nor the high part, nor any other field of the state, nor
    the timestamp of the message.  [small_tstamp_difference], which the
    search for a long timestamp uses, accepts such a difference and leaves
    its counter and its old low part as they are. *)
Theorem out_of_order_timestamp_changes_nothing (e : env) (ts : timestamp_t)
    (p_new_timestamp : Z) :
  no_previous_tstamp ts = false ->
  max_negative_tstamp_diff e <= l ts - old ts < 0 ->
  process_timestamp_value e ts p_new_timestamp = (ts, p_new_timestamp) /\
  forall tstamp_h_counter old_tstamp_l new_tstamp_l,
    max_negative_tstamp_diff e <= new_tstamp_l - old_tstamp_l < 0 ->
    small_tstamp_difference e ts tstamp_h_counter old_tstamp_l new_tstamp_l
    = (true, tstamp_h_counter, old_tstamp_l).
Proof.
  intros Hprev Hdiff. split.
  - unfold process_timestamp_value.
    destruct ((l ts - old ts >=? 0) && (l ts - old ts <=? max_positive_tstamp_diff e))
      eqn:E1; [zbool; lia|].
    assert (E2 : (l ts - old ts <? 0)
                 && (l ts - old ts >=? max_negative_tstamp_diff e) = true).
    { apply andb_true_iff. split; [apply Z.ltb_lt | apply Z.geb_le]; lia. }
    rewrite E2, Hprev. cbn [orb andb]. rewrite Hprev. reflexivity.
  - intros c o n Hd. unfold small_tstamp_difference.
    destruct ((n - o >=? 0) && (n - o <=? max_positive_tstamp_diff e))
      eqn:E1; [zbool; lia|].
    assert (E2 : (n - o <? 0) && (n - o >=? max_negative_tstamp_diff e) = true).
    { apply andb_true_iff. split; [apply Z.ltb_lt | apply Z.geb_le]; lia. }
    rewrite E2. reflexivity.
Qed.

(** The default limits of the command line, a firmware without long
    timestamps and nine bits of format ID; [message_cnt] messages have been
    counted. *)
Definition example_env (message_cnt : Z) : env :=
  mk_env 1417339207 (-429496729) false 9 23 510 [] [] 0 0 message_cnt 16.

(** The second of the two low parts [0xFFFF0000], [0x00010000], as message
    number 11 with the high part at 7. *)
Definition second_of_two : timestamp_t :=
  mk_timestamp 7 0x00010000 0xFFFF0000 0 0 false false false.

Lemma wrap_at_message_11_increments_once :
  let r := process_timestamp_value (example_env 11) second_of_two 0 in
  h (fst r) = 8 /\ old (fst r) = 0x00010000 /\ snd r = 0x800010000.
Proof.
  destruct (wrap_around_increments_high_part (example_env 11) second_of_two 0)
    as (Hold & Hinc & _ & Hnew & _).
  - reflexivity.
  - reflexivity.
  - reflexivity.
  - vm_compute. congruence.
  - vm_compute. congruence.
  - destruct Hinc as [Hh _]; [vm_compute; congruence|].
    split; [exact Hh|]. split; [exact Hold|]. rewrite Hnew, Hh. reflexivity.
Defined.

(** The two messages as numbers 10 and 11 of a stream: the first leaves the
    high part at 7, the second increments it. *)
Example two_messages_after_nine_others :
  let ts := mk_timestamp 7 0 0xFFF00000 0 0 false false false in
  let '(e1, ts1, _) := message_timestamp (example_env 9) ts 0xFFFF0000 in
  let '(e2, ts2, _) := message_timestamp e1 ts1 0x00010000 in
  h ts1 = 7 /\ h ts2 = 8 /\ msg_long_tstamp_incremented ts2 = 11.
Proof. vm_compute. repeat split. Qed.

(** The same two messages as the first two of a stream: the wrap-around is
    recognised in message 2, but fewer than four messages were counted and
    the high part stays at 0. *)
Lemma wrap_at_message_2_is_not_counted :
  let ts := reset_statistics (mk_timestamp 0 0 0 0 0 false false false) in
  let '(e1, ts1, _) := message_timestamp (example_env 0) ts 0xFFFF0000 in
  let '(e2, ts2, new_timestamp) := message_timestamp e1 ts1 0x00010000 in
  no_previous_tstamp ts1 = false /\
  NORMALIZED_TSTAMP_PERIOD / 2 <= old ts1 /\
  0x00010000 - old ts1
  <= - (NORMALIZED_TSTAMP_PERIOD - max_positive_tstamp_diff e1) /\
  message_cnt e2 = 2 /\
  h ts1 = 0 /\ h ts2 = 0 /\ old ts2 = 0x00010000 /\ new_timestamp = 0x00010000.
Proof. vm_compute. repeat split; congruence. Qed.

(** A message three ticks of [0x10000] behind its predecessor. *)
Definition delayed_message : timestamp_t :=
  mk_timestamp 7 0x1FFD0000 0x20000000 0 0 false false false.

Lemma delayed_message_keeps_old :
  process_timestamp_value (example_env 11) delayed_message 0x71FFD0000
  = (delayed_message, 0x71FFD0000).
Proof.
  destruct (out_of_order_timestamp_changes_nothing (example_env 11)
              delayed_message 0x71FFD0000) as [H _].
  - reflexivity.
  - vm_compute. split; congruence.
  - exact H.
Defined.

(** The same message after a message with decoding errors, for which
    [print_message] has set [no_previous_tstamp]: the old low part is
    replaced by the new one. *)
Lemma delayed_message_after_error_replaces_old :
  let ts := set_no_previous_tstamp true delayed_message in
  let r := process_timestamp_value (example_env 11) ts 0x71FFD0000 in
  max_negative_tstamp_diff (example_env 11) <= l ts - old ts < 0 /\
  old ts = 0x20000000 /\ old (fst r) = 0x1FFD0000.
Proof. vm_compute. repeat split; congruence. Qed.

(** *** The search for a long timestamp *)

(** What a search may change: [timestamp.searched_to_index] and
    [timestamp.h]. *)
Definition only_search_fields (ts ts' : timestamp_t) : Prop :=
  l ts' = l ts /\ old ts' = old ts /\
  msg_long_tstamp_incremented ts' = msg_long_tstamp_incremented ts /\
  mark_problematic_tstamps ts' = mark_problematic_tstamps ts /\
  no_previous_tstamp ts' = no_previous_tstamp ts /\
  timestamp_long_timestamp_found ts' = timestamp_long_timestamp_found ts.

Lemma only_search_fields_refl ts : only_search_fields ts ts.
Proof. repeat split. Qed.

Lemma small_tstamp_difference_searched e ts s c o n :
  small_tstamp_difference e (set_searched_to_index s ts) c o n
  = small_tstamp_difference e ts c o n.
Proof. reflexivity. Qed.

Lemma search_long_timestamp_frame e fuel :
  forall ts index data data_words counter old_l,
    0 <= index -> in_size e < 2 ^ 32 ->
    let r := search_long_timestamp fuel e ts index data data_words counter old_l in
    only_search_fields ts (snd r) /\
    (fst r = false -> h (snd r) = h ts) /\
    (searched_to_index (snd r) = searched_to_index ts \/
     index < searched_to_index (snd r) <= in_size e) /\
    ((0 < fuel)%nat -> index < in_size e ->
     index < searched_to_index (snd r) <= in_size e).
Proof.
  induction fuel as [|fuel IH]; intros ts index data dw counter old_l Hidx Hsize r;
    subst r.
  - simpl. split; [apply only_search_fields_refl|]. split; [reflexivity|].
    split; [left; reflexivity | intros; lia].
  - cbn [search_long_timestamp].
    destruct (index <? in_size e) eqn:E; zbool.
    2:{ simpl. split; [apply only_search_fields_refl|]. split; [reflexivity|].
        split; [left; reflexivity | intros; lia]. }
    rewrite (wrap32_small (index + 1)) by lia.
    set (ts1 := set_searched_to_index (index + 1) ts).
    assert (Hdone : forall b,
              only_search_fields ts (snd (b, ts1)) /\
              (fst (b, ts1) = false -> h (snd (b, ts1)) = h ts) /\
              (searched_to_index (snd (b, ts1)) = searched_to_index ts \/
               index < searched_to_index (snd (b, ts1)) <= in_size e) /\
              ((0 < S fuel)%nat -> index < in_size e ->
               index < searched_to_index (snd (b, ts1)) <= in_size e)).
    { intros b. cbn. repeat split; lia. }
    assert (Hrec : forall d w c o,
              let r := search_long_timestamp fuel e ts1 (index + 1) d w c o in
              only_search_fields ts (snd r) /\
              (fst r = false -> h (snd r) = h ts) /\
              (searched_to_index (snd r) = searched_to_index ts \/
               index < searched_to_index (snd r) <= in_size e) /\
              ((0 < S fuel)%nat -> index < in_size e ->
               index < searched_to_index (snd r) <= in_size e)).
    { intros d w c o r.
      destruct (IH ts1 (index + 1) d w c o ltac:(lia) Hsize) as (F & H1 & H2 & _).
      fold r in F, H1, H2.
      change (searched_to_index ts1) with (index + 1) in H2.
      destruct F as (F1 & F2 & F3 & F4 & F5 & F6).
      split; [repeat split; assumption|]. split; [exact H1|].
      assert (index < searched_to_index (snd r) <= in_size e)
        by (destruct H2 as [-> | ?]; lia).
      split; [right; assumption | intros; assumption]. }
    destruct (Z.land (word_at (rte_buffer e) index) 1 =? 0).
    { destruct (wrap32 (dw + 1) >? 4); [apply Hdone | apply Hrec]. }
    destruct (fmt_id_valid e (word_at (rte_buffer e) index) dw) as [valid fid].
    destruct valid; cbn [negb]; [|apply Hrec].
    destruct ((fid =? MSG1_SYS_STREAMING_MODE_LOGGING e) && (dw =? 1));
      [apply Hdone|].
    destruct ((fid =? MSG1_SYS_LONG_TIMESTAMP) && (dw =? 1)).
    + destruct (_ =? 4294967295); [apply Hdone|].
      destruct (_ >=? counter); [|apply Hdone].
      destruct (small_tstamp_difference e ts1 counter old_l _) as [[small c'] o'].
      destruct small; cbn [negb]; [|apply Hdone].
      cbn. repeat split; try lia; discriminate.
    + destruct (small_tstamp_difference e ts1 counter old_l _) as [[small c'] o'].
      destruct small; cbn [negb]; [apply Hrec | apply Hdone].
Qed.

(** What [long_timestamp_found] changes, for the proofs below. *)
Lemma long_timestamp_found_frame (e : env) (ts : timestamp_t) :
  0 <= index e -> in_size e < 2 ^ 32 ->
  let r := long_timestamp_found e ts in
  only_search_fields ts (snd r) /\
  (fst r = false -> h (snd r) = h ts) /\
  (long_timestamp_used e = false \/ in_size e <= index e -> r = (false, ts)) /\
  (long_timestamp_used e = true -> index e < in_size e ->
   index e < searched_to_index (snd r) <= in_size e).
Proof.
  intros Hidx Hsize r. subst r. unfold long_timestamp_found.
  destruct (long_timestamp_used e) eqn:Eu; cbn [negb].
  2:{ split; [apply only_search_fields_refl|]. split; [reflexivity|].
      split; [reflexivity | discriminate]. }
  destruct (index e >=? in_size e) eqn:E; zbool.
  { split; [apply only_search_fields_refl|]. split; [reflexivity|].
    split; [reflexivity | intros; lia]. }
  destruct (search_long_timestamp_frame e (Z.to_nat (in_size e - index e)) ts
              (index e) 4294967295 0 0 (l ts) Hidx Hsize) as (F & H1 & _ & H3).
  split; [exact F|]. split; [exact H1|]. split.
  - intros [H | H]; [discriminate | lia].
  - intros _ _. apply H3; lia.
Qed.

(** X17. [long_timestamp_found] changes nothing but
    [timestamp.searched_to_index] and [timestamp.h], and [timestamp.h] only
    when it answers true.  Without long timestamps in the firmware, or with
    [g_msg.index] at the end of the buffer, it changes nothing and answers
    false; otherwise [searched_to_index] ends behind [g_msg.index] and within
    the buffer. *)
Theorem long_timestamp_search_frame (e : env) (ts : timestamp_t) :
  0 <= index e -> in_size e < 2 ^ 32 ->
  let r := long_timestamp_found e ts in
  only_search_fields ts (snd r) /\
  (fst r = false -> h (snd r) = h ts) /\
  (long_timestamp_used e = false \/ in_size e <= index e -> r = (false, ts)) /\
  (long_timestamp_used e = true -> index e < in_size e ->
   index e < searched_to_index (snd r) <= in_size e).
Proof.
  intros Hidx Hsize r. subst r. unfold long_timestamp_found.
  destruct (long_timestamp_used e) eqn:Eu; cbn [negb].
  2:{ split; [apply only_search_fields_refl|]. split; [reflexivity|].
      split; [reflexivity | discriminate]. }
  destruct (index e >=? in_size e) eqn:E; zbool.
  { split; [apply only_search_fields_refl|]. split; [reflexivity|].
    split; [reflexivity | intros; lia]. }
  destruct (search_long_timestamp_frame e (Z.to_nat (in_size e - index e)) ts
              (index e) 4294967295 0 0 (l ts) Hidx Hsize) as (F & H1 & _ & H3).
  split; [exact F|]. split; [exact H1|]. split.
  - intros [H | H]; [discriminate | lia].
  - intros _ _. apply H3; lia.
Qed.

(** A buffer of nine-bit format IDs holding one LONG_TIMESTAMP message: the
    DATA word [7 << 1] and the FMT word of format ID 0. *)
Definition long_timestamp_env : env :=
  mk_env 1417339207 (-429496729) true 9 23 510
    [Some (mk_msg_data TYPE_MSG0_8 4)] [0x0000000E; 0x00000201] 2 0 1 16.

Lemma long_timestamp_search_frame_example :
  let ts := mk_timestamp 0 0x30000 0x30000 0 0 false true false in
  let r := long_timestamp_found long_timestamp_env ts in
  fst r = true /\ h (snd r) = 7 /\ searched_to_index (snd r) = 2 /\
  l (snd r) = 0x30000 /\ old (snd r) = 0x30000.
Proof.
  intros ts r.
  destruct (long_timestamp_search_frame long_timestamp_env ts)
    as ((F1 & F2 & _) & _ & _ & Hs); [simpl; lia | simpl; lia |].
  fold r in F1, F2, Hs.
  split; [reflexivity|]. split; [reflexivity|].
  split; [|split; [exact F1 | exact F2]].
  specialize (Hs eq_refl ltac:(simpl; lia)).
  change (index long_timestamp_env) with 0 in Hs.
  change (in_size long_timestamp_env) with 2 in Hs.
  assert (Hne : searched_to_index (snd r) <> 1) by (vm_compute; discriminate).
  lia.
Defined.

(** *** The timestamp of a message *)

Lemma timestamp_64_add hh x :
  0 <= x < 2 ^ 32 -> timestamp_64 hh x = hh * 2 ^ 32 + x.
Proof.
  intros Hx. unfold timestamp_64.
  pose proof (Z.add_lor_land (Z.shiftl hh 32) x) as Hadd.
  assert (Hland : Z.land (Z.shiftl hh 32) x = 0).
  { rewrite <- (Z.mod_small x (2 ^ 32)) by lia.
    rewrite <- (Z.land_ones x 32) by lia.
    rewrite (Z.land_comm x), Z.land_assoc, Z.land_ones by lia.
    rewrite Z.shiftl_mul_pow2 by lia. rewrite Z_mod_mult. reflexivity. }
  rewrite Hland in Hadd. rewrite Z.shiftl_mul_pow2 in Hadd |- * by lia. lia.
Qed.

Lemma timestamp_64_low hh x : 0 <= x < 2 ^ 32 -> timestamp_64 hh x mod 2 ^ 32 = x.
Proof.
  intros Hx. rewrite timestamp_64_add by exact Hx.
  rewrite Z.add_comm, Z_mod_plus_full. apply Z.mod_small. exact Hx.
Qed.

Lemma process_timestamp_value_low_part e ts nt :
  0 <= index e -> in_size e < 2 ^ 32 ->
  let r := process_timestamp_value e ts nt in
  l (fst r) = l ts /\
  no_previous_tstamp (fst r) = no_previous_tstamp ts /\
  timestamp_long_timestamp_found (fst r) = timestamp_long_timestamp_found ts /\
  (old (fst r) = old ts \/ old (fst r) = l ts) /\
  (snd r = nt \/ exists hh, snd r = timestamp_64 hh (l ts)).
Proof.
  intros Hidx Hsize r. subst r. unfold process_timestamp_value.
  set (chain := if (l ts - old ts >=? 0) && _ then _ else _).
  assert (Hchain :
    let '(ts1, new1, search, update) := chain in
    l ts1 = l ts /\ old ts1 = old ts /\
    no_previous_tstamp ts1 = no_previous_tstamp ts /\
    timestamp_long_timestamp_found ts1 = timestamp_long_timestamp_found ts /\
    (new1 = nt \/ exists hh, new1 = timestamp_64 hh (l ts))).
  { subst chain.
    destruct (_ && _); [repeat split; left; reflexivity|].
    destruct (_ && _); [repeat split; left; reflexivity|].
    destruct (_ && _ && _).
    { destruct (_ >=? 4); cbn; repeat split; right; eexists; reflexivity. }
    destruct (_ && _ && _); [cbn; repeat split; right; eexists; reflexivity|].
    cbn. repeat split. left. reflexivity. }
  destruct chain as [[[ts1 new1] search] update].
  destruct Hchain as (C1 & C2 & C3 & C4 & C5).
  set (ts2 := if update || no_previous_tstamp ts1 then set_old (l ts1) ts1 else ts1).
  assert (H2 : l ts2 = l ts /\ (old ts2 = old ts \/ old ts2 = l ts) /\
               no_previous_tstamp ts2 = no_previous_tstamp ts /\
               timestamp_long_timestamp_found ts2 = timestamp_long_timestamp_found ts).
  { subst ts2. destruct (update || no_previous_tstamp ts1); cbn;
      repeat split; try assumption; [right; assumption | left; assumption]. }
  destruct H2 as (D1 & D2 & D3 & D4).
  destruct (search && (searched_to_index ts2 <? index e) || no_previous_tstamp ts2).
  2:{ cbn [fst snd]. repeat split; assumption. }
  destruct (long_timestamp_found_frame e ts2 Hidx Hsize)
    as ((F1 & F2 & _ & _ & F5 & F6) & _).
  destruct (long_timestamp_found e ts2) as [found ts3]. cbn [fst snd] in *.
  destruct found; cbn [fst snd old l set_old no_previous_tstamp
                         timestamp_long_timestamp_found].
  - split; [congruence|]. split; [congruence|]. split; [congruence|].
    split; [right; congruence|]. right. exists (h ts3). congruence.
  - split; [congruence|]. split; [congruence|]. split; [congruence|].
    split; [|exact C5]. destruct D2; [left | right]; congruence.
Qed.

(** X18. Whatever [prepare_timestamp_value] decides, the 64-bit
    timestamp of the message keeps the low part of the message in its low 32
    bits; the low part itself is not changed, [no_previous_tstamp] is cleared,
    and [timestamp.old] is either kept or set to the low part. *)
Theorem prepared_timestamp_keeps_low_part (e : env) (ts : timestamp_t) :
  0 <= l ts < 2 ^ 32 -> 0 <= index e -> in_size e < 2 ^ 32 ->
  let r := prepare_timestamp_value e ts in
  snd r mod 2 ^ 32 = l ts /\
  l (fst r) = l ts /\
  no_previous_tstamp (fst r) = false /\
  (old (fst r) = old ts \/ old (fst r) = l ts).
Proof.
  intros Hl Hidx Hsize r. subst r. unfold prepare_timestamp_value.
  destruct (fmt_id e =? MSG1_SYS_LONG_TIMESTAMP).
  { cbn. split; [apply timestamp_64_low; exact Hl|]. repeat split. right. reflexivity. }
  destruct (negb (fmt_id e =? MSG1_SYS_STREAMING_MODE_LOGGING e)).
  2:{ cbn. split; [apply timestamp_64_low; exact Hl|]. repeat split. left. reflexivity. }
  destruct (process_timestamp_value_low_part e ts (timestamp_64 (h ts) (l ts))
              Hidx Hsize) as (P1 & _ & _ & P4 & P5).
  destruct (process_timestamp_value e ts (timestamp_64 (h ts) (l ts))) as [ts1 new1].
  cbn [fst snd] in *. cbn.
  split; [|split; [exact P1 | split; [reflexivity | exact P4]]].
  destruct P5 as [-> | [hh ->]]; apply timestamp_64_low; exact Hl.
Qed.

Lemma prepared_timestamp_keeps_low_part_example :
  let r := prepare_timestamp_value (example_env 11) second_of_two in
  snd r = 0x800010000 /\ snd r mod 2 ^ 32 = 0x00010000.
Proof.
  intros r.
  destruct (prepared_timestamp_keeps_low_part (example_env 11) second_of_two)
    as (Hlow & _); [simpl; lia | simpl; lia | simpl; lia |].
  fold r in Hlow. split; [reflexivity | exact Hlow].
Defined.

(** X19. For a message that is not a system message, with a valid
    previous timestamp: when the low part is ahead of the old one by at most
    [max_positive], or has wrapped around and the high part is incremented,
    the 64-bit timestamp of the message lies ahead of the previous one
    ([h], [old]) by exactly the distance of the low parts modulo [2 ^ 32],
    which is at most [max_positive]. *)
Theorem timestamp_advances_by_tick_distance (e : env) (ts : timestamp_t) :
  fmt_id e <> MSG1_SYS_LONG_TIMESTAMP ->
  fmt_id e <> MSG1_SYS_STREAMING_MODE_LOGGING e ->
  no_previous_tstamp ts = false ->
  0 <= l ts < 2 ^ 32 -> 0 <= old ts < 2 ^ 32 -> 0 <= h ts < 2 ^ 32 - 1 ->
  max_positive_tstamp_diff e - max_negative_tstamp_diff e < NORMALIZED_TSTAMP_PERIOD ->
  max_positive_tstamp_diff e < NORMALIZED_TSTAMP_PERIOD ->
  0 <= l ts - old ts <= max_positive_tstamp_diff e \/
  (NORMALIZED_TSTAMP_PERIOD / 2 <= old ts /\
   l ts - old ts <= - (NORMALIZED_TSTAMP_PERIOD - max_positive_tstamp_diff e) /\
   4 <= wrap32 (message_cnt e - msg_long_tstamp_incremented ts)) ->
  let r := prepare_timestamp_value e ts in
  snd r - timestamp_64 (h ts) (old ts) = (l ts - old ts) mod 2 ^ 32 /\
  0 <= snd r - timestamp_64 (h ts) (old ts) <= max_positive_tstamp_diff e /\
  old (fst r) = l ts.
Proof.
  intros Hlong Hstream Hprev Hl Hold Hh Hpar Hpos Hrow r. subst r.
  unfold prepare_timestamp_value.
  destruct (fmt_id e =? MSG1_SYS_LONG_TIMESTAMP) eqn:E1; zbool; [contradiction|].
  destruct (fmt_id e =? MSG1_SYS_STREAMING_MODE_LOGGING e) eqn:E2; zbool;
    [contradiction|].
  cbn [negb]. unfold process_timestamp_value.
  unfold NORMALIZED_TSTAMP_PERIOD in *.
  destruct Hrow as [Hrow | (Hhalf & Hdiff & Hsince)].
  - assert (E : (l ts - old ts >=? 0)
                && (l ts - old ts <=? max_positive_tstamp_diff e) = true).
    { apply andb_true_iff. split; [apply Z.geb_le | apply Z.leb_le]; lia. }
    rewrite E. cbn [orb andb no_previous_tstamp set_old]. rewrite Hprev.
    cbn [fst snd old set_old l h set_no_previous_tstamp].
    rewrite !timestamp_64_add by lia.
    rewrite (Z.mod_small (l ts - old ts)) by lia. lia.
  - destruct ((l ts - old ts >=? 0) && (l ts - old ts <=? max_positive_tstamp_diff e))
      eqn:E3; [zbool; lia|].
    destruct ((l ts - old ts <? 0) && (l ts - old ts >=? max_negative_tstamp_diff e))
      eqn:E4; [zbool; lia|].
    assert (E5 : (old ts >=? 4294967296 / 2)
                 && (l ts - old ts <=? - (4294967296 - max_positive_tstamp_diff e))
                 && negb (no_previous_tstamp ts) = true).
    { rewrite Hprev. rewrite !andb_true_iff. split; [split|reflexivity].
      - apply Z.geb_le. exact Hhalf.
      - apply Z.leb_le. exact Hdiff. }
    rewrite E5.
    assert (E6 : (wrap32 (message_cnt e - msg_long_tstamp_incremented ts) >=? 4) = true)
      by (apply Z.geb_le; lia).
    rewrite E6.
    cbn [orb andb no_previous_tstamp set_old set_h set_msg_long_tstamp_incremented].
    rewrite Hprev.
    cbn [fst snd old set_old l h set_no_previous_tstamp set_h
         set_msg_long_tstamp_incremented].
    rewrite (wrap32_small (h ts + 1)) by lia.
    rewrite !timestamp_64_add by lia.
    replace ((l ts - old ts) mod 2 ^ 32) with (l ts - old ts + 2 ^ 32).
    + lia.
    + symmetry. rewrite <- (Z_mod_plus_full _ 1). apply Z.mod_small. lia.
Qed.

Lemma timestamp_advances_by_tick_distance_example :
  let r := prepare_timestamp_value (example_env 11) second_of_two in
  snd r - timestamp_64 7 0xFFFF0000 = 0x20000.
Proof.
  intros r.
  destruct (timestamp_advances_by_tick_distance (example_env 11) second_of_two)
    as (Hd & _).
  - vm_compute. discriminate.
  - vm_compute. discriminate.
  - reflexivity.
  - simpl. lia.
  - simpl. lia.
  - simpl. lia.
  - reflexivity.
  - reflexivity.
  - right. split; [vm_compute; discriminate|]. split; vm_compute; discriminate.
  - fold r in Hd. exact Hd.
Defined.

(** X20. With a valid previous timestamp in the bottom half of the
    period and a low part ahead of it by at least [PERIOD + max_negative],
    the message is taken as a late one of the previous period: it gets the
    high part [h - 1], or 0 when [h] is 0, and the state stays as it is. *)
Theorem late_message_uses_previous_period (e : env) (ts : timestamp_t)
    (p_new_timestamp : Z) :
  no_previous_tstamp ts = false ->
  max_positive_tstamp_diff e - max_negative_tstamp_diff e < NORMALIZED_TSTAMP_PERIOD ->
  - NORMALIZED_TSTAMP_PERIOD < max_negative_tstamp_diff e ->
  old ts < NORMALIZED_TSTAMP_PERIOD / 2 ->
  NORMALIZED_TSTAMP_PERIOD + max_negative_tstamp_diff e <= l ts - old ts ->
  process_timestamp_value e ts p_new_timestamp
  = (ts, timestamp_64 (if h ts >? 0 then h ts - 1 else 0) (l ts)).
Proof.
  intros Hprev Hpar Hneg Hhalf Hdiff. unfold process_timestamp_value.
  unfold NORMALIZED_TSTAMP_PERIOD in *.
  destruct ((l ts - old ts >=? 0) && (l ts - old ts <=? max_positive_tstamp_diff e))
    eqn:E1; [zbool; lia|].
  destruct ((l ts - old ts <? 0) && (l ts - old ts >=? max_negative_tstamp_diff e))
    eqn:E2; [zbool; lia|].
  destruct ((old ts >=? 4294967296 / 2)
            && (l ts - old ts <=? - (4294967296 - max_positive_tstamp_diff e))
            && negb (no_previous_tstamp ts)) eqn:E3; [zbool; lia|].
  assert (E4 : (old ts <? 4294967296 / 2)
               && (l ts - old ts >=? 4294967296 + max_negative_tstamp_diff e)
               && negb (no_previous_tstamp ts) = true).
  { rewrite Hprev. rewrite !andb_true_iff. split; [split|reflexivity].
    - apply Z.ltb_lt. exact Hhalf.
    - apply Z.geb_le. exact Hdiff. }
  rewrite E4. cbn [orb andb]. rewrite Hprev. cbn [orb andb]. rewrite Hprev.
  reflexivity.
Qed.

Lemma late_message_uses_previous_period_example :
  let ts := mk_timestamp 0 0xFFFF0000 0x00010000 0 0 false false false in
  process_timestamp_value (example_env 11) ts 0xFFFF0000 = (ts, 0xFFFF0000).
Proof.
  intros ts.
  rewrite (late_message_uses_previous_period (example_env 11) ts 0xFFFF0000).
  - reflexivity.
  - reflexivity.
  - reflexivity.
  - reflexivity.
  - reflexivity.
  - vm_compute. discriminate.
Defined.

(** The difference fits none of the four rows that accept a message. *)
Definition timestamp_gap (e : env) (ts : timestamp_t) : Prop :=
  let time_diff := l ts - old ts in
  ~ (0 <= time_diff <= max_positive_tstamp_diff e) /\
  ~ (max_negative_tstamp_diff e <= time_diff < 0) /\
  ~ (NORMALIZED_TSTAMP_PERIOD / 2 <= old ts /\
     time_diff <= - (NORMALIZED_TSTAMP_PERIOD - max_positive_tstamp_diff e)) /\
  ~ (old ts < NORMALIZED_TSTAMP_PERIOD / 2 /\
     NORMALIZED_TSTAMP_PERIOD + max_negative_tstamp_diff e <= time_diff).

(** X21. With a valid previous timestamp and a difference that fits none
    of the accepting rows, the message is marked as problematic and
    [timestamp.old] takes its low part.  A long timestamp is searched for
    only from where the last search ended; without long timestamps in the
    firmware, or when the buffer has been searched up to [g_msg.index], the
    high part and the timestamp of the message stay as they are. *)
Theorem timestamp_gap_marks_message (e : env) (ts : timestamp_t)
    (p_new_timestamp : Z) :
  0 <= index e -> in_size e < 2 ^ 32 ->
  no_previous_tstamp ts = false ->
  timestamp_gap e ts ->
  let r := process_timestamp_value e ts p_new_timestamp in
  mark_problematic_tstamps (fst r) = true /\
  old (fst r) = l ts /\
  (long_timestamp_used e = false \/ index e <= searched_to_index ts ->
   r = (set_old (l ts) (set_mark_problematic_tstamps true ts), p_new_timestamp)).
Proof.
  intros Hidx Hsize Hprev (G1 & G2 & G3 & G4) r. subst r.
  unfold process_timestamp_value.
  destruct ((l ts - old ts >=? 0) && (l ts - old ts <=? max_positive_tstamp_diff e))
    eqn:E1; [zbool; lia|].
  destruct ((l ts - old ts <? 0) && (l ts - old ts >=? max_negative_tstamp_diff e))
    eqn:E2; [zbool; lia|].
  destruct ((old ts >=? NORMALIZED_TSTAMP_PERIOD / 2)
            && (l ts - old ts
                <=? - (NORMALIZED_TSTAMP_PERIOD - max_positive_tstamp_diff e))
            && negb (no_previous_tstamp ts)) eqn:E3; [zbool; lia|].
  destruct ((old ts <? NORMALIZED_TSTAMP_PERIOD / 2)
            && (l ts - old ts
                >=? NORMALIZED_TSTAMP_PERIOD + max_negative_tstamp_diff e)
            && negb (no_previous_tstamp ts)) eqn:E4; [zbool; lia|].
  rewrite Hprev. cbn [negb orb andb].
  set (ts2 := set_old _ (set_mark_problematic_tstamps true ts)).
  change (no_previous_tstamp ts2) with (no_previous_tstamp ts). rewrite Hprev.
  rewrite orb_false_r.
  change (searched_to_index ts2) with (searched_to_index ts).
  destruct (searched_to_index ts <? index e) eqn:Es; zbool.
  2:{ cbn. split; [reflexivity|]. split; reflexivity. }
  destruct (long_timestamp_found_frame e ts2 Hidx Hsize)
    as ((F1 & F2 & _ & F4 & _) & _ & Hno & _).
  destruct (long_timestamp_found e ts2) as [found ts3] eqn:Ef. cbn [fst snd] in *.
  assert (Hm : mark_problematic_tstamps ts3 = true) by (rewrite F4; reflexivity).
  assert (Ho : old ts3 = l ts) by (rewrite F2; reflexivity).
  destruct found; cbn [fst snd old l set_old mark_problematic_tstamps].
  - split; [exact Hm|]. split; [rewrite F1; reflexivity|].
    intros [Hu | Hs]; [|lia]. specialize (Hno (or_introl Hu)). discriminate.
  - split; [exact Hm|]. split; [exact Ho|].
    intros [Hu | Hs]; [|lia]. specialize (Hno (or_introl Hu)).
    injection Hno as <-. reflexivity.
Qed.

Lemma timestamp_gap_marks_message_example :
  let ts := mk_timestamp 7 0x80000000 0x10000000 0 0 false false false in
  process_timestamp_value (example_env 11) ts 0x780000000
  = (mk_timestamp 7 0x80000000 0x80000000 0 0 true false false, 0x780000000).
Proof.
  intros ts.
  destruct (timestamp_gap_marks_message (example_env 11) ts 0x780000000)
    as (_ & _ & H).
  - simpl. lia.
  - simpl. lia.
  - reflexivity.
  - unfold timestamp_gap. cbn. unfold NORMALIZED_TSTAMP_PERIOD.
    repeat split; lia.
  - rewrite H; [reflexivity | left; reflexivity].
Defined.

End Timestamps.

(** ** process_bin_data.c: reassembly of the messages *)

Module Reassembler.

Import Timestamps (msg_data_t, msg_type, msg_len, fmt_at).

Inductive asm_msg_t :=
  | FMT_WORD_OK | NO_DATA_FOUND | DATA_FOUND | BAD_BLOCK | UNFINISHED_BLOCK
  | MESSAGE_TOO_LONG | END_OF_BUFFER.

Definition asm_msg_eqb (a b : asm_msg_t) : bool :=
  match a, b with
  | FMT_WORD_OK, FMT_WORD_OK | NO_DATA_FOUND, NO_DATA_FOUND
  | DATA_FOUND, DATA_FOUND | BAD_BLOCK, BAD_BLOCK
  | UNFINISHED_BLOCK, UNFINISHED_BLOCK | MESSAGE_TOO_LONG, MESSAGE_TOO_LONG
  | END_OF_BUFFER, END_OF_BUFFER => true
  | _, _ => false
  end.

(** What the reassembler only reads: the loaded buffer, [g_msg.hdr_data] and
    [g_fmt]. *)
Record input := mk_input {
  rte_buffer : list Z;
  in_size : Z;
  fmt_id_bits : Z;
  fmt_id_shift : Z;
  timestamp_and_index_mask : Z;
  max_msg_blocks : Z;
  g_fmt : list (option msg_data_t)
}.

(** The fields of [g_msg] the reassembler writes. *)
Record state := mk_state {
  index : Z;
  asm_words : Z;
  fmt_id : Z;
  timestamp_l : Z;
  additional_data : Z;
  bad_packet_words : Z;
  unfinished_words : Z;
  raw_data : list Z;
  assembled_msg : list Z;
  binary_file_decoding_finished : bool
}.

Definition set_index (v : Z) (st : state) : state :=
  mk_state v (asm_words st) (fmt_id st) (timestamp_l st) (additional_data st)
    (bad_packet_words st) (unfinished_words st) (raw_data st) (assembled_msg st)
    (binary_file_decoding_finished st).

Definition set_asm_words (v : Z) (st : state) : state :=
  mk_state (index st) v (fmt_id st) (timestamp_l st) (additional_data st)
    (bad_packet_words st) (unfinished_words st) (raw_data st) (assembled_msg st)
    (binary_file_decoding_finished st).

Definition set_fmt_id (v : Z) (st : state) : state :=
  mk_state (index st) (asm_words st) v (timestamp_l st) (additional_data st)
    (bad_packet_words st) (unfinished_words st) (raw_data st) (assembled_msg st)
    (binary_file_decoding_finished st).

Definition set_timestamp_l (v : Z) (st : state) : state :=
  mk_state (index st) (asm_words st) (fmt_id st) v (additional_data st)
    (bad_packet_words st) (unfinished_words st) (raw_data st) (assembled_msg st)
    (binary_file_decoding_finished st).

Definition set_additional_data (v : Z) (st : state) : state :=
  mk_state (index st) (asm_words st) (fmt_id st) (timestamp_l st) v
    (bad_packet_words st) (unfinished_words st) (raw_data st) (assembled_msg st)
    (binary_file_decoding_finished st).

Definition set_bad_packet_words (v : Z) (st : state) : state :=
  mk_state (index st) (asm_words st) (fmt_id st) (timestamp_l st) (additional_data st)
    v (unfinished_words st) (raw_data st) (assembled_msg st)
    (binary_file_decoding_finished st).

Definition set_unfinished_words (v : Z) (st : state) : state :=
  mk_state (index st) (asm_words st) (fmt_id st) (timestamp_l st) (additional_data st)
    (bad_packet_words st) v (raw_data st) (assembled_msg st)
    (binary_file_decoding_finished st).

Definition set_raw_data (v : list Z) (st : state) : state :=
  mk_state (index st) (asm_words st) (fmt_id st) (timestamp_l st) (additional_data st)
    (bad_packet_words st) (unfinished_words st) v (assembled_msg st)
    (binary_file_decoding_finished st).

Definition set_assembled_msg (v : list Z) (st : state) : state :=
  mk_state (index st) (asm_words st) (fmt_id st) (timestamp_l st) (additional_data st)
    (bad_packet_words st) (unfinished_words st) (raw_data st) v
    (binary_file_decoding_finished st).

Definition set_binary_file_decoding_finished (v : bool) (st : state) : state :=
  mk_state (index st) (asm_words st) (fmt_id st) (timestamp_l st) (additional_data st)
    (bad_packet_words st) (unfinished_words st) (raw_data st) (assembled_msg st) v.

Definition UNFINISHED_WORD : Z := 0xFFFFFFFF.

Definition msg_type_is (p : option msg_data_t) (t : msg_type_t) : bool :=
  match p with
  | Some d => msg_type_eqb (msg_type d) t
  | None => false
  end.

Definition message_complete (inp : input) (st : state) (no_words : Z) : bool :=
  if no_words <? 5 then true
  else if fmt_id st <? MAX_FMT_IDS then
    match fmt_at (g_fmt inp) (fmt_id st) with
    | Some p_fmt =>
        let length := msg_len p_fmt in
        if length =? 0 then false
        else
          let length :=
            if msg_type_eqb (msg_type p_fmt) TYPE_EXT_MSG && (length >=? 4)
            then length - 4 else length in
          length <=? wrap32 (asm_words st * 4)
    | None => false
    end
  else false.

(** The [while] loop of [get_packet_length]: at most 15 IDs are stepped
    over before the low four bits of [fmt_id] are zero. *)
Fixpoint find_definition (fuel : nat) (g : list (option msg_data_t))
    (p_fmt : option msg_data_t) (fmt_id : Z) : option msg_data_t * Z :=
  match fuel with
  | O => (p_fmt, fmt_id)
  | S fuel' =>
      if negb (Z.land fmt_id 0xF =? 0) then
        match fmt_at g fmt_id with
        | Some d => (Some d, fmt_id)
        | None => find_definition fuel' g None (fmt_id - 1)
        end
      else (p_fmt, fmt_id)
  end.

(** After the loop a definition that is not NULL is [g_fmt[fmt_id]], whose
    type the [switch] reads. *)
Definition get_packet_length (inp : input) (fmt_id : Z) : Z :=
  if fmt_id >=? MAX_FMT_IDS then 0xFFFFFFFF
  else
    let '(p_fmt, fmt_id) :=
      find_definition 16 (g_fmt inp) (fmt_at (g_fmt inp) fmt_id) fmt_id in
    match p_fmt with
    | None => 0xFFFFFFFF
    | Some d =>
        let len := msg_len d / 4 in
        let len :=
          match msg_type d with
          | TYPE_MSG0_8 => len
          | TYPE_EXT_MSG => if len >? 0 then len - 1 else len
          | TYPE_MSGN => if (len =? 0) || (len >? 4) then 4 else len
          | TYPE_MSGX => 4
          end in
        wrap32 (len + 1)
    end.

(** The loop that moves the low bits of the FMT word into bit 31 of the
    DATA words, from the last word down. *)
Fixpoint restore_bit_31 (n : nat) (raw : list Z) (additional_data and_mask : Z)
    : list Z * Z * Z :=
  match n with
  | O => (raw, additional_data, and_mask)
  | S n' =>
      restore_bit_31 n'
        (<[n' := Z.lor (Z.shiftr (word_at raw (Z.of_nat n')) 1)
                       (Z.shiftl (Z.land additional_data 1) 31)]> raw)
        (Z.shiftr additional_data 1) (wrap32 (Z.shiftl and_mask 1))
  end.

(** The loop that appends the DATA words of the packet to the message. *)
Fixpoint copy_packet (count : nat) (n : Z) (st : state) : state :=
  match count with
  | O => st
  | S count' =>
      copy_packet count' (n + 1)
        (set_asm_words (wrap32 (asm_words st + 1))
           (set_assembled_msg
              (<[Z.to_nat (asm_words st) := word_at (raw_data st) n]>
                 (assembled_msg st)) st))
  end.

Definition process_the_message_packet (inp : input) (no_words data : Z)
    (st : state) : asm_msg_t * state :=
  let st := set_fmt_id (Z.shiftr data (fmt_id_shift inp)) st in
  let st :=
    set_timestamp_l
      (wrap32 (Z.shiftl (Z.land data 0xFFFFFFFE) (fmt_id_bits inp))) st in
  let additional_data := fmt_id st in
  let msg_len := get_packet_length inp (fmt_id st) in
  if (msg_len =? 0xFFFFFFFF) && (no_words >? 5) then
    (BAD_BLOCK,
     set_index (wrap32 (index st - 1))
       (set_bad_packet_words (wrap32 (no_words - 1)) st))
  else if no_words >? msg_len then
    (BAD_BLOCK,
     set_index (wrap32 (index st - msg_len))
       (set_bad_packet_words (wrap32 (no_words - msg_len)) st))
  else
    let additional_data :=
      if negb (msg_type_is (fmt_at (g_fmt inp) (fmt_id st)) TYPE_EXT_MSG)
      then Z.land additional_data 0x0F else additional_data in
    let '(raw, additional_data, and_mask) :=
      restore_bit_31 (Z.to_nat (wrap32 (no_words - 1))) (raw_data st)
        additional_data 0xFFFFFFFF in
    let st := set_raw_data raw st in
    let st := set_additional_data additional_data st in
    let st := set_fmt_id (Z.land (fmt_id st) and_mask) st in
    let st := copy_packet (Z.to_nat (wrap32 (no_words - 1))) 0 st in
    if msg_len =? 0xFFFFFFFF then (DATA_FOUND, st)
    else if message_complete inp st no_words then (DATA_FOUND, st)
    else (FMT_WORD_OK, st).

(** The loop of [skip_unfinished_words]; [idx] and [g_msg.index] advance
    together, and [in_size - idx] turns reach the end of the buffer. *)
Fixpoint skip_unfinished_loop (fuel : nat) (inp : input) (st : state)
    (idx no_unfinished : Z) : Z * state :=
  match fuel with
  | O => (no_unfinished, st)
  | S fuel' =>
      if idx <? in_size inp then
        if negb (word_at (rte_buffer inp) idx =? UNFINISHED_WORD)
        then (no_unfinished, st)
        else skip_unfinished_loop fuel' inp
               (set_index (wrap32 (index st + 1)) st)
               (wrap32 (idx + 1)) (wrap32 (no_unfinished + 1))
      else (no_unfinished, st)
  end.

Definition skip_unfinished_words (inp : input) (st : state) : Z * state :=
  skip_unfinished_loop (Z.to_nat (in_size inp - index st)) inp st (index st) 0.

(** The result of [find_fmt_word]: the return value, the state, the new
    values of [*packet_words] and [*p_data], and a record of the read of an
    unfinished word [0xFFFFFFFF]: the number of words that [raw_data] held
    when it was read. *)
Definition find_result : Type := asm_msg_t * state * Z * Z * option Z.

(** The [do ... while] loop of [find_fmt_word].  Every turn that goes on
    increments [*packet_words], and the loop is left when it reaches
    [MAX_RAW_DATA_SIZE]; [None] stands for a loop that is not finished when
    the fuel is used up. *)
Fixpoint find_fmt_word_loop (fuel : nat) (inp : input) (st : state)
    (packet_words p_data : Z) : option find_result :=
  match fuel with
  | O => None
  | S fuel' =>
      if (packet_words >=? MAX_RAW_DATA_SIZE) || (index st >=? in_size inp) then
        Some (BAD_BLOCK, set_bad_packet_words packet_words st,
              packet_words, p_data, None)
      else
        let data := word_at (rte_buffer inp) (index st) in
        if data =? UNFINISHED_WORD then
          if asm_words st >? 0 then
            Some (DATA_FOUND, set_index (wrap32 (index st - packet_words)) st,
                  0, p_data, Some packet_words)
          else if packet_words >? 0 then
            Some (BAD_BLOCK, set_bad_packet_words packet_words st,
                  packet_words, p_data, Some packet_words)
          else
            let '(no_unfinished, st) := skip_unfinished_words inp st in
            Some (UNFINISHED_BLOCK, set_unfinished_words no_unfinished st,
                  packet_words, p_data, Some packet_words)
        else
          let st := set_index (wrap32 (index st + 1)) st in
          let st := set_raw_data (<[Z.to_nat packet_words := data]> (raw_data st)) st in
          let packet_words := wrap32 (packet_words + 1) in
          if Z.land data 1 =? 0
          then find_fmt_word_loop fuel' inp st packet_words p_data
          else Some (FMT_WORD_OK, st, packet_words, data, None)
  end.

Definition find_fmt_word (inp : input) (st : state) (packet_words p_data : Z)
    : option find_result :=
  find_fmt_word_loop (S (Z.to_nat (MAX_RAW_DATA_SIZE - packet_words))) inp st
    packet_words p_data.

Definition check_last_message_in_the_buffer (packet_words : Z) (st : state)
    : asm_msg_t * state :=
  let st := set_binary_file_decoding_finished true st in
  if (asm_words st >? 0) && (packet_words =? 0) then (DATA_FOUND, st)
  else if packet_words >? 0 then
    (BAD_BLOCK, set_bad_packet_words packet_words st)
  else (END_OF_BUFFER, st).

(** The loop of [next_packet_is_the_continuation_of_the_message]; the sixth
    turn returns at the test of [no_words]. *)
Fixpoint continuation_loop (fuel : nat) (inp : input) (idx no_words tag : Z) : bool :=
  match fuel with
  | O => false
  | S fuel' =>
      if idx <? in_size inp then
        let no_words := wrap32 (no_words + 1) in
        if no_words >? 5 then false
        else
          let data := word_at (rte_buffer inp) idx in
          if data =? UNFINISHED_WORD then false
          else if negb (Z.land data 1 =? 0) then
            Z.land data (timestamp_and_index_mask inp) =? tag
          else continuation_loop fuel' inp (wrap32 (idx + 1)) no_words tag
      else false
  end.

Definition next_packet_is_the_continuation_of_the_message (inp : input)
    (st : state) (timestamp_and_fmt_index : Z) : bool :=
  continuation_loop 6 inp (index st) 0 timestamp_and_fmt_index.

(** The [while] loop of [assemble_message]; every turn that goes on has
    moved [g_msg.index] forward.  The last component is the record of
    [find_fmt_word] when that call ended the assembly. *)
Fixpoint assemble_loop (fuel : nat) (inp : input) (st : state)
    (packet_words data : Z) : option (asm_msg_t * state * option Z) :=
  match fuel with
  | O => None
  | S fuel' =>
      if index st <? in_size inp then
        match find_fmt_word inp st 0 data with
        | None => None
        | Some (rez, st, packet_words, data, unfinished) =>
            if negb (asm_msg_eqb rez FMT_WORD_OK) then Some (rez, st, unfinished)
            else
              let timestamp_and_fmt_index :=
                Z.land data (timestamp_and_index_mask inp) in
              let '(rez, st) := process_the_message_packet inp packet_words data st in
              if negb (asm_msg_eqb rez FMT_WORD_OK) then Some (rez, st, None)
              else if negb (next_packet_is_the_continuation_of_the_message inp st
                              timestamp_and_fmt_index)
              then Some (DATA_FOUND, st, None)
              else if asm_words st >=? wrap32 (4 * max_msg_blocks inp)
              then Some (MESSAGE_TOO_LONG, st, None)
              else assemble_loop fuel' inp st packet_words data
        end
      else
        let '(rez, st) := check_last_message_in_the_buffer packet_words st in
        Some (rez, st, None)
  end.

Definition assemble_message (inp : input) (st : state)
    : option (asm_msg_t * state * option Z) :=
  assemble_loop (S (Z.to_nat (in_size inp - index st))) inp (set_asm_words 0 st) 0 0.

Lemma set_index_same st : set_index (index st) st = st.
Proof. destruct st; reflexivity. Qed.

Lemma unfinished_word_is_odd w : Z.land w 1 = 0 -> w <> UNFINISHED_WORD.
Proof. intros H ->. vm_compute in H. discriminate. Qed.

(** [skip_unfinished_words] moves [g_msg.index] to the end of the run of
    unfinished words and counts them. *)
Lemma skip_unfinished_loop_spec inp fuel st idx n :
  idx = index st -> 0 <= n <= idx -> in_size inp < 2 ^ 32 ->
  (Z.to_nat (in_size inp - idx) <= fuel)%nat ->
  let r := skip_unfinished_loop fuel inp st idx n in
  index st <= index (snd r) /\
  (index st <= in_size inp -> index (snd r) <= in_size inp) /\
  fst r = n + (index (snd r) - index st) /\
  (forall i, index st <= i < index (snd r) ->
             word_at (rte_buffer inp) i = UNFINISHED_WORD) /\
  (index (snd r) < in_size inp ->
   word_at (rte_buffer inp) (index (snd r)) <> UNFINISHED_WORD) /\
  snd r = set_index (index (snd r)) st.
Proof.
  revert st idx n. induction fuel as [|fuel IH]; intros st idx n Hidx Hn Hsize Hfuel;
    simpl.
  - split; [lia|]. split; [lia|]. split; [lia|]. split; [intros i Hi; lia|].
    split; [lia|]. symmetry. apply set_index_same.
  - destruct (idx <? in_size inp) eqn:E; zbool.
    + destruct (word_at (rte_buffer inp) idx =? UNFINISHED_WORD) eqn:Ew; zbool; simpl.
      * rewrite !wrap32_small by lia.
        destruct (IH (set_index (index st + 1) st) (idx + 1) (n + 1))
          as (I1 & I2 & I3 & I4 & I5 & I6); [simpl; lia | lia | lia | lia |].
        simpl index in I1, I2, I3, I4, I6.
        split; [lia|]. split; [intros; apply I2; lia|]. split; [lia|].
        split; [|split; [exact I5 | exact I6]].
        intros i Hi. destruct (Z.eq_dec i (index st)) as [-> | Hne].
        -- rewrite <- Hidx. exact Ew.
        -- apply I4. lia.
      * split; [lia|]. split; [lia|]. split; [lia|]. split; [intros i Hi; lia|].
        split; [intros _; rewrite <- Hidx; exact Ew|]. symmetry. apply set_index_same.
    + simpl. split; [lia|]. split; [lia|]. split; [lia|].
      split; [intros i Hi; lia|].
      split; [lia|]. symmetry. apply set_index_same.
Qed.

(** [find_fmt_word] returns; with the FMT word found no unfinished word was
    read, and an unfinished word read while no message is being assembled
    gives BAD_BLOCK after some collected words and UNFINISHED_BLOCK
    otherwise. *)
Lemma find_fmt_word_loop_spec inp fuel st pw d :
  0 <= pw -> 0 <= index st -> in_size inp < 2 ^ 32 ->
  (Z.to_nat (MAX_RAW_DATA_SIZE - pw) < fuel)%nat ->
  exists rez st' pw' d' ev,
    find_fmt_word_loop fuel inp st pw d = Some (rez, st', pw', d', ev) /\
    (rez = FMT_WORD_OK -> ev = None /\ index st < index st' <= in_size inp) /\
    (forall n, ev = Some n -> asm_words st = 0 ->
       pw <= n /\ index st + (n - pw) < in_size inp /\
       word_at (rte_buffer inp) (index st + (n - pw)) = UNFINISHED_WORD /\
       (0 < n -> rez = BAD_BLOCK /\ bad_packet_words st' = n /\
                 index st' = index st + (n - pw)) /\
       (n = 0 -> rez = UNFINISHED_BLOCK /\
                 index st < index st' <= in_size inp /\
                 (forall i, index st <= i < index st' ->
                            word_at (rte_buffer inp) i = UNFINISHED_WORD) /\
                 (index st' < in_size inp ->
                  word_at (rte_buffer inp) (index st') <> UNFINISHED_WORD) /\
                 unfinished_words st' = index st' - index st)).
Proof.
  revert st pw. induction fuel as [|fuel IH]; intros st pw Hpw Hidx Hsize Hfuel;
    [lia|].
  cbn [find_fmt_word_loop].
  destruct ((pw >=? MAX_RAW_DATA_SIZE) || (index st >=? in_size inp)) eqn:E1.
  { do 5 eexists. split; [reflexivity|]. split; [discriminate|].
    intros n Hn. discriminate. }
  zbool.
  destruct (word_at (rte_buffer inp) (index st) =? UNFINISHED_WORD) eqn:Ew; zbool.
  - destruct (asm_words st >? 0) eqn:Ea; zbool.
    { do 5 eexists. split; [reflexivity|]. split; [discriminate|].
      intros n Hn Hzero. lia. }
    destruct (pw >? 0) eqn:Ep; zbool.
    { do 5 eexists. split; [reflexivity|]. split; [discriminate|].
      intros n Hn _. apply (inj Some) in Hn. subst n.
      replace (index st + (pw - pw)) with (index st) by lia.
      split; [lia|]. split; [lia|]. split; [exact Ew|].
      split; [|intros; lia]. intros _. repeat split. }
    unfold skip_unfinished_words.
    pose proof (skip_unfinished_loop_spec inp (Z.to_nat (in_size inp - index st))
                  st (index st) 0 eq_refl ltac:(lia) Hsize ltac:(lia)) as Hskip.
    cbv zeta in Hskip.
    destruct (skip_unfinished_loop _ inp st (index st) 0) as [no st'].
    cbn [fst snd] in Hskip. destruct Hskip as (K1 & K2 & K3 & K4 & K5 & K6).
    do 5 eexists. split; [reflexivity|]. split; [discriminate|].
    intros n Hn _. apply (inj Some) in Hn. subst n.
    assert (pw = 0) as -> by lia.
    replace (index st + (0 - 0)) with (index st) by lia.
    split; [lia|]. split; [lia|]. split; [exact Ew|].
    split; [intros; lia|]. intros _. cbn [index unfinished_words set_unfinished_words].
    assert (index st < index st').
    { destruct (Z_lt_le_dec (index st) (index st')) as [Hlt | Hge]; [exact Hlt|].
      exfalso. assert (index st' = index st) as Heq by lia.
      apply K5; [lia|]. rewrite Heq. exact Ew. }
    split; [reflexivity|]. split; [lia|]. split; [exact K4|]. split; [exact K5|]. lia.
  - rewrite !wrap32_small by (unfold MAX_RAW_DATA_SIZE in *; lia).
    set (st1 := set_raw_data _ _).
    destruct (Z.land (word_at (rte_buffer inp) (index st)) 1 =? 0) eqn:Eb.
    + destruct (IH st1 (pw + 1)) as (rez & st' & pw' & d' & ev & Heq & Hok & Hev);
        [lia | simpl; lia | exact Hsize | unfold MAX_RAW_DATA_SIZE in *; lia |].
      exists rez, st', pw', d', ev. split; [exact Heq|].
      change (index st1) with (index st + 1) in Hok, Hev.
      change (asm_words st1) with (asm_words st) in Hev.
      split.
      * intros Hr. destruct (Hok Hr) as [? ?]. split; [assumption | lia].
      * intros n Hn Hzero. destruct (Hev n Hn Hzero) as (V1 & V2 & V3 & V4 & V5).
        replace (index st + 1 + (n - (pw + 1))) with (index st + (n - pw)) in * by lia.
        split; [lia|]. split; [exact V2|]. split; [exact V3|]. split.
        -- exact V4.
        -- intros Hn0. lia.
    + do 5 eexists. split; [reflexivity|]. split.
      * intros _. split; [reflexivity|]. subst st1. simpl. lia.
      * intros n Hn. discriminate.
Qed.

(** Data words followed by an unfinished word: the unfinished word is read
    with these words collected. *)
Lemma find_fmt_word_loop_reads_unfinished inp (n : nat) :
  forall fuel st pw d,
    0 <= pw -> pw + Z.of_nat n < MAX_RAW_DATA_SIZE -> 0 <= index st ->
    in_size inp < 2 ^ 32 ->
    index st + Z.of_nat n < in_size inp ->
    (forall i, 0 <= i < Z.of_nat n ->
               Z.land (word_at (rte_buffer inp) (index st + i)) 1 = 0) ->
    word_at (rte_buffer inp) (index st + Z.of_nat n) = UNFINISHED_WORD ->
    (Z.to_nat (MAX_RAW_DATA_SIZE - pw) < fuel)%nat ->
    exists rez st' pw' d',
      find_fmt_word_loop fuel inp st pw d
      = Some (rez, st', pw', d', Some (pw + Z.of_nat n)).
Proof.
  induction n as [|n IH]; intros fuel st pw d Hpw Hmax Hidx Hsize Hin Hdata Hun Hfuel;
    (destruct fuel as [|fuel]; [lia|]); cbn [find_fmt_word_loop].
  - rewrite Z.add_0_r in *.
    destruct ((pw >=? MAX_RAW_DATA_SIZE) || (index st >=? in_size inp)) eqn:E1.
    { apply orb_true_iff in E1. destruct E1 as [E1 | E1]; zbool; lia. }
    rewrite Hun, Z.eqb_refl.
    destruct (asm_words st >? 0); [do 4 eexists; reflexivity|].
    destruct (pw >? 0); [do 4 eexists; reflexivity|].
    destruct (skip_unfinished_words inp st). do 4 eexists. reflexivity.
  - destruct ((pw >=? MAX_RAW_DATA_SIZE) || (index st >=? in_size inp)) eqn:E1.
    { apply orb_true_iff in E1. destruct E1 as [E1 | E1]; zbool; lia. }
    pose proof (Hdata 0 ltac:(lia)) as H0. rewrite Z.add_0_r in H0.
    pose proof (unfinished_word_is_odd _ H0) as Hne.
    apply Z.eqb_neq in Hne. rewrite Hne, H0, Z.eqb_refl.
    rewrite !wrap32_small by (unfold MAX_RAW_DATA_SIZE in *; lia).
    set (st1 := set_raw_data _ _).
    destruct (IH fuel st1 (pw + 1) d) as (rez & st' & pw' & d' & Heq);
      [lia | lia | simpl; lia | exact Hsize | simpl; lia | | |
       unfold MAX_RAW_DATA_SIZE in *; lia |].
    + intros i Hi. change (index st1) with (index st + 1).
      replace (index st + 1 + i) with (index st + (i + 1)) by lia.
      apply Hdata. lia.
    + change (index st1) with (index st + 1).
      replace (index st + 1 + Z.of_nat n) with (index st + Z.of_nat (S n)) by lia.
      exact Hun.
    + exists rez, st', pw', d'.
      replace (pw + Z.of_nat (S n)) with (pw + 1 + Z.of_nat n) by lia. exact Heq.
Qed.

(** A continuation seen by [next_packet_is_the_continuation_of_the_message]
    makes the next [find_fmt_word] find its FMT word: the words up to it were
    checked not to be unfinished. *)
Lemma continuation_found_by_find_fmt_word inp tag fuel :
  forall fuel' st idx no_words d,
    continuation_loop fuel inp idx no_words tag = true ->
    idx = index st -> 0 <= idx -> 0 <= no_words <= 5 -> in_size inp < 2 ^ 32 ->
    (Z.to_nat (MAX_RAW_DATA_SIZE - no_words) < fuel')%nat ->
    exists st' pw' d',
      find_fmt_word_loop fuel' inp st no_words d
      = Some (FMT_WORD_OK, st', pw', d', None).
Proof.
  induction fuel as [|fuel IH]; intros fuel' st idx nw d Hc Hidx Hi Hnw Hsize Hfuel;
    [discriminate|].
  cbn [continuation_loop] in Hc.
  destruct (idx <? in_size inp) eqn:E; [|discriminate]. zbool.
  rewrite wrap32_small in Hc by lia.
  destruct (nw + 1 >? 5) eqn:E5; [discriminate|]. zbool.
  destruct (word_at (rte_buffer inp) idx =? UNFINISHED_WORD) eqn:Ew; [discriminate|].
  destruct fuel' as [|fuel']; [lia|]. cbn [find_fmt_word_loop].
  subst idx.
  destruct ((nw >=? MAX_RAW_DATA_SIZE) || (index st >=? in_size inp)) eqn:E1.
  { apply orb_true_iff in E1. unfold MAX_RAW_DATA_SIZE in E1.
    destruct E1 as [E1 | E1]; zbool; lia. }
  rewrite Ew.
  rewrite !wrap32_small by lia. rewrite !wrap32_small in Hc by lia.
  set (st1 := set_raw_data _ _).
  destruct (Z.land (word_at (rte_buffer inp) (index st)) 1 =? 0) eqn:Eb;
    cbn [negb] in Hc.
  - apply (IH fuel' st1 (index st + 1) (nw + 1) d Hc);
      [reflexivity | lia | lia | exact Hsize | unfold MAX_RAW_DATA_SIZE in *; lia].
  - do 3 eexists. reflexivity.
Qed.

Lemma copy_packet_index count :
  forall n st, index (copy_packet count n st) = index st.
Proof.
  induction count as [|count IH]; intros n st; simpl; [reflexivity|].
  rewrite IH. reflexivity.
Qed.

(** A packet accepted with FMT_WORD_OK leaves [g_msg.index] where
    [find_fmt_word] has put it. *)
Lemma process_the_message_packet_index inp no_words data st :
  fst (process_the_message_packet inp no_words data st) = FMT_WORD_OK ->
  index (snd (process_the_message_packet inp no_words data st)) = index st.
Proof.
  unfold process_the_message_packet. cbv zeta.
  destruct (_ && _); [discriminate|].
  destruct (no_words >? _); [discriminate|].
  destruct (restore_bit_31 _ _ _ _) as [[raw ad] mask].
  destruct (_ =? 0xFFFFFFFF); [discriminate|].
  destruct (message_complete _ _ _); [discriminate|].
  intros _. cbn [snd]. rewrite copy_packet_index. reflexivity.
Qed.

Lemma asm_msg_eqb_eq a b : asm_msg_eqb a b = true <-> a = b.
Proof. destruct a, b; simpl; split; congruence. Qed.

(** Once a continuation was seen, the loop of [assemble_message] ends
    without reading an unfinished word in [find_fmt_word]. *)
Lemma assemble_loop_after_continuation inp fuel :
  forall st pw d,
    0 <= index st -> in_size inp < 2 ^ 32 ->
    (Z.to_nat (in_size inp - index st) < fuel)%nat ->
    (exists st1 pw1 d1,
       find_fmt_word inp st 0 d = Some (FMT_WORD_OK, st1, pw1, d1, None)) ->
    exists rez st', assemble_loop fuel inp st pw d = Some (rez, st', None).
Proof.
  induction fuel as [|fuel IH]; intros st pw d Hidx Hsize Hfuel Hfind; [lia|].
  cbn [assemble_loop].
  destruct (index st <? in_size inp) eqn:E; zbool.
  2:{ destruct (check_last_message_in_the_buffer pw st). eauto. }
  destruct Hfind as (st1 & pw1 & d1 & Hf). rewrite Hf. cbn [asm_msg_eqb negb].
  destruct (find_fmt_word_loop_spec inp (S (Z.to_nat (MAX_RAW_DATA_SIZE - 0))) st 0 d)
    as (rez & st1' & pw1' & d1' & ev & Heq & Hok & _); [lia | lia | lia | lia |].
  unfold find_fmt_word in Hf. rewrite Hf in Heq.
  injection Heq as <- <- <- <- <-. destruct (Hok eq_refl) as [_ Hidx1].
  pose proof (process_the_message_packet_index inp pw1 d1 st1) as Hpi.
  destruct (process_the_message_packet inp pw1 d1 st1) as [rez2 st2].
  cbn [fst snd] in Hpi.
  destruct (asm_msg_eqb rez2 FMT_WORD_OK) eqn:Er; cbn [negb]; [|eauto].
  apply asm_msg_eqb_eq in Er. specialize (Hpi Er).
  destruct (next_packet_is_the_continuation_of_the_message inp st2 _) eqn:Ec;
    cbn [negb]; [|eauto].
  destruct (asm_words st2 >=? _); [eauto|].
  apply IH; [lia | exact Hsize | lia |].
  unfold find_fmt_word.
  apply (continuation_found_by_find_fmt_word inp _ 6 _ st2 (index st2) 0 d1 Ec);
    [reflexivity | lia | lia | exact Hsize | lia].
Qed.

(** C3. [assemble_message] returns, and whenever [find_fmt_word] reads an
    unfinished word [0xFFFFFFFF] during the assembly: after [n > 0] words
    collected in [raw_data] the result is BAD_BLOCK with these [n] words
    reported in [bad_packet_words]; with nothing collected the whole run of
    unfinished words is skipped, counted in [unfinished_words], and the
    result is UNFINISHED_BLOCK.  Such a read happens exactly when the words
    at [g_msg.index] are [n] DATA words followed by an unfinished word. *)
Theorem unfinished_word_ends_assembly (inp : input) (st : state) :
  0 <= index st -> in_size inp < 2 ^ 32 ->
  exists rez st' unfinished,
    assemble_message inp st = Some (rez, st', unfinished) /\
    (forall n,
       0 <= n < MAX_RAW_DATA_SIZE -> index st + n < in_size inp ->
       (forall i, 0 <= i < n ->
                  Z.land (word_at (rte_buffer inp) (index st + i)) 1 = 0) ->
       word_at (rte_buffer inp) (index st + n) = UNFINISHED_WORD ->
       unfinished = Some n) /\
    (forall n,
       unfinished = Some n ->
       0 <= n /\ index st + n < in_size inp /\
       word_at (rte_buffer inp) (index st + n) = UNFINISHED_WORD /\
       (0 < n -> rez = BAD_BLOCK /\ bad_packet_words st' = n /\
                 index st' = index st + n) /\
       (n = 0 -> rez = UNFINISHED_BLOCK /\
                 index st < index st' <= in_size inp /\
                 (forall i, index st <= i < index st' ->
                            word_at (rte_buffer inp) i = UNFINISHED_WORD) /\
                 (index st' < in_size inp ->
                  word_at (rte_buffer inp) (index st') <> UNFINISHED_WORD) /\
                 unfinished_words st' = index st' - index st)).
Proof.
  intros Hidx Hsize. unfold assemble_message.
  set (st0 := set_asm_words 0 st).
  change (index st) with (index st0) in *.
  cbn [assemble_loop].
  destruct (index st0 <? in_size inp) eqn:E; zbool.
  2:{ destruct (check_last_message_in_the_buffer 0 st0) as [rez st'].
      exists rez, st', None. split; [reflexivity|].
      split; [intros n Hn Hin; lia | intros n Hn; discriminate]. }
  destruct (find_fmt_word_loop_spec inp (S (Z.to_nat (MAX_RAW_DATA_SIZE - 0))) st0 0 0)
    as (rez & st1 & pw1 & d1 & ev & Heq & Hok & Hev); [lia | lia | lia | lia |].
  assert (Hres : exists rez' st',
             assemble_loop (S (Z.to_nat (in_size inp - index st0))) inp st0 0 0
             = Some (rez', st', ev) /\
             (rez <> FMT_WORD_OK -> rez' = rez /\ st' = st1)).
  { cbn [assemble_loop]. rewrite (proj2 (Z.ltb_lt _ _) E).
    unfold find_fmt_word. rewrite Heq.
    destruct (asm_msg_eqb rez FMT_WORD_OK) eqn:Er; cbn [negb].
    2:{ exists rez, st1. split; [reflexivity|]. intros _. split; reflexivity. }
    apply asm_msg_eqb_eq in Er. destruct (Hok Er) as [-> Hidx1].
    pose proof (process_the_message_packet_index inp pw1 d1 st1) as Hpi.
    destruct (process_the_message_packet inp pw1 d1 st1) as [rez2 st2].
    cbn [fst snd] in Hpi.
    destruct (asm_msg_eqb rez2 FMT_WORD_OK) eqn:Er2; cbn [negb];
      [|exists rez2, st2; split; [reflexivity | intros; congruence]].
    apply asm_msg_eqb_eq in Er2. specialize (Hpi Er2).
    destruct (next_packet_is_the_continuation_of_the_message inp st2 _) eqn:Ec;
      cbn [negb]; [|eexists _, _; split; [reflexivity | intros; congruence]].
    destruct (asm_words st2 >=? _);
      [eexists _, _; split; [reflexivity | intros; congruence]|].
    destruct (assemble_loop_after_continuation inp
                (Z.to_nat (in_size inp - index st0)) st2 pw1 d1)
      as (rez' & st' & Hl); [lia | exact Hsize | lia | |].
    - unfold find_fmt_word.
      apply (continuation_found_by_find_fmt_word inp _ 6 _ st2 (index st2) 0 d1 Ec);
        [reflexivity | lia | lia | exact Hsize | lia].
    - exists rez', st'. split; [exact Hl | intros; congruence]. }
  destruct Hres as (rez' & st' & Hl & Hsame).
  cbn [assemble_loop] in Hl. rewrite (proj2 (Z.ltb_lt _ _) E) in Hl.
  exists rez', st', ev. split; [exact Hl|]. split.
  - intros n Hn Hin Hdata Hun.
    destruct (find_fmt_word_loop_reads_unfinished inp (Z.to_nat n)
                (S (Z.to_nat (MAX_RAW_DATA_SIZE - 0))) st0 0 0)
      as (r & s & p & d & Hr); try rewrite Z2Nat.id by lia; try lia;
      try assumption.
    rewrite Hr in Heq. injection Heq as _ _ _ _ <-. f_equal. lia.
  - intros n Hn. destruct (Hev n Hn eq_refl) as (V1 & V2 & V3 & V4 & V5).
    rewrite Z.sub_0_r in *.
    assert (Hne : rez <> FMT_WORD_OK).
    { intros Hr. destruct (Hok Hr) as [Hnone _]. congruence. }
    destruct (Hsame Hne) as [-> ->].
    split; [lia|]. split; [exact V2|]. split; [exact V3|].
    split; [exact V4 | exact V5].
Qed.

(** A buffer of nine-bit format IDs: two DATA words, three unfinished words
    and a FMT word; no format is defined. *)
Definition example_input : input :=
  mk_input [0x00000002; 0x00000004; 0xFFFFFFFF; 0xFFFFFFFF; 0xFFFFFFFF; 0x00000003]
    6 9 23 0xF87FFFFE 16 [].

Definition example_state (index : Z) : state :=
  mk_state index 0 0 0 0 0 0 (replicate 264 0) (replicate 72 0) false.

Lemma two_words_before_unfinished_are_a_bad_block :
  exists st',
    assemble_message example_input (example_state 0)
    = Some (BAD_BLOCK, st', Some 2) /\
    bad_packet_words st' = 2 /\ index st' = 2.
Proof.
  destruct (unfinished_word_ends_assembly example_input (example_state 0))
    as (rez & st' & ev & Heq & Hin & Hev); [simpl; lia | simpl; lia |].
  assert (Hu : ev = Some 2).
  { apply Hin; [unfold MAX_RAW_DATA_SIZE; lia | simpl; lia | | reflexivity].
    intros i Hi. assert (Hi' : i = 0 \/ i = 1) by lia.
    destruct Hi' as [-> | ->]; reflexivity. }
  destruct (Hev 2 Hu) as (_ & _ & _ & Hbad & _).
  destruct (Hbad ltac:(lia)) as (-> & Hb & Hi).
  exists st'. subst ev. split; [exact Heq|]. split; [exact Hb | exact Hi].
Defined.

(** The next call starts at the unfinished words and skips all three. *)
Example run_of_unfinished_words_is_skipped :
  match assemble_message example_input (example_state 2) with
  | Some (rez, st', unfinished) =>
      rez = UNFINISHED_BLOCK /\ index st' = 5 /\ unfinished_words st' = 3 /\
      unfinished = Some 0
  | None => False
  end.
Proof. vm_compute. repeat split. Qed.

(** A message of five DATA words in two packets with the same FMT word,
    format ID 16 defined as MSGN of unknown length, then an unfinished
    word. *)
Definition two_packets : input :=
  mk_input [2; 4; 6; 8; 0x08000055; 10; 0x08000055; 0xFFFFFFFF]
    8 9 23 0xF87FFFFE 16
    (replicate 16 None ++ [Some (Timestamps.mk_msg_data TYPE_MSGN 0)]).

Example two_packets_are_one_message :
  match assemble_message two_packets (example_state 0) with
  | Some (rez, st', unfinished) =>
      rez = DATA_FOUND /\ index st' = 7 /\ asm_words st' = 5 /\
      take 5 (assembled_msg st') = [1; 2; 3; 4; 5] /\ fmt_id st' = 16 /\
      unfinished = None
  | None => False
  end.
Proof. vm_compute. repeat split. Qed.

(** [find_fmt_word] called on its own with a message in progress
    ([asm_words > 0]) answers an unfinished word with DATA_FOUND; in
    [assemble_message] this state does not occur, since a further packet is
    only read after its FMT word was seen. *)
Example find_fmt_word_with_message_in_progress :
  match find_fmt_word example_input (set_asm_words 4 (example_state 2)) 0 0 with
  | Some (rez, st', packet_words, _, unfinished) =>
      rez = DATA_FOUND /\ index st' = 2 /\ packet_words = 0 /\ unfinished = Some 0
  | None => False
  end.
Proof. vm_compute. repeat split. Qed.

(** *** Packets and progress *)

Lemma word_at_insert_eq (a : list Z) (i : Z) (x : Z) :
  0 <= i < Z.of_nat (length a) -> word_at (<[Z.to_nat i := x]> a) i = x.
Proof.
  intros Hi. unfold word_at. destruct (i <? 0) eqn:E; zbool; [lia|].
  rewrite list_lookup_insert_eq by lia. reflexivity.
Qed.

Lemma word_at_insert_ne (a : list Z) (i j : Z) (x : Z) :
  0 <= i -> i <> j -> word_at (<[Z.to_nat i := x]> a) j = word_at a j.
Proof.
  intros Hi Hne. unfold word_at. destruct (j <? 0) eqn:E; zbool; [reflexivity|].
  rewrite list_lookup_insert_ne by lia. reflexivity.
Qed.

(** The packet that [find_fmt_word] hands over with FMT_WORD_OK, and where
    [g_msg.index] stands after any of its results when no message is being
    assembled. *)
Lemma find_fmt_word_loop_packet inp fuel st pw d :
  0 <= pw -> 0 <= index st -> in_size inp < 2 ^ 32 ->
  (MAX_RAW_DATA_SIZE <= Z.of_nat (length (raw_data st))) ->
  (Z.to_nat (MAX_RAW_DATA_SIZE - pw) < fuel)%nat ->
  exists rez st' pw' d' ev,
    find_fmt_word_loop fuel inp st pw d = Some (rez, st', pw', d', ev) /\
    length (raw_data st') = length (raw_data st) /\
    asm_words st' = asm_words st /\
    assembled_msg st' = assembled_msg st /\
    (asm_words st = 0 ->
     (rez = FMT_WORD_OK \/ rez = BAD_BLOCK \/ rez = UNFINISHED_BLOCK) /\
     index st <= index st' <= Z.max (index st) (in_size inp) /\
     (pw = 0 -> index st < in_size inp -> index st < index st')) /\
    (rez = FMT_WORD_OK ->
     pw < pw' <= MAX_RAW_DATA_SIZE /\
     index st' = index st + (pw' - pw) /\ index st' <= in_size inp /\
     d' = word_at (rte_buffer inp) (index st' - 1) /\
     Z.land d' 1 <> 0 /\ d' <> UNFINISHED_WORD /\
     (forall i, pw <= i < pw' ->
        word_at (raw_data st') i = word_at (rte_buffer inp) (index st + (i - pw))) /\
     (forall i, 0 <= i < pw -> word_at (raw_data st') i = word_at (raw_data st) i) /\
     (forall i, pw <= i < pw' - 1 ->
        Z.land (word_at (rte_buffer inp) (index st + (i - pw))) 1 = 0)).
Proof.
  revert st pw.
  induction fuel as [|fuel IH]; intros st pw Hpw Hidx Hsize Hraw Hfuel; [lia|].
  cbn [find_fmt_word_loop].
  destruct ((pw >=? MAX_RAW_DATA_SIZE) || (index st >=? in_size inp)) eqn:E1.
  { do 5 eexists. split; [reflexivity|]. cbn.
    split; [reflexivity|]. split; [reflexivity|]. split; [reflexivity|].
    split; [|discriminate]. intros _. split; [auto|]. split; [lia|]. intros -> Hlt.
    apply orb_true_iff in E1. unfold MAX_RAW_DATA_SIZE in E1.
    destruct E1; zbool; lia. }
  zbool.
  destruct (word_at (rte_buffer inp) (index st) =? UNFINISHED_WORD) eqn:Ew; zbool.
  - destruct (asm_words st >? 0) eqn:Ea; zbool.
    { do 5 eexists. split; [reflexivity|]. cbn.
      split; [reflexivity|]. split; [reflexivity|]. split; [reflexivity|].
      split; [intros Hz; lia | discriminate]. }
    destruct (pw >? 0) eqn:Ep; zbool.
    { do 5 eexists. split; [reflexivity|]. cbn.
      split; [reflexivity|]. split; [reflexivity|]. split; [reflexivity|].
      split; [|discriminate]. intros _. split; [auto|]. split; [lia|]. intros; lia. }
    unfold skip_unfinished_words.
    pose proof (skip_unfinished_loop_spec inp (Z.to_nat (in_size inp - index st))
                  st (index st) 0 eq_refl ltac:(lia) Hsize ltac:(lia)) as Hskip.
    cbv zeta in Hskip.
    destruct (skip_unfinished_loop _ inp st (index st) 0) as [no st'].
    cbn [fst snd] in Hskip. destruct Hskip as (K1 & K2 & K3 & K4 & K5 & K6).
    do 5 eexists. split; [reflexivity|]. rewrite K6. cbn.
    split; [reflexivity|]. split; [reflexivity|]. split; [reflexivity|].
    split; [|discriminate]. intros _. split; [auto|]. split; [lia|]. intros _ Hlt.
    destruct (Z_lt_le_dec (index st) (index st')) as [Hlt' | Hge]; [exact Hlt'|].
    exfalso. assert (index st' = index st) as Heq by lia.
    apply K5; [lia|]. rewrite Heq. exact Ew.
  - rewrite !wrap32_small by (unfold MAX_RAW_DATA_SIZE in *; lia).
    set (st1 := set_raw_data _ _).
    assert (Hst1 : index st1 = index st + 1 /\ asm_words st1 = asm_words st /\
                   assembled_msg st1 = assembled_msg st /\
                   raw_data st1
                   = <[Z.to_nat pw := word_at (rte_buffer inp) (index st)]> (raw_data st))
      by (subst st1; repeat split).
    destruct Hst1 as (Hi1 & Ha1 & Hm1 & Hr1).
    destruct (Z.land (word_at (rte_buffer inp) (index st)) 1 =? 0) eqn:Eb; zbool.
    + destruct (IH st1 (pw + 1)) as
        (rez & st' & pw' & d' & ev & Heq & Hlen & Hasm & Hmsg & Hprog & Hok);
        [lia | lia | exact Hsize | rewrite Hr1, length_insert; exact Hraw
         | unfold MAX_RAW_DATA_SIZE in *; lia |].
      exists rez, st', pw', d', ev. split; [exact Heq|].
      rewrite Hr1, length_insert in Hlen. rewrite Ha1 in Hasm, Hprog.
      rewrite Hm1 in Hmsg. rewrite Hi1 in Hprog, Hok.
      split; [exact Hlen|]. split; [exact Hasm|]. split; [exact Hmsg|]. split.
      * intros Hz. destruct (Hprog Hz) as (P0 & P1 & _).
        split; [exact P0|]. split; [lia|]. intros; lia.
      * intros Hr. destruct (Hok Hr) as (O1 & O2 & O3 & O4 & O5 & O6 & O7 & O8 & O9).
        split; [lia|]. split; [lia|]. split; [exact O3|]. split; [exact O4|].
        split; [exact O5|]. split; [exact O6|]. split; [|split].
        -- intros i Hi. destruct (Z.eq_dec i pw) as [-> | Hne].
           ++ rewrite O8 by lia. rewrite Hr1.
              rewrite word_at_insert_eq by (unfold MAX_RAW_DATA_SIZE in *; lia).
              f_equal. lia.
           ++ rewrite O7 by lia. f_equal. lia.
        -- intros i Hi. rewrite O8 by lia. rewrite Hr1.
           apply word_at_insert_ne; lia.
        -- intros i Hi. destruct (Z.eq_dec i pw) as [-> | Hne].
           ++ replace (index st + (pw - pw)) with (index st) by lia. exact Eb.
           ++ replace (index st + (i - pw)) with (index st + 1 + (i - (pw + 1)))
                by lia.
              apply O9. lia.
    + do 5 eexists. split; [reflexivity|].
      split; [rewrite Hr1; apply length_insert|].
      split; [exact Ha1|]. split; [exact Hm1|]. split.
      * intros _. rewrite Hi1. split; [auto|]. split; [lia|]. intros; lia.
      * intros _. rewrite Hi1.
        replace (index st + 1 - 1) with (index st) by lia.
        split; [unfold MAX_RAW_DATA_SIZE in *; lia|]. split; [lia|]. split; [lia|].
        split; [reflexivity|]. split; [exact Eb|]. split; [exact Ew|].
        split; [|split].
        -- intros i Hi. assert (i = pw) as -> by lia.
           rewrite Hr1, word_at_insert_eq by (unfold MAX_RAW_DATA_SIZE in *; lia).
           f_equal. lia.
        -- intros i Hi. rewrite Hr1. apply word_at_insert_ne; lia.
        -- intros i Hi. lia.
Qed.

(** Every definition in [g_fmt] has a length that fits [uint32_t]. *)
Definition lengths_fit (g : list (option msg_data_t)) : Prop :=
  forall i d, fmt_at g i = Some d -> 0 <= msg_len d < 2 ^ 32.

Lemma find_definition_defined fuel g p fmt_id d :
  fst (find_definition fuel g p fmt_id) = Some d ->
  p = Some d \/ exists j, fmt_at g j = Some d.
Proof.
  revert p fmt_id. induction fuel as [|fuel IH]; intros p fmt_id; simpl.
  - intros H. left. exact H.
  - destruct (negb (Z.land fmt_id 15 =? 0)).
    + destruct (fmt_at g fmt_id) as [d'|] eqn:E; simpl.
      * intros H. right. exists fmt_id. congruence.
      * intros H. destruct (IH None (fmt_id - 1) H) as [? | ?];
          [discriminate | right; assumption].
    + intros H. left. exact H.
Qed.

(** [get_packet_length] answers 0xFFFFFFFF or a length of at least one
    word, the FMT word. *)
Lemma get_packet_length_range inp fmt_id :
  lengths_fit (g_fmt inp) ->
  get_packet_length inp fmt_id = 0xFFFFFFFF \/
  1 <= get_packet_length inp fmt_id <= 2 ^ 30.
Proof.
  intros Hfit. unfold get_packet_length.
  destruct (fmt_id >=? MAX_FMT_IDS); [left; reflexivity|].
  pose proof (find_definition_defined 16 (g_fmt inp)
                (fmt_at (g_fmt inp) fmt_id) fmt_id) as Hdef.
  destruct (find_definition 16 (g_fmt inp) (fmt_at (g_fmt inp) fmt_id) fmt_id)
    as [p id']. cbn [fst] in Hdef.
  destruct p as [d|]; [|left; reflexivity]. right.
  assert (Hlen : 0 <= msg_len d < 2 ^ 32).
  { destruct (Hdef d eq_refl) as [H | [j H]]; eapply Hfit; exact H. }
  assert (Hq : 0 <= msg_len d / 4 < 2 ^ 30) by (Z.div_mod_to_equations; lia).
  destruct (msg_type d).
  - rewrite wrap32_small by lia. lia.
  - destruct ((msg_len d / 4 =? 0) || (msg_len d / 4 >? 4)) eqn:E.
    + vm_compute. split; discriminate.
    + zbool. rewrite wrap32_small by lia. lia.
  - destruct (msg_len d / 4 >? 0) eqn:E; zbool; rewrite wrap32_small by lia; lia.
  - vm_compute. split; discriminate.
Qed.

Lemma insert_word_length (n : nat) (x : Z) (raw : list Z) :
  length (<[n := x]> raw) = length raw.
Proof. apply length_insert. Qed.

Lemma restore_bit_31_length n :
  forall raw ad mask, length (fst (fst (restore_bit_31 n raw ad mask))) = length raw.
Proof.
  induction n as [|n IH]; intros raw ad mask; simpl; [reflexivity|].
  rewrite IH. apply length_insert.
Qed.

Lemma copy_packet_raw_data count :
  forall n st, raw_data (copy_packet count n st) = raw_data st.
Proof.
  induction count as [|count IH]; intros n st; simpl; [reflexivity|].
  rewrite IH. reflexivity.
Qed.

(** [process_the_message_packet] ends with one of three results; it leaves
    [g_msg.index] where it is or moves it back by fewer words than the packet
    has, and [raw_data] keeps its size. *)
Lemma process_the_message_packet_rewind inp no_words data st :
  lengths_fit (g_fmt inp) ->
  1 <= no_words <= MAX_RAW_DATA_SIZE -> no_words <= index st < 2 ^ 32 ->
  let r := process_the_message_packet inp no_words data st in
  (fst r = BAD_BLOCK \/ fst r = DATA_FOUND \/ fst r = FMT_WORD_OK) /\
  index st - no_words < index (snd r) <= index st /\
  length (raw_data (snd r)) = length (raw_data st).
Proof.
  intros Hfit Hnw Hidx. unfold process_the_message_packet. cbv zeta.
  unfold MAX_RAW_DATA_SIZE in Hnw.
  set (st0 := set_timestamp_l _ (set_fmt_id _ st)).
  change (index st0) with (index st). change (raw_data st0) with (raw_data st).
  destruct (get_packet_length_range inp (fmt_id st0) Hfit) as [Hl | Hl].
  - rewrite Hl. change (0xFFFFFFFF =? 0xFFFFFFFF) with true. cbn [andb].
    destruct (no_words >? 5) eqn:E5; zbool.
    + cbn [fst snd index set_index set_bad_packet_words raw_data].
      rewrite wrap32_small by lia. split; [left; reflexivity|]. split; [lia|].
      reflexivity.
    + destruct (no_words >? 4294967295) eqn:E; zbool; [lia|].
      pose proof (restore_bit_31_length (Z.to_nat (wrap32 (no_words - 1)))
                    (raw_data st)
                    (if negb (msg_type_is (fmt_at (g_fmt inp) (fmt_id st0)) TYPE_EXT_MSG)
                     then Z.land (fmt_id st0) 15 else fmt_id st0) 4294967295) as Hrl.
      destruct (restore_bit_31 _ _ _ _) as [[raw ad] mask]. cbn [fst] in Hrl.
      cbn [fst snd]. rewrite copy_packet_index, copy_packet_raw_data. cbn.
      split; [right; left; reflexivity|]. split; [lia | exact Hrl].
  - destruct (get_packet_length inp (fmt_id st0) =? 4294967295) eqn:El; zbool; [lia|].
    cbn [andb].
    destruct (no_words >? get_packet_length inp (fmt_id st0)) eqn:E; zbool.
    + cbn [fst snd index set_index set_bad_packet_words raw_data].
      rewrite wrap32_small by lia. split; [left; reflexivity|].
      split; [lia | reflexivity].
    + pose proof (restore_bit_31_length (Z.to_nat (wrap32 (no_words - 1)))
                    (raw_data st)
                    (if negb (msg_type_is (fmt_at (g_fmt inp) (fmt_id st0)) TYPE_EXT_MSG)
                     then Z.land (fmt_id st0) 15 else fmt_id st0) 4294967295) as Hrl.
      destruct (restore_bit_31 _ _ _ _) as [[raw ad] mask]. cbn [fst] in Hrl.
      destruct (message_complete _ _ _); cbn [fst snd];
        rewrite copy_packet_index, copy_packet_raw_data; cbn;
        (split; [auto|]); (split; [lia | exact Hrl]).
Qed.

(** The loop of [assemble_message] after a continuation was seen: it ends
    with a message, a bad block or a message that is too long, and
    [g_msg.index] has moved forward. *)
Lemma assemble_loop_continued_progress inp fuel :
  forall st pw d,
    lengths_fit (g_fmt inp) ->
    0 <= index st -> in_size inp < 2 ^ 32 ->
    MAX_RAW_DATA_SIZE <= Z.of_nat (length (raw_data st)) ->
    (Z.to_nat (in_size inp - index st) < fuel)%nat ->
    (exists st1 pw1 d1,
       find_fmt_word inp st 0 d = Some (FMT_WORD_OK, st1, pw1, d1, None)) ->
    exists rez st',
      assemble_loop fuel inp st pw d = Some (rez, st', None) /\
      index st < index st' <= in_size inp /\
      (rez = DATA_FOUND \/ rez = BAD_BLOCK \/ rez = MESSAGE_TOO_LONG).
Proof.
  induction fuel as [|fuel IH]; intros st pw d Hfit Hidx Hsize Hraw Hfuel Hfind;
    [lia|].
  destruct Hfind as (st1 & pw1 & d1 & Hf).
  destruct (find_fmt_word_loop_packet inp (S (Z.to_nat (MAX_RAW_DATA_SIZE - 0))) st 0 d)
    as (rez & st1' & pw1' & d1' & ev & Heq & Hlen & _ & _ & _ & Hok);
    [lia | lia | lia | exact Hraw | lia |].
  unfold find_fmt_word in Hf. rewrite Hf in Heq.
  injection Heq as <- <- <- <- <-.
  destruct (Hok eq_refl) as (O1 & O2 & O3 & _).
  cbn [assemble_loop].
  assert (E : (index st <? in_size inp) = true) by (apply Z.ltb_lt; lia).
  rewrite E. unfold find_fmt_word. rewrite Hf. cbn [asm_msg_eqb negb].
  pose proof (process_the_message_packet_rewind inp pw1 d1 st1 Hfit
                ltac:(lia) ltac:(lia)) as Hp.
  cbv zeta in Hp.
  destruct (process_the_message_packet inp pw1 d1 st1) as [rez2 st2].
  cbn [fst snd] in Hp. destruct Hp as (Hrez & Hi2 & Hr2).
  destruct (asm_msg_eqb rez2 FMT_WORD_OK) eqn:Er; cbn [negb].
  2:{ exists rez2, st2. split; [reflexivity|]. split; [lia|].
      destruct Hrez as [-> | [-> | ->]]; [auto | auto | discriminate]. }
  apply asm_msg_eqb_eq in Er.
  destruct (next_packet_is_the_continuation_of_the_message inp st2 _) eqn:Ec;
    cbn [negb]; [|exists DATA_FOUND, st2; split; [reflexivity|]; split; [lia | auto]].
  destruct (asm_words st2 >=? _);
    [exists MESSAGE_TOO_LONG, st2; split; [reflexivity|]; split; [lia | auto]|].
  destruct (IH st2 pw1 d1 Hfit ltac:(lia) Hsize ltac:(lia) ltac:(lia))
    as (rez' & st' & Hl & Hi' & Hr').
  - unfold find_fmt_word.
    apply (continuation_found_by_find_fmt_word inp _ 6 _ st2 (index st2) 0 d1 Ec);
      [reflexivity | lia | lia | exact Hsize | lia].
  - exists rez', st'. split; [exact Hl|]. split; [lia | exact Hr'].
Qed.

(** X22. Every call of [assemble_message] returns.  At the end of the buffer it
    answers END_OF_BUFFER and leaves [g_msg.index]; before the end it answers
    DATA_FOUND, BAD_BLOCK, UNFINISHED_BLOCK or MESSAGE_TOO_LONG and has moved
    [g_msg.index] forward by at least one word, never beyond [in_size]. *)
Theorem assemble_message_makes_progress (inp : input) (st : state) :
  lengths_fit (g_fmt inp) ->
  0 <= index st -> in_size inp < 2 ^ 32 ->
  MAX_RAW_DATA_SIZE <= Z.of_nat (length (raw_data st)) ->
  exists rez st' unfinished,
    assemble_message inp st = Some (rez, st', unfinished) /\
    (in_size inp <= index st -> rez = END_OF_BUFFER /\ index st' = index st) /\
    (index st < in_size inp ->
     (rez = DATA_FOUND \/ rez = BAD_BLOCK \/ rez = UNFINISHED_BLOCK \/
      rez = MESSAGE_TOO_LONG) /\
     index st < index st' <= in_size inp).
Proof.
  intros Hfit Hidx Hsize Hraw. unfold assemble_message.
  set (st0 := set_asm_words 0 st).
  change (index st) with (index st0) in *.
  change (raw_data st) with (raw_data st0) in Hraw.
  cbn [assemble_loop].
  destruct (index st0 <? in_size inp) eqn:E; zbool.
  2:{ exists END_OF_BUFFER, (set_binary_file_decoding_finished true st0), None.
      split; [reflexivity|]. split; [intros _; split; reflexivity | intros; lia]. }
  destruct (find_fmt_word_loop_packet inp (S (Z.to_nat (MAX_RAW_DATA_SIZE - 0))) st0 0 0)
    as (rez & st1 & pw1 & d1 & ev & Heq & Hlen & _ & _ & Hprog & Hok);
    [lia | lia | lia | exact Hraw | lia |].
  destruct (Hprog eq_refl) as (P0 & P1 & P2). specialize (P2 eq_refl E).
  unfold find_fmt_word. rewrite Heq.
  destruct (asm_msg_eqb rez FMT_WORD_OK) eqn:Er; cbn [negb].
  2:{ exists rez, st1, ev. split; [reflexivity|]. split; [intros; lia|]. intros _.
      split; [|lia].
      destruct P0 as [-> | [-> | ->]]; [discriminate | auto | auto]. }
  apply asm_msg_eqb_eq in Er. subst rez.
  destruct (Hok eq_refl) as (O1 & O2 & O3 & _).
  pose proof (process_the_message_packet_rewind inp pw1 d1 st1 Hfit
                ltac:(lia) ltac:(lia)) as Hp.
  cbv zeta in Hp.
  destruct (process_the_message_packet inp pw1 d1 st1) as [rez2 st2].
  cbn [fst snd] in Hp. destruct Hp as (Hrez & Hi2 & Hr2).
  destruct (asm_msg_eqb rez2 FMT_WORD_OK) eqn:Er; cbn [negb].
  2:{ exists rez2, st2, None. split; [reflexivity|]. split; [intros; lia|].
      intros _. split; [|lia].
      destruct Hrez as [-> | [-> | ->]]; [auto | auto | discriminate]. }
  destruct (next_packet_is_the_continuation_of_the_message inp st2 _) eqn:Ec;
    cbn [negb];
    [|exists DATA_FOUND, st2, None; split; [reflexivity|];
      split; [intros; lia | intros _; split; [auto | lia]]].
  destruct (asm_words st2 >=? _);
    [exists MESSAGE_TOO_LONG, st2, None; split; [reflexivity|];
     split; [intros; lia | intros _; split; [auto | lia]]|].
  destruct (assemble_loop_continued_progress inp
              (Z.to_nat (in_size inp - index st0)) st2 pw1 d1 Hfit
              ltac:(lia) Hsize ltac:(lia) ltac:(lia))
    as (rez' & st' & Hl & Hi' & Hr').
  - unfold find_fmt_word.
    apply (continuation_found_by_find_fmt_word inp _ 6 _ st2 (index st2) 0 d1 Ec);
      [reflexivity | lia | lia | exact Hsize | lia].
  - exists rez', st', None. split; [exact Hl|]. split; [intros; lia|].
    intros _. split; [|lia].
    destruct Hr' as [-> | [-> | ->]]; auto.
Qed.

Lemma lengths_fit_nil : lengths_fit [].
Proof.
  intros i d H. unfold fmt_at in H. destruct (i <? 0); [discriminate|].
  rewrite lookup_nil in H. discriminate.
Qed.

Lemma assemble_message_makes_progress_example :
  exists st',
    assemble_message example_input (example_state 0) = Some (BAD_BLOCK, st', Some 2) /\
    0 < index st' <= 6.
Proof.
  destruct (assemble_message_makes_progress example_input (example_state 0))
    as (rez & st' & ev & Heq & _ & Hgo).
  - exact lengths_fit_nil.
  - simpl. lia.
  - simpl. lia.
  - vm_compute. discriminate.
  - destruct (Hgo ltac:(simpl; lia)) as [_ Hi].
    assert (Hc : exists s, assemble_message example_input (example_state 0)
                           = Some (BAD_BLOCK, s, Some 2))
      by (eexists; vm_compute; reflexivity).
    destruct Hc as [s Hs]. rewrite Hs in Heq. injection Heq as <- <- <-.
    exists s. split; [exact Hs | exact Hi].
Defined.

(** X23. [find_fmt_word] called at the start of a packet returns, and
    when it answers FMT_WORD_OK the packet is made of the words at
    [g_msg.index]: up to [MAX_RAW_DATA_SIZE - 1] DATA words and the FMT word,
    copied to [raw_data] in order; [g_msg.index] stands behind the FMT word,
    which is handed over and is not 0xFFFFFFFF. *)
Theorem find_fmt_word_hands_over_packet (inp : input) (st : state) (p_data : Z) :
  0 <= index st -> in_size inp < 2 ^ 32 ->
  MAX_RAW_DATA_SIZE <= Z.of_nat (length (raw_data st)) ->
  exists rez st' packet_words data unfinished,
    find_fmt_word inp st 0 p_data = Some (rez, st', packet_words, data, unfinished) /\
    (rez = FMT_WORD_OK ->
     1 <= packet_words <= MAX_RAW_DATA_SIZE /\
     index st' = index st + packet_words /\ index st' <= in_size inp /\
     data = word_at (rte_buffer inp) (index st + packet_words - 1) /\
     Z.land data 1 = 1 /\ data <> UNFINISHED_WORD /\
     (forall i, 0 <= i < packet_words ->
        word_at (raw_data st') i = word_at (rte_buffer inp) (index st + i)) /\
     (forall i, 0 <= i < packet_words - 1 ->
        Z.land (word_at (rte_buffer inp) (index st + i)) 1 = 0) /\
     asm_words st' = asm_words st /\ assembled_msg st' = assembled_msg st).
Proof.
  intros Hidx Hsize Hraw.
  destruct (find_fmt_word_loop_packet inp (S (Z.to_nat (MAX_RAW_DATA_SIZE - 0))) st 0
              p_data)
    as (rez & st' & pw & d & ev & Heq & _ & Ha & Hm & _ & Hok);
    [lia | lia | lia | exact Hraw | lia |].
  exists rez, st', pw, d, ev. split; [exact Heq|]. intros Hr.
  destruct (Hok Hr) as (O1 & O2 & O3 & O4 & O5 & O6 & O7 & _ & O9).
  split; [lia|]. split; [lia|]. split; [exact O3|].
  split; [rewrite O4; f_equal; lia|]. split.
  { pose proof (Z.land_nonneg d 1). 
    assert (Hb : Z.land d 1 = d mod 2) by (apply (Z.land_ones d 1); lia).
    pose proof (Z.mod_pos_bound d 2 ltac:(lia)). lia. }
  split; [exact O6|]. split.
  { intros i Hi. rewrite O7 by lia. f_equal. lia. }
  split; [|split; [exact Ha | exact Hm]].
  intros i Hi. specialize (O9 i ltac:(lia)).
  replace (index st + (i - 0)) with (index st + i) in O9 by lia. exact O9.
Qed.

Lemma find_fmt_word_hands_over_packet_example :
  exists st',
    find_fmt_word two_packets (example_state 0) 0 0
    = Some (FMT_WORD_OK, st', 5, 0x08000055, None) /\
    index st' = 5 /\ take 5 (raw_data st') = [2; 4; 6; 8; 0x08000055].
Proof.
  destruct (find_fmt_word_hands_over_packet two_packets (example_state 0) 0)
    as (rez & st' & pw & d & ev & Heq & Hok).
  - simpl. lia.
  - simpl. lia.
  - vm_compute. discriminate.
  - assert (Hc : exists s, find_fmt_word two_packets (example_state 0) 0 0
                           = Some (FMT_WORD_OK, s, 5, 0x08000055, None)
                           /\ take 5 (raw_data s) = [2; 4; 6; 8; 0x08000055])
      by (eexists; vm_compute; split; reflexivity).
    destruct Hc as (s & Hs & Ht). rewrite Hs in Heq.
    injection Heq as <- <- <- <- <-.
    destruct (Hok eq_refl) as (_ & Hi & _).
    exists s. split; [exact Hs|]. split; [exact Hi | exact Ht].
Defined.

Lemma word_at_lookup (a : list Z) (i : nat) :
  word_at a (Z.of_nat i) = default 0 (a !! i).
Proof.
  unfold word_at. destruct (Z.of_nat i <? 0) eqn:E; zbool; [lia|].
  rewrite Nat2Z.id. reflexivity.
Qed.

Lemma wrap32_shiftl m k :
  0 <= k -> wrap32 (Z.shiftl (wrap32 m) k) = wrap32 (Z.shiftl m k).
Proof.
  intros Hk. unfold wrap32. rewrite !Z.shiftl_mul_pow2 by lia.
  rewrite Z.mul_mod_idemp_l by lia. reflexivity.
Qed.

(** The loop over the DATA words of a packet: word [i] of [n] gets bit
    [n - 1 - i] of the additional data as its bit 31, the additional data
    lose [n] bits and the mask gains [n] zeros. *)
Lemma restore_bit_31_spec (n : nat) :
  forall raw ad mask,
    (n <= length raw)%nat ->
    let r := restore_bit_31 n raw ad mask in
    snd (fst r) = Z.shiftr ad (Z.of_nat n) /\
    snd r = (if n is O then mask else wrap32 (Z.shiftl mask (Z.of_nat n))) /\
    (forall i, (i < n)%nat ->
       word_at (fst (fst r)) (Z.of_nat i)
       = Z.lor (Z.shiftr (word_at raw (Z.of_nat i)) 1)
               (Z.shiftl (Z.land (Z.shiftr ad (Z.of_nat (n - 1 - i))) 1) 31)) /\
    (forall i, (n <= i)%nat ->
       word_at (fst (fst r)) (Z.of_nat i) = word_at raw (Z.of_nat i)).
Proof.
  induction n as [|n IH]; intros raw ad mask Hlen r; subst r.
  - simpl. split; [reflexivity|]. split; [reflexivity|].
    split; [intros i Hi; lia | intros; reflexivity].
  - cbn [restore_bit_31].
    set (raw1 := <[n := _]> raw).
    destruct (IH raw1 (Z.shiftr ad 1) (wrap32 (Z.shiftl mask 1)))
      as (I1 & I2 & I3 & I4); [subst raw1; rewrite length_insert; lia|].
    split; [|split; [|split]].
    + rewrite I1, Z.shiftr_shiftr by lia. f_equal. lia.
    + rewrite I2. destruct n as [|n']; [reflexivity|].
      rewrite wrap32_shiftl, Z.shiftl_shiftl by lia. do 2 f_equal. lia.
    + intros i Hi. destruct (Nat.eq_dec i n) as [-> | Hne].
      * rewrite I4 by lia. subst raw1.
        replace (Z.to_nat (Z.of_nat n)) with n in * by lia.
        rewrite (word_at_lookup (<[n := _]> raw)).
        rewrite list_lookup_insert_eq by lia. cbn [default].
        replace (S n - 1 - n)%nat with 0%nat by lia.
        rewrite Z.shiftr_0_r. reflexivity.
      * rewrite I3 by lia. subst raw1.
        rewrite (word_at_lookup (<[n := _]> raw)).
        rewrite list_lookup_insert_ne by lia. rewrite <- word_at_lookup.
        rewrite Z.shiftr_shiftr by lia. do 4 f_equal. lia.
    + intros i Hi. rewrite I4 by lia. subst raw1.
      rewrite (word_at_lookup (<[n := _]> raw)).
      rewrite list_lookup_insert_ne by lia. rewrite <- word_at_lookup. reflexivity.
Qed.

(** The loop that appends the packet: [count] words of [raw_data] from
    position [n] on are stored behind the words already assembled. *)
Lemma copy_packet_spec (count : nat) :
  forall n st,
    0 <= asm_words st ->
    asm_words st + Z.of_nat count <= Z.of_nat (length (assembled_msg st)) ->
    asm_words st + Z.of_nat count < 2 ^ 32 ->
    let st' := copy_packet count n st in
    asm_words st' = asm_words st + Z.of_nat count /\
    length (assembled_msg st') = length (assembled_msg st) /\
    (forall i, 0 <= i < Z.of_nat count ->
       word_at (assembled_msg st') (asm_words st + i) = word_at (raw_data st) (n + i)) /\
    (forall j, j < asm_words st \/ asm_words st + Z.of_nat count <= j ->
       word_at (assembled_msg st') j = word_at (assembled_msg st) j) /\
    fmt_id st' = fmt_id st /\ timestamp_l st' = timestamp_l st /\
    additional_data st' = additional_data st /\
    bad_packet_words st' = bad_packet_words st /\
    unfinished_words st' = unfinished_words st.
Proof.
  induction count as [|count IH]; intros n st Ha Hlen Hmax st'; subst st'.
  - simpl. split; [lia|]. split; [reflexivity|]. split; [intros; lia|].
    repeat split.
  - cbn [copy_packet].
    set (st1 := set_asm_words _ _).
    assert (H1 : asm_words st1 = asm_words st + 1)
      by (subst st1; cbn; apply wrap32_small; lia).
    assert (H2 : assembled_msg st1
                 = <[Z.to_nat (asm_words st) := word_at (raw_data st) n]>
                     (assembled_msg st)) by reflexivity.
    assert (H3 : raw_data st1 = raw_data st) by reflexivity.
    destruct (IH (n + 1) st1) as (I1 & I2 & I3 & I4 & I5);
      [lia | rewrite H1, H2, length_insert; lia | lia |].
    rewrite H1, H2, H3 in *. rewrite length_insert in I2.
    split; [lia|]. split; [exact I2|]. split; [|split].
    + intros i Hi. destruct (Z.eq_dec i 0) as [-> | Hne].
      * rewrite Z.add_0_r. rewrite I4 by lia.
        rewrite Z.add_0_r. apply word_at_insert_eq. lia.
      * replace (asm_words st + i) with (asm_words st + 1 + (i - 1)) by lia.
        rewrite I3 by lia. f_equal. lia.
    + intros j Hj. rewrite I4 by lia. apply word_at_insert_ne; lia.
    + exact I5.
Qed.

(** X24. A packet that [process_the_message_packet] does not reject as
    a bad block adds its [no_words - 1] DATA words to the assembled message:
    word [i] is the raw word shifted right by one, with bit [no_words - 2 - i]
    of the additional data as bit 31.  The additional data are the format ID
    of the FMT word, for messages other than EXT_MSG its low four bits; the
    bits used are removed from [g_msg.fmt_id] and [g_msg.additional_data],
    and [g_msg.index] stays where it is. *)
Theorem accepted_packet_restores_bit_31 (inp : input) (no_words data : Z)
    (st : state) :
  1 <= no_words <= MAX_RAW_DATA_SIZE ->
  no_words - 1 <= Z.of_nat (length (raw_data st)) ->
  0 <= asm_words st ->
  asm_words st + (no_words - 1) <= Z.of_nat (length (assembled_msg st)) ->
  asm_words st + (no_words - 1) < 2 ^ 32 ->
  let r := process_the_message_packet inp no_words data st in
  let id := Z.shiftr data (fmt_id_shift inp) in
  let ad :=
    if msg_type_is (fmt_at (g_fmt inp) id) TYPE_EXT_MSG then id else Z.land id 0x0F in
  fst r <> BAD_BLOCK ->
  asm_words (snd r) = asm_words st + (no_words - 1) /\
  (forall i, 0 <= i < no_words - 1 ->
     word_at (assembled_msg (snd r)) (asm_words st + i)
     = Z.lor (Z.shiftr (word_at (raw_data st) i) 1)
             (Z.shiftl (Z.land (Z.shiftr ad (no_words - 2 - i)) 1) 31)) /\
  (forall j, j < asm_words st ->
     word_at (assembled_msg (snd r)) j = word_at (assembled_msg st) j) /\
  fmt_id (snd r) = Z.land id (wrap32 (Z.shiftl 0xFFFFFFFF (no_words - 1))) /\
  additional_data (snd r) = Z.shiftr ad (no_words - 1) /\
  timestamp_l (snd r)
  = wrap32 (Z.shiftl (Z.land data 0xFFFFFFFE) (fmt_id_bits inp)) /\
  index (snd r) = index st.
Proof.
  intros Hnw Hraw Ha Hmsg Hmax r id ad. subst r.
  unfold MAX_RAW_DATA_SIZE in Hnw.
  unfold process_the_message_packet. cbv zeta.
  set (st0 := set_timestamp_l _ (set_fmt_id _ st)).
  change (fmt_id st0) with id.
  destruct ((get_packet_length inp id =? 4294967295) && (no_words >? 5));
    [intros H; exfalso; apply H; reflexivity|].
  destruct (no_words >? get_packet_length inp id);
    [intros H; exfalso; apply H; reflexivity|].
  intros _.
  assert (Had : (if negb (msg_type_is (fmt_at (g_fmt inp) id) TYPE_EXT_MSG)
                 then Z.land id 15 else id) = ad).
  { subst ad. destruct (msg_type_is _ _); reflexivity. }
  rewrite Had.
  rewrite (wrap32_small (no_words - 1)) by lia.
  pose proof (restore_bit_31_spec (Z.to_nat (no_words - 1)) (raw_data st0) ad
                4294967295 ltac:(change (raw_data st0) with (raw_data st); lia))
    as Hrs.
  cbv zeta in Hrs.
  destruct (restore_bit_31 (Z.to_nat (no_words - 1)) (raw_data st0) ad 4294967295)
    as [[raw ad'] mask].
  cbn [fst snd] in Hrs. destruct Hrs as (R1 & R2 & R3 & _).
  rewrite Z2Nat.id in R1, R2 by lia.
  set (stB := set_fmt_id _ (set_additional_data ad' (set_raw_data raw st0))).
  pose proof (copy_packet_spec (Z.to_nat (no_words - 1)) 0 stB) as Hcp.
  change (asm_words stB) with (asm_words st) in Hcp.
  change (assembled_msg stB) with (assembled_msg st) in Hcp.
  change (raw_data stB) with raw in Hcp.
  rewrite Z2Nat.id in Hcp by lia.
  specialize (Hcp Ha Hmsg Hmax). cbv zeta in Hcp.
  destruct Hcp as (C1 & _ & C3 & C4 & C5 & C6 & C7 & _).
  assert (Hgoal :
    let s := copy_packet (Z.to_nat (no_words - 1)) 0 stB in
    asm_words s = asm_words st + (no_words - 1) /\
    (forall i, 0 <= i < no_words - 1 ->
       word_at (assembled_msg s) (asm_words st + i)
       = Z.lor (Z.shiftr (word_at (raw_data st) i) 1)
               (Z.shiftl (Z.land (Z.shiftr ad (no_words - 2 - i)) 1) 31)) /\
    (forall j, j < asm_words st ->
       word_at (assembled_msg s) j = word_at (assembled_msg st) j) /\
    fmt_id s = Z.land id (wrap32 (Z.shiftl 4294967295 (no_words - 1))) /\
    additional_data s = Z.shiftr ad (no_words - 1) /\
    timestamp_l s = wrap32 (Z.shiftl (Z.land data 4294967294) (fmt_id_bits inp)) /\
    index s = index st).
  { cbv zeta. split; [exact C1|]. split; [|split; [|split; [|split; [|split]]]].
    - intros i Hi. rewrite C3 by lia. rewrite Z.add_0_l.
      rewrite <- (Z2Nat.id i) by lia. rewrite R3 by lia.
      change (raw_data st0) with (raw_data st). do 4 f_equal. lia.
    - intros j Hj. apply C4. lia.
    - rewrite C5. subst stB. cbn [fmt_id set_fmt_id]. f_equal.
      change (fmt_id (set_additional_data ad' (set_raw_data raw st0))) with id.
      rewrite R2. destruct (Z.to_nat (no_words - 1)) eqn:En.
      + assert (no_words - 1 = 0) as -> by lia. reflexivity.
      + reflexivity.
    - rewrite C7. subst stB. cbn [additional_data set_fmt_id set_additional_data].
      exact R1.
    - rewrite C6. reflexivity.
    - rewrite copy_packet_index. reflexivity. }
  cbv zeta in Hgoal.
  destruct (get_packet_length inp id =? 4294967295); [exact Hgoal|].
  destruct (message_complete inp _ no_words); exact Hgoal.
Qed.

(** The first packet of the example message: four DATA words whose bit 31
    comes from the low four bits of format ID 16, which are zero. *)
Lemma accepted_packet_restores_bit_31_example :
  let st :=
    mk_state 5 0 0 0 0 0 0 ([2; 4; 6; 8; 0x08000055] ++ replicate 259 0)
      (replicate 72 0) false in
  let r := process_the_message_packet two_packets 5 0x08000055 st in
  fst r = FMT_WORD_OK /\ asm_words (snd r) = 4 /\
  word_at (assembled_msg (snd r)) 3 = 4 /\ fmt_id (snd r) = 16.
Proof.
  intros st r.
  assert (Hrez : fst r = FMT_WORD_OK) by (vm_compute; reflexivity).
  destruct (accepted_packet_restores_bit_31 two_packets 5 0x08000055 st)
    as (Hw & Hbits & _ & Hid & _).
  - unfold MAX_RAW_DATA_SIZE. lia.
  - vm_compute. discriminate.
  - simpl. lia.
  - vm_compute. discriminate.
  - simpl. lia.
  - fold r. rewrite Hrez. discriminate.
  - fold r in Hw, Hbits, Hid. split; [exact Hrez|]. split; [exact Hw|]. split.
    + specialize (Hbits 3 ltac:(lia)).
      change (asm_words st + 3) with 3 in Hbits. rewrite Hbits. reflexivity.
    + rewrite Hid. reflexivity.
Defined.

End Reassembler.
